(* ===== verification/_CoqProject ===== *)
-Q . S2P
Prelude.v
RustStd.v
Wire.v
Nullifiers.v
Crash.v
Json.v
Crates.v
JsonInstance.v
Attest.v
Apdu.v
KeycardCrypto.v
Keycard.v
CardSession.v
AuthVector.v
Verifiers.v
MintCurve.v
Keccak.v
Mint.v
KeycardCapture.v
Lp.v
Hosting.v
Server.v
GiftSpec.v
VerifierKeys.v
GiftProps.v
Hosted.v
Interleave.v
Overlap.v
Durable.v
Worker.v
Timing.v
NodeState.v
Texts.v
Client.v
EndToEnd.v
Exchange.v
Gifter.v
Modules.v
UnitTests.v
SignedTests.v
Sha256.v
Secp256k1.v
MintLibrary.v
GoldenTests.v
Scenario.v
