(* ===== verification/Prelude.v ===== *)
(** * Verification of the RLN membership gifter: root file and prelude

    The gifter gives RLN memberships to authenticated clients.  A client calls
    [request] of rln_gifter_module; the request travels as protobuf over
    libp2p_module to a gifter node, whose [serve] has mounted the protocol.  The
    node asks the verifier module of the request's authentication type, reserves
    the credential (nullifier) the verifier names, has the registry module
    register the identity commitment, waits until the registry shows the
    membership, stores the spent credential and answers with the leaf.  Two
    reference vectors come with it: an Ethereum allowlist, and keycard
    attestations, which a card captured by a third module signs over a secure
    channel.

    ** The files, in dependency order, and the code they model

    - [Prelude]: this header, [result], the state monad, tactics, list and
      integer lemmas.
    - [RustStd]: the parts of the Rust standard library the code relies on:
      UTF-8 ([from_utf8], [from_utf8_lossy]), [trim], [lines], [to_lowercase].
      The Unicode tables outside ASCII are the class [UnicodeTables].
    - [Wire]: rust/rln-gifter-module/rust-lib/src/wire.rs.  [walk_loop] walks the
      fields with the buffer length as fuel; the messages are the Modules
      [RlnGifterRequest], [RlnGifterResponse], [MembershipAllocationSuccess] and
      [MembershipAllocationFailure], each with [encode] and [decode].
    - [Nullifiers]: auth.rs of the same crate, over a model [Fs] of the files;
      [Crash]: appends that a crash or a full disk cut short.
    - [Json], [JsonInstance], [Crates]: the interfaces of serde_json, hex and
      base64, as classes of operations and classes of laws, with instances that
      show that the laws hold together and on which the witnesses run.
    - [Attest]: crates/keycard-attest/src/attest.rs and error.rs.
    - [Apdu], [KeycardCrypto], [Keycard]: apdu.rs, crypto.rs and client.rs of
      crates/keycard-client.  This code may panic; [outcome] has the results, the
      panics and the loops that still run.  The card and PC/SC are the class
      [CardHost], the curve [Ecdh], the ciphers [Aes] and [Kdf].
    - [CardSession]: what [Keycard] promises together with an honest card, which
      is the interface [HonestCard].
    - [AuthVector]: crates/rln-auth-vector/src/lib.rs; the trait is the record
      [AuthVector], generic in the effects of its operations.
    - [Verifiers]: the two modules' lib.rs, as the Modules [EthAuth]
      (rust/eth-auth-module) and [KeycardAuth] (rust/keycard-auth-module).
    - [MintCurve], [Keccak], [Mint]: tools/mint_attest.py, which mints the
      attestations of the end-to-end tests: its curve, its hash, its signatures and
      encoders, and what the keycard verifier makes of a minted attestation;
      [MintLibrary]: a concrete curve library of which the laws [Mint] takes of
      k256 hold.
    - [KeycardCapture]: rust/keycard-capture-module/rust-lib/src/lib.rs.
    - [Lp]: lp.rs of rln-gifter-module.  The statics are the record [Lp] with the
      calls made so far as a ghost; the C ABI is the class [LpHost].
    - [Hosting]: what a module hosted behind [Lp] answers to its callers.
    - [Server]: server.rs.  [World] holds its statics, the lp client and the
      files; [serve], [handle_request], [handle_stream], [worker_iteration].
    - [GiftSpec], [GiftProps]: the abstract specification of a request, the
      refinement, and the properties of the node.
    - [VerifierKeys]: the reference verifiers against the node's store; [Hosted]:
      a node whose verifiers are the two reference modules, hosted behind [Lp].
    - [Interleave]: the request handler cut into its steps, with whole [serve]
      calls, the host and restarts between them; [Overlap]: [serve] cut into its
      steps too, any number of calls in progress at once; [Durable]: the same with
      appends that stop in the middle, by a crash or unnoticed; [Worker]: the
      worker's turns, as such an interleaving; [Timing]: how long a request, a
      stream and a turn take; [NodeState]: the invariant of the statics;
      [Texts]: what the node says is UTF-8.
    - [Client]: client.rs; [EndToEnd]: the client with the capture module as its
      provider; [Exchange]: client and node together; [Gifter]: the methods of
      lib.rs; [Modules]: the traits of the four modules as records, their
      implementations, and the gifter module under its host.
    - [UnitTests]: the unit tests of the sources, run on the model, and the stubbed
      protocol library of the test build of lp.rs; [SignedTests]: the tests that
      sign, for any lawful signing key; [GoldenTests]: the golden vectors of
      attest.rs, with [Sha256] and [Secp256k1] for the crates that [Attest]
      leaves open (FIPS 180-4 and SEC 1 as executable functions, which the tests
      run and from which [MintLibrary] takes its formats).
    - [Scenario]: a deployment on simulated modules ([Lp.SimHost]), on which the
      node's properties are instantiated.

    ** How the operations correspond

    A function of the code that touches a static, the clock or another module is
    a state transformer [M S A := S -> A * S] (Prelude) over the state of its
    file; [on_lp] runs one of [Lp] in [World].  Rust's [Result] is [result], [?]
    is a match on it.  A panic is [None] in [Client], [Panic] in the card files;
    the other files have no operation that may panic.  A [u64] is a [Z] with its
    range as a hypothesis where it matters and its wrap-around written out
    ([Wire.read_varint], [Apdu]); Python's integers are [Z] and its exceptions
    [Panicked]; a [String] is the [string] of its UTF-8 bytes.
    A closure passed to [walk_fields] or [call_json] becomes the function
    [on_field] or the reply the host returns.

    ** Fuel and bounds

    [Wire.walk_loop], [Attest.find_loop] and [Apdu.find_loop] take fuel; for the
    first two the length of the buffer is proved to be enough, as every round
    takes a byte, and for the third [Apdu.find_tag_unchecked_length] shows that
    no fuel is enough on some input, and [Apdu.ber_find_tag] that it is on
    well-formed BER.  [Server.confirm_loop] polls against the clock every 2 s for
    150 s: [CONFIRM_POLLS] = 76 rounds are proved enough by
    [GiftProps.confirmation_terminates] for any host whose clock does not run
    backwards and whose sleep is as long as asked ([LpHostLaws]).  [MintCurve.mul_loop]
    has a round per bit of the scalar and [pow_inv_loop] two per bit of the
    modulus, both proved enough; [Mint.sign_loop] tries as many nonces as its fuel
    says, for the hash decides how many it needs.  On a worker
    thread a request takes at most 432 s of a host that adds nothing to its
    waits, a stream 582 s and a turn 4192 s, of which 3610 s are the wait for a
    stream ([Timing.worker_time_bounded]).

    ** What the theorems show

    - Credentials: none is spent twice, over any interleaving of the worker's
      steps with those of overlapping [serve] calls, host activity and restarts
      ([Overlap.overlapping_no_double_spend]); a used one is refused in any
      casing, a settlement stores it or gives it back, the process forgets none;
      an appended key is loaded back, and the reference verifiers' credentials
      are among the ones for which all this holds.
    - Crashes: what a load makes of an append cut short at any byte
      ([Crash.torn_append_loads]), what becomes of the credential appended
      behind it ([Crash.torn_append_swallows]), and that over any history with
      such appends no other credential is lost
      ([Durable.kept_credentials_endure]).
    - Credentials are earned: with the reference verifiers hosted, a registration
      is attempted only for a commitment that an allowlisted address signed or a
      trusted card attested ([Hosted.registration_is_earned]), such a request is
      always served ([Hosted.earned_is_registered]), and the capture module makes
      one ([EndToEnd.captured_request_earns]).
    - Authority: register_member is called at most once per request and only
      after an accepting verdict for that commitment at the capped rate; malformed
      [authVerifiers] never make an open gifter, and of the node change at most
      that verifiers named before the refused one have clients
      ([GiftProps.serve_rejects_malformed]).
    - Answers: a success carries the leaf of a registered reply of the registry,
      and the client reports that leaf ([Exchange.exchange_end_to_end]); every
      response is one the client's decoder reads back, whatever bytes the modules
      answer with ([Texts.responses_are_readable]); every request ends and
      implements the relation [GiftSpec.handled].
    - The worker: what it does with a stream, how long its turns take and that
      they are one of the interleavings; there is never a second one
      ([Overlap.never_two_workers]), and the statics stay well formed under any
      calls of the module's methods ([Modules.module_state_kept]).
    - The wire: round trips of both messages, unknown fields skipped, the exact
      inputs that decode, the varint bounds, the walker against a declarative
      reading of the buffer.
    - The vectors: what each verifier decides, on every branch; what the capture
      module produces, the verifier accepts, and so it does what the minting tool
      makes ([Mint.minted_attestation_accepted]); the tool's points stay on the
      curve, its double-and-add gives multiples under the chord-and-tangent law
      ([MintCurve.multiple]), its signatures satisfy the signing equation in low-S
      form ([Mint.sign_prehash_signs]), its DER is canonical and its keccak never
      leaves 64 bits.
    - The card: with an honest card, selection, pairing and opening agree on the
      session keys and every command keeps both sides of the channel in step; a
      wrong password is noticed; no response is taken without its MAC, and which
      replies are errors and which panic ([Keycard.response_needs_mac]); the TLV search, the APDU and cipher round trips,
      and where a card can make the client panic or loop.
    - The lp client: a client exists on every thread after [ensure_client], and
      the two transports agree.
    - The model: it passes the unit tests of the sources ([UnitTests],
      [SignedTests]), and of a real curve with the golden attestation ([GoldenTests]).

    ** Where the code has edges

    The store's keys join the type and the nullifier with a colon and are
    lowercased when loaded; the properties of runs therefore ask for types that
    are lowercase and plain ([storable_type], through [cfg_ok]), and
    [Scenario.keys_collide] shows the two types that share a key.  A
    stream whose request could not be read is never released
    ([Worker.stream_served]).  The node's timeouts add up to more than the
    client's: a gift may succeed after its client has left
    ([Scenario.answer_after_client_left]).  A register_member call that timed
    out gives the credential back although the transaction may be under way
    ([Scenario.timeout_gives_credential_back]).  After an append cut short before
    its newline the next credential is written into the same line, and a restart
    forgets it ([Scenario.torn_store_regrants]); [Overlap]'s properties are about
    stores whose appends are whole, [Durable] bounds what the others lose.

    ** Not modelled

    The generated glue (provider_gen.rs, logos_module_install), the nix, CMake and
    cargo files and the command line of tools/mint_attest.py; diagnostics on
    stderr; the C ABI of the protocol library and PC/SC beyond what the classes
    say: a callback is delivered at most once and not after its call returned;
    allocation failure and poisoned locks.  Concurrency is that of [Overlap]: one
    worker, and any number of [serve] calls between any two of its steps but not
    in the middle of one; a call into a module is one step.  The group law of the
    curve is not proved associative, so that the tool's signatures are shown to
    satisfy the signing equation, and that numbers which satisfy it recover and
    verify is a hypothesis on the curve library for the keys at hand
    ([Mint.Ecdsa]).

    ** Planned next

    Printing of derivation paths against [Keycard.decode_path]; the group law of
    the curve, and with it the verifying equation of the tool's signatures. *)
From stdpp Require Export base list gmap strings pretty.
From Stdlib Require Export ZArith Lia.
From Stdlib Require Export Strings.Byte.

#[global] Open Scope Z_scope.

(** ** Fallible values: Rust's [Result] *)

Inductive result (A E : Type) : Type :=
| Ok (a : A)
| Err (e : E).
Arguments Ok {_ _} a.
Arguments Err {_ _} e.

Definition is_ok {A E} (r : result A E) : bool :=
  match r with Ok _ => true | Err _ => false end.

(** [r.map_err(f)] *)
Definition map_err {A E F} (f : E -> F) (r : result A E) : result A F :=
  match r with Ok a => Ok a | Err e => Err (f e) end.

(** [o.ok_or(e)] *)
Definition ok_or {A E} (o : option A) (e : E) : result A E :=
  match o with Some a => Ok a | None => Err e end.

(** [r.ok()] *)
Definition result_ok {A E} (r : result A E) : option A :=
  match r with Ok a => Some a | Err _ => None end.

(** ** Stateful code: explicit state passing *)

Definition M (S A : Type) : Type := S -> A * S.

Definition ret {S A} (a : A) : M S A := fun s => (a, s).
Definition bind {S A B} (m : M S A) (k : A -> M S B) : M S B :=
  fun s => let '(a, s') := m s in k a s'.

Definition get {S} : M S S := fun s => (s, s).
Definition modify {S} (f : S -> S) : M S unit := fun s => (tt, f s).

(** Code that is generic in its effects asks for stdpp's [MRet] and [MBind]. *)
#[export] Instance state_ret S : MRet (M S) := @ret S.
#[export] Instance state_bind S : MBind (M S) := fun A B k m => bind m k.

(** Run an operation on a component of the state. *)
Definition zoom {S T A} (proj : S -> T) (upd : T -> S -> S) (m : M T A) : M S A :=
  fun s => let '(a, t) := m (proj s) in (a, upd t s).

(** ** Computations that may panic, raise or run on

    [Panicked] ends the computation (a Rust panic, a Python exception nobody
    catches); [Running] is a loop that has not ended within its fuel. *)

Inductive outcome (A : Type) : Type :=
| Returned (a : A)
| Panicked
| Running.
Arguments Returned {_} a.
Arguments Panicked {_}.
Arguments Running {_}.

Definition obind {A B} (o : outcome A) (k : A -> outcome B) : outcome B :=
  match o with Returned a => k a | Panicked => Panicked | Running => Running end.

Definition returned {A} (o : option A) : outcome A :=
  match o with Some a => Returned a | None => Panicked end.

Declare Scope rust_scope.
Delimit Scope rust_scope with rust.

(** [let? x := r in k] is [let x = r?; k] on a pure [Result];
    [let! x := m in k] sequences stateful code; [let!? x := m in k] is the
    [?] operator on stateful code that returns a [Result]. *)
Notation "'let?' x := r 'in' k" :=
  (match r with Ok x => k | Err e => Err e end)
  (at level 10, x pattern, r at level 100, k at level 200)
  : rust_scope.
Notation "'let!' x := m 'in' k" := (bind m (fun x => k))
  (at level 10, x pattern, m at level 100, k at level 200)
  : rust_scope.
Notation "'let!?' x := m 'in' k" :=
  (bind m (fun r => match r with Ok x => k | Err e => ret (Err e) end))
  (at level 10, x pattern, m at level 100, k at level 200)
  : rust_scope.
Notation "'let^' x := o 'in' k" := (obind o (fun x => k))
  (at level 10, x pattern, o at level 100, k at level 200) : rust_scope.
#[global] Open Scope rust_scope.

(** ** Machine integers and bytes *)

Definition u64_max : Z := 2 ^ 64 - 1.
Definition is_u64 (z : Z) : Prop := 0 <= z < 2 ^ 64.
Definition wrap64 (z : Z) : Z := z mod 2 ^ 64.

Definition u8 (b : byte) : Z := Z.of_N (Byte.to_N b).

(** [z as u8] *)
Definition to_u8 (z : Z) : byte :=
  match Byte.of_N (Z.to_N (z mod 256)) with Some b => b | None => x00 end.

#[export] Instance byte_eq_decision : EqDecision byte := Byte.byte_eq_dec.

(** Rust strings are byte sequences. *)
Definition str_bytes (s : string) : list byte := String.list_byte_of_string s.
Definition bytes_str (l : list byte) : string := String.string_of_list_byte l.

#[global] Arguments str_bytes : simpl never.
#[global] Arguments bytes_str : simpl never.
#[global] Arguments u8 : simpl never.
#[global] Arguments to_u8 : simpl never.

(** ** Generic lemmas *)

Create HintDb gifter.
Create Rewrite HintDb gifter.

Lemma u8_range b : 0 <= u8 b < 256.
Proof.
  unfold u8. pose proof (Byte.to_N_bounded b). lia.
Qed.

Lemma u8_to_u8 z : u8 (to_u8 z) = z mod 256.
Proof.
  unfold u8, to_u8.
  pose proof (Z.mod_pos_bound z 256 ltac:(lia)) as Hz.
  destruct (Byte.of_N _) as [b|] eqn:Hb.
  - apply Byte.to_of_N in Hb. lia.
  - apply Byte.of_N_None_iff in Hb. lia.
Qed.

Lemma u8_inj b c : u8 b = u8 c -> b = c.
Proof.
  unfold u8. intros H%N2Z.inj.
  pose proof (Byte.of_to_N b) as Hb. rewrite H, Byte.of_to_N in Hb. congruence.
Qed.

Lemma to_u8_u8 b : to_u8 (u8 b) = b.
Proof.
  apply u8_inj. rewrite u8_to_u8. apply Z.mod_small, u8_range.
Qed.

Lemma u8_to_u8_small z : 0 <= z < 256 -> u8 (to_u8 z) = z.
Proof. intros Hz. rewrite u8_to_u8. by apply Z.mod_small. Qed.

Lemma str_bytes_str l : str_bytes (bytes_str l) = l.
Proof. apply String.list_byte_of_string_of_list_byte. Qed.

Lemma bytes_str_bytes s : bytes_str (str_bytes s) = s.
Proof. apply String.string_of_list_byte_of_string. Qed.

Lemma str_bytes_inj s t : str_bytes s = str_bytes t -> s = t.
Proof. intros H. by rewrite <-(bytes_str_bytes s), H, bytes_str_bytes. Qed.

Lemma bytes_str_inj l k : bytes_str l = bytes_str k -> l = k.
Proof. intros H. by rewrite <-(str_bytes_str l), H, str_bytes_str. Qed.

Lemma str_bytes_app s t : str_bytes (s +:+ t) = str_bytes s ++ str_bytes t.
Proof.
  unfold str_bytes, String.list_byte_of_string.
  induction s as [|a s IH]; [done|]. simpl. f_equal. apply IH.
Qed.

Lemma bytes_str_app l k : bytes_str (l ++ k) = bytes_str l +:+ bytes_str k.
Proof. apply str_bytes_inj. by rewrite str_bytes_app, !str_bytes_str. Qed.

Lemma str_app_assoc (s t u : string) : (s +:+ t) +:+ u = s +:+ t +:+ u.
Proof. apply str_bytes_inj. by rewrite !str_bytes_app, app_assoc. Qed.

Lemma str_app_nil_r (s : string) : s +:+ "" = s.
Proof. apply str_bytes_inj. rewrite str_bytes_app. apply app_nil_r. Qed.

#[export] Hint Rewrite str_bytes_str bytes_str_bytes str_bytes_app u8_to_u8 to_u8_u8
  : gifter.
#[export] Hint Resolve u8_range : gifter.

(** [a | (x << s)] on disjoint bits is an addition, kept to 64 bits. *)
Lemma lor_disjoint_add r x s :
  0 <= s -> 0 <= r < 2 ^ s -> Z.lor r (x * 2 ^ s) = r + x * 2 ^ s.
Proof.
  intros Hs Hr. rewrite <-Z.lxor_lor, <-Z.add_nocarry_lxor; [done| |];
    apply Z.bits_inj'; intros n Hn; rewrite Z.land_spec, Z.bits_0;
    (destruct (Z.lt_ge_cases n s);
      [rewrite Z.mul_pow2_bits_low by lia; apply andb_false_r
      |rewrite <-(Z.mod_small r (2 ^ s)), Z.mod_pow2_bits_high by lia; done]).
Qed.

Lemma wrap64_shiftl_lor r x s :
  0 <= s <= 63 -> 0 <= r < 2 ^ s ->
  Z.lor r (wrap64 (Z.shiftl x s)) = wrap64 (r + x * 2 ^ s).
Proof.
  intros Hs Hr. unfold wrap64. rewrite Z.shiftl_mul_pow2 by lia.
  replace (2 ^ 64) with (2 ^ (64 - s) * 2 ^ s) by (rewrite <-Z.pow_add_r by lia; f_equal; lia).
  assert (0 < 2 ^ s) by (apply Z.pow_pos_nonneg; lia).
  assert (0 < 2 ^ (64 - s)) by (apply Z.pow_pos_nonneg; lia).
  rewrite Z.mul_mod_distr_r by lia. rewrite lor_disjoint_add by lia.
  pose proof (Z.mod_pos_bound x (2 ^ (64 - s)) ltac:(lia)).
  pose proof (Z.div_mod x (2 ^ (64 - s)) ltac:(lia)).
  apply (Z.mod_unique_pos _ _ (x / 2 ^ (64 - s))); nia.
Qed.

Lemma wrap64_u64 z : is_u64 (wrap64 z).
Proof. unfold is_u64, wrap64. apply Z.mod_pos_bound. lia. Qed.

Lemma wrap64_small z : is_u64 z -> wrap64 z = z.
Proof. apply Z.mod_small. Qed.

(** The payload and the continuation bit of a varint byte. *)
Lemma land_7f b : Z.land (u8 b) 0x7f = u8 b mod 128.
Proof. change 0x7f with (Z.ones 7). by rewrite Z.land_ones by lia. Qed.

Lemma land_80 b : Z.land (u8 b) 0x80 = if u8 b <? 128 then 0 else 128.
Proof. destruct b; vm_compute; reflexivity. Qed.

(** Boolean tests of the code as propositions, then arithmetic. *)
Ltac bool_to_prop :=
  repeat match goal with
  | H : (_ <? _) = true |- _ => apply Z.ltb_lt in H
  | H : (_ <? _) = false |- _ => apply Z.ltb_ge in H
  | H : (_ <=? _) = true |- _ => apply Z.leb_le in H
  | H : (_ <=? _) = false |- _ => apply Z.leb_gt in H
  | H : (_ =? _) = true |- _ => apply Z.eqb_eq in H
  | H : (_ =? _) = false |- _ => apply Z.eqb_neq in H
  | H : (_ >=? _) = _ |- _ => rewrite Z.geb_leb in H
  | H : (_ >? _) = _ |- _ => rewrite Z.gtb_ltb in H
  | H : (_ && _)%bool = true |- _ => apply andb_true_iff in H as [??]
  | H : (_ || _)%bool = false |- _ => apply orb_false_iff in H as [??]
  | H : negb _ = true |- _ => apply negb_true_iff in H
  | H : negb _ = false |- _ => apply negb_false_iff in H
  end.

(** Case analysis on the innermost match of a hypothesis, keeping equations. *)
Ltac case_in H :=
  match type of H with
  | context [match ?x with _ => _ end] => destruct x eqn:?; simplify_eq/=
  end.
