(* ===== verification/RustStd.v ===== *)
(** * The Rust standard library, as far as the sources use it

    UTF-8 (validity, [String::from_utf8_lossy], [chars]), [str::trim],
    [str::to_lowercase], [str::trim_start_matches], [str::lines],
    [char::is_whitespace] and [char::is_control].  A Rust [String] is a
    [string], the sequence of its UTF-8 bytes.  The Unicode data tables behind
    [to_lowercase] (outside ASCII) depend on the toolchain's Unicode version
    and are the class [UnicodeTables]. *)
From S2P Require Import Prelude.

(** ** UTF-8 *)

Definition is_scalar (c : Z) : Prop :=
  0 <= c < 0xD800 \/ 0xDFFF < c < 0x110000.

(** [char::encode_utf8] *)
Definition encode_utf8 (c : Z) : list byte :=
  if c <? 0x80 then [to_u8 c]
  else if c <? 0x800 then [to_u8 (0xC0 + c / 64); to_u8 (0x80 + c mod 64)]
  else if c <? 0x10000 then
    [to_u8 (0xE0 + c / 4096); to_u8 (0x80 + (c / 64) mod 64); to_u8 (0x80 + c mod 64)]
  else
    [to_u8 (0xF0 + c / 262144); to_u8 (0x80 + (c / 4096) mod 64);
     to_u8 (0x80 + (c / 64) mod 64); to_u8 (0x80 + c mod 64)].

Definition encode_str (cs : list Z) : list byte := concat (encode_utf8 <$> cs).

(** One step of [core::str::lossy::Utf8Chunks]: a well-formed character with
    its code point and width, or the width of a maximal ill-formed prefix. *)
Inductive utf8_unit : Type :=
| UChar (cp : Z) (width : nat)
| UBad (width : nat).

Definition safe_get (l : list byte) : Z := match l with b :: _ => u8 b | [] => 0 end.

Definition is_cont (z : Z) : bool := (0x80 <=? z) && (z <=? 0xBF).

(** The second byte a three- or four-byte sequence accepts after its lead. *)
Definition second_ok (lead z : Z) : bool :=
  if lead =? 0xE0 then (0xA0 <=? z) && (z <=? 0xBF)
  else if lead =? 0xED then (0x80 <=? z) && (z <=? 0x9F)
  else if lead =? 0xF0 then (0x90 <=? z) && (z <=? 0xBF)
  else if lead =? 0xF4 then (0x80 <=? z) && (z <=? 0x8F)
  else is_cont z.

Definition utf8_step (b : byte) (r : list byte) : utf8_unit :=
  let x := u8 b in
  let y := safe_get r in
  let z := safe_get (drop 1 r) in
  let w := safe_get (drop 2 r) in
  if x <? 0x80 then UChar x 1
  else if (0xC2 <=? x) && (x <=? 0xDF) then
    if is_cont y then UChar ((x - 0xC0) * 64 + (y - 0x80)) 2 else UBad 1
  else if (0xE0 <=? x) && (x <=? 0xEF) then
    if second_ok x y then
      if is_cont z then UChar ((x - 0xE0) * 4096 + (y - 0x80) * 64 + (z - 0x80)) 3
      else UBad 2
    else UBad 1
  else if (0xF0 <=? x) && (x <=? 0xF4) then
    if second_ok x y then
      if is_cont z then
        if is_cont w then
          UChar ((x - 0xF0) * 262144 + (y - 0x80) * 4096 + (z - 0x80) * 64 + (w - 0x80)) 4
        else UBad 3
      else UBad 2
    else UBad 1
  else UBad 1.

(** The scanned sequence: characters with their bytes, and errors. *)
Inductive utf8_item : Type :=
| Good (cp : Z) (raw : list byte)
| Bad.

Fixpoint utf8_scan (fuel : nat) (l : list byte) : list utf8_item :=
  match fuel, l with
  | S fuel, b :: r =>
      match utf8_step b r with
      | UChar cp w => Good cp (take w l) :: utf8_scan fuel (drop w l)
      | UBad w => Bad :: utf8_scan fuel (drop w l)
      end
  | _, _ => []
  end.

Definition utf8_items (l : list byte) : list utf8_item := utf8_scan (length l) l.

Definition item_valid (i : utf8_item) : bool :=
  match i with Good _ _ => true | Bad => false end.

(** [str::from_utf8(l).is_ok()] *)
Definition utf8_valid (l : list byte) : bool := forallb item_valid (utf8_items l).

(** U+FFFD as UTF-8. *)
Definition replacement : list byte := [xef; xbf; xbd].

Definition item_bytes (i : utf8_item) : list byte :=
  match i with Good _ raw => raw | Bad => replacement end.

(** [String::from_utf8_lossy(l).into_owned()] *)
Definition from_utf8_lossy (l : list byte) : string :=
  bytes_str (concat (item_bytes <$> utf8_items l)).

Definition item_cp (i : utf8_item) : Z :=
  match i with Good cp _ => cp | Bad => 0xFFFD end.

(** [s.chars()] *)
Definition chars (s : string) : list Z := item_cp <$> utf8_items (str_bytes s).

Definition of_chars (cs : list Z) : string := bytes_str (encode_str cs).

(** The invariant of Rust's [str]: the bytes are valid UTF-8. *)
Definition str_valid (s : string) : Prop := utf8_valid (str_bytes s) = true.

(** ** Characters *)

(** [char::is_whitespace] (the White_Space property) *)
Definition is_whitespace (c : Z) : bool :=
  ((9 <=? c) && (c <=? 13)) || (c =? 0x20) || (c =? 0x85) || (c =? 0xA0) || (c =? 0x1680)
  || ((0x2000 <=? c) && (c <=? 0x200A)) || (c =? 0x2028) || (c =? 0x2029) || (c =? 0x202F)
  || (c =? 0x205F) || (c =? 0x3000).

(** [char::is_control] (general category Cc) *)
Definition is_control (c : Z) : bool :=
  ((0 <=? c) && (c <=? 0x1F)) || ((0x7F <=? c) && (c <=? 0x9F)).

(** The Unicode tables of [core::unicode], outside ASCII. *)
Class UnicodeTables := {
  lower_nonascii : Z -> list Z;
  cased : Z -> bool;
  case_ignorable : Z -> bool
}.

Section Unicode.
Context {U : UnicodeTables}.

(** [conversions::to_lower] *)
Definition to_lower (c : Z) : list Z :=
  if c <? 128 then [if (65 <=? c) && (c <=? 90) then c + 32 else c] else lower_nonascii c.

Fixpoint case_ignorable_then_cased (cs : list Z) : bool :=
  match cs with
  | [] => false
  | c :: r => if case_ignorable c then case_ignorable_then_cased r else cased c
  end.

(** [map_uppercase_sigma]: the lowercase of a capital sigma by its context *)
Definition map_uppercase_sigma (before after : list Z) : Z :=
  if case_ignorable_then_cased before && negb (case_ignorable_then_cased after)
  then 0x3C2 else 0x3C3.

Fixpoint lower_go (before cs : list Z) : list Z :=
  match cs with
  | [] => []
  | c :: r =>
      (if c =? 0x3A3 then [map_uppercase_sigma before r] else to_lower c)
      ++ lower_go (c :: before) r
  end.

(** [str::to_lowercase] *)
Definition to_lowercase (s : string) : string := of_chars (lower_go [] (chars s)).

(** A character lowercasing leaves alone, in any context. *)
Definition lower_stable (c : Z) : Prop := c <> 0x3A3 /\ to_lower c = [c].

End Unicode.

(** What the Unicode data guarantees of the tables. *)
Class UnicodeLaws (U : UnicodeTables) : Prop := {
  lower_scalar c d : is_scalar c -> d ∈ lower_nonascii c -> is_scalar d;
  lower_fixed c d : 128 <= c -> is_scalar c -> c <> 0x3A3 -> d ∈ lower_nonascii c ->
    lower_stable d;
  lower_sigmas : lower_stable 0x3C2 /\ lower_stable 0x3C3
}.

(** ** Strings *)

Fixpoint drop_while {A} (p : A -> bool) (l : list A) : list A :=
  match l with
  | [] => []
  | a :: r => if p a then drop_while p r else l
  end.

Definition trim_list {A} (p : A -> bool) (l : list A) : list A :=
  reverse (drop_while p (reverse (drop_while p l))).

(** [str::trim] *)
Definition trim (s : string) : string := of_chars (trim_list is_whitespace (chars s)).

(** [s.trim_start_matches(pat)]: the pattern is removed repeatedly. *)
Fixpoint trim_start_go (fuel : nat) (pat s : list byte) : list byte :=
  match fuel with
  | O => s
  | S fuel =>
      if decide (take (length pat) s = pat) then trim_start_go fuel pat (drop (length pat) s)
      else s
  end.

Definition trim_start_matches (pat : string) (s : string) : string :=
  let l := str_bytes s in bytes_str (trim_start_go (length l) (str_bytes pat) l).

(** [str::lines]: pieces ended by a newline, the newline and a carriage return
    before it removed; a last piece without newline is kept when not empty. *)
Definition strip_cr (l : list byte) : list byte :=
  match reverse l with x0d :: r => reverse r | _ => l end.

Fixpoint lines_go (cur l : list byte) : list (list byte) :=
  match l with
  | [] => match cur with [] => [] | _ => [reverse cur] end
  | x0a :: r => strip_cr (reverse cur) :: lines_go [] r
  | b :: r => lines_go (b :: cur) r
  end.

Definition lines (s : string) : list string := bytes_str <$> lines_go [] (str_bytes s).

Definition is_empty (s : string) : bool := match s with EmptyString => true | _ => false end.

#[global] Arguments from_utf8_lossy : simpl never.
#[global] Arguments chars : simpl never.
#[global] Arguments of_chars : simpl never.

(** ** Lemmas: UTF-8 *)

#[local] Ltac Zify.zify_post_hook ::= Z.div_mod_to_equations.

(** Decide the boolean tests of a goal by arithmetic, one at a time. *)
Ltac decide_tests :=
  repeat match goal with
  | |- context [Z.ltb ?a ?b] =>
      first [ replace (Z.ltb a b) with true by (symmetry; apply Z.ltb_lt; lia)
            | replace (Z.ltb a b) with false by (symmetry; apply Z.ltb_ge; lia) ]
  | |- context [Z.leb ?a ?b] =>
      first [ replace (Z.leb a b) with true by (symmetry; apply Z.leb_le; lia)
            | replace (Z.leb a b) with false by (symmetry; apply Z.leb_gt; lia) ]
  | |- context [Z.eqb ?a ?b] =>
      first [ replace (Z.eqb a b) with true by (symmetry; apply Z.eqb_eq; lia)
            | replace (Z.eqb a b) with false by (symmetry; apply Z.eqb_neq; lia) ]
  end; cbn [andb orb negb].

Lemma encode_utf8_cons c : exists b r, encode_utf8 c = b :: r.
Proof. unfold encode_utf8. repeat case_match; eauto. Qed.

Lemma second_ok_spec x y :
  second_ok x y = true ->
  0x80 <= y <= 0xBF /\ (x = 0xE0 -> 0xA0 <= y) /\ (x = 0xED -> y <= 0x9F)
  /\ (x = 0xF0 -> 0x90 <= y) /\ (x = 0xF4 -> y <= 0x8F).
Proof. unfold second_ok, is_cont. intros. repeat case_match; bool_to_prop; lia. Qed.

Lemma second_ok_intro x y :
  0x80 <= y <= 0xBF -> (x = 0xE0 -> 0xA0 <= y) -> (x = 0xED -> y <= 0x9F) ->
  (x = 0xF0 -> 0x90 <= y) -> (x = 0xF4 -> y <= 0x8F) -> second_ok x y = true.
Proof.
  unfold second_ok, is_cont. intros.
  repeat case_match; bool_to_prop; apply andb_true_iff; split; apply Z.leb_le; lia.
Qed.

Lemma utf8_step_encode c b r rest :
  is_scalar c -> encode_utf8 c = b :: r ->
  utf8_step b (r ++ rest) = UChar c (length (b :: r)).
Proof.
  intros Hc. unfold encode_utf8. intros He.
  repeat case_match; bool_to_prop; simplify_eq/=; unfold utf8_step; cbn [safe_get drop app];
    unfold is_scalar in Hc; rewrite ?u8_to_u8_small by lia; unfold is_cont.
  - decide_tests. done.
  - decide_tests. f_equal; lia.
  - rewrite second_ok_intro by lia. decide_tests. f_equal; lia.
  - rewrite second_ok_intro by lia. decide_tests. f_equal; lia.
Qed.

Lemma safe_get_pos l : 0 < safe_get l -> exists b r, l = b :: r /\ safe_get l = u8 b.
Proof. destruct l; simpl; [lia|eauto]. Qed.

Lemma is_cont_spec z : is_cont z = true -> 0x80 <= z <= 0xBF.
Proof. unfold is_cont. intros. bool_to_prop. lia. Qed.

Lemma to_u8_eq b z : u8 b = z -> to_u8 z = b.
Proof. intros <-. apply to_u8_u8. Qed.

(** A sequence the scanner accepts is the encoding of a scalar value. *)
Lemma utf8_step_char b r c w :
  utf8_step b r = UChar c w ->
  is_scalar c /\ exists rest, b :: r = encode_utf8 c ++ rest /\ w = length (encode_utf8 c).
Proof.
  intros Hs. pose proof (u8_range b). unfold utf8_step in Hs.
  repeat (case_match; try discriminate); bool_to_prop; simplify_eq/=;
    repeat match goal with
    | H : is_cont _ = true |- _ => apply is_cont_spec in H
    | H : second_ok _ _ = true |- _ => apply second_ok_spec in H
    end; destruct_and?;
    repeat match goal with
    | H : 128 <= safe_get ?l |- _ =>
        let b' := fresh "b" in let r' := fresh "r" in let E1 := fresh in let E2 := fresh in
        destruct (safe_get_pos l ltac:(lia)) as (b' & r' & E1 & E2);
        rewrite E2 in *; simpl in E1; clear E2
    end; repeat (progress (cbn [drop] in *; rewrite ?drop_0 in *; simplify_eq/=));
    (split; [unfold is_scalar; lia|]);
    unfold encode_utf8; decide_tests; eexists; (split; [|done]); cbn [app];
    repeat (progress f_equal; try (symmetry; apply to_u8_eq; lia)).
Qed.

Definition good (c : Z) : utf8_item := Good c (encode_utf8 c).

Lemma utf8_step_width b r :
  (1 <= match utf8_step b r with UChar _ w | UBad w => w end)%nat.
Proof.
  unfold utf8_step. cbv zeta.
  repeat match goal with |- context [if ?c then _ else _] => destruct c end; lia.
Qed.

Lemma utf8_scan_fuel n m l :
  (length l <= n)%nat -> (length l <= m)%nat -> utf8_scan n l = utf8_scan m l.
Proof.
  revert m l. induction n as [|n IH]; intros m [|b r] Hn Hm; simpl in *; try lia;
    destruct m; simpl; try lia; try done.
  pose proof (utf8_step_width b r) as Hw.
  destruct (utf8_step b r) as [c w|w]; f_equal; apply IH;
    rewrite length_drop; simpl; lia.
Qed.

Lemma utf8_items_cons c rest :
  is_scalar c -> utf8_items (encode_utf8 c ++ rest) = good c :: utf8_items rest.
Proof.
  intros Hc. unfold utf8_items, good.
  destruct (encode_utf8_cons c) as (b & r & E). rewrite E. simpl.
  rewrite (utf8_step_encode c b r rest Hc E). simpl. rewrite take_app_length. f_equal.
  rewrite drop_app_length. apply utf8_scan_fuel; rewrite ?length_app; lia.
Qed.

Lemma encode_str_cons c cs : encode_str (c :: cs) = encode_utf8 c ++ encode_str cs.
Proof. done. Qed.

Lemma encode_str_app cs ds : encode_str (cs ++ ds) = encode_str cs ++ encode_str ds.
Proof. unfold encode_str. by rewrite fmap_app, concat_app. Qed.

Lemma utf8_items_str cs rest :
  Forall is_scalar cs -> utf8_items (encode_str cs ++ rest) = (good <$> cs) ++ utf8_items rest.
Proof.
  induction 1 as [|c cs Hc _ IH]; [done|].
  rewrite encode_str_cons, <-app_assoc, utf8_items_cons by done. by rewrite IH.
Qed.

Lemma utf8_items_encode cs : Forall is_scalar cs -> utf8_items (encode_str cs) = good <$> cs.
Proof.
  intros Hcs. rewrite <-(app_nil_r (encode_str cs)), utf8_items_str by done.
  apply app_nil_r.
Qed.

(** Every accepted item is the encoding of a scalar value. *)
Lemma utf8_scan_good n l :
  Forall (fun i => match i with Good c raw => is_scalar c /\ raw = encode_utf8 c | Bad => True end)
    (utf8_scan n l).
Proof.
  revert l. induction n as [|n IH]; intros [|b r]; simpl; auto.
  destruct (utf8_step b r) as [c w|w] eqn:E; constructor; auto.
  destruct (utf8_step_char _ _ _ _ E) as (Hc & rest & Hl & ->).
  rewrite Hl, take_app_length. auto.
Qed.

Lemma utf8_scan_cover n l :
  (length l <= n)%nat -> forallb item_valid (utf8_scan n l) = true ->
  l = concat (item_bytes <$> utf8_scan n l).
Proof.
  revert l. induction n as [|n IH]; intros [|b r] Hn; simpl in *; try done; try lia.
  pose proof (utf8_step_width b r) as Hw.
  destruct (utf8_step b r) as [c w|w] eqn:E; simpl; [|done].
  intros Hv. rewrite <-IH, take_drop; [done| |done]. rewrite length_drop. simpl. lia.
Qed.

Lemma utf8_valid_spec l :
  utf8_valid l = true <-> exists cs, Forall is_scalar cs /\ l = encode_str cs.
Proof.
  split.
  - intros Hv. exists (item_cp <$> utf8_items l).
    pose proof (utf8_scan_cover _ l ltac:(reflexivity) Hv) as Hl.
    pose proof (utf8_scan_good (length l) l) as Hg.
    unfold utf8_valid, utf8_items in *. generalize dependent (utf8_scan (length l) l).
    intros its Hv Hl Hg. rewrite Hl at 1. clear Hl.
    induction Hg as [|i its Hi _ IH]; simpl in *; [done|].
    destruct i as [c raw|]; simpl in *; [|done].
    destruct Hi as [Hc ->], (IH Hv) as [Hf He].
    split; [by constructor|]. rewrite encode_str_cons. f_equal. exact He.
  - intros (cs & Hcs & ->). unfold utf8_valid. rewrite utf8_items_encode by done.
    clear Hcs. by induction cs.
Qed.

Lemma str_valid_chars s :
  str_valid s <-> exists cs, Forall is_scalar cs /\ s = of_chars cs.
Proof.
  unfold str_valid, of_chars. rewrite utf8_valid_spec.
  split; intros (cs & Hcs & E); exists cs; split; auto.
  - by rewrite <-E, bytes_str_bytes.
  - by rewrite E, str_bytes_str.
Qed.

Lemma chars_of_chars cs : Forall is_scalar cs -> chars (of_chars cs) = cs.
Proof.
  intros Hcs. unfold chars, of_chars. rewrite str_bytes_str, utf8_items_encode by done.
  clear Hcs. induction cs; f_equal/=; auto.
Qed.

Lemma of_chars_chars s : str_valid s -> of_chars (chars s) = s.
Proof. intros (cs & Hcs & ->)%str_valid_chars. by rewrite chars_of_chars. Qed.

Lemma chars_scalar s : Forall is_scalar (chars s).
Proof.
  unfold chars, utf8_items. apply Forall_fmap.
  eapply Forall_impl; [apply utf8_scan_good|]. intros [c raw|] Hi; cbn; [by destruct Hi|].
  unfold is_scalar. lia.
Qed.

Lemma of_chars_valid cs : Forall is_scalar cs -> str_valid (of_chars cs).
Proof. intros. apply str_valid_chars. eauto. Qed.

Lemma of_chars_app cs ds : of_chars (cs ++ ds) = of_chars cs +:+ of_chars ds.
Proof. unfold of_chars. by rewrite encode_str_app, bytes_str_app. Qed.

Lemma chars_app s t : str_valid s -> chars (s +:+ t) = chars s ++ chars t.
Proof.
  intros (cs & Hcs & ->)%str_valid_chars. unfold chars, of_chars.
  rewrite str_bytes_app, str_bytes_str, utf8_items_str, utf8_items_encode by done.
  by rewrite fmap_app.
Qed.

Lemma str_valid_app s t : str_valid s -> str_valid t -> str_valid (s +:+ t).
Proof.
  intros (cs & Hcs & ->)%str_valid_chars (ds & Hds & ->)%str_valid_chars.
  rewrite <-of_chars_app. apply of_chars_valid. by apply Forall_app.
Qed.

(** [from_utf8_lossy] is the identity on valid UTF-8 and always returns it. *)
Lemma from_utf8_lossy_str s : str_valid s -> from_utf8_lossy (str_bytes s) = s.
Proof.
  intros (cs & Hcs & ->)%str_valid_chars. unfold from_utf8_lossy, of_chars.
  rewrite str_bytes_str, utf8_items_encode by done. f_equal. clear Hcs.
  induction cs as [|c cs IH]; [done|]. rewrite encode_str_cons. simpl. f_equal. exact IH.
Qed.

Lemma from_utf8_lossy_valid l : str_valid (from_utf8_lossy l).
Proof.
  apply str_valid_chars. exists (item_cp <$> utf8_items l).
  unfold from_utf8_lossy, of_chars, utf8_items.
  pose proof (utf8_scan_good (length l) l) as Hg.
  induction Hg as [|i its Hi _ [IH1 IH2]]; [by split|].
  apply bytes_str_inj in IH2. destruct i as [c raw|]; simpl in *.
  - destruct Hi as [Hc ->]. split; [by constructor|]. rewrite encode_str_cons. f_equal. f_equal. exact IH2.
  - split; [constructor; [unfold is_scalar; lia|done]|].
    rewrite encode_str_cons. exact (f_equal (fun x => bytes_str (replacement ++ x)) IH2).
Qed.

(** ** Lemmas: lowercase and trim *)

Section UnicodeLemmas.
Context {U : UnicodeTables}.

Lemma lower_go_stable before cs : Forall lower_stable cs -> lower_go before cs = cs.
Proof.
  intros H. revert before. induction H as [|c cs [Hs Hc] _ IH]; intros before; [done|].
  cbn [lower_go]. by rewrite (proj2 (Z.eqb_neq _ _) Hs), Hc, IH.
Qed.

(** Lowercasing leaves alone a string of caseless or lowercase characters. *)
Lemma to_lowercase_stable s :
  str_valid s -> Forall lower_stable (chars s) -> to_lowercase s = s.
Proof. intros Hs Hf. unfold to_lowercase. by rewrite lower_go_stable, of_chars_chars. Qed.

Context {L : UnicodeLaws U}.

Lemma to_lower_spec c d :
  is_scalar c -> c <> 0x3A3 -> d ∈ to_lower c -> is_scalar d /\ lower_stable d.
Proof.
  intros Hc Hs. unfold to_lower. destruct (c <? 128) eqn:Ha; bool_to_prop.
  - rewrite list_elem_of_singleton. intros ->. unfold lower_stable, to_lower, is_scalar in *.
    destruct ((65 <=? c) && (c <=? 90)) eqn:E.
    + bool_to_prop. decide_tests. repeat split; lia.
    + rewrite (proj2 (Z.ltb_lt _ _)), E by lia. done.
  - intros Hd. split; [by eapply lower_scalar|by eapply lower_fixed].
Qed.

Lemma lower_go_spec before cs :
  Forall is_scalar cs ->
  Forall (fun d => is_scalar d /\ lower_stable d) (lower_go before cs).
Proof.
  intros H. revert before. induction H as [|c cs Hc _ IH]; intros before; [done|].
  cbn [lower_go]. apply Forall_app. split; [|apply IH].
  destruct (c =? 0x3A3) eqn:E; bool_to_prop.
  - apply Forall_singleton. unfold map_uppercase_sigma.
    destruct lower_sigmas. case_match; (split; [unfold is_scalar; lia|done]).
  - apply Forall_forall. intros d. by apply to_lower_spec.
Qed.

Lemma to_lowercase_chars s :
  str_valid (to_lowercase s) /\ Forall lower_stable (chars (to_lowercase s)).
Proof.
  pose proof (lower_go_spec [] _ (chars_scalar s)) as [H1 H2]%Forall_and.
  unfold to_lowercase. rewrite chars_of_chars by done. auto using of_chars_valid.
Qed.

(** Lowercasing is idempotent. *)
Lemma to_lowercase_idem s : to_lowercase (to_lowercase s) = to_lowercase s.
Proof. destruct (to_lowercase_chars s). by apply to_lowercase_stable. Qed.
End UnicodeLemmas.

Lemma drop_while_id {A} (p : A -> bool) l :
  (forall a r, l = a :: r -> p a = false) -> drop_while p l = l.
Proof. destruct l as [|a r]; [done|]. simpl. intros H. by rewrite (H a r eq_refl). Qed.

Lemma drop_while_suffix {A} (p : A -> bool) l : exists k, l = k ++ drop_while p l.
Proof.
  induction l as [|a l [k IH]]; simpl; [by exists []|].
  destruct (p a); [|by exists []]. exists (a :: k). simpl. by f_equal.
Qed.

Lemma trim_list_id {A} (p : A -> bool) l :
  (forall a, head l = Some a -> p a = false) -> (forall a, last l = Some a -> p a = false) ->
  trim_list p l = l.
Proof.
  intros Hh Hl. unfold trim_list. rewrite (drop_while_id p l).
  - rewrite drop_while_id; [apply reverse_involutive|].
    intros a r E. apply Hl. rewrite <-head_reverse, E. done.
  - intros a r ->. by apply Hh.
Qed.

Lemma trim_list_sub {A} (p : A -> bool) l (P : A -> Prop) :
  Forall P l -> Forall P (trim_list p l).
Proof.
  intros H. unfold trim_list. apply Forall_reverse.
  destruct (drop_while_suffix p l) as [k1 E1].
  destruct (drop_while_suffix p (reverse (drop_while p l))) as [k2 E2].
  assert (H1 : Forall P (drop_while p l)) by (rewrite E1 in H; by apply Forall_app in H as [_ ?]).
  apply Forall_reverse in H1. rewrite E2 in H1. by apply Forall_app in H1 as [_ ?].
Qed.

Lemma trim_valid s : str_valid (trim s).
Proof. apply of_chars_valid, trim_list_sub, chars_scalar. Qed.

(** ** Lemmas: lines *)

Lemma encode_utf8_ascii c b : is_scalar c -> b ∈ encode_utf8 c -> u8 b < 128 -> c = u8 b.
Proof.
  intros Hc Hb. unfold is_scalar, encode_utf8 in *.
  repeat case_match; bool_to_prop; rewrite ?elem_of_cons in Hb; destruct_or? Hb;
    try (by apply not_elem_of_nil in Hb); subst b; rewrite u8_to_u8_small by lia; lia.
Qed.

Lemma encode_str_ascii cs b :
  Forall is_scalar cs -> b ∈ encode_str cs -> u8 b < 128 -> u8 b ∈ cs.
Proof.
  induction 1 as [|c cs Hc _ IH]; [by intros ?%not_elem_of_nil|].
  rewrite encode_str_cons, elem_of_app, elem_of_cons. intros [Hb|Hb] Hlt; [|auto].
  left. symmetry. by apply encode_utf8_ascii.
Qed.

Lemma lines_go_app cur l r :
  lines_go cur (l ++ x0a :: r) = lines_go cur (l ++ [x0a]) ++ lines_go [] r.
Proof.
  revert cur. induction l as [|b l IH]; intros cur; [done|].
  destruct (decide (b = x0a)) as [->|Hb]; cbn [app lines_go].
  - by rewrite IH.
  - destruct b; try done; by rewrite IH.
Qed.

Lemma lines_go_line cur l :
  x0a ∉ l -> lines_go cur (l ++ [x0a]) = [strip_cr (reverse cur ++ l)].
Proof.
  revert cur. induction l as [|b l IH]; intros cur Hl; [by rewrite app_nil_r|].
  apply not_elem_of_cons in Hl as [Hb Hl].
  transitivity (lines_go (b :: cur) (l ++ [x0a])); [destruct b; done|].
  by rewrite IH, reverse_cons, <-app_assoc by done.
Qed.

Lemma strip_cr_id l : last l <> Some x0d -> strip_cr l = l.
Proof.
  rewrite <-head_reverse. unfold strip_cr. destruct (reverse l) as [|b r]; [done|].
  destruct b; done.
Qed.

Definition newline : string := bytes_str [x0a].

(** A text that ends in a newline, or nothing. *)
Definition ends_line (s : string) : Prop := s = "" \/ exists t, s = t +:+ newline.

Lemma lines_snoc c k :
  ends_line c -> x0a ∉ str_bytes k -> last (str_bytes k) <> Some x0d ->
  lines (c +:+ k +:+ newline) = lines c ++ [k].
Proof.
  intros Hc Hk Hr. unfold lines, newline. rewrite !str_bytes_app, str_bytes_str.
  assert (Hl : lines_go [] (str_bytes k ++ [x0a]) = [str_bytes k]).
  { by rewrite lines_go_line, strip_cr_id. }
  destruct Hc as [->|[t ->]]; [simpl; by rewrite Hl, fmap_cons, bytes_str_bytes|].
  unfold newline. rewrite !str_bytes_app, str_bytes_str, <-app_assoc. cbn [app].
  rewrite lines_go_app, Hl, fmap_app. by rewrite fmap_cons, bytes_str_bytes.
Qed.

Lemma lines_go_tail cur l : x0a ∉ l -> cur ++ l <> [] -> lines_go cur l = [reverse cur ++ l].
Proof.
  revert cur. induction l as [|b l IH]; intros cur Hl Hne.
  - rewrite app_nil_r in *. by destruct cur.
  - apply not_elem_of_cons in Hl as [Hb Hl].
    transitivity (lines_go (b :: cur) l); [destruct b; done|].
    by rewrite IH, reverse_cons, <-app_assoc by done.
Qed.

(** A last piece without newline is a line of its own, when there is one. *)
Lemma lines_tail c t :
  ends_line c -> x0a ∉ str_bytes t ->
  lines (c +:+ t) = lines c ++ (if decide (t = "") then [] else [t]).
Proof.
  intros Hc Ht. case_decide as Hn; [by rewrite Hn, str_app_nil_r, app_nil_r|].
  assert (Hl : lines_go [] (str_bytes t) = [str_bytes t]).
  { apply lines_go_tail; [done|]. cbn [app]. intros E. apply Hn. by rewrite <-(bytes_str_bytes t), E. }
  unfold lines. destruct Hc as [->|[u ->]]; [change ("" +:+ t) with t; by rewrite Hl, fmap_cons, bytes_str_bytes|].
  unfold newline. rewrite !str_bytes_app, str_bytes_str, <-app_assoc. cbn [app].
  rewrite lines_go_app, Hl, fmap_app. by rewrite fmap_cons, bytes_str_bytes.
Qed.

Lemma utf8_valid_app l r : utf8_valid l = true -> utf8_valid (l ++ r) = utf8_valid r.
Proof.
  intros (cs & Hcs & ->)%utf8_valid_spec. unfold utf8_valid. rewrite utf8_items_str by done.
  rewrite forallb_app. replace (forallb item_valid (good <$> cs)) with true; [done|].
  clear. by induction cs.
Qed.

(** A concrete table: no character outside ASCII changes. *)
Definition caseless_tables : UnicodeTables := {|
  lower_nonascii c := [c];
  cased c := ((65 <=? c) && (c <=? 90)) || ((97 <=? c) && (c <=? 122));
  case_ignorable c := c =? 39 |}.

#[export] Instance caseless_laws : UnicodeLaws caseless_tables.
Proof.
  constructor; cbn.
  - intros c d Hc. by rewrite list_elem_of_singleton; intros ->.
  - intros c d Hc _ Hs. rewrite list_elem_of_singleton. intros ->. split; [done|].
    unfold to_lower. by rewrite (proj2 (Z.ltb_ge _ _)).
  - done.
Qed.

(** Validity of a literal is computed ([vm_compute]), never unfolded. *)
#[global] Opaque utf8_items.
