(* ===== verification/Wire.v ===== *)
(** * The gifter wire codec (rust/rln-gifter-module/rust-lib/src/wire.rs)

    Protobuf varints and length-delimited fields over byte lists, the four
    message structs and their encoders and decoders.  [usize] is 64 bits; a
    position in a buffer is a [nat] below its length, a length read from the
    wire is a [Z]. *)
From S2P Require Import Prelude RustStd.

Definition RLN_GIFTER_CODEC : string := "/logos/rln/membership/1.0.0".

(** ** Low level *)

(** The loop of [put_varint]; a 64-bit value needs at most ten rounds. *)
Fixpoint put_varint_loop (fuel : nat) (out : list byte) (v : Z) : option (list byte) :=
  match fuel with
  | O => None
  | S fuel =>
      let b := Z.land v 0x7f in
      let v := Z.shiftr v 7 in
      let b := if v =? 0 then b else Z.lor b 0x80 in
      let out := out ++ [to_u8 b] in
      if v =? 0 then Some out else put_varint_loop fuel out v
  end.

Definition put_varint (out : list byte) (v : Z) : list byte :=
  default out (put_varint_loop 10 out v).

Definition put_len_field (out : list byte) (field : Z) (data : list byte) : list byte :=
  let out := put_varint out (Z.lor (wrap64 (Z.shiftl field 3)) 2) in
  let out := put_varint out (Z.of_nat (length data)) in
  out ++ data.

Definition put_varint_field (out : list byte) (field v : Z) : list byte :=
  put_varint (put_varint out (wrap64 (Z.shiftl field 3))) v.

(** The loop of [read_varint]: the accumulated value and the next position.
    The shift reaches 70 after ten rounds, so ten is enough. *)
Fixpoint read_varint_loop (fuel : nat) (buf : list byte) (i : nat) (result shift : Z)
    : option (Z * nat) :=
  match fuel with
  | O => None
  | S fuel =>
      match buf !! i with
      | None => None
      | Some b =>
          let result := Z.lor result (wrap64 (Z.shiftl (Z.land (u8 b) 0x7f) shift)) in
          if Z.land (u8 b) 0x80 =? 0 then Some (result, Datatypes.S i)
          else
            let shift := shift + 7 in
            if 64 <=? shift then None
            else read_varint_loop fuel buf (Datatypes.S i) result shift
      end
  end.

Definition read_varint (buf : list byte) (i : nat) : option (Z * nat) :=
  read_varint_loop 10 buf i 0 0.

Inductive FieldVal : Type :=
| Varint (n : Z)
| Bytes (b : list byte).

(** [i.checked_add(len)] *)
Definition checked_add (i len : Z) : option Z :=
  if i + len <? 2 ^ 64 then Some (i + len) else None.

(** One round of the [while] of [walk_fields]: the field at position [i] and
    the position after it. *)
Definition read_field (buf : list byte) (i : nat) : result (Z * FieldVal * nat) string :=
  let? (key, i) := ok_or (read_varint buf i) "truncated field key" in
  let field := Z.shiftr key 3 in
  let wire := Z.land key 7 in
  if wire =? 0 then
    let? (v, i) := ok_or (read_varint buf i) "truncated varint value" in
    Ok (field, Varint v, i)
  else if wire =? 2 then
    let? (len, i) := ok_or (read_varint buf i) "truncated length" in
    let? end_ := ok_or (checked_add (Z.of_nat i) len) "length overflow" in
    if Z.of_nat (length buf) <? end_ then Err "length exceeds buffer"
    else Ok (field, Bytes (take (Z.to_nat len) (drop i buf)), Z.to_nat end_)
  else Err ("unsupported wire type " +:+ pretty wire).

Section Walk.
Context {St : Type} (f : Z -> FieldVal -> St -> St).

Fixpoint walk_loop (fuel : nat) (buf : list byte) (i : nat) (s : St) : result St string :=
  if (i <? length buf)%nat then
    match fuel with
    | O => Err ""
    | S fuel =>
        let? (field, v, i) := read_field buf i in
        walk_loop fuel buf i (f field v s)
    end
  else Ok s.

(** Every round consumes at least one byte, so the length of the buffer is
    enough fuel (see [walk_loop_fuel]). *)
Definition walk_fields (buf : list byte) (s : St) : result St string :=
  walk_loop (length buf) buf 0 s.
End Walk.

Definition as_bytes (v : FieldVal) : list byte :=
  match v with Bytes b => b | Varint _ => [] end.

Definition as_string (v : FieldVal) : string :=
  match v with Bytes b => from_utf8_lossy b | Varint _ => "" end.

Definition as_u64 (v : FieldVal) : Z :=
  match v with Varint n => n | Bytes _ => 0 end.

(** ** Messages *)

Module RlnGifterRequest.

Record t := {
  request_id : string;
  authentication_type : list byte;
  authentication_payload : list byte;
  identity_commitment : list byte;
  rate_limit : option Z
}.

Definition default : t := {|
  request_id := ""; authentication_type := []; authentication_payload := [];
  identity_commitment := []; rate_limit := None |}.

Definition encode (m : t) : list byte :=
  let out := put_len_field [] 1 (str_bytes m.(request_id)) in
  let out := put_len_field out 2 m.(authentication_type) in
  let out := put_len_field out 3 m.(authentication_payload) in
  let out := put_len_field out 4 m.(identity_commitment) in
  match m.(rate_limit) with
  | Some r => put_varint_field out 5 r
  | None => out
  end.

(** The variables the closure of [decode] captures. *)
Record acc := { m : t; have_id : bool; have_idc : bool }.

Definition on_field (field : Z) (v : FieldVal) (a : acc) : acc :=
  let m0 := a.(m) in
  if field =? 1 then
    {| m := {| request_id := as_string v; authentication_type := m0.(authentication_type);
               authentication_payload := m0.(authentication_payload);
               identity_commitment := m0.(identity_commitment);
               rate_limit := m0.(rate_limit) |};
       have_id := true; have_idc := a.(have_idc) |}
  else if field =? 2 then
    {| m := {| request_id := m0.(request_id); authentication_type := as_bytes v;
               authentication_payload := m0.(authentication_payload);
               identity_commitment := m0.(identity_commitment);
               rate_limit := m0.(rate_limit) |};
       have_id := a.(have_id); have_idc := a.(have_idc) |}
  else if field =? 3 then
    {| m := {| request_id := m0.(request_id); authentication_type := m0.(authentication_type);
               authentication_payload := as_bytes v;
               identity_commitment := m0.(identity_commitment);
               rate_limit := m0.(rate_limit) |};
       have_id := a.(have_id); have_idc := a.(have_idc) |}
  else if field =? 4 then
    {| m := {| request_id := m0.(request_id); authentication_type := m0.(authentication_type);
               authentication_payload := m0.(authentication_payload);
               identity_commitment := as_bytes v;
               rate_limit := m0.(rate_limit) |};
       have_id := a.(have_id); have_idc := true |}
  else if field =? 5 then
    {| m := {| request_id := m0.(request_id); authentication_type := m0.(authentication_type);
               authentication_payload := m0.(authentication_payload);
               identity_commitment := m0.(identity_commitment);
               rate_limit := Some (as_u64 v) |};
       have_id := a.(have_id); have_idc := a.(have_idc) |}
  else a.

Definition decode (buf : list byte) : result t string :=
  let? a := walk_fields on_field buf {| m := default; have_id := false; have_idc := false |} in
  if negb a.(have_id) then Err "missing request_id"
  else if negb a.(have_idc) then Err "missing identity_commitment"
  else Ok a.(m).

End RlnGifterRequest.

Module MembershipAllocationSuccess.

Record t := {
  leaf_index : Z;
  merkle_root : list byte;
  block_number : Z;
  transaction_hash : list byte;
  config_account_id : option string
}.

Definition default : t := {|
  leaf_index := 0; merkle_root := []; block_number := 0; transaction_hash := [];
  config_account_id := None |}.

Definition encode (m : t) : list byte :=
  let out := put_varint_field [] 1 m.(leaf_index) in
  let out := put_len_field out 2 m.(merkle_root) in
  let out := put_varint_field out 3 m.(block_number) in
  let out := put_len_field out 4 m.(transaction_hash) in
  match m.(config_account_id) with
  | Some cfg => put_len_field out 100 (str_bytes cfg)
  | None => out
  end.

Definition on_field (field : Z) (v : FieldVal) (m : t) : t :=
  if field =? 1 then
    {| leaf_index := as_u64 v; merkle_root := m.(merkle_root); block_number := m.(block_number);
       transaction_hash := m.(transaction_hash); config_account_id := m.(config_account_id) |}
  else if field =? 2 then
    {| leaf_index := m.(leaf_index); merkle_root := as_bytes v; block_number := m.(block_number);
       transaction_hash := m.(transaction_hash); config_account_id := m.(config_account_id) |}
  else if field =? 3 then
    {| leaf_index := m.(leaf_index); merkle_root := m.(merkle_root); block_number := as_u64 v;
       transaction_hash := m.(transaction_hash); config_account_id := m.(config_account_id) |}
  else if field =? 4 then
    {| leaf_index := m.(leaf_index); merkle_root := m.(merkle_root);
       block_number := m.(block_number); transaction_hash := as_bytes v;
       config_account_id := m.(config_account_id) |}
  else if field =? 100 then
    {| leaf_index := m.(leaf_index); merkle_root := m.(merkle_root);
       block_number := m.(block_number); transaction_hash := m.(transaction_hash);
       config_account_id := Some (as_string v) |}
  else m.

Definition decode (buf : list byte) : result t string := walk_fields on_field buf default.

End MembershipAllocationSuccess.

Module MembershipAllocationFailure.

Record t := { error_message : string }.

Definition default : t := {| error_message := "" |}.

Definition encode (m : t) : list byte := put_len_field [] 1 (str_bytes m.(error_message)).

Definition on_field (field : Z) (v : FieldVal) (m : t) : t :=
  if field =? 1 then {| error_message := as_string v |} else m.

Definition decode (buf : list byte) : result t string := walk_fields on_field buf default.

End MembershipAllocationFailure.

Module RlnGifterResponse.

Record t := {
  request_id : string;
  auth_success : bool;
  error : option string;
  success : option MembershipAllocationSuccess.t;
  failure : option MembershipAllocationFailure.t
}.

Definition default : t := {|
  request_id := ""; auth_success := false; error := None; success := None; failure := None |}.

Definition encode (m : t) : list byte :=
  let out := put_len_field [] 1 (str_bytes m.(request_id)) in
  let out := put_varint_field out 2 (Z.b2z m.(auth_success)) in
  let out := match m.(error) with
             | Some e => put_len_field out 3 (str_bytes e)
             | None => out end in
  let out := match m.(success) with
             | Some s => put_len_field out 4 (MembershipAllocationSuccess.encode s)
             | None => out end in
  match m.(failure) with
  | Some f => put_len_field out 5 (MembershipAllocationFailure.encode f)
  | None => out
  end.

Record acc := { m : t; sub_err : option string; have_id : bool; have_auth : bool }.

Definition on_field (field : Z) (v : FieldVal) (a : acc) : acc :=
  let m0 := a.(m) in
  if field =? 1 then
    {| m := {| request_id := as_string v; auth_success := m0.(auth_success);
               error := m0.(error); success := m0.(success); failure := m0.(failure) |};
       sub_err := a.(sub_err); have_id := true; have_auth := a.(have_auth) |}
  else if field =? 2 then
    {| m := {| request_id := m0.(request_id); auth_success := negb (as_u64 v =? 0);
               error := m0.(error); success := m0.(success); failure := m0.(failure) |};
       sub_err := a.(sub_err); have_id := a.(have_id); have_auth := true |}
  else if field =? 3 then
    {| m := {| request_id := m0.(request_id); auth_success := m0.(auth_success);
               error := Some (as_string v); success := m0.(success); failure := m0.(failure) |};
       sub_err := a.(sub_err); have_id := a.(have_id); have_auth := a.(have_auth) |}
  else if field =? 4 then
    match MembershipAllocationSuccess.decode (as_bytes v) with
    | Ok s =>
        {| m := {| request_id := m0.(request_id); auth_success := m0.(auth_success);
                   error := m0.(error); success := Some s; failure := m0.(failure) |};
           sub_err := a.(sub_err); have_id := a.(have_id); have_auth := a.(have_auth) |}
    | Err e =>
        {| m := m0; sub_err := Some e; have_id := a.(have_id); have_auth := a.(have_auth) |}
    end
  else if field =? 5 then
    match MembershipAllocationFailure.decode (as_bytes v) with
    | Ok f =>
        {| m := {| request_id := m0.(request_id); auth_success := m0.(auth_success);
                   error := m0.(error); success := m0.(success); failure := Some f |};
           sub_err := a.(sub_err); have_id := a.(have_id); have_auth := a.(have_auth) |}
    | Err e =>
        {| m := m0; sub_err := Some e; have_id := a.(have_id); have_auth := a.(have_auth) |}
    end
  else a.

Definition decode (buf : list byte) : result t string :=
  let? a := walk_fields on_field buf
              {| m := default; sub_err := None; have_id := false; have_auth := false |} in
  match a.(sub_err) with
  | Some e => Err e
  | None =>
      if negb a.(have_id) then Err "missing request_id"
      else if negb a.(have_auth) then Err "missing auth_success"
      else Ok a.(m)
  end.

End RlnGifterResponse.

Example known_request_wire_bytes :
  RlnGifterRequest.encode {|
    RlnGifterRequest.request_id := "x";
    RlnGifterRequest.authentication_type := [];
    RlnGifterRequest.authentication_payload := [];
    RlnGifterRequest.identity_commitment := [xff];
    RlnGifterRequest.rate_limit := Some 1 |}
  = [x0a; x01; x78; x12; x00; x1a; x00; x22; x01; xff; x28; x01].
Proof. vm_compute. reflexivity. Qed.

(** ** Reference grammar

    [is_varint bs n]: [bs] is a base-128 varint, its last byte the only one
    without the continuation bit, of value [n]. *)
Inductive is_varint : list byte -> Z -> Prop :=
| varint_last b : u8 b < 128 -> is_varint [b] (u8 b)
| varint_more b bs n : 128 <= u8 b -> is_varint bs n -> is_varint (b :: bs) (u8 b mod 128 + 128 * n).

(** What the reader accepts: at most ten bytes, the value kept to 64 bits. *)
Definition wire_varint (bs : list byte) (v : Z) : Prop :=
  exists n, is_varint bs n /\ (length bs <= 10)%nat /\ v = wrap64 n.

Inductive wire_field : list byte -> Z * FieldVal -> Prop :=
| wire_field_varint kb key vb v :
    wire_varint kb key -> Z.land key 7 = 0 -> wire_varint vb v ->
    wire_field (kb ++ vb) (Z.shiftr key 3, Varint v)
| wire_field_bytes kb key lb d :
    wire_varint kb key -> Z.land key 7 = 2 -> wire_varint lb (Z.of_nat (length d)) ->
    wire_field (kb ++ lb ++ d) (Z.shiftr key 3, Bytes d).

Inductive wire_fields : list byte -> list (Z * FieldVal) -> Prop :=
| wire_fields_nil : wire_fields [] []
| wire_fields_cons bs p rest ps :
    wire_field bs p -> wire_fields rest ps -> wire_fields (bs ++ rest) (p :: ps).

Create HintDb wire.
#[export] Hint Constructors is_varint wire_field wire_fields : wire.

(** ** Lemmas: varints *)

Lemma is_varint_length bs n : is_varint bs n -> (1 <= length bs)%nat.
Proof. destruct 1; simpl; lia. Qed.

Lemma is_varint_nonneg bs n : is_varint bs n -> 0 <= n.
Proof.
  induction 1 as [b|b bs n Hb _ IH]; pose proof (u8_range b); [lia|].
  pose proof (Z.mod_pos_bound (u8 b) 128 ltac:(lia)). lia.
Qed.

(** A varint is determined by the bytes it is a prefix of. *)
Lemma is_varint_det bs bs' rest rest' n n' :
  is_varint bs n -> is_varint bs' n' -> bs ++ rest = bs' ++ rest' -> bs = bs' /\ n = n'.
Proof.
  intros H. revert bs' n'. induction H as [b Hb|b bs n Hb H IH]; intros bs' n' H' E;
    destruct H' as [b' Hb'|b' bs' n' Hb' H']; simplify_eq/=; try lia; [done|].
  by destruct (IH _ _ H' ltac:(eassumption)) as [-> ->].
Qed.

Lemma pow_step (n : nat) : 2 ^ (7 * Z.of_nat (S n)) = 128 * 2 ^ (7 * Z.of_nat n).
Proof.
  change 128 with (2 ^ 7). rewrite <-Z.pow_add_r by lia. f_equal. lia.
Qed.

Lemma varint_round v :
  0 <= v ->
  u8 (to_u8 (Z.land v 0x7f)) = v mod 128
  /\ u8 (to_u8 (Z.lor (Z.land v 0x7f) 0x80)) = v mod 128 + 128
  /\ Z.shiftr v 7 = v / 128.
Proof.
  intros Hv. rewrite !u8_to_u8, Z.shiftr_div_pow2 by lia. change (2 ^ 7) with 128.
  change 0x7f with (Z.ones 7). rewrite Z.land_ones by lia. change (2 ^ 7) with 128.
  pose proof (Z.mod_pos_bound v 128 ltac:(lia)).
  assert (Hlor : Z.lor (v mod 128) 128 = v mod 128 + 128)
    by (apply (lor_disjoint_add _ 1 7); [lia|exact H]).
  rewrite Hlor.
  repeat split; apply Z.mod_small; lia.
Qed.

Lemma put_varint_step n out v :
  0 <= v ->
  put_varint_loop (S n) out v =
  if v / 128 =? 0 then Some (out ++ [to_u8 (Z.land v 0x7f)])
  else put_varint_loop n (out ++ [to_u8 (Z.lor (Z.land v 0x7f) 0x80)]) (v / 128).
Proof.
  intros Hv. destruct (varint_round v Hv) as (_ & _ & Hsh).
  cbn [put_varint_loop]. rewrite Hsh. by destruct (v / 128 =? 0).
Qed.

(** The first byte of a one-byte and of a longer varint. *)
Lemma is_varint_one v :
  0 <= v -> v / 128 = 0 -> is_varint [to_u8 (Z.land v 0x7f)] v.
Proof.
  intros Hv Hz. destruct (varint_round v Hv) as (Hlo & _ & _).
  pose proof (Z.div_mod v 128 ltac:(lia)). pose proof (Z.mod_pos_bound v 128 ltac:(lia)).
  replace v with (u8 (to_u8 (Z.land v 0x7f))) at 2 by lia. constructor. lia.
Qed.

Lemma is_varint_cons v bs :
  0 <= v -> is_varint bs (v / 128) ->
  is_varint (to_u8 (Z.lor (Z.land v 0x7f) 0x80) :: bs) v.
Proof.
  intros Hv Hbs. destruct (varint_round v Hv) as (_ & Hhi & _).
  pose proof (Z.div_mod v 128 ltac:(lia)). pose proof (Z.mod_pos_bound v 128 ltac:(lia)).
  replace v with (u8 (to_u8 (Z.lor (Z.land v 0x7f) 0x80)) mod 128 + 128 * (v / 128)) at 2.
  { constructor; [lia|done]. }
  rewrite Hhi. replace ((v mod 128 + 128) mod 128) with (v mod 128); [lia|].
  apply (Z.mod_unique_pos _ _ 1); lia.
Qed.

Lemma put_varint_loop_spec n out v :
  0 <= v < 2 ^ (7 * Z.of_nat (S n)) ->
  exists bs, put_varint_loop (S n) out v = Some (out ++ bs) /\ is_varint bs v
    /\ (length bs <= S n)%nat
    /\ ((1 < length bs)%nat -> 2 ^ (7 * (Z.of_nat (length bs) - 1)) <= v).
Proof.
  revert out v. induction n as [|n IH]; intros out v Hv; rewrite put_varint_step by lia;
    rewrite pow_step in Hv;
    destruct (v / 128 =? 0) eqn:Hz; bool_to_prop;
    try (eexists; split; [done|]; split; [apply is_varint_one; lia|];
      split; cbn [length]; [lia|intros; lia]).
  - change (2 ^ (7 * Z.of_nat 0)) with 1 in Hv. exfalso. apply Hz, Z.div_small. lia.
  - destruct (IH (out ++ [to_u8 (Z.lor (Z.land v 0x7f) 0x80)]) (v / 128))
      as (bs & E & Hbs & Hl & Hmin).
    { split; [apply Z.div_pos; lia|apply Z.div_lt_upper_bound; lia]. }
    exists (to_u8 (Z.lor (Z.land v 0x7f) 0x80) :: bs). rewrite E, <-app_assoc.
    split; [done|]. split; [apply is_varint_cons; [lia|done]|]. split; [simpl; lia|].
    intros _. pose proof (is_varint_length _ _ Hbs).
    replace (7 * (Z.of_nat (length (_ :: bs)) - 1))
      with (7 * Z.of_nat (S (pred (length bs)))) by (simpl; lia).
    rewrite pow_step. pose proof (Z.div_mod v 128 ltac:(lia)).
    pose proof (Z.mod_pos_bound v 128 ltac:(lia)).
    destruct (decide (length bs = 1%nat)) as [->|Hne]; [simpl; lia|].
    replace (7 * Z.of_nat (pred (length bs))) with (7 * (Z.of_nat (length bs) - 1)) by lia.
    specialize (Hmin ltac:(lia)). lia.
Qed.

(** The bytes [put_varint] appends. *)
Definition varint (v : Z) : list byte := put_varint [] v.

Lemma put_varint_spec out v :
  is_u64 v ->
  exists bs, put_varint out v = out ++ bs /\ is_varint bs v /\ (length bs <= 10)%nat
    /\ ((1 < length bs)%nat -> 2 ^ (7 * (Z.of_nat (length bs) - 1)) <= v).
Proof.
  intros [Hv1 Hv2]. unfold put_varint.
  destruct (put_varint_loop_spec 9 out v) as (bs & -> & Hbs & Hl & Hm).
  { assert (2 ^ 64 < 2 ^ (7 * Z.of_nat 10)) by (by vm_compute). lia. }
  exists bs. simpl. auto.
Qed.

Lemma put_varint_loop_app n out v :
  put_varint_loop n out v = app out <$> put_varint_loop n [] v.
Proof.
  revert out v. induction n as [|n IH]; intros out v; [done|].
  cbn [put_varint_loop]. case_match; [done|].
  rewrite IH, (IH ([] ++ _)). destruct (put_varint_loop n [] _); [|done].
  cbn. by rewrite <-app_assoc.
Qed.

Lemma put_varint_app out v : put_varint out v = out ++ varint v.
Proof.
  unfold varint, put_varint. rewrite put_varint_loop_app.
  destruct (put_varint_loop 10 [] v); [done|]. cbn. by rewrite app_nil_r.
Qed.

Lemma varint_spec v : is_u64 v -> is_varint (varint v) v /\ (length (varint v) <= 10)%nat.
Proof.
  intros Hv. destruct (put_varint_spec [] v Hv) as (bs & E & ? & ? & _).
  unfold varint. by rewrite E.
Qed.

Lemma wire_varint_put v : is_u64 v -> wire_varint (varint v) v.
Proof.
  intros Hv. destruct (varint_spec v Hv). exists v. by rewrite wrap64_small.
Qed.

Lemma wire_varint_u64 bs v : wire_varint bs v -> is_u64 v.
Proof. intros (n & _ & _ & ->). apply wrap64_u64. Qed.

Lemma wire_varint_length bs v : wire_varint bs v -> (1 <= length bs <= 10)%nat.
Proof. intros (n & H & ? & _). split; [by eapply is_varint_length|done]. Qed.

Lemma drop_cons_inv {A} i (l : list A) a r :
  drop i l = a :: r -> l !! i = Some a /\ drop (S i) l = r.
Proof.
  intros H. split.
  - rewrite <-(Nat.add_0_r i), <-lookup_drop, H. done.
  - replace (S i) with (i + 1)%nat by lia. rewrite <-drop_drop, H. done.
Qed.

Lemma drop_app_inv {A} i (l a r : list A) :
  (i <= length l)%nat -> drop i l = a ++ r ->
  drop (i + length a) l = r /\ (i + length a + length r = length l)%nat.
Proof.
  intros Hi H. split; [by rewrite <-drop_drop, H, drop_app_length|].
  assert (length (drop i l) = length (a ++ r)) as E by by rewrite H.
  rewrite length_drop, length_app in E. lia.
Qed.

Lemma read_varint_loop_complete bs n buf i rest fuel result (k : nat) :
  is_varint bs n -> drop i buf = bs ++ rest ->
  (length bs <= fuel)%nat -> (k + length bs <= 10)%nat ->
  0 <= result < 2 ^ (7 * Z.of_nat k) ->
  read_varint_loop fuel buf i result (7 * Z.of_nat k)
  = Some (wrap64 (result + n * 2 ^ (7 * Z.of_nat k)), (i + length bs)%nat).
Proof.
  intros H. revert i fuel result k.
  induction H as [b Hb|b bs n Hb H IH]; intros i fuel result k Hd Hf Hk Hr;
    (destruct fuel as [|fuel]; [simpl in Hf; lia|]); cbn [length] in *;
    destruct (drop_cons_inv _ _ _ _ Hd) as [Hl Hd']; cbn [read_varint_loop]; rewrite Hl;
    (rewrite wrap64_shiftl_lor, land_7f, land_80; [|lia|exact Hr]); pose proof (u8_range b).
  - rewrite (proj2 (Z.ltb_lt _ _)) by lia. cbn [Z.eqb].
    rewrite (Z.mod_small (u8 b)) by lia. repeat f_equal. lia.
  - rewrite (proj2 (Z.ltb_ge _ _)) by lia. cbn [Z.eqb].
    pose proof (is_varint_length _ _ H). pose proof (pow_step k) as Hp.
    assert (2 ^ (7 * Z.of_nat (S k)) <= 2 ^ 63) by (apply Z.pow_le_mono_r; lia).
    assert (2 ^ 63 < 2 ^ 64) by done. pose proof (Z.mod_pos_bound (u8 b) 128 ltac:(lia)).
    rewrite wrap64_small by (unfold is_u64; nia).
    rewrite (proj2 (Z.leb_gt _ _)) by lia.
    replace (7 * Z.of_nat k + 7) with (7 * Z.of_nat (S k)) by lia.
    rewrite (IH _ _ _ _ Hd') by (lia || nia). f_equal. f_equal; [f_equal; rewrite Hp; lia|lia].
Qed.

Lemma read_varint_loop_sound fuel buf i result shift v j :
  read_varint_loop fuel buf i result shift = Some (v, j) ->
  exists bs n rest, drop i buf = bs ++ rest /\ is_varint bs n /\ (length bs <= fuel)%nat.
Proof.
  revert i result shift. induction fuel as [|fuel IH]; intros i result shift H; [done|].
  cbn [read_varint_loop] in H. destruct (buf !! i) as [b|] eqn:Hl; [|done].
  apply drop_S in Hl. rewrite land_80 in H. destruct (u8 b <? 128) eqn:Hb; bool_to_prop.
  - exists [b], (u8 b), (drop (S i) buf). split; [done|].
    split; [by constructor|simpl; lia].
  - cbn [Z.eqb] in H. case_match; [done|].
    destruct (IH _ _ _ H) as (bs & n & rest & Hd & Hbs & Hlen).
    exists (b :: bs), (u8 b mod 128 + 128 * n), rest. rewrite Hl, Hd.
    split; [done|]. split; [by constructor|simpl; lia].
Qed.

(** [read_varint] accepts exactly the varints of the grammar. *)
Lemma read_varint_iff buf i v j :
  read_varint buf i = Some (v, j) <->
  exists bs rest, drop i buf = bs ++ rest /\ wire_varint bs v /\ j = (i + length bs)%nat.
Proof.
  assert (Hc : forall bs n rest, drop i buf = bs ++ rest -> is_varint bs n ->
    (length bs <= 10)%nat -> read_varint buf i = Some (wrap64 n, (i + length bs)%nat)).
  { intros bs n rest Hd Hn Hl. unfold read_varint.
    etrans; [apply (read_varint_loop_complete bs n buf i rest 10 0 0 Hn Hd Hl); [lia|simpl; lia]|].
    do 3 f_equal. simpl. lia. }
  split.
  - intros H. destruct (read_varint_loop_sound _ _ _ _ _ _ _ H) as (bs & n & rest & Hd & Hn & Hl).
    rewrite (Hc bs n rest Hd Hn Hl) in H. simplify_eq. exists bs, rest.
    split; [done|]. split; [|done]. by exists n.
  - intros (bs & rest & Hd & (n & Hn & Hl & ->) & ->). eauto.
Qed.

(** One round reads one field of the grammar. *)
Lemma read_field_iff buf i p j :
  Z.of_nat (length buf) < 2 ^ 64 -> (i <= length buf)%nat ->
  read_field buf i = Ok (p, j) <->
  exists bs rest, drop i buf = bs ++ rest /\ wire_field bs p /\ j = (i + length bs)%nat.
Proof.
  intros Hbuf Hi. unfold read_field. split.
  - intros H. destruct (read_varint buf i) as [[key i1]|] eqn:Hk; [|done].
    apply read_varint_iff in Hk as (kb & r1 & Hd1 & Hkb & ->).
    destruct (drop_app_inv _ _ _ _ Hi Hd1) as [<- Hl1]. cbn [ok_or] in H.
    destruct (Z.land key 7 =? 0) eqn:Hw0; [|destruct (Z.land key 7 =? 2) eqn:Hw2; [|done]];
      bool_to_prop; destruct (read_varint buf _) as [[v i2]|] eqn:Hv; try done;
      apply read_varint_iff in Hv as (vb & r2 & Hd2 & Hvb & ->); cbn [ok_or] in H.
    + simplify_eq. exists (kb ++ vb), r2.
      rewrite Hd1, Hd2, length_app, app_assoc. split; [done|].
      split; [by constructor|lia].
    + unfold checked_add in H. destruct (_ <? 2 ^ 64); [|done]. cbn [ok_or] in H.
      case_match; [done|].
      bool_to_prop. simplify_eq. pose proof (wire_varint_u64 _ _ Hvb) as [Hv0 _].
      destruct (drop_app_inv (i + length kb) buf vb r2 ltac:(lia) Hd2) as [<- Hl2].
      set (d := take (Z.to_nat v) (drop (i + length kb + length vb) buf)).
      assert (Z.of_nat (length d) = v) as Hd.
      { subst d. rewrite length_take, length_drop. lia. }
      exists (kb ++ vb ++ d), (drop (Z.to_nat v) (drop (i + length kb + length vb) buf)).
      rewrite Hd1, Hd2, !length_app, <-!app_assoc. split; [by subst d; rewrite take_drop|].
      split; [constructor; auto; by rewrite Hd|lia].
  - intros (bs & rest & Hd & Hf & ->).
    inversion Hf as [kb key vb v Hkb Hw Hvb E1 E2|kb key lb d Hkb Hw Hlb E1 E2]; subst bs p.
    + rewrite <-app_assoc in Hd. destruct (drop_app_inv _ _ _ _ Hi Hd) as [Hd2 _].
      rewrite (proj2 (read_varint_iff buf i key _)) by eauto. cbn [ok_or]. rewrite Hw. cbn [Z.eqb].
      rewrite (proj2 (read_varint_iff buf _ v _)) by eauto. cbn [ok_or].
      by rewrite length_app, Nat.add_assoc.
    + rewrite <-!app_assoc in Hd. destruct (drop_app_inv _ _ _ _ Hi Hd) as [Hd2 Hl2].
      rewrite !length_app in Hl2.
      destruct (drop_app_inv (i + length kb) buf lb (d ++ rest) ltac:(lia) Hd2) as [Hd3 Hl3].
      rewrite (proj2 (read_varint_iff buf i key _)) by eauto. cbn [ok_or]. rewrite Hw. cbn [Z.eqb].
      rewrite (proj2 (read_varint_iff buf _ _ _)) by eauto. cbn [ok_or].
      rewrite !length_app in *. unfold checked_add.
      rewrite (proj2 (Z.ltb_lt _ _)) by lia. cbn [ok_or].
      rewrite (proj2 (Z.ltb_ge _ _)) by lia. rewrite Hd3, Nat2Z.id, take_app_length.
      repeat f_equal. lia.
Qed.

(** ** Lemmas: fields *)

Lemma wire_field_length bs p : wire_field bs p -> (1 <= length bs)%nat.
Proof.
  destruct 1 as [kb key vb v Hk _ _|kb key lb d Hk _ _];
    apply wire_varint_length in Hk; rewrite !length_app; lia.
Qed.

(** What a walk does with the fields of a buffer, in order. *)
Definition apply_fields {St} (f : Z -> FieldVal -> St -> St) (fs : list (Z * FieldVal)) (s : St) : St :=
  fold_left (fun s p => f p.1 p.2 s) fs s.

Lemma apply_fields_app {St} (f : Z -> FieldVal -> St -> St) fs gs s :
  apply_fields f (fs ++ gs) s = apply_fields f gs (apply_fields f fs s).
Proof. apply fold_left_app. Qed.

Lemma wire_fields_app xs fs ys gs :
  wire_fields xs fs -> wire_fields ys gs -> wire_fields (xs ++ ys) (fs ++ gs).
Proof.
  induction 1; intros Hg; [done|]. rewrite <-app_assoc. simpl. constructor; auto.
Qed.

Lemma wire_fields_one bs p : wire_field bs p -> wire_fields bs [p].
Proof. intros. rewrite <-(app_nil_r bs). eauto with wire. Qed.

Section WalkLemmas.
Context {St : Type} (f : Z -> FieldVal -> St -> St).

Lemma walk_loop_iff fuel buf i s s' :
  Z.of_nat (length buf) < 2 ^ 64 -> (i <= length buf)%nat -> (length buf <= fuel + i)%nat ->
  walk_loop f fuel buf i s = Ok s' <->
  exists fs, wire_fields (drop i buf) fs /\ s' = apply_fields f fs s.
Proof.
  intros Hbuf. revert i s. induction fuel as [|fuel IH]; intros i s Hi Hf; cbn [walk_loop];
    destruct (Nat.ltb_spec i (length buf)) as [Hlt|Hge]; try lia.
  1, 3: rewrite drop_ge by lia; split;
    [intros [= <-]; exists []; split; [constructor|done]
    |intros (fs & Hfs & ->); inversion Hfs as [|bs p r ps Hp]; subst; [done|];
     apply wire_field_length in Hp; destruct bs; simpl in *; [lia|done]].
  split.
  - destruct (read_field buf i) as [[[k v] j]|e] eqn:Hr; [|done]. intros Hw.
    apply read_field_iff in Hr as (bs & rest & Hd & Hp & ->); [|done..].
    destruct (drop_app_inv _ _ _ _ Hi Hd) as [Hr Hl]. pose proof (wire_field_length _ _ Hp).
    apply IH in Hw as (fs & Hfs & ->); [|lia..].
    exists ((k, v) :: fs). split; [|done]. rewrite Hd, <-Hr. by constructor.
  - intros (fs & Hfs & ->). inversion Hfs as [E|bs [k v] r ps Hp Hps E]; subst.
    { apply (f_equal length) in E. rewrite length_drop in E. simpl in E. lia. }
    symmetry in E. destruct (drop_app_inv _ _ _ _ Hi E) as [Hr Hl].
    pose proof (wire_field_length _ _ Hp).
    rewrite (proj2 (read_field_iff buf i (k, v) _ Hbuf Hi)) by eauto.
    apply IH; [lia..|]. exists ps. by rewrite Hr.
Qed.

(** Fuel never runs out: any two amounts that cover the rest agree. *)
Lemma walk_loop_fuel fuel fuel' buf i s :
  Z.of_nat (length buf) < 2 ^ 64 -> (i <= length buf)%nat ->
  (length buf <= fuel + i)%nat -> (length buf <= fuel' + i)%nat ->
  walk_loop f fuel buf i s = walk_loop f fuel' buf i s.
Proof.
  intros Hbuf. revert fuel' i s. induction fuel as [|fuel IH]; intros fuel' i s Hi H1 H2;
    destruct fuel'; cbn [walk_loop]; destruct (Nat.ltb_spec i (length buf)); try lia; try done.
  destruct (read_field buf i) as [[[k v] j]|e] eqn:Hr; [|done].
  apply read_field_iff in Hr as (bs & rest & Hd & Hp & ->); [|done..].
  destruct (drop_app_inv _ _ _ _ Hi Hd) as [Hr Hl]. pose proof (wire_field_length _ _ Hp).
  apply IH; lia.
Qed.

Lemma walk_fields_iff buf s s' :
  Z.of_nat (length buf) < 2 ^ 64 ->
  walk_fields f buf s = Ok s' <-> exists fs, wire_fields buf fs /\ s' = apply_fields f fs s.
Proof. intros. unfold walk_fields. rewrite walk_loop_iff by lia. done. Qed.
End WalkLemmas.

(** ** Lemmas: the encoders produce the grammar *)

Lemma key_bytes k : 0 <= k < 2 ^ 61 ->
  is_u64 (Z.lor (wrap64 (Z.shiftl k 3)) 2)
  /\ Z.land (Z.lor (wrap64 (Z.shiftl k 3)) 2) 7 = 2
  /\ Z.shiftr (Z.lor (wrap64 (Z.shiftl k 3)) 2) 3 = k.
Proof.
  intros Hk. rewrite Z.shiftl_mul_pow2, wrap64_small by (unfold is_u64; lia).
  rewrite Z.lor_comm, lor_disjoint_add by lia.
  rewrite (Z.land_ones _ 3) by lia. rewrite Z.shiftr_div_pow2 by lia.
  rewrite Z.mod_add, Z.div_add by lia. unfold is_u64. repeat split; try done; lia.
Qed.

Lemma key_varint k : 0 <= k < 2 ^ 61 ->
  is_u64 (wrap64 (Z.shiftl k 3))
  /\ Z.land (wrap64 (Z.shiftl k 3)) 7 = 0
  /\ Z.shiftr (wrap64 (Z.shiftl k 3)) 3 = k.
Proof.
  intros Hk. rewrite Z.shiftl_mul_pow2, wrap64_small by (unfold is_u64; lia).
  rewrite (Z.land_ones _ 3), Z.shiftr_div_pow2 by lia.
  rewrite Z.mod_mul, Z.div_mul by lia. unfold is_u64. repeat split; lia.
Qed.

Definition len_field (k : Z) (d : list byte) : list byte := put_len_field [] k d.
Definition varint_field (k v : Z) : list byte := put_varint_field [] k v.

Lemma put_len_field_app out k d : put_len_field out k d = out ++ len_field k d.
Proof.
  unfold len_field, put_len_field.
  rewrite (put_varint_app (put_varint out _)), (put_varint_app out).
  rewrite (put_varint_app (put_varint [] _)), (put_varint_app []). by rewrite <-!app_assoc.
Qed.

Lemma put_varint_field_app out k v : put_varint_field out k v = out ++ varint_field k v.
Proof.
  unfold varint_field, put_varint_field.
  rewrite (put_varint_app (put_varint out _)), (put_varint_app out).
  rewrite (put_varint_app (put_varint [] _)), (put_varint_app []). by rewrite <-!app_assoc.
Qed.

Lemma wire_len_field k d :
  0 <= k < 2 ^ 61 -> is_u64 (Z.of_nat (length d)) ->
  wire_fields (len_field k d) [(k, Bytes d)].
Proof.
  intros Hk Hd. destruct (key_bytes k Hk) as (H1 & H2 & H3). unfold len_field, put_len_field.
  rewrite put_varint_app, (put_varint_app []), <-!app_assoc. rewrite <-H3 at 2.
  apply wire_fields_one. simpl. constructor; auto using wire_varint_put.
Qed.

Lemma wire_varint_field k v :
  0 <= k < 2 ^ 61 -> is_u64 v -> wire_fields (varint_field k v) [(k, Varint v)].
Proof.
  intros Hk Hv. destruct (key_varint k Hk) as (H1 & H2 & H3).
  unfold varint_field, put_varint_field.
  rewrite put_varint_app, (put_varint_app []). rewrite <-H3 at 2.
  apply wire_fields_one. simpl. constructor; auto using wire_varint_put.
Qed.

Lemma length_len_field k d : (length d <= length (len_field k d))%nat.
Proof.
  unfold len_field, put_len_field. rewrite length_app. lia.
Qed.

#[export] Hint Resolve wire_len_field wire_varint_field wire_fields_app : wire.

(** ** Lemmas: the messages as field lists *)

Definition fits (bs : list byte) : Prop := Z.of_nat (length bs) < 2 ^ 64.

Definition request_fields (m : RlnGifterRequest.t) : list (Z * FieldVal) :=
  [(1, Bytes (str_bytes m.(RlnGifterRequest.request_id)));
   (2, Bytes m.(RlnGifterRequest.authentication_type));
   (3, Bytes m.(RlnGifterRequest.authentication_payload));
   (4, Bytes m.(RlnGifterRequest.identity_commitment))]
  ++ match m.(RlnGifterRequest.rate_limit) with Some r => [(5, Varint r)] | None => [] end.

Definition success_fields (m : MembershipAllocationSuccess.t) : list (Z * FieldVal) :=
  [(1, Varint m.(MembershipAllocationSuccess.leaf_index));
   (2, Bytes m.(MembershipAllocationSuccess.merkle_root));
   (3, Varint m.(MembershipAllocationSuccess.block_number));
   (4, Bytes m.(MembershipAllocationSuccess.transaction_hash))]
  ++ match m.(MembershipAllocationSuccess.config_account_id) with
     | Some c => [(100, Bytes (str_bytes c))] | None => [] end.

Definition failure_fields (m : MembershipAllocationFailure.t) : list (Z * FieldVal) :=
  [(1, Bytes (str_bytes m.(MembershipAllocationFailure.error_message)))].

Definition opt_field (k : Z) (d : option (list byte)) : list (Z * FieldVal) :=
  match d with Some d => [(k, Bytes d)] | None => [] end.

Definition response_fields (m : RlnGifterResponse.t) : list (Z * FieldVal) :=
  [(1, Bytes (str_bytes m.(RlnGifterResponse.request_id)));
   (2, Varint (Z.b2z m.(RlnGifterResponse.auth_success)))]
  ++ opt_field 3 (str_bytes <$> m.(RlnGifterResponse.error))
  ++ opt_field 4 (MembershipAllocationSuccess.encode <$> m.(RlnGifterResponse.success))
  ++ opt_field 5 (MembershipAllocationFailure.encode <$> m.(RlnGifterResponse.failure)).

(** The values a Rust message can hold: strings are UTF-8, integers 64 bits,
    and the encoding fits in memory. *)
Definition request_wf (m : RlnGifterRequest.t) : Prop :=
  str_valid m.(RlnGifterRequest.request_id)
  /\ (forall r, m.(RlnGifterRequest.rate_limit) = Some r -> is_u64 r)
  /\ fits (RlnGifterRequest.encode m).

Definition success_wf (m : MembershipAllocationSuccess.t) : Prop :=
  is_u64 m.(MembershipAllocationSuccess.leaf_index)
  /\ is_u64 m.(MembershipAllocationSuccess.block_number)
  /\ (forall c, m.(MembershipAllocationSuccess.config_account_id) = Some c -> str_valid c).

Definition response_wf (m : RlnGifterResponse.t) : Prop :=
  str_valid m.(RlnGifterResponse.request_id)
  /\ (forall e, m.(RlnGifterResponse.error) = Some e -> str_valid e)
  /\ (forall s, m.(RlnGifterResponse.success) = Some s -> success_wf s)
  /\ (forall f, m.(RlnGifterResponse.failure) = Some f ->
        str_valid f.(MembershipAllocationFailure.error_message))
  /\ fits (RlnGifterResponse.encode m).

(** Rewrite an encoder to a concatenation of fields. *)
Ltac split_fields :=
  rewrite ?put_len_field_app, ?put_varint_field_app; cbn [app]; rewrite <-?app_assoc.

Lemma fits_app_l a b : fits (a ++ b) -> fits a.
Proof. unfold fits. rewrite length_app. lia. Qed.
Lemma fits_app_r a b : fits (a ++ b) -> fits b.
Proof. unfold fits. rewrite length_app. lia. Qed.
Lemma fits_len_field k d : fits (len_field k d) -> is_u64 (Z.of_nat (length d)).
Proof. unfold fits, is_u64. pose proof (length_len_field k d). lia. Qed.

(** The fields of a concatenation, piece by piece, under one size bound. *)
Lemma wire_len_field_app k d rest gs :
  0 <= k < 2 ^ 61 -> fits (len_field k d ++ rest) -> (fits rest -> wire_fields rest gs) ->
  wire_fields (len_field k d ++ rest) ((k, Bytes d) :: gs).
Proof.
  intros Hk Hf Hr. apply (wire_fields_app _ [_]); eauto using fits_app_r.
  apply wire_len_field; eauto using fits_len_field, fits_app_l.
Qed.

Lemma wire_varint_field_app k v rest gs :
  0 <= k < 2 ^ 61 -> is_u64 v -> fits (varint_field k v ++ rest) ->
  (fits rest -> wire_fields rest gs) ->
  wire_fields (varint_field k v ++ rest) ((k, Varint v) :: gs).
Proof.
  intros Hk Hv Hf Hr. apply (wire_fields_app _ [_]); eauto using fits_app_r.
  by apply wire_varint_field.
Qed.

Ltac solve_fields :=
  cbn [app];
  repeat lazymatch goal with
  | |- wire_fields (len_field _ _ ++ _) _ => apply wire_len_field_app; [lia|assumption|intros ?]
  | |- wire_fields (varint_field _ _ ++ _) _ =>
      apply wire_varint_field_app; [lia|assumption|assumption|intros ?]
  | |- wire_fields (len_field _ _) _ => apply wire_len_field; [lia|by eapply fits_len_field]
  | |- wire_fields (varint_field _ _) _ => apply wire_varint_field; [lia|assumption]
  end.

#[local] Opaque len_field varint_field.

Lemma request_encode_fields m : request_wf m -> wire_fields (RlnGifterRequest.encode m) (request_fields m).
Proof.
  intros (_ & Hr & Hf). unfold RlnGifterRequest.encode, request_fields in *.
  destruct (RlnGifterRequest.rate_limit m) as [r|]; [specialize (Hr r eq_refl)|];
    revert Hf; split_fields; intros Hf; solve_fields.
Qed.

Lemma success_encode_fields m :
  success_wf m -> fits (MembershipAllocationSuccess.encode m) ->
  wire_fields (MembershipAllocationSuccess.encode m) (success_fields m).
Proof.
  intros (Hl & Hb & _) Hf. unfold MembershipAllocationSuccess.encode, success_fields in *.
  destruct (MembershipAllocationSuccess.config_account_id m);
    revert Hf; split_fields; intros Hf; solve_fields.
Qed.

Lemma failure_encode_fields m :
  fits (MembershipAllocationFailure.encode m) ->
  wire_fields (MembershipAllocationFailure.encode m) (failure_fields m).
Proof. intros Hf. apply wire_len_field; [lia|by eapply fits_len_field]. Qed.

Lemma is_u64_b2z b : is_u64 (Z.b2z b).
Proof. destruct b; done. Qed.
#[export] Hint Resolve is_u64_b2z : gifter.

Lemma response_encode_fields m :
  response_wf m -> wire_fields (RlnGifterResponse.encode m) (response_fields m).
Proof.
  intros (_ & _ & _ & _ & Hf). unfold RlnGifterResponse.encode, response_fields, opt_field in *.
  pose proof (is_u64_b2z (RlnGifterResponse.auth_success m)).
  destruct (RlnGifterResponse.error m), (RlnGifterResponse.success m),
    (RlnGifterResponse.failure m); cbn [fmap option_fmap option_map] in *; revert Hf; split_fields; intros Hf; solve_fields.
Qed.

(** ** Lemmas: the decoders as functions of the field list *)

(** The value of the last field numbered [k]. *)
Definition last_field (k : Z) (fs : list (Z * FieldVal)) : option FieldVal :=
  fold_left (fun acc p => if p.1 =? k then Some p.2 else acc) fs None.

Lemma last_field_snoc k fs p :
  last_field k (fs ++ [p]) = if p.1 =? k then Some p.2 else last_field k fs.
Proof. unfold last_field. by rewrite fold_left_app. Qed.

Lemma apply_fields_snoc {St} (f : Z -> FieldVal -> St -> St) fs p s :
  apply_fields f (fs ++ [p]) s = f p.1 p.2 (apply_fields f fs s).
Proof. by rewrite apply_fields_app. Qed.

(** The request a field list stands for: the last value of each field. *)
Definition request_of_fields (fs : list (Z * FieldVal)) : RlnGifterRequest.t := {|
  RlnGifterRequest.request_id := default "" (as_string <$> last_field 1 fs);
  RlnGifterRequest.authentication_type := default [] (as_bytes <$> last_field 2 fs);
  RlnGifterRequest.authentication_payload := default [] (as_bytes <$> last_field 3 fs);
  RlnGifterRequest.identity_commitment := default [] (as_bytes <$> last_field 4 fs);
  RlnGifterRequest.rate_limit := as_u64 <$> last_field 5 fs |}.

Definition has_field (k : Z) (fs : list (Z * FieldVal)) : bool :=
  match last_field k fs with Some _ => true | None => false end.

Lemma request_apply_fields fs :
  apply_fields RlnGifterRequest.on_field fs
    {| RlnGifterRequest.m := RlnGifterRequest.default;
       RlnGifterRequest.have_id := false; RlnGifterRequest.have_idc := false |}
  = {| RlnGifterRequest.m := request_of_fields fs;
       RlnGifterRequest.have_id := has_field 1 fs;
       RlnGifterRequest.have_idc := has_field 4 fs |}.
Proof.
  induction fs as [|[k v] fs IH] using rev_ind; [done|].
  rewrite apply_fields_snoc, IH.
  unfold RlnGifterRequest.on_field, request_of_fields, has_field. rewrite !last_field_snoc.
  cbn [fst snd RlnGifterRequest.m RlnGifterRequest.have_id RlnGifterRequest.have_idc].
  destruct (k =? 1) eqn:?; [bool_to_prop; by subst|].
  destruct (k =? 2) eqn:?; [bool_to_prop; by subst|].
  destruct (k =? 3) eqn:?; [bool_to_prop; by subst|].
  destruct (k =? 4) eqn:?; [bool_to_prop; by subst|].
  by destruct (k =? 5) eqn:?.
Qed.

Lemma walk_fields_apply {St} (f : Z -> FieldVal -> St -> St) buf fs s :
  fits buf -> wire_fields buf fs -> walk_fields f buf s = Ok (apply_fields f fs s).
Proof. intros Hf Hfs. apply walk_fields_iff; eauto. Qed.

Lemma request_decode_iff buf m :
  fits buf ->
  RlnGifterRequest.decode buf = Ok m <->
  exists fs, wire_fields buf fs /\ has_field 1 fs = true /\ has_field 4 fs = true
    /\ m = request_of_fields fs.
Proof.
  intros Hf. unfold RlnGifterRequest.decode. split.
  - destruct (walk_fields _ _ _) as [a|] eqn:Hw; [|done].
    apply walk_fields_iff in Hw as (fs & Hfs & ->); [|done]. rewrite request_apply_fields. cbn.
    intros H. destruct (has_field 1 fs) eqn:?, (has_field 4 fs) eqn:?; simplify_eq/=. eauto 6.
  - intros (fs & Hfs & H1 & H4 & ->).
    rewrite (walk_fields_apply _ _ fs) by done.
    rewrite request_apply_fields. cbn. by rewrite H1, H4.
Qed.

Lemma last_field_app k fs gs :
  last_field k (fs ++ gs) = match last_field k gs with Some v => Some v | None => last_field k fs end.
Proof.
  induction gs as [|p gs IH] using rev_ind; [by rewrite app_nil_r|].
  rewrite app_assoc, !last_field_snoc, IH. by destruct (p.1 =? k).
Qed.

Lemma last_field_notin k fs : Forall (fun p => p.1 <> k) fs -> last_field k fs = None.
Proof.
  induction fs as [|p fs IH] using rev_ind; [done|].
  rewrite Forall_app, Forall_singleton, last_field_snoc. intros [H Hp].
  rewrite (proj2 (Z.eqb_neq _ _) Hp). auto.
Qed.

Lemma request_of_request_fields m gs :
  str_valid m.(RlnGifterRequest.request_id) ->
  Forall (fun p => ~ 1 <= p.1 <= 5) gs ->
  request_of_fields (request_fields m ++ gs) = m
  /\ has_field 1 (request_fields m ++ gs) = true
  /\ has_field 4 (request_fields m ++ gs) = true.
Proof.
  intros Hv Hgs. unfold request_of_fields, has_field. rewrite !last_field_app.
  assert (Hn : forall k, 1 <= k <= 5 -> last_field k gs = None).
  { intros k Hk. apply last_field_notin. eapply Forall_impl; [exact Hgs|]. simpl. lia. }
  rewrite !Hn by lia. destruct m as [i a p c [r|]]; cbn in *; by rewrite from_utf8_lossy_str.
Qed.

Lemma success_apply_fields m :
  success_wf m -> apply_fields MembershipAllocationSuccess.on_field (success_fields m)
    MembershipAllocationSuccess.default = m.
Proof.
  intros (_ & _ & Hc). destruct m as [l mr b th [c|]]; cbn in *; [|done].
  by rewrite from_utf8_lossy_str by auto.
Qed.

Lemma success_decode_encode m :
  success_wf m -> fits (MembershipAllocationSuccess.encode m) ->
  MembershipAllocationSuccess.decode (MembershipAllocationSuccess.encode m) = Ok m.
Proof.
  intros Hm Hf. apply walk_fields_iff; [done|]. exists (success_fields m).
  split; [by apply success_encode_fields|]. by rewrite success_apply_fields.
Qed.

Lemma failure_decode_encode m :
  str_valid m.(MembershipAllocationFailure.error_message) ->
  fits (MembershipAllocationFailure.encode m) ->
  MembershipAllocationFailure.decode (MembershipAllocationFailure.encode m) = Ok m.
Proof.
  intros Hm Hf. apply walk_fields_iff; [done|]. exists (failure_fields m).
  split; [by apply failure_encode_fields|]. destruct m; cbn in *.
  by rewrite from_utf8_lossy_str.
Qed.

Lemma response_fits m :
  fits (RlnGifterResponse.encode m) ->
  (forall s, m.(RlnGifterResponse.success) = Some s -> fits (MembershipAllocationSuccess.encode s))
  /\ (forall f, m.(RlnGifterResponse.failure) = Some f -> fits (MembershipAllocationFailure.encode f)).
Proof.
  unfold RlnGifterResponse.encode. intros Hf. split; [intros s Hs|intros f Hs]; rewrite Hs in Hf.
  - destruct (RlnGifterResponse.failure m); [rewrite put_len_field_app in Hf; apply fits_app_l in Hf|];
      rewrite put_len_field_app in Hf; apply fits_app_r, fits_len_field in Hf; apply Hf.
  - rewrite put_len_field_app in Hf. apply fits_app_r, fits_len_field in Hf. apply Hf.
Qed.

#[local] Arguments MembershipAllocationSuccess.decode : simpl never.
#[local] Arguments MembershipAllocationFailure.decode : simpl never.
#[local] Arguments MembershipAllocationSuccess.encode : simpl never.
#[local] Arguments MembershipAllocationFailure.encode : simpl never.

Lemma response_apply_fields m :
  response_wf m ->
  apply_fields RlnGifterResponse.on_field (response_fields m)
    {| RlnGifterResponse.m := RlnGifterResponse.default; RlnGifterResponse.sub_err := None;
       RlnGifterResponse.have_id := false; RlnGifterResponse.have_auth := false |}
  = {| RlnGifterResponse.m := m; RlnGifterResponse.sub_err := None;
       RlnGifterResponse.have_id := true; RlnGifterResponse.have_auth := true |}.
Proof.
  intros (Hi & He & Hs & Hf & Hfit). apply response_fits in Hfit as [Hfs Hff].
  destruct m as [i a e s f]; cbn [RlnGifterResponse.request_id RlnGifterResponse.error
    RlnGifterResponse.success RlnGifterResponse.failure] in *.
  unfold response_fields; destruct e as [e|], s as [s|], f as [f|]; cbn;
    rewrite ?from_utf8_lossy_str by auto;
    rewrite ?success_decode_encode by auto; cbn;
    rewrite ?failure_decode_encode by auto; cbn; destruct a; try done.
Qed.

Lemma last_field_elem k fs v : last_field k fs = Some v -> (k, v) ∈ fs.
Proof.
  induction fs as [|[k' v'] fs IH] using rev_ind; [done|].
  rewrite last_field_snoc, elem_of_app, list_elem_of_singleton. cbn.
  destruct (k' =? k) eqn:?; [|auto]. intros. bool_to_prop. simplify_eq. auto.
Qed.

Lemma wire_fields_u64 buf fs p : wire_fields buf fs -> p ∈ fs -> is_u64 (as_u64 p.2).
Proof.
  induction 1 as [|bs q rest ps Hq _ IH]; [by intros ?%not_elem_of_nil|].
  rewrite elem_of_cons. intros [->|]; [|auto].
  destruct Hq; cbn; [by eapply wire_varint_u64|done].
Qed.

(** ** Properties *)

(** [put_varint] appends the shortest varint of a 64-bit value, at most ten
    bytes, and [read_varint] at its start returns the value and the position
    after it, whatever follows. *)
Theorem varint_roundtrip out v rest :
  is_u64 v ->
  exists bs, put_varint out v = out ++ bs
    /\ read_varint (put_varint out v ++ rest) (length out) = Some (v, (length out + length bs)%nat)
    /\ (1 <= length bs <= 10)%nat
    /\ ((1 < length bs)%nat -> 2 ^ (7 * (Z.of_nat (length bs) - 1)) <= v).
Proof.
  intros Hv. destruct (put_varint_spec out v Hv) as (bs & E & Hbs & Hl & Hm).
  exists bs. split; [done|]. split; [|split; [split; [by eapply is_varint_length|done]|done]].
  apply read_varint_iff. exists bs, rest. split; [by rewrite E, <-app_assoc, drop_app_length|].
  split; [|done]. exists v. by rewrite wrap64_small.
Qed.

Lemma varint_roundtrip_witness :
  is_u64 (2 ^ 64 - 1)
  /\ exists bs, put_varint [x05] (2 ^ 64 - 1) = [x05] ++ bs
    /\ read_varint (put_varint [x05] (2 ^ 64 - 1) ++ [x07]) 1 = Some (2 ^ 64 - 1, (1 + length bs)%nat)
    /\ (1 <= length bs <= 10)%nat
    /\ ((1 < length bs)%nat -> 2 ^ (7 * (Z.of_nat (length bs) - 1)) <= 2 ^ 64 - 1).
Proof.
  split; [done|]. apply (varint_roundtrip [x05] (2 ^ 64 - 1) [x07]). done.
Defined.

(** C40: [read_varint] is total and bounded: what it returns is a 64-bit value,
    it moves forward by one to ten bytes and never past the buffer, and it
    accepts exactly the varints of the grammar, taken modulo 2^64. *)
Theorem read_varint_exact buf i v j :
  read_varint buf i = Some (v, j) <->
  exists bs n rest, drop i buf = bs ++ rest /\ is_varint bs n /\ (length bs <= 10)%nat
    /\ v = wrap64 n /\ j = (i + length bs)%nat /\ is_u64 v /\ (i < j <= i + 10)%nat
    /\ (j <= length buf)%nat.
Proof.
  rewrite read_varint_iff. split.
  - intros (bs & rest & Hd & (n & Hn & Hl & ->) & ->). exists bs, n, rest.
    pose proof (is_varint_length _ _ Hn). pose proof (f_equal length Hd) as Hlen.
    rewrite length_drop, length_app in Hlen.
    repeat (split; [done || apply wrap64_u64 || lia|]). lia.
  - intros (bs & n & rest & Hd & Hn & Hl & -> & -> & _). exists bs, rest.
    split; [done|]. split; [by exists n|done].
Qed.

(** C24: [walk_fields] refines the grammar of the wire format: it succeeds
    exactly on the concatenations of well-formed varint and length-delimited
    fields, and then has applied the callback to them in order. *)
Theorem walk_fields_refines {St} (f : Z -> FieldVal -> St -> St) buf s s' :
  fits buf ->
  walk_fields f buf s = Ok s' <-> exists fs, wire_fields buf fs /\ s' = apply_fields f fs s.
Proof. apply walk_fields_iff. Qed.

Lemma walk_fields_refines_witness :
  fits [x0a; x01; x78]
  /\ (walk_fields (fun k _ n => n + k) [x0a; x01; x78] 0 = Ok 1 <->
      exists fs, wire_fields [x0a; x01; x78] fs /\ 1 = apply_fields (fun k _ n => n + k) fs 0).
Proof. split; [done|]. apply (walk_fields_refines (fun k _ n => n + k)). done. Defined.

(** The [while] loop of [walk_fields] terminates: every round consumes at
    least one byte, so any fuel from the length of the buffer up gives the
    same result, errors included. *)
Theorem walk_fields_terminates {St} (f : Z -> FieldVal -> St -> St) fuel buf s :
  fits buf -> (length buf <= fuel)%nat -> walk_loop f fuel buf 0 s = walk_fields f buf s.
Proof. intros Hf Hl. apply walk_loop_fuel; [exact Hf|lia..]. Qed.

Lemma walk_fields_terminates_witness :
  fits [x0a; x01; x78] /\ (3 <= 50)%nat
  /\ walk_loop (fun k _ n => n + k) 50 [x0a; x01; x78] 0 0
     = walk_fields (fun k _ n => n + k) [x0a; x01; x78] 0.
Proof.
  split; [done|]. split; [lia|]. apply (walk_fields_terminates (fun k _ n => n + k)); [done|].
  cbn [length]. lia.
Defined.

Lemma request_decode_app m extra gs :
  request_wf m -> wire_fields extra gs -> Forall (fun p => ~ 1 <= p.1 <= 5) gs ->
  fits (RlnGifterRequest.encode m ++ extra) ->
  RlnGifterRequest.decode (RlnGifterRequest.encode m ++ extra) = Ok m.
Proof.
  intros Hm Hx Hgs Hf. apply request_decode_iff; [done|].
  exists (request_fields m ++ gs). split; [eauto using wire_fields_app, request_encode_fields|].
  destruct Hm as (Hi & _). by destruct (request_of_request_fields m gs Hi Hgs) as (-> & -> & ->).
Qed.

Lemma request_decode_encode m :
  request_wf m -> RlnGifterRequest.decode (RlnGifterRequest.encode m) = Ok m.
Proof.
  intros Hm. rewrite <-(app_nil_r (RlnGifterRequest.encode m)).
  apply (request_decode_app m [] []); [done|constructor|constructor|].
  rewrite app_nil_r. by destruct Hm as (_ & _ & ?).
Qed.

(** C22: decoding an encoded request gives the request back, also when fields
    of unknown number follow it (forward compatibility). *)
Theorem request_roundtrip m extra gs :
  request_wf m -> wire_fields extra gs -> Forall (fun p => ~ 1 <= p.1 <= 5) gs ->
  fits (RlnGifterRequest.encode m ++ extra) ->
  RlnGifterRequest.decode (RlnGifterRequest.encode m ++ extra) = Ok m.
Proof. apply request_decode_app. Qed.

Definition sample_request : RlnGifterRequest.t := {|
  RlnGifterRequest.request_id := "abc123";
  RlnGifterRequest.authentication_type := str_bytes "any-vector-string";
  RlnGifterRequest.authentication_payload := [x01; x02; x03; x04];
  RlnGifterRequest.identity_commitment := replicate 32 x09;
  RlnGifterRequest.rate_limit := Some 100 |}.

Lemma request_roundtrip_witness :
  RlnGifterRequest.decode (RlnGifterRequest.encode sample_request ++ varint_field 9 7)
  = Ok sample_request.
Proof.
  apply (request_roundtrip _ _ [(9, Varint 7)]).
  - split; [done|]. split; [|done]. intros r [= <-]. done.
  - apply wire_varint_field; [lia|done].
  - constructor; [simpl; lia|constructor].
  - vm_compute. reflexivity.
Defined.

(** A decoded rate fits its width. *)
Lemma decode_rate_u64 buf m r :
  fits buf -> RlnGifterRequest.decode buf = Ok m -> m.(RlnGifterRequest.rate_limit) = Some r ->
  is_u64 r.
Proof.
  intros Hf (fs & Hfs & _ & _ & ->)%request_decode_iff Hr; [|done]. cbn in Hr.
  destruct (last_field 5 fs) as [v|] eqn:Hv; simplify_eq/=.
  apply last_field_elem in Hv. exact (wire_fields_u64 _ _ (5, v) Hfs Hv).
Qed.

(** C23: [RlnGifterRequest::decode] is the last-value-wins reading of the field
    list: it succeeds exactly on well-formed frames that carry fields 1 and 4,
    and every value it returns is one a Rust message can hold (a UTF-8
    [request_id], a 64-bit [rate_limit]). *)
Theorem request_decode_exact buf m :
  fits buf ->
  RlnGifterRequest.decode buf = Ok m <->
  exists fs, wire_fields buf fs /\ has_field 1 fs = true /\ has_field 4 fs = true
    /\ m = request_of_fields fs
    /\ str_valid m.(RlnGifterRequest.request_id)
    /\ (forall r, m.(RlnGifterRequest.rate_limit) = Some r -> is_u64 r).
Proof.
  intros Hf. rewrite request_decode_iff by done. split.
  - intros (fs & Hfs & H1 & H4 & ->). exists fs. repeat (split; [done|]). split; cbn.
    + destruct (last_field 1 fs) as [[n|b]|]; cbn; try done. apply from_utf8_lossy_valid.
    + intros r. apply (decode_rate_u64 buf (request_of_fields fs)); [done|].
      apply request_decode_iff; eauto.
  - intros (fs & Hfs & H1 & H4 & -> & _). eauto 6.
Qed.

Lemma request_decode_exact_witness :
  fits [x0a; x01; x78]
  /\ (RlnGifterRequest.decode [x0a; x01; x78] = Ok sample_request <->
      exists fs, wire_fields [x0a; x01; x78] fs /\ has_field 1 fs = true
        /\ has_field 4 fs = true /\ sample_request = request_of_fields fs
        /\ str_valid sample_request.(RlnGifterRequest.request_id)
        /\ (forall r, sample_request.(RlnGifterRequest.rate_limit) = Some r -> is_u64 r)).
Proof. split; [done|]. apply request_decode_exact. done. Defined.

Lemma response_decode_encode m :
  response_wf m -> RlnGifterResponse.decode (RlnGifterResponse.encode m) = Ok m.
Proof.
  intros Hm. unfold RlnGifterResponse.decode.
  rewrite (walk_fields_apply _ _ (response_fields m)), response_apply_fields; try done.
  - by destruct Hm as (_ & _ & _ & _ & ?).
  - by apply response_encode_fields.
Qed.

(** Decoding an encoded response, nested success and failure messages
    included, gives the response back. *)
Theorem response_roundtrip m :
  response_wf m -> RlnGifterResponse.decode (RlnGifterResponse.encode m) = Ok m.
Proof. apply response_decode_encode. Qed.

Definition sample_response : RlnGifterResponse.t := {|
  RlnGifterResponse.request_id := "r1";
  RlnGifterResponse.auth_success := true;
  RlnGifterResponse.error := None;
  RlnGifterResponse.success := Some {|
    MembershipAllocationSuccess.leaf_index := 56;
    MembershipAllocationSuccess.merkle_root := replicate 32 x07;
    MembershipAllocationSuccess.block_number := 1234;
    MembershipAllocationSuccess.transaction_hash := [xab; xcd];
    MembershipAllocationSuccess.config_account_id := Some "cfgAccount" |};
  RlnGifterResponse.failure := None |}.

Lemma response_roundtrip_witness :
  response_wf sample_response
  /\ RlnGifterResponse.decode (RlnGifterResponse.encode sample_response) = Ok sample_response.
Proof.
  assert (Hw : response_wf sample_response).
  { split; [done|]. split; [done|]. split; [|split; [done|vm_compute; reflexivity]].
    intros s [= <-]. split; [done|]. split; [done|]. intros c [= <-]. done. }
  split; [exact Hw|]. apply (response_roundtrip sample_response Hw).
Defined.
