(* ===== verification/Nullifiers.v ===== *)
(** * The consumed-nullifier store (rust/rln-gifter-module/rust-lib/src/auth.rs)

    The append-only file of spent credentials, one per line, over a model of
    the files the gifter reads and appends to.  Here a write happens whole or
    fails, [Crash] has the ones in between; the diagnostics printed on failure are
    left out. *)
From S2P Require Import Prelude RustStd.

(** The file system as the store sees it: the contents of the files that
    exist, and which paths can be read and appended to. *)
Record Fs := {
  fs_files : gmap string (list byte);
  fs_readable : string -> bool;
  fs_appendable : string -> bool
}.

(** [std::fs::read_to_string(path).ok()]: missing, unreadable and non-UTF-8
    files are errors. *)
Definition read_to_string (fs : Fs) (path : string) : option string :=
  match fs.(fs_files) !! path with
  | Some bs =>
      if fs.(fs_readable) path && utf8_valid bs then Some (bytes_str bs) else None
  | None => None
  end.

(** Open with [create(true).append(true)] and write [text]. *)
Definition append_file (fs : Fs) (path text : string) : Fs :=
  if fs.(fs_appendable) path then
    {| fs_files := <[path := default [] (fs.(fs_files) !! path) ++ str_bytes text]> fs.(fs_files);
       fs_readable := fs.(fs_readable); fs_appendable := fs.(fs_appendable) |}
  else fs.

Section Store.
Context {U : UnicodeTables}.

(** The body of the loop of [load_nullifiers]. *)
Definition load_line (set : gset string) (line : string) : gset string :=
  let n := to_lowercase (trim line) in
  if negb (is_empty n) then {[n]} ∪ set else set.

Definition load_nullifiers (fs : Fs) (path : string) : gset string :=
  let set := ∅ in
  if is_empty path then set
  else
    match read_to_string fs path with
    | Some contents => fold_left load_line (lines contents) set
    | None => set
    end.

Definition append_nullifier (fs : Fs) (path nullifier_hex : string) : Fs :=
  if is_empty path then fs
  else append_file fs path (nullifier_hex +:+ newline).

(** A key the store returns as it was written: lowercase, no newline inside,
    no white space at its ends. *)
Record canonical_key (k : string) : Prop := {
  ck_valid : str_valid k;
  ck_nonempty : k <> "";
  ck_lower : Forall lower_stable (chars k);
  ck_line : 10 ∉ chars k;
  ck_head c : head (chars k) = Some c -> is_whitespace c = false;
  ck_last c : last (chars k) = Some c -> is_whitespace c = false
}.

(** A store file the appends keep in shape: absent, or UTF-8 text that is
    empty or ends in a newline. *)
Definition store_ok (fs : Fs) (path : string) : Prop :=
  forall bs, fs.(fs_files) !! path = Some bs -> str_valid (bytes_str bs) /\ ends_line (bytes_str bs).

End Store.

(** ** Lemmas *)

Lemma is_empty_false s : s <> "" -> is_empty s = false.
Proof. by destruct s. Qed.

Section StoreLemmas.
Context {U : UnicodeTables}.

Lemma canonical_normal k : canonical_key k -> to_lowercase (trim k) = k.
Proof.
  intros [Hv _ Hl _ Hh Hla]. unfold trim. rewrite trim_list_id by auto.
  rewrite of_chars_chars by done. by apply to_lowercase_stable.
Qed.

(** Such a line is one more key. *)
Lemma load_canonical set k : canonical_key k -> load_line set k = {[k]} ∪ set.
Proof. intros Hk. unfold load_line. by rewrite canonical_normal, is_empty_false by apply Hk || done. Qed.

Lemma canonical_no_newline k : canonical_key k -> x0a ∉ str_bytes k.
Proof.
  intros [Hv _ _ Hn _ _] Hb. apply Hn.
  pose proof (chars_scalar k). rewrite <-(of_chars_chars k Hv) in Hb.
  unfold of_chars in Hb. rewrite str_bytes_str in Hb.
  apply encode_str_ascii in Hb; [exact Hb|done|vm_compute; done].
Qed.

Lemma canonical_no_cr k : canonical_key k -> last (str_bytes k) <> Some x0d.
Proof.
  intros [Hv _ _ _ _ Hla] Hb. pose proof (chars_scalar k) as Hs.
  rewrite <-(of_chars_chars k Hv) in Hb. unfold of_chars in Hb. rewrite str_bytes_str in Hb.
  destruct (chars k) as [|c cs _] using rev_ind; [done|].
  rewrite encode_str_app in Hb. apply Forall_app in Hs as [_ Hc]. rewrite Forall_singleton in Hc.
  change (encode_str [c]) with (encode_utf8 c ++ []) in Hb. rewrite app_nil_r, last_app in Hb.
  destruct (last (encode_utf8 c)) as [b|] eqn:E.
  - simplify_eq. apply last_Some_elem_of in E. apply encode_utf8_ascii in E; [|done|by vm_compute].
    specialize (Hla c). rewrite last_snoc, E in Hla. by discriminate (Hla eq_refl).
  - apply last_None in E. destruct (encode_utf8_cons c) as (? & ? & ?). congruence.
Qed.

Lemma canonical_lines c k : ends_line c -> canonical_key k -> lines (c +:+ k +:+ newline) = lines c ++ [k].
Proof. intros. apply lines_snoc; auto using canonical_no_newline, canonical_no_cr. Qed.

Lemma newline_valid : str_valid newline.
Proof. vm_compute. done. Qed.

Lemma append_nullifier_files fs path k :
  path <> "" -> fs.(fs_appendable) path = true ->
  fs_files (append_nullifier fs path k) !! path
  = Some (default [] (fs.(fs_files) !! path) ++ str_bytes (k +:+ newline)).
Proof.
  intros Hp Ha. unfold append_nullifier, append_file.
  rewrite is_empty_false, Ha by done. cbn. apply lookup_insert_eq.
Qed.

(** Appending keeps the file in shape. *)
Lemma append_store_ok fs path k :
  store_ok fs path -> str_valid k -> store_ok (append_nullifier fs path k) path.
Proof.
  intros Hok Hk. unfold append_nullifier, append_file.
  destruct (is_empty path); [done|]. destruct (fs_appendable fs path); [|done].
  intros bs. cbn. rewrite lookup_insert_eq. intros [= <-].
  rewrite bytes_str_app, bytes_str_bytes. split.
  - apply str_valid_app; [|by apply str_valid_app, newline_valid].
    destruct (fs_files fs !! path) eqn:E; cbn; [by apply Hok in E as [? _]|done].
  - right. destruct (fs_files fs !! path) as [bs|]; cbn.
    + exists (bytes_str bs +:+ k). by rewrite str_app_assoc.
    + by exists k.
Qed.
End StoreLemmas.

(** ** Properties *)

Section StoreProperties.
Context {U : UnicodeTables} {L : UnicodeLaws U}.

Lemma read_ends_line fs path :
  store_ok fs path -> ends_line (default "" (read_to_string fs path)).
Proof.
  intros Hok. unfold read_to_string. destruct (fs_files fs !! path) eqn:E; cbn; [|by left].
  case_match; cbn; [by apply Hok|by left].
Qed.

(** Reading a file in shape after any text was appended to it. *)
Lemma read_append_file fs path t :
  fs.(fs_readable) path = true -> fs.(fs_appendable) path = true -> store_ok fs path ->
  read_to_string (append_file fs path t) path
  = if utf8_valid (str_bytes t) then Some (default "" (read_to_string fs path) +:+ t) else None.
Proof.
  intros Hr Ha Hok. unfold append_file. rewrite Ha. unfold read_to_string. cbn.
  rewrite lookup_insert_eq, Hr. cbn [andb].
  destruct (fs_files fs !! path) as [bs|] eqn:E; cbn [default].
  - destruct (Hok _ E) as [Hb _]. unfold str_valid in Hb. rewrite str_bytes_str in Hb.
    rewrite utf8_valid_app, Hb by done. cbn. by rewrite bytes_str_app, bytes_str_bytes.
  - cbn. by rewrite bytes_str_bytes.
Qed.

Lemma read_after_append fs path k :
  path <> "" -> fs.(fs_readable) path = true -> fs.(fs_appendable) path = true ->
  store_ok fs path -> str_valid k ->
  read_to_string (append_nullifier fs path k) path
  = Some (default "" (read_to_string fs path) +:+ k +:+ newline).
Proof.
  intros Hp Hr Ha Hok Hk. unfold append_nullifier. rewrite is_empty_false, read_append_file by done.
  by rewrite (str_valid_app k newline Hk newline_valid).
Qed.

Lemma load_line_lower set line n :
  (forall m, m ∈ set -> m <> "" /\ to_lowercase m = m) ->
  n ∈ load_line set line -> n <> "" /\ to_lowercase n = n.
Proof.
  intros Hs. unfold load_line. destruct (negb _) eqn:E; [|auto].
  rewrite elem_of_union, elem_of_singleton. intros [->|]; [|auto].
  split; [by destruct (to_lowercase _)|apply to_lowercase_idem].
Qed.

Lemma fold_load_lower ls set n :
  (forall m, m ∈ set -> m <> "" /\ to_lowercase m = m) ->
  n ∈ fold_left load_line ls set -> n <> "" /\ to_lowercase n = n.
Proof.
  revert set. induction ls as [|l ls IH]; intros set Hs; cbn; [auto|].
  apply IH. intros m. by apply load_line_lower.
Qed.

Lemma load_lowercase fs path n :
  n ∈ load_nullifiers fs path -> n <> "" /\ to_lowercase n = n.
Proof.
  unfold load_nullifiers. destruct (is_empty path); [by intros ?%not_elem_of_empty|].
  destruct (read_to_string fs path); [|by intros ?%not_elem_of_empty].
  apply fold_load_lower. by intros m ?%not_elem_of_empty.
Qed.

Lemma append_load fs path k :
  path <> "" -> fs.(fs_readable) path = true -> fs.(fs_appendable) path = true ->
  store_ok fs path -> canonical_key k ->
  load_nullifiers (append_nullifier fs path k) path = {[k]} ∪ load_nullifiers fs path
  /\ store_ok (append_nullifier fs path k) path.
Proof.
  intros Hp Hr Ha Hok Hk. split; [|by apply append_store_ok, Hk].
  unfold load_nullifiers. rewrite is_empty_false, read_after_append by (done || apply Hk).
  pose proof (read_ends_line fs path Hok) as He. rewrite canonical_lines, fold_left_app by done. cbn [fold_left]. rewrite load_canonical by done. f_equal.
  by destruct (read_to_string fs path).
Qed.

(** C31: appending a canonical key and loading the file again (a gifter
    restart) gives the keys the file held before and the new one, and keeps
    the file in shape for the next append. *)
Theorem append_then_load fs path k :
  path <> "" -> fs.(fs_readable) path = true -> fs.(fs_appendable) path = true ->
  store_ok fs path -> canonical_key k ->
  load_nullifiers (append_nullifier fs path k) path = {[k]} ∪ load_nullifiers fs path
  /\ store_ok (append_nullifier fs path k) path.
Proof. apply append_load. Qed.

(** Whatever the file holds, every loaded key is non-empty and lowercase.
    A key that lowercasing changes can be appended but is never loaded. *)
Theorem load_is_lowercase fs path n :
  n ∈ load_nullifiers fs path -> n <> "" /\ to_lowercase n = n.
Proof. apply load_lowercase. Qed.
End StoreProperties.

(** ** Witnesses *)

Definition sample_fs : Fs := {|
  fs_files := {["/var/nul" := str_bytes ("eth-allowlist:0xdead" +:+ newline)]};
  fs_readable _ := true; fs_appendable _ := true |}.

Lemma sample_in_shape : store_ok sample_fs "/var/nul".
Proof.
  intros bs Hbs. vm_compute in Hbs. injection Hbs as <-. split; [done|].
  right. exists "eth-allowlist:0xdead". vm_compute. done.
Qed.

(** The conditions on a key, computed. *)
Definition key_check `{U : UnicodeTables} (k : string) : bool :=
  utf8_valid (str_bytes k) && negb (is_empty k)
  && forallb (fun c => negb (c =? 0x3A3) && bool_decide (to_lower c = [c]) && negb (c =? 10)) (chars k)
  && from_option (fun c => negb (is_whitespace c)) true (head (chars k))
  && from_option (fun c => negb (is_whitespace c)) true (last (chars k)).

Lemma key_by_computation `{U : UnicodeTables} k : key_check k = true -> canonical_key k.
Proof.
  unfold key_check. rewrite !andb_true_iff, negb_true_iff, forallb_forall.
  intros [[[[Hv Hn] Hc] Hh] Hl].
  assert (Hall : forall c, c ∈ chars k -> c <> 0x3A3 /\ to_lower c = [c] /\ c <> 10).
  { intros c Hin. specialize (Hc c). rewrite <-list_elem_of_In in Hc. specialize (Hc Hin).
    rewrite !andb_true_iff, !negb_true_iff, !Z.eqb_neq, bool_decide_eq_true in Hc. naive_solver. }
  constructor; [done|by destruct k| | | |].
  - apply Forall_forall. intros c Hin. destruct (Hall c Hin) as (? & ? & _). done.
  - intros Hin. by destruct (Hall 10 Hin) as (_ & _ & ?).
  - intros c E. rewrite E in Hh. by apply negb_true_iff.
  - intros c E. rewrite E in Hl. by apply negb_true_iff.
Qed.

Lemma sample_key : canonical_key (U := caseless_tables) "keycard-attestation:aa11".
Proof. apply key_by_computation. vm_compute. done. Qed.

Lemma append_then_load_witness :
  load_nullifiers (U := caseless_tables)
    (append_nullifier sample_fs "/var/nul" "keycard-attestation:aa11") "/var/nul"
  = {["keycard-attestation:aa11"]} ∪ load_nullifiers (U := caseless_tables) sample_fs "/var/nul"
  /\ store_ok (append_nullifier sample_fs "/var/nul" "keycard-attestation:aa11") "/var/nul".
Proof.
  apply (append_then_load (U := caseless_tables)); [done..|exact sample_in_shape|exact sample_key].
Defined.

Lemma load_is_lowercase_witness :
  "eth-allowlist:0xdead" <> "" /\
  to_lowercase (U := caseless_tables) "eth-allowlist:0xdead" = "eth-allowlist:0xdead".
Proof.
  apply (load_is_lowercase (U := caseless_tables) sample_fs "/var/nul"). vm_compute. done.
Defined.
