(* ===== verification/Crash.v ===== *)
(** * Appends cut short

    [writeln!] hands the key and its newline to the file in more than one write,
    and its error is ignored: a crash or a full disk may leave any beginning of
    the line.  What the next load makes of such a file, and what it makes of the
    credentials appended behind the torn line. *)
From S2P Require Import Prelude RustStd Nullifiers.

Section Torn.
Context {U : UnicodeTables}.

(** The append of a key that stopped after [n] bytes of its line. *)
Definition torn_append (fs : Fs) (path nullifier_hex : string) (n : nat) : Fs :=
  if is_empty path then fs
  else append_file fs path (bytes_str (take n (str_bytes (nullifier_hex +:+ newline)))).

(** What is left of the key itself. *)
Definition torn_key (k : string) (n : nat) : string := bytes_str (take n (str_bytes k)).

Lemma torn_append_whole fs path k n :
  (length (str_bytes k) < n)%nat -> torn_append fs path k n = append_nullifier fs path k.
Proof.
  intros Hn. unfold torn_append, append_nullifier. rewrite take_ge, bytes_str_bytes; [done|].
  rewrite str_bytes_app, length_app. unfold newline. rewrite str_bytes_str. cbn. lia.
Qed.

Lemma torn_append_part fs path k n :
  (n <= length (str_bytes k))%nat -> path <> "" -> torn_append fs path k n = append_file fs path (torn_key k n).
Proof.
  intros Hn Hp. unfold torn_append, torn_key. by rewrite is_empty_false, str_bytes_app, take_app_le.
Qed.

Lemma torn_key_whole k n : (length (str_bytes k) <= n)%nat -> torn_key k n = k.
Proof. intros Hn. unfold torn_key. by rewrite take_ge, bytes_str_bytes. Qed.

Lemma torn_key_bytes k n : str_bytes (torn_key k n) = take n (str_bytes k).
Proof. apply str_bytes_str. Qed.

(** The characters left of a key are the first ones of it. *)
Lemma torn_key_chars k n :
  str_valid k -> str_valid (torn_key k n) -> exists rest, chars k = chars (torn_key k n) ++ rest.
Proof.
  intros Hk Ht. exists (chars (bytes_str (drop n (str_bytes k)))).
  rewrite <-chars_app by done. f_equal. unfold torn_key. by rewrite <-bytes_str_app, take_drop, bytes_str_bytes.
Qed.

(** The torn line runs into the next one: together they are a key. *)
Lemma torn_key_joined k n k2 :
  canonical_key k -> canonical_key k2 -> torn_key k n <> "" -> str_valid (torn_key k n) ->
  canonical_key (torn_key k n +:+ k2).
Proof.
  intros [Hv _ Hl Hn Hh _] [Hv2 Hne2 Hl2 Hn2 _ Hla2] Hne Hv1.
  destruct (torn_key_chars k n Hv Hv1) as [rest Hr]. rewrite Hr in Hl, Hn, Hh.
  apply Forall_app in Hl as [Hl _]. rewrite elem_of_app in Hn.
  assert (Hc : chars (torn_key k n) <> []).
  { intros E. apply Hne. rewrite <-(of_chars_chars _ Hv1), E. done. }
  assert (Hc2 : chars k2 <> []).
  { intros E. apply Hne2. rewrite <-(of_chars_chars _ Hv2), E. done. }
  constructor; rewrite ?chars_app by done.
  - by apply str_valid_app.
  - by destruct (torn_key k n).
  - by apply Forall_app.
  - rewrite elem_of_app. naive_solver.
  - intros c Hhd. apply Hh. by destruct (chars (torn_key k n)).
  - intros c. rewrite last_app. destruct (last (chars k2)) eqn:E; [|by apply last_None in E]. intros [= <-]. by apply Hla2.
Qed.
End Torn.

(** A key in ASCII may be cut anywhere. *)
Lemma ascii_valid l : Forall (fun b => u8 b < 128) l -> utf8_valid l = true.
Proof.
  intros Hl. apply utf8_valid_spec. exists (u8 <$> l). split.
  - apply Forall_fmap. eapply Forall_impl; [exact Hl|]. intros b Hb. pose proof (u8_range b). cbn in *.
    unfold is_scalar. lia.
  - induction Hl as [|b l Hb _ IH]; [done|]. cbn [fmap list_fmap]. rewrite encode_str_cons, <-IH.
    unfold encode_utf8. rewrite (proj2 (Z.ltb_lt _ _)) by lia. by rewrite to_u8_u8.
Qed.

Lemma ascii_torn k n :
  Forall (fun b => u8 b < 128) (str_bytes k) -> utf8_valid (str_bytes (torn_key k n)) = true.
Proof. intros Hk. rewrite torn_key_bytes. by apply ascii_valid, Forall_take. Qed.

Lemma torn_key_line `{U : UnicodeTables} k n : canonical_key k -> x0a ∉ str_bytes (torn_key k n).
Proof.
  intros Hk Hb. rewrite torn_key_bytes in Hb. apply (canonical_no_newline k Hk).
  rewrite <-(take_drop n (str_bytes k)). apply elem_of_app. by left.
Qed.

Lemma append_file_twice fs path t1 t2 :
  fs.(fs_appendable) path = true ->
  append_file (append_file fs path t1) path t2 = append_file fs path (t1 +:+ t2).
Proof.
  intros Ha. unfold append_file. rewrite Ha. cbn. rewrite Ha, lookup_insert_eq, insert_insert_eq. cbn.
  by rewrite str_bytes_app, app_assoc.
Qed.

Section TornStore.
Context {U : UnicodeTables} {L : UnicodeLaws U}.
Variables (fs : Fs) (path : string).
Hypothesis path_named : path <> "".
Hypothesis readable : fs.(fs_readable) path = true.
Hypothesis appendable : fs.(fs_appendable) path = true.
Hypothesis in_shape : store_ok fs path.

(** What a load makes of a piece without newline behind a file in shape. *)
Lemma load_behind t :
  x0a ∉ str_bytes t ->
  load_nullifiers (append_file fs path t) path
  = if utf8_valid (str_bytes t) then load_line (load_nullifiers fs path) t else ∅.
Proof using All.
  intros Hn. unfold load_nullifiers. rewrite is_empty_false, read_append_file by done.
  destruct (utf8_valid _); [|done]. rewrite lines_tail; [|by apply read_ends_line|done].
  case_decide as Ht.
  - rewrite app_nil_r, Ht. by destruct (read_to_string fs path).
  - rewrite fold_left_app. by destruct (read_to_string fs path).
Qed.

(** C32: what the next load makes of an append cut short.  After any number of
    bytes of the line the keys in the store are still loaded, with at most the
    beginning of the new key, normalised, beside them, and the key itself once
    its bytes are there; but a cut inside a character leaves a file that is no
    longer text, and then no key at all is loaded. *)
Theorem torn_append_loads k n :
  canonical_key k ->
  load_nullifiers (torn_append fs path k n) path
  = (if utf8_valid (str_bytes (torn_key k n)) then load_line (load_nullifiers fs path) (torn_key k n) else ∅)
  /\ ((length (str_bytes k) <= n)%nat ->
      load_nullifiers (torn_append fs path k n) path = {[k]} ∪ load_nullifiers fs path)
  /\ (Forall (fun b => u8 b < 128) (str_bytes k) ->
      load_nullifiers fs path ⊆ load_nullifiers (torn_append fs path k n) path).
Proof using All.
  intros Hk.
  assert (Hload : load_nullifiers (torn_append fs path k n) path
    = if utf8_valid (str_bytes (torn_key k n)) then load_line (load_nullifiers fs path) (torn_key k n) else ∅).
  { destruct (decide (n <= length (str_bytes k))%nat).
    - rewrite torn_append_part by done. by apply load_behind, torn_key_line.
    - rewrite torn_append_whole, torn_key_whole, (ck_valid k Hk) by lia.
      destruct (append_load fs path k) as [-> _]; [done..|]. by rewrite load_canonical. }
  split; [done|]. split.
  - intros Hn. rewrite Hload, torn_key_whole, (ck_valid k Hk) by done. by apply load_canonical.
  - intros Ha. rewrite Hload, ascii_torn by done. unfold load_line. destruct (negb _); set_solver.
Qed.

(** C33: a torn line swallows the next credential.  When the line of a key was cut
    before its newline, the key appended next is written behind what is there,
    and the next load reads one key made of both: the credential appended last,
    whose append succeeded, is forgotten. *)
Theorem torn_append_swallows k n k2 :
  canonical_key k -> canonical_key k2 -> (0 < n <= length (str_bytes k))%nat ->
  utf8_valid (str_bytes (torn_key k n)) = true ->
  let fs' := append_nullifier (torn_append fs path k n) path k2 in
  load_nullifiers fs' path = {[torn_key k n +:+ k2]} ∪ load_nullifiers fs path
  /\ (k2 ∉ load_nullifiers fs path -> k2 ∉ load_nullifiers fs' path).
Proof using All.
  intros Hk Hk2 Hn Hv. cbv zeta.
  assert (Hne : torn_key k n <> "").
  { intros E. apply (f_equal (fun s => length (str_bytes s))) in E. rewrite torn_key_bytes, length_take in E.
    change (length (str_bytes "")) with 0%nat in E. lia. }
  assert (Hl : load_nullifiers (append_nullifier (torn_append fs path k n) path k2) path
    = {[torn_key k n +:+ k2]} ∪ load_nullifiers fs path).
  { unfold append_nullifier. rewrite torn_append_part, is_empty_false, append_file_twice, <-str_app_assoc by (done || lia).
    pose proof (append_load fs path (torn_key k n +:+ k2)) as Ha. unfold append_nullifier in Ha.
    rewrite is_empty_false in Ha by done. apply Ha; [done..|]. by apply torn_key_joined. }
  split; [exact Hl|]. rewrite Hl, not_elem_of_union, not_elem_of_singleton. intros Hnew. split; [|done].
  intros E. apply (f_equal (fun s => length (str_bytes s))) in E. rewrite str_bytes_app, length_app in E.
  apply Hne. rewrite <-(bytes_str_bytes (torn_key k n)). by rewrite (nil_length_inv (str_bytes (torn_key k n))) by lia.
Qed.
End TornStore.

(** ** Witnesses *)

Definition torn_sample := torn_append sample_fs "/var/nul" "keycard-attestation:aa11" 22.

Lemma torn_append_loads_witness :
  load_nullifiers (U := caseless_tables) torn_sample "/var/nul"
  = {["keycard-attestation:aa"; "eth-allowlist:0xdead"]}
  /\ load_nullifiers (U := caseless_tables) sample_fs "/var/nul"
     ⊆ load_nullifiers (U := caseless_tables) torn_sample "/var/nul".
Proof.
  destruct (torn_append_loads (U := caseless_tables) sample_fs "/var/nul" ltac:(done) eq_refl eq_refl
    sample_in_shape "keycard-attestation:aa11" 22) as (He & _ & Hs).
  - exact sample_key.
  - split; [unfold torn_sample; rewrite He; vm_compute; reflexivity|]. apply Hs. repeat constructor.
Defined.

Lemma torn_append_swallows_witness :
  load_nullifiers (U := caseless_tables) (append_nullifier torn_sample "/var/nul" "t:bb22") "/var/nul"
  = {["keycard-attestation:aat:bb22"]} ∪ load_nullifiers (U := caseless_tables) sample_fs "/var/nul".
Proof.
  apply (torn_append_swallows (U := caseless_tables) sample_fs "/var/nul" ltac:(done) eq_refl eq_refl
    sample_in_shape "keycard-attestation:aa11" 22 "t:bb22").
  - exact sample_key.
  - by apply key_by_computation.
  - vm_compute. lia.
  - reflexivity.
Defined.
