(* ===== verification/Json.v ===== *)
(** * JSON values and the serde interface

    [serde_json]'s [Value] with the accessors the sources call, and the class
    [SerdeJson] of its parser and printer, which are third-party code: the
    development uses only the laws of [SerdeJsonLaws], and of [SerdeTexts] where
    it matters that its texts are Rust strings.  serde_json is built
    without [preserve_order], so an object is a [BTreeMap]: a list of members
    with strictly increasing keys.  The derived [Deserialize] of a struct reads
    its fields by name from an object or by position from an array. *)
From S2P Require Import Prelude RustStd.

Inductive Number : Type :=
| PosInt (n : Z)
| NegInt (n : Z)
| Float (bits : Z).

#[warnings="-register-all"]
Inductive Value : Type :=
| VNull
| VBool (b : bool)
| VNumber (n : Number)
| VString (s : string)
| VArray (l : list Value)
| VObject (m : list (string * Value)).

(** ** Objects *)

Fixpoint obj_get (k : string) (m : list (string * Value)) : option Value :=
  match m with
  | [] => None
  | (k', v) :: m => if decide (k = k') then Some v else obj_get k m
  end.

(** [BTreeMap::insert] *)
Fixpoint obj_insert (k : string) (v : Value) (m : list (string * Value)) : list (string * Value) :=
  match m with
  | [] => [(k, v)]
  | (k', v') :: r =>
      match String.compare k k' with
      | Lt => (k, v) :: m
      | Eq => (k, v) :: r
      | Gt => (k', v') :: obj_insert k v r
      end
  end.

(** [json!({k: v, ...})] *)
Definition json_obj (l : list (string * Value)) : Value :=
  VObject (fold_left (fun m p => obj_insert p.1 p.2 m) l []).

(** ** Accessors *)

(** [v.get(k)] *)
Definition vget (v : Value) (k : string) : option Value :=
  match v with VObject m => obj_get k m | _ => None end.
Definition as_str (v : Value) : option string := match v with VString s => Some s | _ => None end.
Definition as_bool (v : Value) : option bool := match v with VBool b => Some b | _ => None end.
Definition as_u64 (v : Value) : option Z :=
  match v with VNumber (PosInt n) => Some n | _ => None end.
Definition as_array (v : Value) : option (list Value) :=
  match v with VArray l => Some l | _ => None end.
Definition is_object (v : Value) : bool := match v with VObject _ => true | _ => false end.

(** [v.get(k).and_then(Value::as_str)] and the like *)
Definition get_str (v : Value) (k : string) : option string := vget v k ≫= as_str.
Definition get_u64 (v : Value) (k : string) : option Z := vget v k ≫= as_u64.
Definition get_bool (v : Value) (k : string) : option bool := vget v k ≫= as_bool.

(** ** Well-formed values: what a [Value] built by the program can hold *)

Definition number_wf (n : Number) : Prop :=
  match n with
  | PosInt z => is_u64 z
  | NegInt z => - 2 ^ 63 <= z < 0
  | Float _ => False
  end.

Definition key_below (k : string) (m : list (string * Value)) : Prop :=
  match m with (k', _) :: _ => String.compare k k' = Lt | [] => True end.

Fixpoint keys_sorted (m : list (string * Value)) : Prop :=
  match m with
  | (k, _) :: m => key_below k m /\ keys_sorted m
  | [] => True
  end.

(** No floats, UTF-8 strings, increasing keys, and nesting below the parser's
    recursion limit. *)
Fixpoint json_wf (depth : nat) (v : Value) : Prop :=
  match depth with
  | O => False
  | S depth =>
      match v with
      | VNull | VBool _ => True
      | VNumber n => number_wf n
      | VString s => str_valid s
      | VArray l => Forall (json_wf depth) l
      | VObject m =>
          keys_sorted m /\ Forall (fun p => str_valid p.1 /\ json_wf depth p.2) m
      end
  end.

Definition max_depth : nat := 120.

(** Every text in a value is UTF-8 and every unsigned number 64 bits, at any
    depth and with any floats: what the types of the crate say. *)
Fixpoint texts (v : Value) : bool :=
  match v with
  | VNumber (PosInt z) => (0 <=? z) && (z <? 2 ^ 64)
  | VString s => utf8_valid (str_bytes s)
  | VArray l => forallb texts l
  | VObject m => forallb (fun p => utf8_valid (str_bytes p.1) && texts p.2) m
  | _ => true
  end.

(** ** serde *)

Inductive SerdeErr : Type :=
| MissingField (field : string)
| InvalidType (v : Value)
| InvalidLength (n : nat).

Class SerdeJson := {
  (** [serde_json::from_str::<Value>], an error as its [Display] text *)
  from_str : string -> result Value string;
  (** [Value::to_string] *)
  to_string : Value -> string;
  (** [serde_json::from_str::<T>] for a [T] that reads itself from a value *)
  from_str_as : forall {A : Type}, (Value -> result A string) -> string -> result A string;
  (** [serde_json::to_string] of a struct with these fields, in this order *)
  to_string_fields : list (string * Value) -> result string string;
  (** the [Display] text of a deserialisation error *)
  serde_msg : SerdeErr -> string
}.

Class SerdeJsonLaws (J : SerdeJson) : Prop := {
  from_str_to_string v : json_wf max_depth v -> from_str (to_string v) = Ok v;
  (** a text is not empty, and control characters in it are escaped *)
  to_string_text v :
    json_wf max_depth v ->
    str_valid (to_string v) /\ to_string v <> "" /\ (x00 ∉ str_bytes (to_string v));
  to_string_fields_ok fs :
    NoDup fs.*1 -> json_wf max_depth (json_obj fs) ->
    exists s, to_string_fields fs = Ok s /\ from_str s = Ok (json_obj fs)
      /\ s <> "" /\ str_valid s
      /\ forall A (fv : Value -> result A string),
           result_ok (from_str_as fv s) = result_ok (fv (json_obj fs))
}.

(** The texts of the crate are Rust strings: values read from a Rust string, and
    the [Display] texts of its errors. *)
Class SerdeTexts (J : SerdeJson) : Prop := {
  from_str_texts s :
    str_valid s -> match from_str s with Ok v => texts v = true | Err e => str_valid e end;
  to_string_fields_text fs e : to_string_fields fs = Err e -> str_valid e;
  missing_field_text f : str_valid f -> str_valid (serde_msg (MissingField f));
  invalid_type_text v : texts v = true -> str_valid (serde_msg (InvalidType v));
  invalid_length_text n : str_valid (serde_msg (InvalidLength n))
}.

Section Derive.
Context {J : SerdeJson}.

(** Where a derived struct visitor finds the field [k]: by name in an object,
    by its position in an array that is not longer than the struct. *)
Definition struct_fields (names : list string) (v : Value) : result (string -> option Value) string :=
  match v with
  | VObject m => Ok (fun k => obj_get k m)
  | VArray l =>
      if (length names <? length l)%nat then Err (serde_msg (InvalidLength (length l)))
      else Ok (fun k => list_find (eq k) names ≫= fun p => l !! p.1)
  | _ => Err (serde_msg (InvalidType v))
  end.

Definition de_string (v : Value) : result string string :=
  match v with VString s => Ok s | _ => Err (serde_msg (InvalidType v)) end.
Definition de_bool (v : Value) : result bool string :=
  match v with VBool b => Ok b | _ => Err (serde_msg (InvalidType v)) end.
Definition de_u64 (v : Value) : result Z string :=
  match v with VNumber (PosInt n) => Ok n | _ => Err (serde_msg (InvalidType v)) end.
Definition de_value (v : Value) : result Value string := Ok v.

(** [Option<T>]: [null] is [None]. *)
Definition de_option {A} (de : Value -> result A string) (v : Value) : result (option A) string :=
  match v with
  | VNull => Ok None
  | _ => let? a := de v in Ok (Some a)
  end.

Definition field_required {A} (src : string -> option Value) (k : string)
    (de : Value -> result A string) : result A string :=
  match src k with Some v => de v | None => Err (serde_msg (MissingField k)) end.

(** [#[serde(default)]] *)
Definition field_default {A} (src : string -> option Value) (k : string) (d : A)
    (de : Value -> result A string) : result A string :=
  match src k with Some v => de v | None => Ok d end.
End Derive.

(** [skip_serializing_if = "Option::is_none"] *)
Definition ser_option (k : string) (v : option Value) : list (string * Value) :=
  match v with Some v => [(k, v)] | None => [] end.

(** ** Lemmas *)

Lemma json_wf_texts depth v : json_wf depth v -> texts v = true.
Proof.
  revert v. induction depth as [|depth IH]; intros v Hv; [done|]. destruct v as [|b|n|s|l|m]; cbn in *; try done.
  - destruct n as [z|z|z]; try done. destruct Hv as [H0 H1]. apply andb_true_iff.
    split; [by apply Z.leb_le|by apply Z.ltb_lt].
  - apply forallb_forall. intros v Hin. apply IH. apply list_elem_of_In in Hin. rewrite Forall_forall in Hv. auto.
  - destruct Hv as [_ Hv]. apply forallb_forall. intros p Hin. apply list_elem_of_In in Hin.
    rewrite Forall_forall in Hv. destruct (Hv p Hin) as [Hk Hp]. apply andb_true_iff. split; [done|]. by apply IH.
Qed.

(** Looking into such a value. *)
Lemma texts_vget v k x : texts v = true -> vget v k = Some x -> texts x = true.
Proof.
  destruct v as [| | | | |m]; cbn; try done. intros Hm. induction m as [|[k' v'] m IH]; cbn in *; [done|].
  apply andb_true_iff in Hm as [[_ Hv]%andb_true_iff Hm]. case_decide; [by intros [= <-]|by apply IH].
Qed.

Lemma texts_get_str v k s : texts v = true -> get_str v k = Some s -> str_valid s.
Proof.
  intros Hv. unfold get_str. destruct (vget v k) as [x|] eqn:Hx; [|done]. cbn.
  pose proof (texts_vget v k x Hv Hx) as Ht. destruct x; try done. intros [= <-]. exact Ht.
Qed.

Lemma texts_get_u64 v k n : texts v = true -> get_u64 v k = Some n -> is_u64 n.
Proof.
  intros Hv. unfold get_u64. destruct (vget v k) as [x|] eqn:Hx; [|done]. cbn.
  pose proof (texts_vget v k x Hv Hx) as Ht. destruct x as [| |[z|z|z]| | |]; try done. intros [= <-].
  apply andb_true_iff in Ht as [?%Z.leb_le ?%Z.ltb_lt]. done.
Qed.

Lemma string_compare_refl k : String.compare k k = Eq.
Proof.
  induction k as [|a k IH]; simpl; [done|]. unfold Ascii.compare. by rewrite N.compare_refl.
Qed.

Lemma obj_get_insert k k' v m :
  obj_get k (obj_insert k' v m) = if decide (k = k') then Some v else obj_get k m.
Proof.
  induction m as [|[k2 v2] m IH]; simpl; [by repeat case_decide|].
  destruct (String.compare k' k2) eqn:E; simpl.
  - apply String.compare_eq_iff in E as ->. by repeat case_decide.
  - by repeat case_decide.
  - rewrite IH. repeat case_decide; try done. subst. subst.
    by rewrite string_compare_refl in E.
Qed.

Lemma obj_get_fold k l m :
  obj_get k (fold_left (fun m p => obj_insert p.1 p.2 m) l m)
  = match obj_get k (reverse l) with Some v => Some v | None => obj_get k m end.
Proof.
  revert m. induction l as [|[k' v'] l IH] using rev_ind; intros m; [done|].
  rewrite fold_left_app, reverse_app. simpl. rewrite obj_get_insert, IH. by case_decide.
Qed.

Lemma obj_get_elem k l v : obj_get k l = Some v -> (k, v) ∈ l.
Proof.
  induction l as [|[k' v'] l IH]; simpl; [done|]. rewrite elem_of_cons.
  case_decide; [intros; simplify_eq; auto|auto].
Qed.

Lemma obj_get_NoDup k v l : NoDup l.*1 -> (k, v) ∈ l -> obj_get k l = Some v.
Proof.
  induction l as [|[k' v'] l IH]; [by intros ? ?%not_elem_of_nil|].
  rewrite fmap_cons, NoDup_cons, elem_of_cons. intros [Hn Hd] [E|Hin]; simpl in *.
  - simplify_eq. by rewrite decide_True.
  - rewrite decide_False; [auto|]. intros ->. apply Hn, list_elem_of_fmap. by exists (k', v).
Qed.

Lemma obj_get_None k l : k ∉ l.*1 -> obj_get k l = None.
Proof.
  induction l as [|[k' v'] l IH]; [done|].
  rewrite fmap_cons, not_elem_of_cons. intros [Hk Hl]. simpl. rewrite decide_False; auto.
Qed.

(** Reading back a member of a [json!] object. *)
Lemma vget_json_obj k l :
  NoDup l.*1 -> vget (json_obj l) k = obj_get k l.
Proof.
  intros Hd. unfold json_obj, vget. rewrite obj_get_fold. simpl.
  destruct (obj_get k (reverse l)) as [v|] eqn:E.
  - apply obj_get_elem in E. rewrite elem_of_reverse in E. symmetry. by apply obj_get_NoDup.
  - destruct (obj_get k l) as [v|] eqn:E'; [|done].
    apply obj_get_elem in E'. rewrite <-E.
    apply obj_get_NoDup; [|by apply elem_of_reverse].
    rewrite fmap_reverse, reverse_Permutation. done.
Qed.

Lemma string_compare_lt_gt a b : String.compare a b = Gt -> String.compare b a = Lt.
Proof. intros H. rewrite String.compare_antisym, H. done. Qed.

Lemma obj_insert_sorted k v m : keys_sorted m -> keys_sorted (obj_insert k v m).
Proof.
  induction m as [|[k1 v1] m IH]; intros Hs; [done|]. cbn [obj_insert].
  destruct (String.compare k k1) eqn:E.
  - apply String.compare_eq_iff in E as ->. done.
  - by split.
  - apply string_compare_lt_gt in E. destruct Hs as [Hk Hs]. split; [|auto].
    destruct m as [|[k2 v2] m]; [done|]. cbn [obj_insert key_below] in *.
    by destruct (String.compare k k2).
Qed.

Lemma Forall_obj_insert (P : string * Value -> Prop) k v m :
  P (k, v) -> Forall P m -> Forall P (obj_insert k v m).
Proof.
  intros Hp. induction 1 as [|[k' v'] m Hx Hm IH]; simpl; [by constructor|].
  destruct (String.compare k k'); repeat constructor; auto.
Qed.

(** A [json!] object of well-formed members is well formed. *)
Lemma json_obj_wf depth l :
  Forall (fun p => str_valid p.1 /\ json_wf depth p.2) l -> json_wf (S depth) (json_obj l).
Proof.
  intros Hl. unfold json_obj. cbn [json_wf].
  assert (Hg : forall m, keys_sorted m -> Forall (fun p => str_valid p.1 /\ json_wf depth p.2) m ->
    let m' := fold_left (fun m p => obj_insert p.1 p.2 m) l m in
    keys_sorted m' /\ Forall (fun p => str_valid p.1 /\ json_wf depth p.2) m').
  { induction Hl as [|[k v] l Hp Hl IH]; intros m Hs Hm; [done|]. simpl.
    apply IH; [by apply obj_insert_sorted|by apply Forall_obj_insert]. }
  by apply (Hg []).
Qed.

Lemma json_wf_mono n m v : (n <= m)%nat -> json_wf n v -> json_wf m v.
Proof.
  revert m v. induction n as [|n IH]; intros [|m] v Hle; try lia; [done..|].
  destruct v as [|b|x|s|l|o]; try done; cbn [json_wf].
  - intros H. eapply Forall_impl; [exact H|]. intros v. apply IH. lia.
  - intros [Hs H]. split; [done|]. eapply Forall_impl; [exact H|]. intros p [Hk Hv].
    split; [done|]. eapply IH; [|done]. lia.
Qed.

Lemma get_str_obj k l s : NoDup l.*1 -> (k, VString s) ∈ l -> get_str (json_obj l) k = Some s.
Proof. intros Hd Hk. unfold get_str. by rewrite vget_json_obj, (obj_get_NoDup _ _ _ Hd Hk). Qed.

(** The members of a struct, one at a time. *)
Lemma members_nil depth : Forall (fun p => str_valid p.1 /\ json_wf depth p.2) [].
Proof. constructor. Qed.

Lemma members_cons depth k v l :
  utf8_valid (str_bytes k) = true -> json_wf depth v ->
  Forall (fun p => str_valid p.1 /\ json_wf depth p.2) l ->
  Forall (fun p => str_valid p.1 /\ json_wf depth p.2) ((k, v) :: l).
Proof. by constructor. Qed.

Lemma json_wf_string depth s : str_valid s -> json_wf (S depth) (VString s).
Proof. done. Qed.
Lemma json_wf_array depth l : Forall (json_wf depth) l -> json_wf (S depth) (VArray l).
Proof. done. Qed.
Lemma json_wf_bool depth b : json_wf (S depth) (VBool b).
Proof. done. Qed.
Lemma json_wf_u64 depth n : is_u64 n -> json_wf (S depth) (VNumber (PosInt n)).
Proof. done. Qed.

(** Discharge the well-formedness of a literal list of members. *)
Ltac solve_members :=
  repeat lazymatch goal with
  | |- Forall _ [] => apply members_nil
  | |- Forall _ (_ :: _) => apply members_cons; [vm_compute; reflexivity| |]
  | |- json_wf _ (VString _) => apply json_wf_string
  | |- json_wf _ (VBool _) => apply json_wf_bool
  | |- json_wf _ (VNumber _) => apply json_wf_u64
  end.

#[global] Opaque json_wf.
