(* ===== verification/Crates.v ===== *)
(** * Third-party crates as interfaces

    The [hex] and [base64] crates: their functions are parameters of the
    development, their documented behaviour the laws of a class.  An error is
    the text of its [Display]. *)
From S2P Require Import Prelude RustStd.

Class HexCrate := {
  hex_encode : list byte -> string;
  hex_decode : string -> result (list byte) string
}.

(** The digits [hex::encode] writes. *)
Definition is_hex_lower (b : byte) : bool :=
  ((48 <=? u8 b) && (u8 b <=? 57)) || ((97 <=? u8 b) && (u8 b <=? 102)).

(** The digits [hex::decode] accepts. *)
Definition is_hex_digit (b : byte) : bool :=
  is_hex_lower b || ((65 <=? u8 b) && (u8 b <=? 70)).

Definition ascii_lower (b : byte) : byte :=
  if (65 <=? u8 b) && (u8 b <=? 90) then to_u8 (u8 b + 32) else b.

Class HexLaws (H : HexCrate) : Prop := {
  hex_decode_encode bs : hex_decode (hex_encode bs) = Ok bs;
  (** lowercase digits, two per byte *)
  hex_encode_digits bs : forallb is_hex_lower (str_bytes (hex_encode bs)) = true;
  hex_encode_length bs : length (str_bytes (hex_encode bs)) = (2 * length bs)%nat;
  (** both cases are accepted, nothing else *)
  hex_decode_digits s bs : hex_decode s = Ok bs -> forallb is_hex_digit (str_bytes s) = true;
  hex_encode_decode s bs :
    hex_decode s = Ok bs -> str_bytes (hex_encode bs) = ascii_lower <$> str_bytes s
}.

(** Text of ASCII characters. *)
Definition is_ascii (s : string) : Prop := Forall (fun b => u8 b < 128) (str_bytes s).

(** The [base64] crate's standard engine (padded). *)
Class Base64Crate := {
  base64_encode : list byte -> string;
  base64_decode : string -> result (list byte) string
}.

Class Base64Laws (B : Base64Crate) : Prop := {
  base64_decode_encode bs : base64_decode (base64_encode bs) = Ok bs;
  (** an ASCII alphabet *)
  base64_encode_ascii bs : is_ascii (base64_encode bs)
}.

(** ** Lemmas *)

Lemma is_hex_digit_ascii b : is_hex_digit b = true -> u8 b < 128.
Proof. destruct b; vm_compute; done. Qed.

Lemma is_hex_lower_digit b : is_hex_lower b = true -> is_hex_digit b = true.
Proof. unfold is_hex_digit. by intros ->. Qed.

(** It is UTF-8, character by character. *)
Lemma is_ascii_chars s :
  is_ascii s -> str_valid s /\ chars s = u8 <$> str_bytes s.
Proof.
  unfold is_ascii. intros H.
  assert (E : str_bytes s = encode_str (u8 <$> str_bytes s)).
  { induction H as [|b l Hb _ IH]; [done|]. rewrite fmap_cons, encode_str_cons, <-IH.
    unfold encode_utf8. by rewrite (proj2 (Z.ltb_lt _ _) Hb), to_u8_u8. }
  assert (Hs : Forall is_scalar (u8 <$> str_bytes s)).
  { apply Forall_fmap. eapply Forall_impl; [exact H|]. intros b Hb.
    pose proof (u8_range b). unfold is_scalar. simpl. lia. }
  assert (Hc : s = of_chars (u8 <$> str_bytes s)).
  { apply str_bytes_inj. unfold of_chars. by rewrite str_bytes_str. }
  split; [apply str_valid_chars; eauto|]. rewrite Hc at 1. by apply chars_of_chars.
Qed.

Lemma is_ascii_app s t : is_ascii s -> is_ascii t -> is_ascii (s +:+ t).
Proof. unfold is_ascii. rewrite str_bytes_app. by apply Forall_app_2. Qed.

Lemma forallb_is_true {A} (p : A -> bool) l : forallb p l = true -> Forall (fun a => p a = true) l.
Proof. intros H. apply Forall_forall. intros a Ha. eapply forallb_forall; [done|]. by apply list_elem_of_In. Qed.

Section HexLemmas.
Context {H : HexCrate} {HL : HexLaws H}.

Lemma hex_encode_ascii bs : is_ascii (hex_encode bs).
Proof.
  eapply Forall_impl; [apply forallb_is_true, hex_encode_digits|].
  intros b Hb. by apply is_hex_digit_ascii, is_hex_lower_digit.
Qed.

Lemma hex_decode_ascii s bs : hex_decode s = Ok bs -> is_ascii s.
Proof.
  intros Hd. eapply Forall_impl; [eapply forallb_is_true, hex_decode_digits, Hd|].
  intros b. apply is_hex_digit_ascii.
Qed.

Lemma hex_encode_inj a b : hex_encode a = hex_encode b -> a = b.
Proof. intros E. pose proof (hex_decode_encode a) as Ha. rewrite E, hex_decode_encode in Ha. congruence. Qed.

Lemma hex_encode_valid bs : str_valid (hex_encode bs).
Proof. apply is_ascii_chars, hex_encode_ascii. Qed.
End HexLemmas.

#[export] Hint Resolve hex_encode_ascii hex_encode_valid : gifter.

(** ** Concrete instances *)

Module HexInstance.

Definition digit (z : Z) : byte := to_u8 (if z <? 10 then 48 + z else 87 + z).

Definition undigit (b : byte) : option Z :=
  let x := u8 b in
  if (48 <=? x) && (x <=? 57) then Some (x - 48)
  else if (97 <=? x) && (x <=? 102) then Some (x - 87)
  else if (65 <=? x) && (x <=? 70) then Some (x - 55)
  else None.

Definition encode_byte (b : byte) : list byte := [digit (u8 b / 16); digit (u8 b mod 16)].

Fixpoint decode_bytes (l : list byte) : option (list byte) :=
  match l with
  | [] => Some []
  | h :: t =>
      match t with
      | l :: r =>
          match undigit h, undigit l, decode_bytes r with
          | Some x, Some y, Some d => Some (to_u8 (16 * x + y) :: d)
          | _, _, _ => None
          end
      | [] => None
      end
  end.

#[export] Instance hex_instance : HexCrate := {|
  hex_encode bs := bytes_str (concat (encode_byte <$> bs));
  hex_decode s := ok_or (decode_bytes (str_bytes s)) "Invalid character or length" |}.

Lemma decode_byte b : undigit (digit (u8 b / 16)) = Some (u8 b / 16)
  /\ undigit (digit (u8 b mod 16)) = Some (u8 b mod 16) /\ to_u8 (16 * (u8 b / 16) + u8 b mod 16) = b
  /\ forallb is_hex_lower (encode_byte b) = true.
Proof. destruct b; vm_compute; done. Qed.

Lemma undigit_spec b x : undigit b = Some x ->
  is_hex_digit b = true /\ 0 <= x < 16 /\ digit x = ascii_lower b.
Proof. destruct b; vm_compute; try done; intros [= <-]; done. Qed.

Lemma encode_join x y : 0 <= x < 16 -> 0 <= y < 16 ->
  encode_byte (to_u8 (16 * x + y)) = [digit x; digit y].
Proof.
  intros Hx Hy. unfold encode_byte. rewrite u8_to_u8_small by lia.
  rewrite (Z.mul_comm 16), Z.div_add_l, (Z.div_small y), Z.add_0_r by lia.
  rewrite Z.add_comm, Z.mod_add, Z.mod_small by lia. done.
Qed.

Lemma decode_bytes_spec n l bs :
  (length l <= n)%nat -> decode_bytes l = Some bs ->
  forallb is_hex_digit l = true /\ concat (encode_byte <$> bs) = ascii_lower <$> l.
Proof.
  revert l bs. induction n as [|n IH]; intros [|h [|t l]] bs Hl Hd; simpl in *; try lia;
    simplify_eq; try done.
  destruct (undigit h) as [x|] eqn:Hh; [|done]. destruct (undigit t) as [y|] eqn:Ht; [|done].
  destruct (decode_bytes l) as [d|] eqn:E; [|done]. simplify_eq.
  destruct (IH l d ltac:(lia) E) as [IH1 IH2].
  apply undigit_spec in Hh as (H1 & Hx & H2), Ht as (H3 & Hy & H4).
  rewrite H1, H3, IH1. split; [done|]. cbn [fmap list_fmap concat].
  change (list_fmap _ _ encode_byte d) with (encode_byte <$> d).
  rewrite encode_join, IH2, H2, H4 by done. done.
Qed.

#[export] Instance hex_instance_laws : HexLaws hex_instance.
Proof.
  constructor; cbn.
  - intros bs. rewrite str_bytes_str. enough (decode_bytes (concat (encode_byte <$> bs)) = Some bs) as ->; [done|].
    induction bs as [|b bs IH]; [done|]. destruct (decode_byte b) as (H1 & H2 & H3 & _).
    cbn. rewrite H1, H2. change (concat (list_fmap _ _ encode_byte bs)) with (concat (encode_byte <$> bs)).
    by rewrite IH, H3.
  - intros bs. rewrite str_bytes_str. induction bs as [|b bs IH]; [done|].
    destruct (decode_byte b) as (_ & _ & _ & H). rewrite fmap_cons. cbn [concat].
    by rewrite forallb_app, H, IH.
  - intros bs. rewrite str_bytes_str. induction bs as [|b bs IH]; [done|].
    rewrite fmap_cons. cbn [concat]. rewrite length_app, IH. simpl. lia.
  - intros s bs Hd. destruct (decode_bytes _) eqn:E; simplify_eq/=.
    by eapply decode_bytes_spec.
  - intros s bs Hd. destruct (decode_bytes _) eqn:E; simplify_eq/=. rewrite str_bytes_str.
    by eapply decode_bytes_spec.
Qed.

(** Any invertible text encoding will do for [base64]. *)
#[export] Instance base64_instance : Base64Crate := {|
  base64_encode := hex_encode; base64_decode := hex_decode |}.

#[export] Instance base64_instance_laws : Base64Laws base64_instance.
Proof.
  constructor; [apply (hex_decode_encode (H := hex_instance))|].
  apply (hex_encode_ascii (H := hex_instance)).
Qed.

End HexInstance.

(** ** Texts built by the program *)

Lemma pretty_N_go_ascii x s : is_ascii s -> is_ascii (pretty_N_go x s).
Proof.
  revert s. induction (N.lt_wf_0 x) as [x _ IH]; intros s Hs.
  destruct (decide (0 < x)%N) as [Hx|Hx].
  2:{ assert (x = 0%N) as -> by lia. by rewrite pretty_N_go_0. }
  rewrite pretty_N_go_step by done. apply IH; [by apply N.div_lt|].
  unfold is_ascii. change (str_bytes (String (pretty_N_char (x `mod` 10)) s))
    with (Ascii.byte_of_ascii (pretty_N_char (x `mod` 10)) :: str_bytes s).
  constructor; [|done]. unfold pretty_N_char. repeat case_match; by vm_compute.
Qed.

Lemma pretty_valid (z : Z) : str_valid (pretty z).
Proof.
  assert (Hn : forall n : N, is_ascii (pretty n)).
  { intros n. unfold pretty, pretty_N. case_decide; [by repeat constructor|].
    apply pretty_N_go_ascii. constructor. }
  apply is_ascii_chars. destruct z as [|p|p]; cbn; [by repeat constructor|apply Hn|].
  apply (is_ascii_app "-"); [by repeat constructor|apply Hn].
Qed.

(** A message is literals, numbers, hexadecimal text and texts known valid. *)
Ltac valid_text :=
  repeat match goal with
    | H : str_valid ?s |- str_valid ?s => exact H
    | |- str_valid (_ +:+ _) => apply str_valid_app
    | |- str_valid (hex_encode _) => apply hex_encode_valid
    | |- str_valid (pretty _) => apply pretty_valid
    | |- str_valid (String _ _) => vm_compute; reflexivity
    end.
