(* ===== verification/JsonInstance.v ===== *)
(** * A concrete JSON text format

    An instance of [SerdeJson] that satisfies [SerdeJsonLaws]: a value is
    written as the binary digits of its [Countable] code.  It shows that the
    laws can hold, and the witnesses run the models on it. *)
From S2P Require Import Prelude RustStd Json Crates.
From stdpp Require Import countable.

Section ValueInd.
Context (P : Value -> Prop).
Context (Hnull : P VNull) (Hbool : forall b, P (VBool b)) (Hnum : forall n, P (VNumber n))
  (Hstr : forall s, P (VString s)) (Harr : forall l, Forall P l -> P (VArray l))
  (Hobj : forall m, Forall (fun p => P p.2) m -> P (VObject m)).

Fixpoint Value_nested_ind (v : Value) : P v :=
  match v with
  | VNull => Hnull
  | VBool b => Hbool b
  | VNumber n => Hnum n
  | VString s => Hstr s
  | VArray l =>
      Harr l ((fix go (l : list Value) : Forall P l :=
                 match l with
                 | [] => Forall_nil_2 _
                 | v :: l => Forall_cons_2 _ _ _ (Value_nested_ind v) (go l)
                 end) l)
  | VObject m =>
      Hobj m ((fix go (m : list (string * Value)) : Forall (fun p => P p.2) m :=
                 match m with
                 | [] => Forall_nil_2 _
                 | (k, v) :: m => Forall_cons_2 (fun p => P p.2) (k, v) m (Value_nested_ind v) (go m)
                 end) m)
  end.
End ValueInd.

(** Leaves of the code: an integer or a text. *)
Abbreviation leaf := (Z + string)%type.

Fixpoint to_tree (v : Value) : gen_tree leaf :=
  match v with
  | VNull => GenNode 0 []
  | VBool b => GenNode 1 [GenLeaf (inl (Z.b2z b))]
  | VNumber (PosInt n) => GenNode 2 [GenLeaf (inl n)]
  | VNumber (NegInt n) => GenNode 3 [GenLeaf (inl n)]
  | VNumber (Float n) => GenNode 4 [GenLeaf (inl n)]
  | VString s => GenNode 5 [GenLeaf (inr s)]
  | VArray l => GenNode 6 (to_tree <$> l)
  | VObject m => GenNode 7 ((fun p => GenNode 8 [GenLeaf (inr p.1); to_tree p.2]) <$> m)
  end.

Fixpoint of_tree (t : gen_tree leaf) : Value :=
  match t with
  | GenNode 1 [GenLeaf (inl z)] => VBool (Z.eqb z 1)
  | GenNode 2 [GenLeaf (inl n)] => VNumber (PosInt n)
  | GenNode 3 [GenLeaf (inl n)] => VNumber (NegInt n)
  | GenNode 4 [GenLeaf (inl n)] => VNumber (Float n)
  | GenNode 5 [GenLeaf (inr s)] => VString s
  | GenNode 6 l => VArray (of_tree <$> l)
  | GenNode 7 l =>
      VObject ((fun t => match t with
                         | GenNode 8 [GenLeaf (inr k); v] => (k, of_tree v)
                         | _ => ("", VNull)
                         end) <$> l)
  | _ => VNull
  end.

Lemma of_to_tree v : of_tree (to_tree v) = v.
Proof.
  induction v as [|[]|[]| |l IH|m IH] using Value_nested_ind; try done; cbn; f_equal.
  - induction IH as [|v l Hv _ IH]; [done|]. cbn. by rewrite Hv, IH.
  - induction IH as [|[k v] m Hv _ IH]; [done|]. cbn in *. by rewrite Hv, IH.
Qed.

Fixpoint pos_bits (p : positive) : list byte :=
  match p with xH => [x31] | xO p => x30 :: pos_bits p | xI p => x31 :: pos_bits p end.

Fixpoint bits_pos (l : list byte) : option positive :=
  match l with
  | [] => None
  | b :: r =>
      match r with
      | [] => if decide (b = x31) then Some xH else None
      | _ => if decide (b = x31) then xI <$> bits_pos r else xO <$> bits_pos r
      end
  end.

Lemma pos_bits_cons p : exists b r, pos_bits p = b :: r.
Proof. destruct p; simpl; eauto. Qed.

Lemma bits_pos_bits p : bits_pos (pos_bits p) = Some p.
Proof.
  induction p as [p IH|p IH|]; [| |done];
    cbn [pos_bits bits_pos]; destruct (pos_bits_cons p) as (b & r & E);
    rewrite E in *; by rewrite IH.
Qed.

Lemma pos_bits_ascii p : is_ascii (bytes_str (pos_bits p)).
Proof.
  unfold is_ascii. rewrite str_bytes_str. induction p; cbn; repeat constructor; done.
Qed.

Lemma pos_bits_no_nul p : x00 ∉ pos_bits p.
Proof.
  induction p as [p IH|p IH|]; cbn; intros [Hb|Hb]%elem_of_cons; try done.
  by apply not_elem_of_nil in Hb.
Qed.

Definition value_text (v : Value) : string := bytes_str (pos_bits (encode (to_tree v))).
Definition decode_text (s : string) : option Value := of_tree <$> (bits_pos (str_bytes s) ≫= decode).

(** As the types of the crate have it, only values of UTF-8 texts are read. *)
Definition text_value (s : string) : result Value string :=
  match decode_text s with
  | Some v => if texts v then Ok v else Err "expected value"
  | None => Err "expected value"
  end.

Lemma decode_value_text v : decode_text (value_text v) = Some v.
Proof.
  unfold decode_text, value_text. rewrite str_bytes_str, bits_pos_bits. cbn.
  by rewrite decode_encode; cbn; rewrite of_to_tree.
Qed.

Lemma value_text_inj v v' : value_text v = value_text v' -> v = v'.
Proof. intros Hv%(f_equal decode_text). rewrite !decode_value_text in Hv. by injection Hv. Qed.

Lemma text_value_text v : texts v = true -> text_value (value_text v) = Ok v.
Proof. intros Hv. unfold text_value. by rewrite decode_value_text, Hv. Qed.

#[export] Instance json_instance : SerdeJson := {|
  from_str := text_value;
  to_string := value_text;
  from_str_as A fv s := let? v := text_value s in fv v;
  to_string_fields fs := Ok (value_text (json_obj fs));
  serde_msg _ := "invalid value" |}.

#[export] Instance json_instance_laws : SerdeJsonLaws json_instance.
Proof.
  constructor.
  - intros v Hv. by eapply text_value_text, json_wf_texts.
  - intros v _. cbn. unfold value_text. split; [apply is_ascii_chars, pos_bits_ascii|].
    rewrite str_bytes_str. split; [|apply pos_bits_no_nul].
    destruct (pos_bits_cons (encode (to_tree v))) as (b & r & ->).
    by intros E%(f_equal str_bytes); rewrite str_bytes_str in E.
  - intros fs _ Hfs. exists (value_text (json_obj fs)). cbn -[max_depth json_wf] in *.
    rewrite text_value_text by (by eapply json_wf_texts).
    repeat split; try done.
    + unfold value_text. destruct (pos_bits_cons (encode (to_tree (json_obj fs)))) as (b & r & ->).
      by intros E%(f_equal str_bytes); rewrite str_bytes_str in E.
    + apply is_ascii_chars, pos_bits_ascii.
Qed.

#[export] Instance json_instance_texts : SerdeTexts json_instance.
Proof.
  constructor; try (by intros); cbn.
  intros s _. unfold text_value. destruct (decode_text s) as [v|]; [|done]. by destruct (texts v) eqn:Hv.
Qed.
