(* ===== verification/Attest.v ===== *)
(** * Keycard attestations (crates/keycard-attest)

    The TLV reader, the parser of an IDENTIFY_CARD response and its
    verification against trusted CAs and a challenge.  The curve and hash
    crates ([k256], [sha2], [tiny_keccak]) are the classes [K256] and
    [Hashes]; fixed-size arrays are byte lists of that length. *)
From S2P Require Import Prelude RustStd Crates.

(** The parts of [k256::ecdsa] the sources call; an error is its text. *)
Class K256 := {
  Signature : Type;
  VerifyingKey : Type;
  RecoveryId : Type;
  recovery_id : byte -> option RecoveryId;
  signature_from_slice : list byte -> result Signature string;
  signature_from_der : list byte -> result Signature string;
  (** [None] for a signature that is already low-S *)
  normalize_s : Signature -> option Signature;
  recover_from_prehash : list byte -> Signature -> RecoveryId -> result VerifyingKey string;
  (** compressed or not *)
  to_encoded_point : VerifyingKey -> bool -> list byte;
  from_sec1_bytes : list byte -> result VerifyingKey string;
  verify_prehash : VerifyingKey -> list byte -> Signature -> bool
}.

Class Hashes := {
  sha256 : list byte -> list byte;
  keccak256 : list byte -> list byte
}.

Class HashLaws (H : Hashes) : Prop := {
  sha256_length m : length (sha256 m) = 32%nat;
  keccak256_length m : length (keccak256 m) = 32%nat
}.

Definition TAG_SIGNATURE_TEMPLATE : byte := xa0.
Definition TAG_CERTIFICATE : byte := x8a.
Definition TAG_DER_SEQUENCE : byte := x30.
Definition CERTIFICATE_LEN : nat := 98.

Definition ATTEST_DOMAIN : list byte := str_bytes "logos/rln/keycard-attest/1".

Definition STATUS_PRODUCTION_CA : list byte :=
  [x02; x9a; xb9; x9e; xe1; xe7; xa7; x1b; xdf; x45; xb3; xf9; xc5; x8c; x99; x86;
   x6f; xf1; x29; x4d; x2c; x1e; x30; x4e; x22; x8a; x86; xe1; x0c; x33; x43; x50;
   x1c].

Inductive Error : Type :=
| Backend (m : string)
| InvalidSignature
| InvalidInput (m : string).

(** [Display for Error] *)
Definition error_text (e : Error) : string :=
  match e with
  | Backend m => "keycard backend error: " +:+ m
  | InvalidSignature => "signature does not verify"
  | InvalidInput m => "invalid input: " +:+ m
  end.

(** ** The TLV reader *)

(** [buf.get(i).ok_or(..)] *)
Definition byte_at (buf : list byte) (i : nat) (msg : string) : result byte Error :=
  ok_or (buf !! i) (InvalidInput msg).

(** The length at [i] and the size of its encoding. *)
Definition read_len (buf : list byte) (i : nat) : result (nat * nat) Error :=
  let? l0 := byte_at buf i "tlv length truncated" in
  if u8 l0 <? 0x80 then Ok (Z.to_nat (u8 l0), 1%nat)
  else if u8 l0 =? 0x81 then
    let? l := byte_at buf (i + 1) "tlv len81" in
    Ok (Z.to_nat (u8 l), 2%nat)
  else if u8 l0 =? 0x82 then
    let? hi := byte_at buf (i + 1) "tlv len82" in
    let? lo := byte_at buf (i + 2) "tlv len82" in
    Ok (Z.to_nat (Z.lor (Z.shiftl (u8 hi) 8) (u8 lo)), 3%nat)
  else Err (InvalidInput "unsupported tlv length form").

(** [&buf[i..j]], for [i <= j <= buf.len()] *)
Definition slice (i j : nat) (buf : list byte) : list byte := take (j - i) (drop i buf).

(** [{tag:#04x}] *)
Definition hex_tag (tag : byte) : string :=
  let d z := bytes_str [to_u8 (if z <? 10 then 48 + z else 87 + z)] in
  "0x" +:+ d (u8 tag / 16) +:+ d (u8 tag mod 16).

Definition tag_not_found (tag : byte) : Error :=
  InvalidInput ("tlv tag " +:+ hex_tag tag +:+ " not found").

Fixpoint find_loop (fuel : nat) (buf : list byte) (tag : byte) (i : nat)
    : result (list byte * list byte) Error :=
  match fuel with
  | O => Err (tag_not_found tag)
  | S fuel =>
      if negb (i + 1 <? length buf)%nat then Err (tag_not_found tag)
      else
        let? (vlen, lhdr) := read_len buf (i + 1) in
        let vstart := (i + 1 + lhdr)%nat in
        let vend := (vstart + vlen)%nat in
        if negb (vend <=? length buf)%nat then Err (InvalidInput "tlv value out of range")
        else if bool_decide (buf !! i = Some tag) then
          Ok (slice vstart vend buf, slice i vend buf)
        else find_loop fuel buf tag vend
  end.

(** A turn moves on by at least two bytes: the length is fuel enough. *)
Definition find_tag (buf : list byte) (tag : byte) : result (list byte * list byte) Error :=
  find_loop (length buf) buf tag 0.

(** ** Attestations *)

Section Attest.
Context {K : K256} {Hs : Hashes}.

Record Attestation := {
  ident_pub : list byte;
  ca_sig : list byte;
  challenge_sig : Signature
}.

Definition bound_challenge (id_commitment : list byte) : list byte :=
  sha256 (ATTEST_DOMAIN ++ id_commitment).

Definition nullifier (ident_pub : list byte) : list byte := keccak256 ident_pub.

Definition parse_attestation (tlv : list byte) : result Attestation Error :=
  let? (template, _) := find_tag tlv TAG_SIGNATURE_TEMPLATE in
  let? (cert, _) := find_tag template TAG_CERTIFICATE in
  if negb (length cert =? CERTIFICATE_LEN)%nat then
    Err (InvalidInput "certificate must be 98 bytes")
  else
    let ident_pub := slice 0 33 cert in
    let ca_sig := slice 33 98 cert in
    let? (_, der_full) := find_tag template TAG_DER_SEQUENCE in
    let? challenge_sig := map_err (fun e => InvalidInput ("challenge sig DER: " +:+ e))
                            (signature_from_der der_full) in
    Ok {| ident_pub := ident_pub; ca_sig := ca_sig; challenge_sig := challenge_sig |}.

Definition verify_attestation (att : Attestation) (trusted_cas : list (list byte))
    (expected_challenge : list byte) : result (list byte) Error :=
  let msg := sha256 (ident_pub att) in
  let? recid := ok_or (ca_sig att !! 64%nat ≫= recovery_id) (InvalidInput "bad CA recovery id") in
  let? ca_sig := map_err (fun e => InvalidInput ("CA sig: " +:+ e))
                   (signature_from_slice (slice 0 64 (ca_sig att))) in
  let? ca := map_err (fun e => InvalidInput ("CA recover: " +:+ e))
               (recover_from_prehash msg ca_sig recid) in
  let ca_point := to_encoded_point ca true in
  if negb (existsb (fun t => bool_decide (t = ca_point)) trusted_cas) then
    Err (Backend "attestation CA is not trusted")
  else
    let? ident := map_err (fun e => InvalidInput ("ident pub: " +:+ e))
                    (from_sec1_bytes (ident_pub att)) in
    let sig := default (challenge_sig att) (normalize_s (challenge_sig att)) in
    if verify_prehash ident expected_challenge sig then Ok (nullifier (ident_pub att))
    else Err InvalidSignature.
End Attest.

(** ** Specification of the TLV reader *)

(** A length encoding of the accepted forms (not necessarily the shortest). *)
Inductive tlv_len : list byte -> nat -> Prop :=
| len_short b : u8 b < 128 -> tlv_len [b] (Z.to_nat (u8 b))
| len_81 b : tlv_len [x81; b] (Z.to_nat (u8 b))
| len_82 hi lo : tlv_len [x82; hi; lo] (Z.to_nat (u8 hi * 256 + u8 lo)).

(** An element: its tag, its value, and the bytes it takes. *)
Inductive tlv_item : list byte -> byte -> list byte -> Prop :=
| item_intro tag hdr value :
    tlv_len hdr (length value) -> tlv_item (tag :: hdr ++ value) tag value.

(** A sequence of elements none of which has the tag. *)
Inductive tlv_without (tag : byte) : list byte -> Prop :=
| without_nil : tlv_without tag []
| without_cons full t value rest :
    tlv_item full t value -> t <> tag -> tlv_without tag rest ->
    tlv_without tag (full ++ rest).

Lemma read_len_sound buf i vlen lhdr :
  read_len buf i = Ok (vlen, lhdr) ->
  exists hdr rest, drop i buf = hdr ++ rest /\ length hdr = lhdr /\ tlv_len hdr vlen.
Proof.
  assert (Hd : forall j b, buf !! j = Some b -> drop j buf = b :: drop (S j) buf)
    by (intros; by apply drop_S).
  unfold read_len, byte_at. destruct (buf !! i) as [l0|] eqn:H0; [|done]. cbn [ok_or].
  destruct (_ <? _) eqn:E0; bool_to_prop.
  { intros [= <- <-]. exists [l0], (drop (S i) buf). rewrite (Hd _ _ H0). split; [done|].
    split; [done|]. by constructor. }
  destruct (_ =? 0x81) eqn:E1; bool_to_prop.
  { destruct (buf !! (i + 1)%nat) as [l|] eqn:H1; [|done]. cbn [ok_or]. intros [= <- <-].
    assert (l0 = x81) as -> by (apply u8_inj; by rewrite E1).
    exists [x81; l], (drop (S (S i)) buf). rewrite (Hd _ _ H0).
    rewrite Nat.add_1_r in H1. rewrite (Hd _ _ H1). split; [done|]. split; [done|]. constructor. }
  destruct (_ =? 0x82) eqn:E2; bool_to_prop; [|done].
  destruct (buf !! (i + 1)%nat) as [hi|] eqn:H1; [|done].
  destruct (buf !! (i + 2)%nat) as [lo|] eqn:H2; [|done]. cbn [ok_or]. intros [= <- <-].
  assert (l0 = x82) as -> by (apply u8_inj; by rewrite E2).
  exists [x82; hi; lo], (drop (S (S (S i))) buf). rewrite (Hd _ _ H0).
  rewrite Nat.add_1_r in H1. rewrite (Hd _ _ H1).
  replace (i + 2)%nat with (S (S i)) in H2 by lia. rewrite (Hd _ _ H2).
  split; [done|]. split; [done|].
  rewrite Z.lor_comm, Z.shiftl_mul_pow2 by lia. change (2 ^ 8) with 256.
  pose proof (u8_range lo). change 256 with (2 ^ 8) at 1. rewrite lor_disjoint_add by lia.
  rewrite Z.add_comm. constructor.
Qed.

Lemma read_len_complete buf i hdr rest vlen :
  drop i buf = hdr ++ rest -> tlv_len hdr vlen -> read_len buf i = Ok (vlen, length hdr).
Proof.
  intros Hd Hl.
  assert (Hget : forall j, (j < length hdr)%nat -> buf !! (i + j)%nat = hdr !! j).
  { intros j Hj. rewrite <-lookup_drop, Hd. by apply lookup_app_l. }
  unfold read_len, byte_at.
  destruct Hl as [b Hb|b|hi lo].
  - specialize (Hget 0%nat ltac:(cbn; lia)). rewrite Nat.add_0_r in Hget. rewrite Hget. cbn.
    by rewrite (proj2 (Z.ltb_lt _ _) Hb).
  - pose proof (Hget 0%nat ltac:(cbn; lia)) as H0. rewrite Nat.add_0_r in H0. rewrite H0.
    rewrite (Hget 1%nat) by (cbn; lia). done.
  - pose proof (Hget 0%nat ltac:(cbn; lia)) as H0. rewrite Nat.add_0_r in H0. rewrite H0.
    rewrite (Hget 1%nat), (Hget 2%nat) by (cbn; lia). cbn [lookup list_lookup ok_or length].
    change (u8 x82 <? 0x80) with false. change (u8 x82 =? 0x81) with false.
    change (u8 x82 =? 0x82) with true. cbv match.
    rewrite Z.lor_comm, Z.shiftl_mul_pow2 by lia. change (2 ^ 8) with 256 at 1.
    pose proof (u8_range lo). change 256 with (2 ^ 8) at 1. rewrite lor_disjoint_add by lia.
    change (2 ^ 8) with 256. by rewrite (Z.add_comm (u8 lo)).
Qed.

Lemma tlv_len_length hdr n : tlv_len hdr n -> (0 < length hdr)%nat.
Proof. intros []; cbn; lia. Qed.

Lemma slice_mid i (buf hdr value rest : list byte) tag :
  drop i buf = tag :: hdr ++ value ++ rest ->
  let vstart := (i + 1 + length hdr)%nat in
  let vend := (vstart + length value)%nat in
  slice vstart vend buf = value /\ slice i vend buf = tag :: hdr ++ value
  /\ drop vend buf = rest.
Proof.
  intros Hd vstart vend.
  assert (H1 : drop vstart buf = value ++ rest).
  { unfold vstart. rewrite <-Nat.add_assoc, <-drop_drop, Hd. cbn.
    by rewrite drop_app_length. }
  unfold slice. split; [|split].
  - rewrite H1. replace (vend - vstart)%nat with (length value) by lia. by rewrite take_app_length.
  - rewrite Hd. replace (vend - i)%nat with (length (tag :: hdr ++ value)) by (cbn; rewrite length_app; lia).
    change (tag :: hdr ++ value ++ rest) with ((tag :: hdr) ++ value ++ rest).
    rewrite app_assoc. apply take_app_length.
  - unfold vend. rewrite <-drop_drop, H1. by rewrite drop_app_length.
Qed.

(** One turn of the loop on an element. *)
Lemma find_loop_step fuel buf tag i t hdr value rest :
  drop i buf = t :: hdr ++ value ++ rest -> tlv_len hdr (length value) ->
  find_loop (S fuel) buf tag i
  = if decide (t = tag) then Ok (value, t :: hdr ++ value)
    else find_loop fuel buf tag (i + 1 + length hdr + length value).
Proof.
  intros Hd Hl. pose proof (tlv_len_length _ _ Hl) as Hpos.
  assert (Hlen : length buf = (i + 1 + length hdr + length value + length rest)%nat).
  { assert (length (drop i buf) = S (length hdr + (length value + length rest)))%nat as Hlen
      by (rewrite Hd; cbn; by rewrite !length_app).
    rewrite length_drop in Hlen. lia. }
  cbn [find_loop]. rewrite (proj2 (Nat.ltb_lt _ _)) by lia. cbn [negb].
  rewrite (read_len_complete buf (i + 1) hdr (value ++ rest) (length value)); [|
    by rewrite <-drop_drop, Hd|done].
  rewrite (proj2 (Nat.leb_le _ _)) by lia. cbn [negb].
  assert (buf !! i = Some t) as ->.
  { rewrite <-(Nat.add_0_r i), <-lookup_drop, Hd. done. }
  destruct (slice_mid i buf hdr value rest t Hd) as (-> & -> & _).
  destruct (decide (t = tag)) as [->|Hne]; [by rewrite bool_decide_true|].
  rewrite bool_decide_false by congruence. done.
Qed.

Lemma find_loop_sound fuel buf tag i value full :
  find_loop fuel buf tag i = Ok (value, full) ->
  exists pre rest, drop i buf = pre ++ full ++ rest /\ tlv_without tag pre /\ tlv_item full tag value.
Proof.
  revert i. induction fuel as [|fuel IH]; intros i Hf; [done|]. pose proof Hf as Hstep.
  cbn [find_loop] in Hf. destruct (negb (i + 1 <? _)%nat) eqn:Hi; [done|].
  destruct (read_len buf (i + 1)) as [[vlen lhdr]|] eqn:Hr; [|done].
  destruct (negb (_ <=? _)%nat) eqn:Hv; [done|]. clear Hf.
  apply negb_false_iff, Nat.leb_le in Hv. apply negb_false_iff, Nat.ltb_lt in Hi.
  apply read_len_sound in Hr as (hdr & tl & Hd & <- & Hl).
  destruct (lookup_lt_is_Some_2 buf i ltac:(lia)) as [t Ht].
  assert (Hd' : drop i buf = t :: hdr ++ take vlen tl ++ drop vlen tl).
  { rewrite (drop_S _ _ _ Ht), take_drop, <-Hd. by rewrite Nat.add_1_r. }
  assert (Hlen : length (take vlen tl) = vlen).
  { apply length_take_le. assert (length (drop (i + 1) buf) = length (hdr ++ tl)) as E by by rewrite Hd.
    rewrite length_drop, length_app in E. lia. }
  assert (Hl' : tlv_len hdr (length (take vlen tl))) by by rewrite Hlen.
  rewrite (find_loop_step fuel buf tag i t hdr (take vlen tl) (drop vlen tl) Hd' Hl') in Hstep.
  destruct (decide (t = tag)) as [->|Hne].
  - injection Hstep as <- <-. exists [], (drop vlen tl). split; [|split; [constructor|by constructor]].
    rewrite Hd'. cbn. by rewrite <-app_assoc.
  - destruct (slice_mid i buf hdr (take vlen tl) (drop vlen tl) t Hd') as (_ & _ & Hrest).
    apply IH in Hstep as (pre & rest & Hpre & Hw & Hit).
    exists ((t :: hdr ++ take vlen tl) ++ pre), rest.
    split; [|split; [by econstructor|done]].
    rewrite Hd', <-app_assoc, <-Hpre, Hrest. cbn. by rewrite <-app_assoc.
Qed.

Lemma find_loop_complete fuel buf tag i pre value full rest :
  tlv_without tag pre -> drop i buf = pre ++ full ++ rest -> tlv_item full tag value ->
  (length pre < fuel)%nat ->
  find_loop fuel buf tag i = Ok (value, full).
Proof.
  intros Hw. revert fuel i. induction Hw as [|f t v pre Hit Hne Hw IH]; intros [|fuel] i Hd Hfull Hf;
    try (cbn in Hf; lia).
  - destruct Hfull as [tag hdr value Hl].
    rewrite (find_loop_step fuel buf tag i tag hdr value rest); [|by rewrite Hd; cbn; rewrite <-app_assoc|done].
    by rewrite decide_True.
  - destruct Hit as [t hdr v Hl].
    assert (Hd' : drop i buf = t :: hdr ++ v ++ pre ++ full ++ rest)
      by (rewrite Hd; cbn; by rewrite <-!app_assoc).
    rewrite (find_loop_step fuel buf tag i t hdr v _ Hd' Hl), decide_False by done.
    apply IH; [|done|rewrite length_app in Hf; cbn in Hf; lia].
    by destruct (slice_mid i buf hdr v (pre ++ full ++ rest) t Hd') as (_ & _ & ->).
Qed.

Lemma tlv_item_length full t v : tlv_item full t v -> (2 <= length full)%nat.
Proof. intros [t' hdr v' Hl]. apply tlv_len_length in Hl. cbn. rewrite length_app. lia. Qed.

Lemma find_tag_iff buf tag value full :
  find_tag buf tag = Ok (value, full) <->
  exists pre rest, buf = pre ++ full ++ rest /\ tlv_without tag pre /\ tlv_item full tag value.
Proof.
  unfold find_tag. split.
  - by intros (pre & rest & Hd & ?)%find_loop_sound; exists pre, rest.
  - intros (pre & rest & Hd & Hw & Hit). eapply find_loop_complete; [done|exact Hd|done|].
    apply tlv_item_length in Hit. rewrite Hd, !length_app. lia.
Qed.

(** [find_tag] implements the TLV grammar: it succeeds exactly when the
    buffer starts with well-formed elements of other tags followed by one of
    the tag, and then returns the value and the whole of that first element;
    what follows need not be well formed.  It reads nothing out of range. *)
Theorem find_tag_exact buf tag value full :
  find_tag buf tag = Ok (value, full) <->
  exists pre rest, buf = pre ++ full ++ rest /\ tlv_without tag pre /\ tlv_item full tag value.
Proof. apply find_tag_iff. Qed.

(** More fuel than the buffer is long changes nothing: the loop ends. *)
Lemma find_loop_fuel fuel fuel' buf tag i :
  (length buf - i <= fuel)%nat -> (length buf - i <= fuel')%nat ->
  find_loop fuel buf tag i = find_loop fuel' buf tag i.
Proof.
  revert fuel' i. induction fuel as [|fuel IH]; intros [|fuel'] i H1 H2; [done| | |]; cbn [find_loop].
  - by rewrite (proj2 (Nat.ltb_ge (i + 1) _)) by lia.
  - by rewrite (proj2 (Nat.ltb_ge (i + 1) _)) by lia.
  - destruct (negb _); [done|]. destruct (read_len buf (i + 1)) as [[vlen lhdr]|]; [|done].
    destruct (negb _); [done|]. destruct (bool_decide _); [done|]. apply IH; lia.
Qed.

(** The scan of [find_tag] terminates: any fuel of the length of the
    buffer or more gives the same answer. *)
Theorem find_tag_terminates fuel buf tag :
  (length buf <= fuel)%nat -> find_loop fuel buf tag 0 = find_tag buf tag.
Proof. intros Hf. apply find_loop_fuel; lia. Qed.

(** ** Parsing and verification *)

Section AttestProperties.
Context {K : K256} {Hs : Hashes}.

Lemma slice_cert {A : Type} (a b : list A) n m :
  length a = n -> length (a ++ b) = m ->
  take (n - 0) (drop 0 (a ++ b)) = a /\ take (m - n) (drop n (a ++ b)) = b.
Proof.
  intros <- <-. rewrite Nat.sub_0_r, drop_0, take_app_length, drop_app_length. split; [done|].
  apply take_ge. rewrite length_app. lia.
Qed.

Lemma parse_reads tlv template full pre1 rest1 cert_full ident ca pre2 rest2
    der_full der pre3 rest3 sig :
  tlv = pre1 ++ full ++ rest1 -> tlv_without TAG_SIGNATURE_TEMPLATE pre1 ->
  tlv_item full TAG_SIGNATURE_TEMPLATE template ->
  template = pre2 ++ cert_full ++ rest2 -> tlv_without TAG_CERTIFICATE pre2 ->
  tlv_item cert_full TAG_CERTIFICATE (ident ++ ca) ->
  length ident = 33%nat -> length ca = 65%nat ->
  template = pre3 ++ der_full ++ rest3 -> tlv_without TAG_DER_SEQUENCE pre3 ->
  tlv_item der_full TAG_DER_SEQUENCE der ->
  signature_from_der der_full = Ok sig ->
  parse_attestation tlv = Ok {| ident_pub := ident; ca_sig := ca; challenge_sig := sig |}.
Proof.
  intros H1 W1 I1 H2 W2 I2 Li Lc H3 W3 I3 Hsig. unfold parse_attestation.
  rewrite (proj2 (find_tag_iff tlv _ template full)) by eauto.
  rewrite (proj2 (find_tag_iff template _ (ident ++ ca) cert_full)) by eauto.
  rewrite (proj2 (find_tag_iff template _ der der_full)) by eauto.
  rewrite length_app, Li, Lc. cbn [Nat.eqb Nat.add CERTIFICATE_LEN negb].
  rewrite Hsig. cbn [map_err]. unfold slice.
  destruct (slice_cert ident ca 33 98 Li) as [-> ->]; [by rewrite length_app, Li, Lc|done].
Qed.

(** C30: parsing reads back what a card sends: from a template with the
    certificate and the signature element, whatever else surrounds them, it
    takes the identity key, the CA signature and the decoded challenge
    signature. *)
Theorem parse_attestation_reads tlv template full pre1 rest1 cert_full ident ca pre2 rest2
    der_full der pre3 rest3 sig :
  tlv = pre1 ++ full ++ rest1 -> tlv_without TAG_SIGNATURE_TEMPLATE pre1 ->
  tlv_item full TAG_SIGNATURE_TEMPLATE template ->
  template = pre2 ++ cert_full ++ rest2 -> tlv_without TAG_CERTIFICATE pre2 ->
  tlv_item cert_full TAG_CERTIFICATE (ident ++ ca) ->
  length ident = 33%nat -> length ca = 65%nat ->
  template = pre3 ++ der_full ++ rest3 -> tlv_without TAG_DER_SEQUENCE pre3 ->
  tlv_item der_full TAG_DER_SEQUENCE der ->
  signature_from_der der_full = Ok sig ->
  parse_attestation tlv = Ok {| ident_pub := ident; ca_sig := ca; challenge_sig := sig |}.
Proof. apply parse_reads. Qed.

Lemma verify_attestation_sound att cas challenge n :
  verify_attestation att cas challenge = Ok n -> n = nullifier (ident_pub att).
Proof.
  unfold verify_attestation. destruct (ok_or _ _); [|done]. destruct (map_err _ _); [|done].
  destruct (map_err _ _); [|done]. destruct (negb _); [done|]. destruct (map_err _ _); [|done].
  destruct (verify_prehash _ _ _); [|done]. by intros [= <-].
Qed.

Lemma verify_attestation_iff att cas challenge n :
  verify_attestation att cas challenge = Ok n <->
  exists recid_byte recid casig ca ident,
    ca_sig att !! 64%nat = Some recid_byte /\ recovery_id recid_byte = Some recid
    /\ signature_from_slice (take 64 (ca_sig att)) = Ok casig
    /\ recover_from_prehash (sha256 (ident_pub att)) casig recid = Ok ca
    /\ to_encoded_point ca true ∈ cas
    /\ from_sec1_bytes (ident_pub att) = Ok ident
    /\ verify_prehash ident challenge
         (default (challenge_sig att) (normalize_s (challenge_sig att))) = true
    /\ n = nullifier (ident_pub att).
Proof.
  unfold verify_attestation. change (slice 0 64 (ca_sig att)) with (take 64 (ca_sig att)).
  assert (Hex : forall p, existsb (fun t => bool_decide (t = p)) cas = true <-> p ∈ cas).
  { intros p. rewrite existsb_exists. split.
    - intros (t & Ht & ->%bool_decide_eq_true). by apply list_elem_of_In.
    - intros Hp. exists p. split; [by apply list_elem_of_In|]. by apply bool_decide_eq_true. }
  split.
  - destruct (ca_sig att !! 64%nat) as [b|] eqn:Hb; [|done]. cbn [mbind option_bind].
    destruct (recovery_id b) as [recid|] eqn:Hr; [|done]. cbn [ok_or].
    destruct (signature_from_slice _) as [casig|] eqn:Hc; [|done]. cbn [map_err].
    destruct (recover_from_prehash _ _ _) as [ca|] eqn:Hrec; [|done]. cbn [map_err].
    destruct (existsb _ cas) eqn:Hin; [|done]. cbn [negb].
    destruct (from_sec1_bytes _) as [ident|] eqn:Hi; [|done]. cbn [map_err].
    destruct (verify_prehash _ _ _) eqn:Hv; [|done]. intros [= <-].
    exists b, recid, casig, ca, ident. repeat (split; [done|]). split; [by apply Hex|done].
  - intros (b & recid & casig & ca & ident & -> & Hr & -> & Hrec & Hin & -> & Hv & ->).
    cbn [mbind option_bind]. rewrite Hr. cbn [ok_or map_err]. rewrite Hrec. cbn [map_err].
    rewrite (proj2 (Hex _) Hin). cbn [negb]. by rewrite Hv.
Qed.
End AttestProperties.

(** ** Concrete instances, for the witnesses

    Transparent stand-ins with the types of the crates; no security is claimed
    of them. *)
Module Toy.
(** A signature names the key that made it and the message. *)
#[export] Instance k256 : K256 := {|
  Signature := list byte; VerifyingKey := list byte; RecoveryId := Z;
  recovery_id b := if u8 b <? 4 then Some (u8 b) else None;
  signature_from_slice s := if (length s =? 64)%nat then Ok s else Err "signature error";
  signature_from_der d := Ok (drop 2 d);
  normalize_s _ := None;
  recover_from_prehash _ s _ := Ok (take 33 s);
  to_encoded_point k c := if c then k else x04 :: k ++ replicate 31 x00;
  from_sec1_bytes k := if (length k =? 33)%nat then Ok k else Err "signature error";
  verify_prehash k m s := bool_decide (s = m) |}.

#[export] Instance hashes : Hashes := {|
  sha256 m := take 32 (rev m ++ replicate 32 x00);
  keccak256 m := take 32 (m ++ replicate 32 x00) |}.

#[export] Instance hash_laws : HashLaws hashes.
Proof.
  constructor; intros m; cbn -[replicate]; rewrite length_take, length_app, length_replicate; lia.
Qed.

Definition cert : list byte := STATUS_PRODUCTION_CA ++ STATUS_PRODUCTION_CA ++ replicate 31 x00 ++ [x01].

Definition commitment : list byte := replicate 32 x11.

Definition tlv : list byte :=
  let der := x30 :: x20 :: bound_challenge commitment in
  let template := x8a :: x62 :: cert ++ der in
  xa0 :: x81 :: to_u8 (Z.of_nat (length template)) :: template.
End Toy.

Import Toy.

Lemma find_tag_terminates_witness : find_loop 200 tlv TAG_SIGNATURE_TEMPLATE 0 = find_tag tlv TAG_SIGNATURE_TEMPLATE.
Proof. apply find_tag_terminates. by vm_compute; apply Nat.leb_le. Defined.

Lemma parse_attestation_reads_witness :
  parse_attestation tlv
  = Ok {| ident_pub := STATUS_PRODUCTION_CA; ca_sig := drop 33 cert;
          challenge_sig := bound_challenge commitment |}.
Proof.
  apply (parse_attestation_reads tlv (drop 3 tlv) tlv [] [] (take 100 (drop 3 tlv)) STATUS_PRODUCTION_CA
    (drop 33 cert) [] (drop 103 tlv) (drop 103 tlv) (drop 105 tlv) (take 100 (drop 3 tlv)) []).
  - by vm_compute.
  - constructor.
  - exact (item_intro xa0 [x81; x86] (drop 3 tlv) (len_81 x86)).
  - by vm_compute.
  - constructor.
  - exact (item_intro x8a [x62] cert (len_short x62 ltac:(reflexivity))).
  - reflexivity.
  - reflexivity.
  - by vm_compute.
  - exact (without_cons x30 (x8a :: [x62] ++ cert) x8a cert [] (item_intro x8a [x62] cert
      (len_short x62 ltac:(reflexivity))) ltac:(discriminate) (without_nil _)).
  - exact (item_intro x30 [x20] (bound_challenge commitment) (len_short x20 ltac:(reflexivity))).
  - by vm_compute.
Defined.
