(* ===== verification/Apdu.v ===== *)
(** * APDUs and BER-TLV (crates/keycard-client/src/apdu.rs)

    Commands, responses and the TLV search of the card client.  This code
    indexes and slices what a card sends, so its outcome may be a panic, and
    its search adds a length of up to 64 bits to an index: [usize] arithmetic
    is kept to 64 bits, as in a release build. *)
From S2P Require Import Prelude RustStd.

(** [&data[i..j]] *)
Definition slice_at (i j : nat) (data : list byte) : outcome (list byte) :=
  if (i <=? j)%nat && (j <=? length data)%nat then Returned (take (j - i) (drop i data)) else Panicked.

Definition CLA_GP : byte := x80.

Module Command.
Record t := { cla : byte; ins : byte; p1 : byte; p2 : byte; data : list byte; le : option byte }.

Definition new (cla ins p1 p2 : byte) (data : list byte) : t :=
  {| cla := cla; ins := ins; p1 := p1; p2 := p2; data := data; le := None |}.

Definition serialize (c : t) : list byte :=
  [cla c; ins c; p1 c; p2 c]
  ++ (if bool_decide (data c = []) then [] else to_u8 (Z.of_nat (length (data c))) :: data c)
  ++ match le c with Some le => [le] | None => [] end.
End Command.

Module Response.
Record t := { data : list byte; sw : Z }.
End Response.

Definition parse_response (raw : list byte) : Response.t :=
  let n := length raw in
  if (n <? 2)%nat then {| Response.data := []; Response.sw := 0 |}
  else
    let sw := Z.lor (Z.shiftl (u8 (nth (n - 2) raw x00)) 8) (u8 (nth (n - 1) raw x00)) in
    {| Response.data := take (n - 2) raw; Response.sw := sw |}.

(** The loop of [read_len] over the [n] length bytes at [i]. *)
Fixpoint len_loop (n : nat) (data : list byte) (i : nat) (len : Z) : option (Z * nat) :=
  match n with
  | O => Some (len, i)
  | S n =>
      match data !! i with
      | None => None
      | Some b => len_loop n data (S i) (Z.lor (wrap64 (Z.shiftl len 8)) (u8 b))
      end
  end.

(** The length at [i] and the index after it; indexing panics. *)
Definition read_len (data : list byte) (i : nat) : outcome (option (Z * nat)) :=
  let^ b := returned (data !! i) in
  let i := S i in
  Returned (if u8 b <? 0x80 then Some (u8 b, i)
            else len_loop (Z.to_nat (Z.land (u8 b) 0x7f)) data i 0).

Fixpoint find_loop (fuel : nat) (data : list byte) (tag : byte) (i : nat)
    : outcome (option (list byte)) :=
  match fuel with
  | O => Running
  | S fuel =>
      if negb (i <? length data)%nat then Returned None
      else
        let^ t := returned (data !! i) in
        let i := S i in
        if (length data <=? i)%nat then Returned None
        else
          let^ r := read_len data i in
          match r with
          | None => Returned None
          | Some (len, i) =>
              let next := wrap64 (Z.of_nat i + len) in
              if Z.of_nat (length data) <? next then Returned None
              else if bool_decide (t = tag) then
                let^ value := slice_at i (Z.to_nat next) data in
                Returned (Some value)
              else find_loop fuel data tag (Z.to_nat next)
          end
  end.

Definition find_tag (fuel : nat) (data : list byte) (tag : byte) : outcome (option (list byte)) :=
  find_loop fuel data tag 0.

(** ** Specification *)

(** Lengths as a card encodes them: one byte, or a count and big-endian bytes. *)
Definition be (bs : list byte) : Z := fold_left (fun acc b => acc * 256 + u8 b) bs 0.

Inductive ber_len : list byte -> Z -> Prop :=
| ber_short b : u8 b < 128 -> ber_len [b] (u8 b)
| ber_long b bs :
    128 <= u8 b -> length bs = Z.to_nat (u8 b - 128) -> be bs < 2 ^ 64 ->
    ber_len (b :: bs) (be bs).

Inductive ber_item : list byte -> byte -> list byte -> Prop :=
| ber_intro tag hdr value :
    ber_len hdr (Z.of_nat (length value)) -> ber_item (tag :: hdr ++ value) tag value.

Inductive ber_without (tag : byte) : list byte -> Prop :=
| ber_nil : ber_without tag []
| ber_cons full t value rest :
    ber_item full t value -> t <> tag -> ber_without tag rest -> ber_without tag (full ++ rest).

(** ** Lemmas *)

Lemma be_snoc bs b : be (bs ++ [b]) = be bs * 256 + u8 b.
Proof. unfold be. by rewrite fold_left_app. Qed.

Lemma be_fold bs acc : fold_left (fun acc b => acc * 256 + u8 b) bs acc
  = acc * 256 ^ Z.of_nat (length bs) + be bs.
Proof.
  revert acc. induction bs as [|b bs IH]; intros acc; [unfold be; cbn; lia|].
  cbn [fold_left]. unfold be. cbn [fold_left]. rewrite !IH. cbn [length].
  rewrite Nat2Z.inj_succ, Z.pow_succ_r by lia. lia.
Qed.

Lemma be_nonneg bs : 0 <= be bs.
Proof.
  induction bs as [|b bs IH] using rev_ind; [done|]. rewrite be_snoc. pose proof (u8_range b). lia.
Qed.

Lemma len_loop_spec bs data i rest len :
  drop i data = bs ++ rest -> 0 <= len ->
  len * 256 ^ Z.of_nat (length bs) + be bs < 2 ^ 64 ->
  len_loop (length bs) data i len
  = Some (len * 256 ^ Z.of_nat (length bs) + be bs, (i + length bs)%nat).
Proof.
  revert i len. induction bs as [|b bs IH]; intros i len Hd Hlen Hb.
  { cbn. rewrite Nat.add_0_r. do 2 f_equal. unfold be; cbn; lia. }
  assert (Hi : data !! i = Some b) by (rewrite <-(Nat.add_0_r i), <-lookup_drop, Hd; done).
  assert (Hd' : drop (S i) data = bs ++ rest) by (rewrite (drop_S _ _ _ Hi) in Hd; by injection Hd).
  assert (Hbe : be (b :: bs) = u8 b * 256 ^ Z.of_nat (length bs) + be bs)
    by (unfold be at 1; cbn [fold_left]; rewrite be_fold; lia).
  cbn [len_loop length]. rewrite Hi. pose proof (u8_range b). pose proof (be_nonneg bs).
  rewrite Hbe in *. cbn [length] in *. rewrite Nat2Z.inj_succ, Z.pow_succ_r in * by lia.
  assert (1 <= 256 ^ Z.of_nat (length bs)) by (assert (0 < 256 ^ Z.of_nat (length bs)); [|lia]; apply Z.pow_pos_nonneg; lia).
  assert (Hstep : Z.lor (wrap64 (Z.shiftl len 8)) (u8 b) = len * 256 + u8 b).
  { rewrite Z.shiftl_mul_pow2 by lia. change (2 ^ 8) with 256.
    rewrite wrap64_small by (unfold is_u64; nia). rewrite Z.lor_comm.
    change 256 with (2 ^ 8) at 1. rewrite lor_disjoint_add by lia. lia. }
  rewrite Hstep, (IH (S i)); [|done|lia|nia]. do 2 f_equal; [ring|lia].
Qed.

Lemma read_len_spec data i hdr rest n :
  drop i data = hdr ++ rest -> ber_len hdr n ->
  read_len data i = Returned (Some (n, (i + length hdr)%nat)).
Proof.
  intros Hd Hl. unfold read_len.
  assert (Hi : forall b bs, hdr = b :: bs -> data !! i = Some b /\ drop (S i) data = bs ++ rest).
  { intros b bs ->. assert (Hb : data !! i = Some b) by (rewrite <-(Nat.add_0_r i), <-lookup_drop, Hd; done).
    split; [done|]. rewrite (drop_S _ _ _ Hb) in Hd. by injection Hd. }
  destruct Hl as [b Hb|b bs Hb Hlen Hbe]; destruct (Hi _ _ eq_refl) as [-> Hd'].
  - cbn [returned obind]. rewrite (proj2 (Z.ltb_lt _ _) Hb). cbn. by rewrite Nat.add_1_r.
  - cbn [returned obind]. rewrite (proj2 (Z.ltb_ge _ _)) by lia. pose proof (u8_range b).
    rewrite land_7f. replace (u8 b mod 128) with (u8 b - 128)
      by (apply (Z.mod_unique _ _ 1); lia).
    rewrite <-Hlen, (len_loop_spec bs data (S i) rest 0 Hd') by (try rewrite Z.mul_0_l; lia).
    rewrite Z.mul_0_l. cbn [length]. do 3 f_equal; lia.
Qed.

Lemma ber_len_pos hdr n : ber_len hdr n -> (0 < length hdr)%nat /\ 0 <= n.
Proof. intros [b _|b bs _ _ _]; cbn; [pose proof (u8_range b)|pose proof (be_nonneg bs)]; lia. Qed.

(** One turn of the search on an element. *)
Lemma ber_loop_step fuel data tag i t hdr value rest :
  Z.of_nat (length data) < 2 ^ 64 ->
  drop i data = t :: hdr ++ value ++ rest -> ber_len hdr (Z.of_nat (length value)) ->
  find_loop (S fuel) data tag i
  = if decide (t = tag) then Returned (Some value)
    else find_loop fuel data tag (i + 1 + length hdr + length value).
Proof.
  intros Hsz Hd Hl. pose proof (ber_len_pos _ _ Hl) as [Hpos _].
  assert (Hlen : length data = (i + 1 + length hdr + length value + length rest)%nat).
  { assert (length (drop i data) = S (length hdr + (length value + length rest)))%nat as Hlen
      by (rewrite Hd; cbn; by rewrite !length_app).
    rewrite length_drop in Hlen. lia. }
  cbn [find_loop]. rewrite (proj2 (Nat.ltb_lt i _)) by lia. cbn [negb].
  assert (Hi : data !! i = Some t) by (rewrite <-(Nat.add_0_r i), <-lookup_drop, Hd; done).
  assert (Hd' : drop (S i) data = hdr ++ value ++ rest) by (rewrite (drop_S _ _ _ Hi) in Hd; by injection Hd).
  rewrite Hi. cbn [returned obind]. rewrite (proj2 (Nat.leb_gt _ (S i))) by lia.
  rewrite (read_len_spec data (S i) hdr (value ++ rest) _ Hd' Hl). cbn [obind].
  rewrite wrap64_small by (unfold is_u64; lia). rewrite (proj2 (Z.ltb_ge _ _)) by lia.
  replace (Z.to_nat (Z.of_nat (S i + length hdr) + Z.of_nat (length value)))
    with (i + 1 + length hdr + length value)%nat by lia.
  destruct (decide (t = tag)) as [->|Hne]; [|by rewrite bool_decide_false by congruence].
  rewrite bool_decide_true by done. unfold slice_at.
  rewrite (proj2 (Nat.leb_le _ _)), (proj2 (Nat.leb_le _ _)) by lia. cbn [andb obind].
  do 2 f_equal. rewrite <-drop_drop, Hd', drop_app_length.
  replace (_ - _)%nat with (length value) by lia. by rewrite take_app_length.
Qed.

Lemma ber_loop_complete fuel data tag i pre value full rest :
  Z.of_nat (length data) < 2 ^ 64 ->
  ber_without tag pre -> drop i data = pre ++ full ++ rest -> ber_item full tag value ->
  (length pre < fuel)%nat ->
  find_loop fuel data tag i = Returned (Some value).
Proof.
  intros Hsz Hw. revert fuel i.
  induction Hw as [|f t v pre Hit Hne Hw IH]; intros [|fuel] i Hd Hfull Hf; try (cbn in Hf; lia).
  - destruct Hfull as [tag hdr value Hl].
    rewrite (ber_loop_step fuel data tag i tag hdr value rest Hsz); [|by rewrite Hd; cbn; rewrite <-app_assoc|done].
    by rewrite decide_True.
  - destruct Hit as [t hdr v Hl].
    assert (Hd' : drop i data = t :: hdr ++ v ++ pre ++ full ++ rest)
      by (rewrite Hd; cbn; by rewrite <-!app_assoc).
    rewrite (ber_loop_step fuel data tag i t hdr v _ Hsz Hd' Hl), decide_False by done.
    apply IH; [|done|rewrite length_app in Hf; cbn in Hf; lia].
    rewrite <-!Nat.add_assoc, <-drop_drop, Hd'. cbn [drop Nat.add].
    by rewrite <-drop_drop, !drop_app_length.
Qed.

(** ** Properties *)

(** C37: on what a card encodes as BER-TLV, lengths of several bytes included,
    [find_tag] returns the value of the first element with the tag, whatever
    follows it; with as much fuel as there are bytes it has returned. *)
Theorem ber_find_tag fuel data tag pre value full rest :
  Z.of_nat (length data) < 2 ^ 64 -> (length data <= fuel)%nat ->
  data = pre ++ full ++ rest -> ber_without tag pre -> ber_item full tag value ->
  find_tag fuel data tag = Returned (Some value).
Proof.
  intros Hsz Hf Hd Hw Hit. apply (ber_loop_complete fuel data tag 0 pre value full rest); try done.
  rewrite Hd, !length_app in Hf. destruct Hit. cbn in Hf. lia.
Qed.

(** Ten bytes whose length field makes the next index wrap to the start. *)
Definition wrapping_tlv : list byte := [x01; x88; xff; xff; xff; xff; xff; xff; xff; xf6].

(** C36: the length field is not checked before it is added: in a release build
    a card can answer with ten bytes on which the search never ends, and on
    which the search for the tag itself panics. *)
Theorem find_tag_unchecked_length :
  (forall fuel, find_tag fuel wrapping_tlv x8f = Running)
  /\ find_tag 1 wrapping_tlv x01 = Panicked.
Proof.
  split; [|vm_compute; reflexivity]. intros fuel. unfold find_tag.
  induction fuel as [|fuel IH]; [done|]. cbn [find_loop].
  replace (read_len wrapping_tlv 1) with (Returned (Some (2 ^ 64 - 10, 10%nat)))
    by (vm_compute; reflexivity).
  exact IH.
Qed.

(** The reading of a short APDU: without data, with [Le] only, with data, with
    data and [Le]. *)
Definition parse_apdu (bs : list byte) : option Command.t :=
  match bs with
  | cla :: ins :: p1 :: p2 :: r =>
      let cmd := fun data le => Some {| Command.cla := cla; Command.ins := ins; Command.p1 := p1;
        Command.p2 := p2; Command.data := data; Command.le := le |} in
      match r with
      | [] => cmd [] None
      | [le] => cmd [] (Some le)
      | lc :: r =>
          let n := Z.to_nat (u8 lc) in
          if (length r =? n)%nat then cmd r None
          else if (length r =? S n)%nat then cmd (take n r) (r !! n) else None
      end
  | _ => None
  end.

(** A command with at most 255 bytes of data is sent as a short APDU that
    reads back as the command: the length byte is not truncated and the four
    forms are told apart. *)
Theorem command_roundtrip c :
  (length (Command.data c) <= 255)%nat -> parse_apdu (Command.serialize c) = Some c.
Proof.
  destruct c as [cla ins p1 p2 data le]. cbn [Command.data]. intros Hl.
  unfold Command.serialize. cbn [Command.data Command.le Command.cla Command.ins Command.p1 Command.p2].
  case_bool_decide as Hd; [subst; by destruct le|].
  destruct data as [|b data]; [done|]. set (d := b :: data) in *.
  assert (Hn : Z.to_nat (u8 (to_u8 (Z.of_nat (length d)))) = length d)
    by (rewrite u8_to_u8_small by lia; lia).
  cbn [app]. destruct le as [le|]; unfold parse_apdu; fold d.
  - change ((d ++ [le])) with (b :: (data ++ [le])). cbv beta iota. fold (data ++ [le]).
    change (b :: data ++ [le]) with (d ++ [le]). rewrite Hn, length_app.
    rewrite (proj2 (Nat.eqb_neq _ _)), (proj2 (Nat.eqb_eq _ _)) by (cbn; lia).
    rewrite take_app_length, list_lookup_middle by done. done.
  - rewrite app_nil_r. change d with (b :: data) at 1. cbv beta iota. fold d.
    by rewrite Hn, Nat.eqb_refl.
Qed.

(** The status word is the last two bytes, big-endian, and the data the
    rest; a shorter answer is an empty response with status 0, which is no
    success. *)
Theorem parse_response_exact raw :
  match parse_response raw with
  | {| Response.data := d; Response.sw := sw |} =>
      (exists hi lo, raw = d ++ [hi; lo] /\ sw = u8 hi * 256 + u8 lo)
      \/ ((length raw < 2)%nat /\ d = [] /\ sw = 0)
  end.
Proof.
  unfold parse_response. destruct (_ <? 2)%nat eqn:Hn.
  { right. by apply Nat.ltb_lt in Hn. }
  apply Nat.ltb_ge in Hn. left.
  destruct raw as [|lo raw' _] using rev_ind; [cbn in Hn; lia|].
  destruct raw' as [|hi d _] using rev_ind; [cbn in Hn; lia|].
  exists hi, lo. rewrite <-app_assoc. cbn [app]. rewrite length_app. cbn [length].
  replace (length d + 2 - 2)%nat with (length d) by lia.
  replace (length d + 2 - 1)%nat with (length d + 1)%nat by lia.
  rewrite take_app_length, !app_nth2_plus, app_nth2 by lia.
  rewrite Nat.sub_diag. cbn [nth]. split; [done|].
  rewrite Z.lor_comm, Z.shiftl_mul_pow2 by lia. pose proof (u8_range lo).
  rewrite lor_disjoint_add by lia. change (2 ^ 8) with 256. lia.
Qed.

(** ** Witnesses *)

Lemma ber_find_tag_witness :
  find_tag 9 [x01; x00; x8f; x82; x00; x02; xaa; xbb; xff] x8f = Returned (Some [xaa; xbb]).
Proof.
  apply (ber_find_tag 9 _ x8f [x01; x00] [xaa; xbb] [x8f; x82; x00; x02; xaa; xbb] [xff]).
  - reflexivity.
  - cbn. lia.
  - reflexivity.
  - exact (ber_cons x8f [x01; x00] x01 [] [] (ber_intro x01 [x00] [] (ber_short x00 ltac:(reflexivity)))
      ltac:(discriminate) (ber_nil _)).
  - exact (ber_intro x8f [x82; x00; x02] [xaa; xbb]
      (ber_long x82 [x00; x02] ltac:(discriminate) ltac:(reflexivity) ltac:(reflexivity))).
Defined.

Lemma command_roundtrip_witness :
  parse_apdu (Command.serialize (Command.new CLA_GP x14 x00 x00 (replicate 32 x11)))
  = Some (Command.new CLA_GP x14 x00 x00 (replicate 32 x11)).
Proof. apply command_roundtrip. apply Nat.leb_le. reflexivity. Defined.
