(* ===== verification/KeycardCrypto.v ===== *)
(** * The card's secure-channel cryptography (crates/keycard-client/src/crypto.rs)

    Padding, CBC encryption and the CBC-MAC over the block cipher of the [aes]
    crate, the session keys and the pairing secret.  The primitives are the
    classes [Aes] and [Kdf]; a slice out of range or a block of the wrong size
    is a panic. *)
From S2P Require Import Prelude RustStd Apdu Attest.

Class Aes := {
  (** one block under a 32-byte key *)
  aes_encrypt : list byte -> list byte -> list byte;
  aes_decrypt : list byte -> list byte -> list byte
}.

Class AesLaws (A : Aes) : Prop := {
  aes_encrypt_length k b : length b = 16%nat -> length (aes_encrypt k b) = 16%nat;
  aes_decrypt_length k b : length b = 16%nat -> length (aes_decrypt k b) = 16%nat;
  aes_decrypt_encrypt k b :
    length k = 32%nat -> length b = 16%nat -> aes_decrypt k (aes_encrypt k b) = b
}.

Class Kdf := {
  sha512 : list byte -> list byte;
  (** PBKDF2-HMAC-SHA256 with a 32-byte output: password, salt, rounds *)
  pbkdf2_sha256 : list byte -> list byte -> Z -> list byte;
  (** Unicode normalisation form KD *)
  nfkd_str : string -> string
}.

Definition PAIRING_TOKEN_SALT : string := "Keycard Pairing Password Salt".

Section Crypto.
Context {A : Aes} {D : Kdf} {Hs : Hashes}.

(** [crypto::sha256] over several parts *)
Definition sha256_parts (parts : list (list byte)) : list byte := sha256 (concat parts).

Definition nfkd (s : string) : list byte := str_bytes (nfkd_str s).

Definition pairing_secret_hash (pairing_pass : string) : list byte :=
  pbkdf2_sha256 (nfkd pairing_pass) (nfkd PAIRING_TOKEN_SALT) 50000.

Definition derive_session_keys (secret pairing_key card_data : list byte)
    : outcome (list byte * list byte * list byte) :=
  let^ salt := slice_at 0 32 card_data in
  let^ iv := slice_at 32 48 card_data in
  let data := sha512 (secret ++ pairing_key ++ salt) in
  let^ enc := slice_at 0 32 data in
  let^ mac := slice_at 32 64 data in
  Returned (enc, mac, iv).

Definition append_padding (data : list byte) : list byte :=
  let pad := (16 - length data mod 16)%nat in
  data ++ [x80] ++ replicate (pad - 1) x00.

(** Where the scan of [remove_padding] stops. *)
Fixpoint padding_start (i : nat) (data : list byte) : nat :=
  match i with
  | O => O
  | S i => if bool_decide (data !! i = Some x80) then i else padding_start i data
  end.

Definition remove_padding (data : list byte) : list byte :=
  take (padding_start (length data) data) data.

Definition xor_byte (a b : byte) : byte := to_u8 (Z.lxor (u8 a) (u8 b)).

Definition xor16 (a b : list byte) : outcome (list byte) :=
  if (16 <=? length a)%nat && (16 <=? length b)%nat
  then Returned (zip_with xor_byte (take 16 a) (take 16 b)) else Panicked.

Fixpoint cbc_encrypt_loop (fuel : nat) (key prev data : list byte) : outcome (list byte) :=
  match data with
  | [] => Returned []
  | _ =>
      match fuel with
      | O => Running
      | S fuel =>
          let^ x := xor16 (take 16 data) prev in
          let b := aes_encrypt key x in
          let^ out := cbc_encrypt_loop fuel key b (drop 16 data) in
          Returned (b ++ out)
      end
  end.

(** [copy_from_slice] into a 16-byte array *)
Definition block_of (l : list byte) : outcome (list byte) :=
  if (length l =? 16)%nat then Returned l else Panicked.

(** [Aes256::new_from_slice(key).unwrap()] *)
Definition new_cipher (key : list byte) : outcome (list byte) :=
  if (length key =? 32)%nat then Returned key else Panicked.

Definition cbc_encrypt_raw (key iv data : list byte) : outcome (list byte) :=
  let^ prev := block_of iv in
  cbc_encrypt_loop (length data) key prev data.

Fixpoint cbc_decrypt_loop (fuel : nat) (key prev data : list byte) : outcome (list byte) :=
  match data with
  | [] => Returned []
  | _ =>
      match fuel with
      | O => Running
      | S fuel =>
          let^ chunk := block_of (take 16 data) in
          let^ p := xor16 (aes_decrypt key chunk) prev in
          let^ out := cbc_decrypt_loop fuel key chunk (drop 16 data) in
          Returned (p ++ out)
      end
  end.

Definition cbc_decrypt_raw (key iv data : list byte) : outcome (list byte) :=
  let^ prev := block_of iv in
  cbc_decrypt_loop (length data) key prev data.

Definition encrypt_data (data enc_key iv : list byte) : outcome (list byte) :=
  let^ cipher := new_cipher enc_key in
  cbc_encrypt_raw cipher iv (append_padding data).

Definition decrypt_data (data enc_key iv : list byte) : outcome (list byte) :=
  let^ cipher := new_cipher enc_key in
  let^ plain := cbc_decrypt_raw cipher iv data in
  Returned (remove_padding plain).

Definition calculate_mac (meta data mac_key : list byte) : outcome (list byte) :=
  let^ cipher := new_cipher mac_key in
  let buf := meta ++ append_padding data in
  let^ ct := cbc_encrypt_raw cipher (replicate 16 x00) buf in
  let n := length ct in
  if (n <? 32)%nat then Panicked
  else
    let^ mac := slice_at (n - 32) (n - 16) ct in
    block_of mac.
End Crypto.

(** ** Lemmas *)

Lemma padded_length data :
  exists k, length (append_padding data) = (16 * S k)%nat.
Proof.
  exists (length data / 16)%nat. unfold append_padding. rewrite !length_app, length_replicate. cbn [length].
  pose proof (Nat.div_mod_eq (length data) 16). pose proof (Nat.mod_upper_bound (length data) 16 ltac:(lia)). lia.
Qed.

Lemma padding_start_zeros data n :
  padding_start (length (data ++ x80 :: replicate n x00)) (data ++ x80 :: replicate n x00) = length data.
Proof.
  rewrite length_app. cbn [length]. rewrite length_replicate.
  assert (Hgen : forall m, (m <= n)%nat ->
    padding_start (length data + S m) (data ++ x80 :: replicate n x00) = length data).
  { induction m as [|m IH]; intros Hm.
    - rewrite Nat.add_1_r. cbn [padding_start]. rewrite list_lookup_middle by done.
      by rewrite bool_decide_true.
    - rewrite Nat.add_succ_r. cbn [padding_start]. rewrite bool_decide_false; [apply IH; lia|].
      rewrite lookup_app_r by lia. replace (length data + S m - length data)%nat with (S m) by lia.
      change ((x80 :: replicate n x00) !! S m) with (replicate n x00 !! m).
      rewrite lookup_replicate_2 by lia. done. }
  by apply Hgen.
Qed.

Lemma remove_append_padding data : remove_padding (append_padding data) = data.
Proof.
  unfold append_padding, remove_padding. cbn [app]. rewrite padding_start_zeros. apply take_app_length.
Qed.

Lemma xor_byte_involutive a b : xor_byte (xor_byte a b) b = a.
Proof.
  unfold xor_byte. assert (Hr : 0 <= Z.lxor (u8 a) (u8 b) < 256).
  { pose proof (u8_range a). pose proof (u8_range b). split; [apply Z.lxor_nonneg; lia|].
    destruct (Z.eq_dec (Z.lxor (u8 a) (u8 b)) 0) as [->|Hne]; [lia|].
    assert (0 < Z.lxor (u8 a) (u8 b)) by (assert (0 <= Z.lxor (u8 a) (u8 b)) by (apply Z.lxor_nonneg; lia); lia).
    change 256 with (2 ^ 8). apply Z.log2_lt_pow2; [done|].
    eapply Z.le_lt_trans; [apply Z.log2_lxor; lia|].
    apply Z.max_lub_lt; [destruct a|destruct b]; by vm_compute. }
  rewrite u8_to_u8_small by done. by rewrite Z.lxor_assoc, Z.lxor_nilpotent, Z.lxor_0_r, to_u8_u8.
Qed.

Lemma zip_xor_involutive a b :
  length a = length b -> zip_with xor_byte (zip_with xor_byte a b) b = a.
Proof.
  revert b. induction a as [|x a IH]; intros [|y b]; try done. cbn. intros [= Hl].
  by rewrite xor_byte_involutive, IH.
Qed.

Lemma xor16_spec a b :
  length a = 16%nat -> length b = 16%nat -> xor16 a b = Returned (zip_with xor_byte a b).
Proof. intros Ha Hb. unfold xor16. rewrite Ha, Hb, !take_ge by lia. done. Qed.

Lemma zip_xor_length a b :
  length a = 16%nat -> length b = 16%nat -> length (zip_with xor_byte a b) = 16%nat.
Proof. intros Ha Hb. rewrite length_zip_with. lia. Qed.

Section CryptoLemmas.
Context {A : Aes} {AL : AesLaws A}.

(** Whole blocks are encrypted to as many, and decrypted to themselves. *)
Lemma cbc_roundtrip n fuel key prev data :
  length key = 32%nat -> length prev = 16%nat -> length data = (16 * n)%nat -> (n <= fuel)%nat ->
  exists ct, cbc_encrypt_loop fuel key prev data = Returned ct /\ length ct = (16 * n)%nat
    /\ forall fuel', (n <= fuel')%nat -> cbc_decrypt_loop fuel' key prev ct = Returned data.
Proof.
  intros Hk. revert fuel prev data. induction n as [|n IH]; intros fuel prev data Hp Hd Hf.
  - destruct data; [|cbn in Hd; lia]. exists []. split; [by destruct fuel|]. split; [done|].
    by intros [|fuel'].
  - destruct data as [|x data'] eqn:Edata; [cbn in Hd; lia|]. rewrite <-Edata in *.
    destruct fuel as [|fuel]; [lia|].
    assert (Hx : length (take 16 data) = 16%nat) by (rewrite length_take; lia).
    set (z := zip_with xor_byte (take 16 data) prev).
    assert (Hz : length z = 16%nat) by (by apply zip_xor_length).
    set (b := aes_encrypt key z).
    assert (Hb : length b = 16%nat) by (by apply aes_encrypt_length).
    destruct (IH fuel b (drop 16 data)) as (ct & He & Hl & Hdec);
      [done|rewrite length_drop; lia|lia|].
    exists (b ++ ct). split; [|split].
    + rewrite Edata at 1. cbn [cbc_encrypt_loop]. rewrite <-Edata.
      rewrite xor16_spec by done. cbn [obind]. fold z b. by rewrite He.
    + rewrite length_app. lia.
    + intros [|fuel'] Hf'; [lia|]. destruct (b ++ ct) as [|y r] eqn:E.
      { apply (f_equal length) in E. rewrite length_app in E. cbn in E. lia. }
      cbn [cbc_decrypt_loop]. rewrite <-E. rewrite take_app_le, take_ge by lia.
      unfold block_of. rewrite Hb. cbn [Nat.eqb obind].
      unfold b at 1. rewrite aes_decrypt_encrypt, xor16_spec by done. cbn [obind].
      rewrite drop_app_ge, Hb, Nat.sub_diag, drop_0 by lia. rewrite Hdec by lia. cbn [obind].
      unfold z. rewrite zip_xor_involutive by lia. by rewrite take_drop.
Qed.

Lemma encrypt_data_ok data key iv :
  length key = 32%nat -> length iv = 16%nat ->
  exists ct k, encrypt_data data key iv = Returned ct /\ length ct = (16 * S k)%nat
    /\ decrypt_data ct key iv = Returned data.
Proof.
  intros Hk Hi. destruct (padded_length data) as [k Hl].
  destruct (cbc_roundtrip (S k) (length (append_padding data)) key iv (append_padding data) Hk Hi Hl
    ltac:(lia)) as (ct & He & Hct & Hdec).
  exists ct, k. unfold encrypt_data, decrypt_data, new_cipher, cbc_encrypt_raw, cbc_decrypt_raw, block_of.
  rewrite Hk, Hi. cbn [Nat.eqb obind]. split; [done|]. split; [done|].
  rewrite Hdec by lia. cbn [obind]. by rewrite remove_append_padding.
Qed.

Lemma encrypt_data_length data key iv ct :
  length key = 32%nat -> length iv = 16%nat -> encrypt_data data key iv = Returned ct ->
  (length ct <= length data + 16)%nat.
Proof.
  intros Hk Hi He. destruct (padded_length data) as [k Hl].
  destruct (cbc_roundtrip (S k) (length (append_padding data)) key iv (append_padding data) Hk Hi Hl
    ltac:(lia)) as (ct' & He' & Hct & _).
  unfold encrypt_data, new_cipher, cbc_encrypt_raw, block_of in He. rewrite Hk, Hi in He.
  cbn [Nat.eqb obind] in He. rewrite He' in He. injection He as <-. rewrite Hct, <-Hl.
  unfold append_padding. rewrite !length_app, length_replicate. cbn [length]. lia.
Qed.

Lemma calculate_mac_length meta data key mac :
  calculate_mac meta data key = Returned mac -> length mac = 16%nat.
Proof.
  unfold calculate_mac. destruct (new_cipher key); [|done..]. cbn [obind].
  destruct (cbc_encrypt_raw _ _ _); [|done..]. cbn [obind]. destruct (_ <? 32)%nat; [done|].
  destruct (slice_at _ _ _); [|done..]. cbn [obind]. unfold block_of.
  destruct (length _ =? 16)%nat eqn:Hl; [|done]. intros [= <-]. by apply Nat.eqb_eq.
Qed.

Lemma calculate_mac_ok meta data key :
  length key = 32%nat -> length meta = 16%nat ->
  exists mac, calculate_mac meta data key = Returned mac /\ length mac = 16%nat.
Proof.
  intros Hk Hm. destruct (padded_length data) as [k Hl].
  destruct (cbc_roundtrip (S (S k)) (length (meta ++ append_padding data)) key (replicate 16 x00)
    (meta ++ append_padding data) Hk) as (ct & He & Hct & _);
    [done|rewrite length_app; lia|rewrite length_app; lia|].
  unfold calculate_mac, new_cipher, cbc_encrypt_raw, block_of. rewrite Hk. cbn [Nat.eqb obind].
  rewrite length_replicate. cbn [Nat.eqb obind]. rewrite He. cbn [obind].
  rewrite (proj2 (Nat.ltb_ge _ _)) by lia. unfold slice_at.
  rewrite (proj2 (Nat.leb_le _ _)), (proj2 (Nat.leb_le _ _)) by lia. cbn [andb obind].
  assert (Hlen : length (take (length ct - 16 - (length ct - 32)) (drop (length ct - 32) ct)) = 16%nat)
    by (rewrite length_take, length_drop; lia).
  rewrite Hlen. cbn [Nat.eqb]. eauto.
Qed.
End CryptoLemmas.

(** ** Properties *)

Section CryptoProperties.
Context {A : Aes} {AL : AesLaws A}.

(** What the secure channel encrypts it decrypts to the same bytes, of any
    length and content (the padding is removed unambiguously), into whole
    blocks and without a panic. *)
Theorem encrypt_decrypt_roundtrip data key iv :
  length key = 32%nat -> length iv = 16%nat ->
  exists ct, encrypt_data data key iv = Returned ct /\ (length ct mod 16 = 0)%nat
    /\ (length data < length ct)%nat /\ decrypt_data ct key iv = Returned data.
Proof.
  intros Hk Hi. destruct (padded_length data) as [k Hl].
  destruct (cbc_roundtrip (S k) (length (append_padding data)) key iv (append_padding data) Hk Hi Hl
    ltac:(lia)) as (ct & He & Hct & Hdec).
  exists ct. unfold encrypt_data, decrypt_data, new_cipher, cbc_encrypt_raw, cbc_decrypt_raw, block_of.
  rewrite Hk, Hi. cbn [Nat.eqb obind]. split; [done|].
  split; [rewrite Hct, Nat.mul_comm; apply Nat.Div0.mod_mul|].
  split; [unfold append_padding in Hl; rewrite !length_app in Hl; cbn in Hl; lia|].
  rewrite Hdec by lia. cbn [obind]. by rewrite remove_append_padding.
Qed.

Lemma cbc_decrypt_step fuel key prev data :
  data <> [] ->
  cbc_decrypt_loop (S fuel) key prev data
  = (let^ chunk := block_of (take 16 data) in
     let^ p := xor16 (aes_decrypt key chunk) prev in
     let^ out := cbc_decrypt_loop fuel key chunk (drop 16 data) in
     Returned (p ++ out)).
Proof. by destruct data. Qed.

Lemma cbc_decrypt_defined fuel key prev data :
  length prev = 16%nat -> (length data <= fuel)%nat ->
  if (length data mod 16 =? 0)%nat
  then exists p, cbc_decrypt_loop fuel key prev data = Returned p /\ length p = length data
  else cbc_decrypt_loop fuel key prev data = Panicked.
Proof.
  revert prev data. induction fuel as [|fuel IH]; intros prev data Hp Hf.
  { destruct data; [|cbn in Hf; lia]. cbn. by exists []. }
  destruct data as [|x data'] eqn:Ed; [cbn; by exists []|]. rewrite <-Ed in *.
  rewrite cbc_decrypt_step by (by rewrite Ed). unfold block_of. rewrite length_take.
  assert (Hpos : (0 < length data)%nat) by (rewrite Ed; cbn; lia).
  destruct (le_lt_dec 16 (length data)) as [Hle|Hlt].
  - rewrite Nat.min_l by done. cbn [Nat.eqb obind].
    assert (Hx : length (take 16 data) = 16%nat) by (rewrite length_take; lia).
    rewrite xor16_spec by (try apply aes_decrypt_length; done). cbn [obind].
    specialize (IH (take 16 data) (drop 16 data) Hx ltac:(rewrite length_drop; lia)).
    rewrite length_drop in IH.
    assert (Hmod : ((length data - 16) mod 16 = length data mod 16)%nat).
    { replace (length data) with (length data - 16 + 1 * 16)%nat at 2 by lia.
      by rewrite Nat.Div0.mod_add. }
    rewrite Hmod in IH. destruct (_ =? 0)%nat.
    + destruct IH as (p & -> & Hl). cbn [obind]. eexists. split; [done|].
      rewrite length_app, zip_xor_length by (try apply aes_decrypt_length; done). lia.
    + by rewrite IH.
  - rewrite Nat.min_r, Nat.mod_small by lia. rewrite !(proj2 (Nat.eqb_neq _ _)) by lia. done.
Qed.

Lemma decrypt_data_cases data key iv :
  length key = 32%nat -> length iv = 16%nat ->
  if (length data mod 16 =? 0)%nat
  then exists p, decrypt_data data key iv = Returned p
  else decrypt_data data key iv = Panicked.
Proof.
  intros Hk Hi. pose proof (cbc_decrypt_defined (length data) key iv data Hi (le_n _)) as Hd.
  unfold decrypt_data, new_cipher, cbc_decrypt_raw, block_of. rewrite Hk, Hi. cbn [Nat.eqb obind].
  destruct (_ =? 0)%nat; [destruct Hd as (p & -> & _); cbn; eauto|by rewrite Hd].
Qed.

(** Decryption of what a card sends is defined exactly on whole blocks: on
    any other length it panics, before the MAC of the response is looked at. *)
Theorem decrypt_data_defined data key iv :
  length key = 32%nat -> length iv = 16%nat ->
  if (length data mod 16 =? 0)%nat
  then exists p, decrypt_data data key iv = Returned p
  else decrypt_data data key iv = Panicked.
Proof. apply decrypt_data_cases. Qed.

(** The MAC of any data under a 32-byte key is one block, computed without
    a panic: the slice before the last block is always there. *)
Theorem mac_is_one_block meta data key :
  length key = 32%nat -> length meta = 16%nat ->
  exists mac, calculate_mac meta data key = Returned mac /\ length mac = 16%nat.
Proof. apply calculate_mac_ok. Qed.
End CryptoProperties.

(** ** A concrete cipher, for the witnesses *)

Module ToyAes.
(** The block xored with the key: an involution. *)
#[export] Instance aes : Aes := {|
  aes_encrypt k b := zip_with xor_byte b (take 16 k ++ replicate (16 - length k) x00);
  aes_decrypt k b := zip_with xor_byte b (take 16 k ++ replicate (16 - length k) x00) |}.

#[export] Instance aes_laws : AesLaws aes.
Proof.
  constructor; cbn [aes_encrypt aes_decrypt aes].
  1,2: intros k b Hb; apply zip_xor_length; [done|];
    rewrite length_app, length_take, length_replicate; lia.
  intros k b Hk Hb. apply zip_xor_involutive. rewrite length_app, length_take, length_replicate. lia.
Qed.
End ToyAes.

Lemma encrypt_decrypt_roundtrip_witness :
  exists ct, encrypt_data (A := ToyAes.aes) [x80; x00] (replicate 32 x05) (replicate 16 x01) = Returned ct
    /\ (length ct mod 16 = 0)%nat /\ (2 < length ct)%nat
    /\ decrypt_data (A := ToyAes.aes) ct (replicate 32 x05) (replicate 16 x01) = Returned [x80; x00].
Proof. apply (encrypt_decrypt_roundtrip (AL := ToyAes.aes_laws)); reflexivity. Defined.

Lemma decrypt_data_defined_witness :
  decrypt_data (A := ToyAes.aes) (replicate 17 x00) (replicate 32 x05) (replicate 16 x01) = Panicked.
Proof.
  exact (decrypt_data_defined (AL := ToyAes.aes_laws) (replicate 17 x00) (replicate 32 x05)
    (replicate 16 x01) eq_refl eq_refl).
Defined.

Lemma mac_is_one_block_witness :
  exists mac, calculate_mac (A := ToyAes.aes) (replicate 16 x00) [x01] (replicate 32 x05) = Returned mac
    /\ length mac = 16%nat.
Proof. apply (mac_is_one_block (AL := ToyAes.aes_laws)); reflexivity. Defined.
