(* ===== verification/Keycard.v ===== *)
(** * The card client (crates/keycard-client/src/client.rs)

    The session with a card: selection, pairing, the secure channel and the
    commands over it.  PC/SC, the random generator and the ECDH of [k256] are
    the classes [CardHost] and [Ecdh]; operations run on the card session and
    the host [E], and may panic where the code slices what the card sent. *)
From S2P Require Import Prelude RustStd Apdu Attest KeycardCrypto.

Inductive PcscError : Type :=
| PcscTimeout
| PcscOther (m : string).

Definition pcsc_text (e : PcscError) : string :=
  match e with PcscTimeout => "The user-specified timeout value has expired" | PcscOther m => m end.

Class Ecdh := {
  PublicKey : Type;
  Scalar : Type;
  public_from_sec1 : list byte -> result PublicKey string;
  diffie_hellman : Scalar -> PublicKey -> list byte;
  (** the uncompressed public key of a scalar *)
  public_bytes : Scalar -> list byte
}.

Class CardHost `{Ecdh} (E : Type) := {
  pcsc_establish : M E (result unit PcscError);
  pcsc_list_readers : M E (result (list string) PcscError);
  pcsc_connect : string -> M E (result unit PcscError);
  (** is the card-present flag set in the reader's state *)
  pcsc_status_change : string -> M E (result bool PcscError);
  card_transmit : list byte -> M E (result (list byte) PcscError);
  random_bytes : nat -> M E (list byte);
  random_scalar : M E Scalar
}.

Definition KEYCARD_INSTANCE_AID : list byte := [xa0; x00; x00; x08; x04; x00; x01; x01; x01].
Definition STEALTH_EXPORT_PATH : string := "m/43'/60'/1581'/0'/0'".

Definition INS_SELECT : byte := xa4.
Definition INS_OPEN_SECURE_CHANNEL : byte := x10.
Definition INS_MUTUALLY_AUTHENTICATE : byte := x11.
Definition INS_PAIR : byte := x12.
Definition INS_UNPAIR : byte := x13.
Definition INS_IDENTIFY : byte := x14.
Definition INS_VERIFY_PIN : byte := x20.
Definition INS_EXPORT_KEY : byte := xc2.
Definition P1_PAIR_FIRST : byte := x00.
Definition P1_PAIR_FINAL : byte := x01.
Definition P1_EXPORT_DERIVE : byte := x01.
Definition P2_EXPORT_PRIV_AND_PUB : byte := x00.
Definition SW_OK : Z := 0x9000.

(** [{:04X}] of a status word *)
Definition hex4 (sw : Z) : string :=
  let d z := to_u8 (if z <? 10 then 48 + z else 55 + z) in
  bytes_str [d (sw / 4096 mod 16); d (sw / 256 mod 16); d (sw / 16 mod 16); d (sw mod 16)].

Module SecureChannel.
Record t := {
  open : bool;
  secret : list byte;
  eph_pub : list byte;
  enc_key : list byte;
  mac_key : list byte;
  iv : list byte
}.
End SecureChannel.

Record Keycard := {
  sc : SecureChannel.t;
  initialized : bool;
  instance_uid : list byte;
  pairing_index : byte;
  pairing_key : list byte
}.

(** ** Stateful code that may panic *)

Definition bindo {S A B} (m : M S (outcome A)) (k : A -> M S (outcome B)) : M S (outcome B) :=
  fun s =>
    let '(o, s) := m s in
    match o with
    | Returned a => k a s
    | Panicked => (Panicked, s)
    | Running => (Running, s)
    end.
(** Such code as an effect. *)
Definition OM (S A : Type) : Type := M S (outcome A).
#[export] Instance outcome_ret S : MRet (OM S) := fun A a => ret (Returned a).
#[export] Instance outcome_bind S : MBind (OM S) := fun A B k m => bindo m k.

Definition lift {S A} (o : outcome A) : M S (outcome A) := ret o.
Definition done_with {S A} (a : A) : M S (outcome A) := ret (Returned a).

Notation "'let^!' x := m 'in' k" := (bindo m (fun x => k))
  (at level 10, x pattern, m at level 100, k at level 200) : rust_scope.
Notation "'let^?' x := m 'in' k" :=
  (bindo m (fun r => match r with Ok x => k | Err e => done_with (Err e) end))
  (at level 10, x pattern, m at level 100, k at level 200) : rust_scope.

Section Client.
Context {A : Aes} {D : Kdf} {Hs : Hashes} {Ec : Ecdh} {E : Type} {H : CardHost E}.

(** The session and the host. *)
Definition St : Type := Keycard * E.

Definition on_host {X} (m : M E X) : M St (outcome X) :=
  fun s => let '(a, e) := m s.2 in (Returned a, (s.1, e)).
Definition getk : M St (outcome Keycard) := fun s => (Returned s.1, s).
Definition updk (f : Keycard -> Keycard) : M St (outcome unit) := fun s => (Returned tt, (f s.1, s.2)).

Definition set_sc (c : SecureChannel.t) (k : Keycard) : Keycard :=
  {| sc := c; initialized := initialized k; instance_uid := instance_uid k;
     pairing_index := pairing_index k; pairing_key := pairing_key k |}.
Definition set_iv (iv : list byte) (k : Keycard) : Keycard :=
  set_sc {| SecureChannel.open := SecureChannel.open (sc k); SecureChannel.secret := SecureChannel.secret (sc k);
            SecureChannel.eph_pub := SecureChannel.eph_pub (sc k);
            SecureChannel.enc_key := SecureChannel.enc_key (sc k);
            SecureChannel.mac_key := SecureChannel.mac_key (sc k); SecureChannel.iv := iv |} k.
Definition set_info (init : bool) (uid : list byte) (k : Keycard) : Keycard :=
  {| sc := sc k; initialized := init; instance_uid := uid;
     pairing_index := pairing_index k; pairing_key := pairing_key k |}.
Definition set_pairing (i : byte) (key : list byte) (k : Keycard) : Keycard :=
  {| sc := sc k; initialized := initialized k; instance_uid := instance_uid k;
     pairing_index := i; pairing_key := key |}.

(** A session just connected. *)
Definition fresh_keycard : Keycard := {|
  sc := {| SecureChannel.open := false; SecureChannel.secret := replicate 32 x00;
           SecureChannel.eph_pub := []; SecureChannel.enc_key := replicate 32 x00;
           SecureChannel.mac_key := replicate 32 x00; SecureChannel.iv := replicate 16 x00 |};
  initialized := false; instance_uid := []; pairing_index := x00; pairing_key := [] |}.

Definition reader_card_present : M E (result bool string) :=
  let!? _ := (let! r := pcsc_establish in ret (map_err (fun e => "pcsc ctx: " +:+ pcsc_text e) r)) in
  let!? readers := (let! r := pcsc_list_readers in
                    ret (map_err (fun e => "readers: " +:+ pcsc_text e) r)) in
  match readers with
  | [] => ret (Ok false)
  | reader :: _ =>
      let! r := pcsc_status_change reader in
      ret match r with
          | Ok present => Ok present
          | Err PcscTimeout => Ok false
          | Err e => Err ("status change: " +:+ pcsc_text e)
          end
  end.

Definition connect : M E (result Keycard string) :=
  let!? _ := (let! r := pcsc_establish in ret (map_err (fun e => "pcsc ctx: " +:+ pcsc_text e) r)) in
  let!? readers := (let! r := pcsc_list_readers in
                    ret (map_err (fun e => "readers: " +:+ pcsc_text e) r)) in
  match readers with
  | [] => ret (Err "no reader")
  | reader :: _ =>
      let! r := pcsc_connect reader in
      ret match r with
          | Ok _ => Ok fresh_keycard
          | Err e => Err ("connect (card inserted?): " +:+ pcsc_text e)
          end
  end.

Definition transmit (cmd : Command.t) : M St (outcome (result Response.t string)) :=
  let^! r := on_host (card_transmit (Command.serialize cmd)) in
  done_with (let? resp := map_err (fun e => "transmit: " +:+ pcsc_text e) r in
             Ok (parse_response resp)).

Definition with_data (cmd : Command.t) (data : list byte) : Command.t :=
  {| Command.cla := Command.cla cmd; Command.ins := Command.ins cmd; Command.p1 := Command.p1 cmd;
     Command.p2 := Command.p2 cmd; Command.data := data; Command.le := Command.le cmd |}.

(** The header a command's MAC covers. *)
Definition command_meta (cmd : Command.t) (enc : list byte) : list byte :=
  [Command.cla cmd; Command.ins cmd; Command.p1 cmd; Command.p2 cmd;
   to_u8 (Z.of_nat (length enc + 16))] ++ replicate 11 x00.
Definition response_meta (data : list byte) : list byte :=
  to_u8 (Z.of_nat (length data)) :: replicate 15 x00.

(** Lines 101 to 113: the command under the channel's keys. *)
Definition wrap_command (cmd : Command.t) : M St (outcome Command.t) :=
  let^! k := getk in
  let^! enc := lift (encrypt_data (Command.data cmd) (SecureChannel.enc_key (sc k))
                       (SecureChannel.iv (sc k))) in
  let^! mac := lift (calculate_mac (command_meta cmd enc) enc (SecureChannel.mac_key (sc k))) in
  let^! _ := updk (set_iv mac) in
  done_with (with_data cmd (mac ++ enc)).

(** Lines 118 to 131: the response under the channel's keys. *)
Definition unwrap_response (resp : Response.t) : M St (outcome (result Response.t string)) :=
  if negb (Response.sw resp =? SW_OK) then
    done_with (Err ("secure channel outer SW " +:+ hex4 (Response.sw resp)))
  else
    let^! k := getk in
    let^! rmac := lift (slice_at 0 16 (Response.data resp)) in
    let^! rdata := lift (slice_at 16 (length (Response.data resp)) (Response.data resp)) in
    let^! plain := lift (decrypt_data rdata (SecureChannel.enc_key (sc k)) (SecureChannel.iv (sc k))) in
    let^! new_iv := lift (calculate_mac (response_meta (Response.data resp)) rdata
                            (SecureChannel.mac_key (sc k))) in
    if negb (bool_decide (new_iv = rmac)) then done_with (Err "invalid response MAC")
    else
      let^! _ := updk (set_iv new_iv) in
      done_with (Ok (parse_response plain)).

Definition send_sc (cmd : Command.t) : M St (outcome (result Response.t string)) :=
  let^! k := getk in
  let^! cmd := (if SecureChannel.open (sc k) then wrap_command cmd else done_with cmd) in
  let^? resp := transmit cmd in
  let^! k := getk in
  if negb (SecureChannel.open (sc k)) then done_with (Ok resp)
  else unwrap_response resp.

(** [ecdh_generate]: the shared secret and the ephemeral public key. *)
Definition ecdh_generate (card_pub_bytes : list byte)
    : M St (outcome (result (list byte * list byte) string)) :=
  let^! eph := on_host random_scalar in
  done_with (let? card_pub := map_err (fun e => "card pubkey: " +:+ e) (public_from_sec1 card_pub_bytes) in
             let secret := diffie_hellman eph card_pub in
             if (length secret =? 32)%nat then Ok (secret, public_bytes eph) else Err "ecdh len").

(** Lines 141 to 150: the card's public key from the SELECT response. *)
Definition app_info (fuel : nat) (resp : Response.t) : M St (outcome (result (list byte) string)) :=
  if bool_decide (head (Response.data resp) = Some x80) then
    let^! _ := updk (set_info false []) in
    let^! card_pub := lift (slice_at 2 (length (Response.data resp)) (Response.data resp)) in
    done_with (Ok card_pub)
  else
    let^! tpl := lift (Apdu.find_tag fuel (Response.data resp) xa4) in
    match tpl with
    | None => done_with (Err "no A4 app-info template")
    | Some tpl =>
        let^! k := getk in
        let^! _ := updk (set_info true (instance_uid k)) in
        let^! uid := lift (Apdu.find_tag fuel tpl x8f) in
        match uid with
        | None => done_with (Err "no instance uid")
        | Some uid =>
            let^! _ := updk (set_info true uid) in
            let^! card_pub := lift (Apdu.find_tag fuel tpl x80) in
            done_with (ok_or card_pub "no secure-channel pubkey")
        end
    end.

Definition select (fuel : nat) : M St (outcome (result unit string)) :=
  let cmd := {| Command.cla := x00; Command.ins := INS_SELECT; Command.p1 := x04; Command.p2 := x00;
                Command.data := KEYCARD_INSTANCE_AID; Command.le := Some x00 |} in
  let^? resp := transmit cmd in
  if negb (Response.sw resp =? SW_OK) then done_with (Err ("SELECT SW " +:+ hex4 (Response.sw resp)))
  else
    let^? card_pub := app_info fuel resp in
    let^? (secret, eph_pub) := ecdh_generate card_pub in
    let^! k := getk in
    let^! _ := updk (set_sc {|
      SecureChannel.open := false; SecureChannel.secret := secret; SecureChannel.eph_pub := eph_pub;
      SecureChannel.enc_key := SecureChannel.enc_key (sc k);
      SecureChannel.mac_key := SecureChannel.mac_key (sc k); SecureChannel.iv := SecureChannel.iv (sc k) |}) in
    done_with (Ok tt).

Definition pair (pairing_pass : string) : M St (outcome (result unit string)) :=
  let^! challenge := on_host (random_bytes 32) in
  let^? resp := transmit (Command.new CLA_GP INS_PAIR P1_PAIR_FIRST x00 challenge) in
  if Response.sw resp =? 0x6A84 then done_with (Err "no available pairing slots")
  else if negb (Response.sw resp =? SW_OK) then
    done_with (Err ("PAIR step1 SW " +:+ hex4 (Response.sw resp)))
  else
    let^! card_cryptogram := lift (slice_at 0 32 (Response.data resp)) in
    let^! card_challenge := lift (slice_at 32 64 (Response.data resp)) in
    let secret_hash := pairing_secret_hash pairing_pass in
    if negb (bool_decide (sha256_parts [secret_hash; challenge] = card_cryptogram)) then
      done_with (Err "invalid card cryptogram (wrong pairing password?)")
    else
      let client_cryptogram := sha256_parts [secret_hash; card_challenge] in
      let^? resp := transmit (Command.new CLA_GP INS_PAIR P1_PAIR_FINAL x00 client_cryptogram) in
      if negb (Response.sw resp =? SW_OK) then
        done_with (Err ("PAIR step2 SW " +:+ hex4 (Response.sw resp)))
      else
        let^! index := lift (returned (Response.data resp !! 0%nat)) in
        let^! salt := lift (slice_at 1 (length (Response.data resp)) (Response.data resp)) in
        let^! _ := updk (set_pairing index (sha256_parts [secret_hash; salt])) in
        done_with (Ok tt).

Definition open_secure_channel : M St (outcome (result unit string)) :=
  let^! k := getk in
  let^? resp := transmit (Command.new CLA_GP INS_OPEN_SECURE_CHANNEL (pairing_index k) x00
                            (SecureChannel.eph_pub (sc k))) in
  if negb (Response.sw resp =? SW_OK) then
    done_with (Err ("OPEN_SECURE_CHANNEL SW " +:+ hex4 (Response.sw resp)))
  else
    let^! k := getk in
    let^! (enc, mac, iv) := lift (derive_session_keys (SecureChannel.secret (sc k)) (pairing_key k)
                                    (Response.data resp)) in
    let^! _ := updk (set_sc {|
      SecureChannel.open := true; SecureChannel.secret := SecureChannel.secret (sc k);
      SecureChannel.eph_pub := SecureChannel.eph_pub (sc k);
      SecureChannel.enc_key := enc; SecureChannel.mac_key := mac; SecureChannel.iv := iv |}) in
    let^! data := on_host (random_bytes 32) in
    let^? resp := send_sc (Command.new CLA_GP INS_MUTUALLY_AUTHENTICATE x00 x00 data) in
    done_with (if negb (Response.sw resp =? SW_OK)
               then Err ("MUTUALLY_AUTHENTICATE SW " +:+ hex4 (Response.sw resp)) else Ok tt).

Definition verify_pin (pin : string) : M St (outcome (result unit string)) :=
  let^? resp := send_sc (Command.new CLA_GP INS_VERIFY_PIN x00 x00 (str_bytes pin)) in
  let sw := Response.sw resp in
  done_with (if negb (sw =? SW_OK) then
               if Z.land sw 0x63C0 =? 0x63C0 then
                 Err ("wrong PIN, " +:+ pretty (Z.land sw 0x000F) +:+ " attempts left")
               else Err ("VERIFY_PIN SW " +:+ hex4 sw)
             else Ok tt).

Definition identify (challenge : list byte) : M St (outcome (result (list byte) string)) :=
  let^? resp := send_sc (Command.new CLA_GP INS_IDENTIFY x00 x00 challenge) in
  done_with (if negb (Response.sw resp =? SW_OK)
             then Err ("IDENTIFY SW " +:+ hex4 (Response.sw resp)) else Ok (Response.data resp)).

Definition unpair (index : byte) : M St (outcome (result unit string)) :=
  let^? resp := send_sc (Command.new CLA_GP INS_UNPAIR index x00 []) in
  done_with (if negb (Response.sw resp =? SW_OK)
             then Err ("UNPAIR SW " +:+ hex4 (Response.sw resp)) else Ok tt).
End Client.

(** ** [decode_path] and [export_key] *)

(** [path.split('/')] *)
Fixpoint split_slash (cur bs : list byte) : list (list byte) :=
  match bs with
  | [] => [reverse cur]
  | b :: bs =>
      if bool_decide (b = x2f) then reverse cur :: split_slash [] bs else split_slash (b :: cur) bs
  end.

Definition hardened_mark (b : byte) : bool := bool_decide (b = x27 \/ b = x68 \/ b = x48).

(** [p.trim_end_matches(['\'', 'h', 'H'])] *)
Definition trim_marks (p : list byte) : list byte := reverse (drop_while hardened_mark (reverse p)).

(** The digits of [u32::from_str]; overflow is an error. *)
Fixpoint u32_digits (acc : Z) (bs : list byte) : option Z :=
  match bs with
  | [] => Some acc
  | b :: bs =>
      if (48 <=? u8 b) && (u8 b <=? 57) then
        let acc := acc * 10 + (u8 b - 48) in
        if acc <? 2 ^ 32 then u32_digits acc bs else None
      else None
  end.

(** [str::parse::<u32>] *)
Definition parse_u32 (bs : list byte) : option Z :=
  match bs with
  | [] => None
  | b :: r => if bool_decide (b = x2b /\ r <> []) then u32_digits 0 r else u32_digits 0 bs
  end.

Fixpoint path_segments (parts : list (list byte)) : result (list Z) string :=
  match parts with
  | [] => Ok []
  | p :: parts =>
      if bool_decide (p = []) then path_segments parts
      else
        let hardened := match last p with Some b => hardened_mark b | None => false end in
        let? n := ok_or (parse_u32 (trim_marks p)) ("bad path segment " +:+ bytes_str p) in
        let n := if hardened then Z.lor n 0x80000000 else n in
        let? out := path_segments parts in
        Ok (n :: out)
  end.

Definition decode_path (path : string) : result (list Z) string :=
  match split_slash [] (str_bytes path) with
  | [] => Err "empty path"
  | head :: parts =>
      if negb (bool_decide (head = [x6d])) && negb (bool_decide (head = [x4d])) then
        Err "only master-rooted paths (m/...) supported"
      else path_segments parts
  end.

(** [u32::to_be_bytes] *)
Definition be32 (n : Z) : list byte :=
  [to_u8 (n / 2 ^ 24); to_u8 (n / 2 ^ 16); to_u8 (n / 2 ^ 8); to_u8 n].

Section ExportKey.
Context {A : Aes} {D : Kdf} {Hs : Hashes} {Ec : Ecdh} {E : Type} {H : CardHost E}.

Definition export_key (fuel : nat) (path : string) : M (St (E := E)) (outcome (result (list byte) string)) :=
  match decode_path path with
  | Err e => done_with (Err e)
  | Ok ns =>
      let data := concat (be32 <$> ns) in
      let^? resp := send_sc (Command.new CLA_GP INS_EXPORT_KEY P1_EXPORT_DERIVE P2_EXPORT_PRIV_AND_PUB data) in
      if negb (Response.sw resp =? SW_OK) then
        done_with (Err ("EXPORT_KEY SW " +:+ hex4 (Response.sw resp)))
      else
        let^! tpl := lift (Apdu.find_tag fuel (Response.data resp) xa1) in
        match tpl with
        | None => done_with (Err "no A1 export template")
        | Some tpl =>
            let^! key := lift (Apdu.find_tag fuel tpl x81) in
            done_with (ok_or key "no private key in export")
        end
  end.
End ExportKey.

Example stealth_path : decode_path STEALTH_EXPORT_PATH
  = Ok [2 ^ 31 + 43; 2 ^ 31 + 60; 2 ^ 31 + 1581; 2 ^ 31; 2 ^ 31].
Proof. vm_compute. reflexivity. Qed.

(** ** Lemmas *)

Lemma slice_at_ok i j data :
  (i <= j <= length data)%nat -> slice_at i j data = Returned (take (j - i) (drop i data)).
Proof.
  intros [H1 H2]. unfold slice_at. by rewrite (proj2 (Nat.leb_le _ _) H1), (proj2 (Nat.leb_le _ _) H2).
Qed.

Lemma slice_at_inv i j data s :
  slice_at i j data = Returned s -> (i <= j <= length data)%nat /\ s = take (j - i) (drop i data).
Proof.
  unfold slice_at. destruct (_ && _) eqn:Hc; [|done]. intros [= <-].
  apply andb_true_iff in Hc as [H1%Nat.leb_le H2%Nat.leb_le]. done.
Qed.

Lemma u32_digits_bound acc bs n : 0 <= acc -> acc < 2 ^ 32 -> u32_digits acc bs = Some n -> 0 <= n < 2 ^ 32.
Proof.
  revert acc. induction bs as [|b bs IH]; intros acc H0 H1; cbn [u32_digits]; [intros [= <-]; lia|].
  destruct (_ && _) eqn:Hb; [|done]. bool_to_prop. destruct (_ <? _) eqn:Hlt; [|done]. bool_to_prop.
  apply IH; lia.
Qed.

Lemma parse_u32_bound bs n : parse_u32 bs = Some n -> 0 <= n < 2 ^ 32.
Proof.
  destruct bs as [|b r]; [done|]. unfold parse_u32. destruct (bool_decide _); apply u32_digits_bound; lia.
Qed.

(** ** Properties *)

(** The segments of a path between its slashes. *)
Definition segment_of (p : list byte) (n : Z) : Prop :=
  exists v, parse_u32 (trim_marks p) = Some v
    /\ n = (if match last p with Some b => hardened_mark b | None => false end
            then Z.lor v (2 ^ 31) else v).

(** A derivation path is decoded segment by segment, empty segments
    skipped, each to a 32-bit number whose top bit is set when the segment is
    marked as hardened; any other segment, or another root than [m], is an
    error. *)
Theorem decode_path_exact path ns :
  decode_path path = Ok ns <->
  exists head parts, split_slash [] (str_bytes path) = head :: parts
    /\ (head = [x6d] \/ head = [x4d])
    /\ Forall2 segment_of (base.filter (fun p => p <> []) parts) ns
    /\ Forall (fun n => 0 <= n < 2 ^ 32) ns.
Proof.
  assert (Hseg : forall parts ns, path_segments parts = Ok ns <->
    Forall2 segment_of (base.filter (fun p => p <> []) parts) ns).
  { clear. induction parts as [|p parts IH]; intros ns; cbn [path_segments].
    - split; [intros [= <-]; constructor|by inversion 1].
    - case_bool_decide as Hp.
      + rewrite filter_cons_False by (by intros ?). apply IH.
      + rewrite filter_cons_True by done. split.
        * destruct (parse_u32 _) as [v|] eqn:Hv; [|done]. cbn [ok_or].
          destruct (path_segments parts) as [out|] eqn:Ho; [|done]. intros [= <-].
          constructor; [by exists v|]. by apply IH.
        * inversion 1 as [|? n ? out (v & Hv & ->) Ho]; subst. rewrite Hv. cbn [ok_or].
          by rewrite (proj2 (IH out) Ho). }
  assert (Hbound : forall p n, segment_of p n -> 0 <= n < 2 ^ 32).
  { intros p n (v & Hv%parse_u32_bound & ->). case_match; [|done].
    assert (Hlor : 0 <= Z.lor v (2 ^ 31)) by (apply Z.lor_nonneg; lia). split; [done|].
    destruct (Z.eq_dec (Z.lor v (2 ^ 31)) 0) as [->|Hne]; [lia|]. apply Z.log2_lt_pow2; [lia|].
    rewrite Z.log2_lor by lia. apply Z.max_lub_lt; [|by vm_compute].
    destruct (Z.eq_dec v 0) as [->|]; [done|]. apply Z.log2_lt_pow2; lia. }
  unfold decode_path. split.
  - destruct (split_slash _ _) as [|head parts]; [done|].
    destruct (negb _ && negb _) eqn:Hm; [done|]. rewrite Hseg. intros Hf. exists head, parts.
    split; [done|]. split; [|split; [done|]].
    + apply andb_false_iff in Hm as [Hm|Hm]; apply negb_false_iff, bool_decide_eq_true in Hm; auto.
    + clear Hm. induction Hf; constructor; eauto.
  - intros (head & parts & -> & Hm & Hf & _).
    assert (negb (bool_decide (head = [x6d])) && negb (bool_decide (head = [x4d])) = false) as ->
      by (by destruct Hm as [-> | ->]). by apply Hseg.
Qed.

(** ** The secure channel *)

Section Channel.
Context {A : Aes} {AL : AesLaws A} {D : Kdf} {Hs : Hashes} {Ec : Ecdh} {E : Type} {H : CardHost E}.

(** A session whose channel is open, with keys of the right sizes. *)
Record channel_ok (k : Keycard) : Prop := {
  ch_open : SecureChannel.open (sc k) = true;
  ch_enc : length (SecureChannel.enc_key (sc k)) = 32%nat;
  ch_mac : length (SecureChannel.mac_key (sc k)) = 32%nat;
  ch_iv : length (SecureChannel.iv (sc k)) = 16%nat
}.

(** What an honest card answers on the channel, [civ] being the MAC of the
    command: the response encrypted under it, with its own MAC in front. *)
Definition card_answer (k : Keycard) (civ plain : list byte) : outcome (list byte) :=
  let^ enc := encrypt_data plain (SecureChannel.enc_key (sc k)) civ in
  let^ mac := calculate_mac (to_u8 (Z.of_nat (16 + length enc)) :: replicate 15 x00) enc
                (SecureChannel.mac_key (sc k)) in
  Returned (mac ++ enc ++ [x90; x00]).

Lemma parse_response_app d hi lo :
  parse_response (d ++ [hi; lo]) = {| Response.data := d; Response.sw := u8 hi * 256 + u8 lo |}.
Proof.
  unfold parse_response. rewrite length_app. cbn [length].
  rewrite (proj2 (Nat.ltb_ge _ _)) by lia.
  replace (length d + 2 - 2)%nat with (length d) by lia.
  replace (length d + 2 - 1)%nat with (length d + 1)%nat by lia.
  rewrite take_app_length, app_nth2_plus, app_nth2 by lia. rewrite Nat.sub_diag. cbn [nth].
  rewrite Z.lor_comm, Z.shiftl_mul_pow2 by lia. pose proof (u8_range lo).
  rewrite lor_disjoint_add by lia. change (2 ^ 8) with 256. f_equal. lia.
Qed.

Lemma wrap_command_ok cmd k (e : E) :
  channel_ok k ->
  exists enc mac,
    encrypt_data (Command.data cmd) (SecureChannel.enc_key (sc k)) (SecureChannel.iv (sc k)) = Returned enc
    /\ decrypt_data enc (SecureChannel.enc_key (sc k)) (SecureChannel.iv (sc k)) = Returned (Command.data cmd)
    /\ calculate_mac (command_meta cmd enc) enc (SecureChannel.mac_key (sc k)) = Returned mac
    /\ length mac = 16%nat
    /\ wrap_command cmd (k, e) = (Returned (with_data cmd (mac ++ enc)), (set_iv mac k, e)).
Proof.
  intros [Ho He Hm Hi].
  destruct (encrypt_data_ok (Command.data cmd) _ _ He Hi) as (enc & n & Henc & Hlen & Hdec).
  destruct (calculate_mac_ok (command_meta cmd enc) enc _ Hm) as (mac & Hmac & Hl); [done|].
  exists enc, mac. repeat (split; [done|]). unfold wrap_command, bindo, getk, lift, ret, updk, done_with.
  cbn [fst snd]. by rewrite Henc, Hmac.
Qed.

Lemma unwrap_response_ok k (e : E) civ plain enc mac :
  channel_ok k -> length civ = 16%nat ->
  encrypt_data plain (SecureChannel.enc_key (sc k)) civ = Returned enc ->
  calculate_mac (to_u8 (Z.of_nat (16 + length enc)) :: replicate 15 x00) enc (SecureChannel.mac_key (sc k))
  = Returned mac ->
  length mac = 16%nat
  /\ unwrap_response (parse_response (mac ++ enc ++ [x90; x00])) (set_iv civ k, e)
     = (Returned (Ok (parse_response plain)), (set_iv mac k, e)).
Proof.
  intros [Ho He Hm Hi] Hc Henc Hmac.
  destruct (encrypt_data_ok plain _ _ He Hc) as (enc' & n & Henc' & Hlen & Hdec).
  rewrite Henc in Henc'. injection Henc' as <-.
  destruct (calculate_mac_ok (to_u8 (Z.of_nat (16 + length enc)) :: replicate 15 x00) enc _ Hm)
    as (mac' & Hmac' & Hl); [done|].
  rewrite Hmac in Hmac'. injection Hmac' as <-. split; [done|].
  rewrite app_assoc, parse_response_app.
  unfold unwrap_response. cbn [Response.sw Response.data].
  change (u8 x90 * 256 + u8 x00 =? SW_OK) with true. cbn [negb].
  unfold bindo, getk, lift, ret, updk, done_with. cbn [fst snd].
  rewrite !slice_at_ok by (rewrite length_app; lia).
  rewrite Nat.sub_0_r, drop_0, length_app.
  rewrite take_app_le, (take_ge mac), drop_app_ge, Hl, Nat.sub_diag, drop_0, take_ge by lia.
  change (SecureChannel.enc_key (sc (set_iv civ k))) with (SecureChannel.enc_key (sc k)).
  change (SecureChannel.iv (sc (set_iv civ k))) with civ.
  change (SecureChannel.mac_key (sc (set_iv civ k))) with (SecureChannel.mac_key (sc k)).
  rewrite Hdec. unfold response_meta. rewrite length_app, Hl, Hmac, bool_decide_true by done. done.
Qed.

Lemma set_iv_ok iv k : channel_ok k -> length iv = 16%nat -> channel_ok (set_iv iv k).
Proof. intros [Ho He Hm Hi] Hl. by constructor. Qed.

(** One command over an open channel whose reply carries [plain]. *)
Lemma send_sc_open cmd k (e e' : E) enc mac plain renc rmac :
  channel_ok k -> length mac = 16%nat ->
  wrap_command cmd (k, e) = (Returned (with_data cmd (mac ++ enc)), (set_iv mac k, e)) ->
  encrypt_data plain (SecureChannel.enc_key (sc k)) mac = Returned renc ->
  calculate_mac (to_u8 (Z.of_nat (16 + length renc)) :: replicate 15 x00) renc
    (SecureChannel.mac_key (sc k)) = Returned rmac ->
  card_transmit (Command.serialize (with_data cmd (mac ++ enc))) e = (Ok (rmac ++ renc ++ [x90; x00]), e') ->
  send_sc cmd (k, e) = (Returned (Ok (parse_response plain)), (set_iv rmac k, e'))
  /\ channel_ok (set_iv rmac k).
Proof.
  intros Hok Hl Hw Henc Hmac Htr.
  destruct (unwrap_response_ok k e' mac plain renc rmac Hok Hl Henc Hmac) as [Hrl Hu].
  split; [|by apply set_iv_ok]. pose proof (ch_open k Hok) as Ho.
  unfold send_sc. unfold bindo at 1, getk at 1. cbn [fst]. rewrite Ho. unfold bindo at 1. rewrite Hw.
  unfold bindo at 1, transmit, bindo at 1, on_host. cbn [fst snd]. rewrite Htr. cbn [map_err].
  unfold done_with, ret, bindo at 1, getk. cbn [fst].
  change (SecureChannel.open (sc (set_iv mac k))) with (SecureChannel.open (sc k)). rewrite Ho. exact Hu.
Qed.

(** The secure channel carries commands and responses faithfully.  On an
    open channel the command's data goes out encrypted behind its MAC, such
    that the card decrypts it with the channel's previous IV; when the card
    answers honestly, [send_sc] returns the card's plain response, does not
    panic, and the channel stays usable with the response's MAC as its IV. *)
Theorem secure_channel_roundtrip cmd k (e : E) :
  channel_ok k ->
  exists enc mac,
    decrypt_data enc (SecureChannel.enc_key (sc k)) (SecureChannel.iv (sc k)) = Returned (Command.data cmd)
    /\ calculate_mac (command_meta cmd enc) enc (SecureChannel.mac_key (sc k)) = Returned mac
    /\ forall plain reply e',
         card_answer k mac plain = Returned reply ->
         card_transmit (Command.serialize (with_data cmd (mac ++ enc))) e = (Ok reply, e') ->
         exists iv, send_sc cmd (k, e) = (Returned (Ok (parse_response plain)), (set_iv iv k, e'))
           /\ channel_ok (set_iv iv k).
Proof.
  intros Hok. destruct (wrap_command_ok cmd k e Hok) as (enc & mac & Henc & Hdec & Hmac & Hl & Hw).
  exists enc, mac. split; [done|]. split; [done|]. intros plain reply e' Hans Htr. unfold card_answer in Hans.
  destruct (encrypt_data plain _ mac) as [renc| |] eqn:Hre; [|done..]. cbn [obind] in Hans.
  destruct (calculate_mac _ renc _) as [rmac| |] eqn:Hrm; [|done..]. injection Hans as <-.
  exists rmac. by eapply send_sc_open.
Qed.

(** Nothing is taken for a response of the card without its MAC. *)
Lemma unwrap_accepts resp k (e : E) r s :
  unwrap_response resp (k, e) = (Returned (Ok r), s) ->
  exists rmac rdata plain,
    Response.data resp = rmac ++ rdata /\ length rmac = 16%nat /\ Response.sw resp = SW_OK
    /\ calculate_mac (response_meta (Response.data resp)) rdata (SecureChannel.mac_key (sc k)) = Returned rmac
    /\ decrypt_data rdata (SecureChannel.enc_key (sc k)) (SecureChannel.iv (sc k)) = Returned plain
    /\ r = parse_response plain /\ s = (set_iv rmac k, e).
Proof.
  unfold unwrap_response. destruct (_ =? SW_OK) eqn:Hsw; cbn [negb]; [|done]. bool_to_prop.
  unfold bindo, getk, lift, ret, updk, done_with. cbn [fst snd].
  destruct (slice_at 0 16 _) as [rmac| |] eqn:H1; [|done..].
  destruct (slice_at 16 _ _) as [rdata| |] eqn:H2; [|done..].
  destruct (decrypt_data _ _ _) as [plain| |] eqn:Hd; [|done..].
  destruct (calculate_mac _ _ _) as [mac| |] eqn:Hm; [|done..].
  case_bool_decide as Heq; cbn [negb]; [|done]. subst mac. intros [= <- <-].
  apply slice_at_inv in H1 as [Hle ->], H2 as [Hle2 ->].
  exists (take 16 (Response.data resp)), (drop 16 (Response.data resp)), plain.
  rewrite Nat.sub_0_r, drop_0 in *.
  rewrite (take_ge (drop 16 _)) in * by (rewrite length_drop; lia).
  split; [by rewrite take_drop|]. split; [rewrite length_take; lia|]. by repeat (split; [done|]).
Qed.

(** What [unwrap_response] makes of a reply behind a MAC. *)
Lemma unwrap_split resp k (e : E) rmac rdata :
  channel_ok k -> Response.sw resp = SW_OK -> Response.data resp = rmac ++ rdata -> length rmac = 16%nat ->
  exists mac,
    calculate_mac (response_meta (Response.data resp)) rdata (SecureChannel.mac_key (sc k)) = Returned mac
    /\ length mac = 16%nat
    /\ unwrap_response resp (k, e)
       = match decrypt_data rdata (SecureChannel.enc_key (sc k)) (SecureChannel.iv (sc k)) with
         | Returned plain =>
             if bool_decide (mac = rmac) then (Returned (Ok (parse_response plain)), (set_iv mac k, e))
             else (Returned (Err "invalid response MAC"), (k, e))
         | Panicked => (Panicked, (k, e))
         | Running => (Running, (k, e))
         end.
Proof.
  intros [_ _ Hmk _] Hsw Hd Hl. destruct (calculate_mac_ok (response_meta (Response.data resp)) rdata _ Hmk)
    as (mac & Hmac & Hml); [done|]. exists mac. split; [done|]. split; [done|].
  unfold unwrap_response. rewrite Hsw, Z.eqb_refl. cbn [negb].
  unfold bindo, getk, lift, ret, updk, done_with. cbn [fst snd]. rewrite Hd in Hmac |- *.
  rewrite !slice_at_ok by (rewrite length_app; lia).
  rewrite Nat.sub_0_r, drop_0, length_app, take_app_le, (take_ge rmac), drop_app_ge, Hl, Nat.sub_diag, drop_0, take_ge by lia.
  destruct (decrypt_data _ _ _) as [plain| |]; [|done..]. rewrite Hmac. by case_bool_decide.
Qed.

(** C39: nothing is taken for a response of the card without its MAC: a response
    is accepted only when its first 16 bytes are the MAC of the rest under the
    channel's key, which becomes the IV.  On an open channel a reply of a MAC and
    whole blocks has a MAC to be compared with: when it is another, the reply is the error
    [invalid response MAC] and the channel stays as it was, and when it is the
    same the reply is accepted.  The code decrypts before it compares, so that a
    reply shorter than a MAC, or whose rest is not whole blocks, panics whatever
    its MAC.  A status other than 0x9000 is an error before any of this. *)
Theorem response_needs_mac resp k (e : E) :
  (forall r s, unwrap_response resp (k, e) = (Returned (Ok r), s) ->
     exists rmac rdata plain,
       Response.data resp = rmac ++ rdata /\ length rmac = 16%nat /\ Response.sw resp = SW_OK
       /\ calculate_mac (response_meta (Response.data resp)) rdata (SecureChannel.mac_key (sc k)) = Returned rmac
       /\ decrypt_data rdata (SecureChannel.enc_key (sc k)) (SecureChannel.iv (sc k)) = Returned plain
       /\ r = parse_response plain /\ s = (set_iv rmac k, e))
  /\ (Response.sw resp <> SW_OK ->
       unwrap_response resp (k, e) = (Returned (Err ("secure channel outer SW " +:+ hex4 (Response.sw resp))), (k, e)))
  /\ (channel_ok k -> Response.sw resp = SW_OK ->
       ((length (Response.data resp) < 16)%nat \/ (length (Response.data resp) mod 16 <> 0)%nat ->
          unwrap_response resp (k, e) = (Panicked, (k, e)))
       /\ (forall rmac rdata,
             Response.data resp = rmac ++ rdata -> length rmac = 16%nat -> (length rdata mod 16 = 0)%nat ->
             exists mac,
               calculate_mac (response_meta (Response.data resp)) rdata (SecureChannel.mac_key (sc k)) = Returned mac
               /\ length mac = 16%nat
               /\ (mac <> rmac ->
                    unwrap_response resp (k, e) = (Returned (Err "invalid response MAC"), (k, e)))
               /\ (mac = rmac -> exists r,
                    unwrap_response resp (k, e) = (Returned (Ok r), (set_iv mac k, e))))).
Proof.
  split; [apply unwrap_accepts|]. split.
  { intros Hsw. unfold unwrap_response. by rewrite (proj2 (Z.eqb_neq _ _) Hsw). }
  intros Hok Hsw. pose proof Hok as [_ He _ Hi]. split.
  - intros Hlen. destruct (Nat.ltb_spec (length (Response.data resp)) 16) as [Hl|Hl].
    { unfold unwrap_response. rewrite Hsw, Z.eqb_refl. cbn [negb].
      unfold bindo, getk, lift, ret. cbn [fst snd]. unfold slice_at. by rewrite (proj2 (Nat.leb_gt 16 _)) by lia. }
    destruct Hlen as [|Hlen]; [lia|].
    destruct (unwrap_split resp k e (take 16 (Response.data resp)) (drop 16 (Response.data resp)) Hok Hsw)
      as (mac & _ & _ & ->); [by rewrite take_drop|rewrite length_take; lia|].
    pose proof (decrypt_data_cases (drop 16 (Response.data resp)) _ _ He Hi) as Hd.
    rewrite length_drop, (proj2 (Nat.eqb_neq _ _)) in Hd; [by rewrite Hd|].
    intros H0. apply Hlen. rewrite <-(Nat.sub_add 16 (length _)) by lia.
    rewrite <-Nat.Div0.add_mod_idemp_l, H0. done.
  - intros rmac rdata Hd Hl Hw. destruct (unwrap_split resp k e rmac rdata Hok Hsw Hd Hl) as (mac & Hm & Hml & ->).
    pose proof (decrypt_data_cases rdata _ _ He Hi) as Hdec. rewrite Hw in Hdec. destruct Hdec as [plain ->].
    exists mac. split; [done|]. split; [done|]. split; intros Hmac; case_bool_decide; try done. by eexists.
Qed.

(** Before a channel is open a command is sent in the clear: [select]
    leaves the channel closed, and [identify] then sends exactly the challenge
    and returns the card's data. *)
Theorem identify_in_the_clear fuel challenge k k1 (e e1 e2 : E) raw :
  select fuel (k, e) = (Returned (Ok tt), (k1, e1)) ->
  card_transmit (Command.serialize (Command.new CLA_GP INS_IDENTIFY x00 x00 challenge)) e1 = (Ok raw, e2) ->
  SecureChannel.open (sc k1) = false
  /\ identify challenge (k1, e1)
     = (Returned (if Response.sw (parse_response raw) =? SW_OK
                  then Ok (Response.data (parse_response raw))
                  else Err ("IDENTIFY SW " +:+ hex4 (Response.sw (parse_response raw)))), (k1, e2)).
Proof.
  intros Hsel Ht. assert (Ho : SecureChannel.open (sc k1) = false).
  { revert Hsel. unfold select. unfold bindo at 1. destruct (transmit _ _) as [[[resp|]| |] s1]; [|done..].
    destruct (negb _); [done|].
    unfold bindo at 1. destruct (app_info fuel resp s1) as [[[pub|]| |] s2]; [|done..].
    unfold bindo at 1. destruct (ecdh_generate pub s2) as [[[[sec eph]|]| |] [k3 e3]]; [|done..].
    unfold bindo, getk, updk, done_with, ret. cbn. by intros [= <- _]. }
  split; [done|]. unfold identify, send_sc. unfold bindo at 1 2, getk at 1. cbn [fst]. rewrite Ho.
  unfold bindo at 1, done_with at 1, ret at 1. unfold bindo at 1, transmit, bindo at 1, on_host.
  cbn [fst snd]. rewrite Ht. cbn [map_err]. unfold bindo, done_with, ret, getk. cbn [fst]. rewrite Ho.
  cbn [negb]. by destruct (_ =? SW_OK).
Qed.
End Channel.

(** ** A scripted card, for the witnesses *)

Module Scripted.
#[export] Instance ecdh : Ecdh := {|
  PublicKey := list byte; Scalar := list byte;
  public_from_sec1 k := if (length k =? 65)%nat then Ok k else Err "signature error";
  diffie_hellman s _ := s; public_bytes _ := x04 :: replicate 64 x01 |}.

(** The answers the card gives, one per command. *)
#[export] Instance host : CardHost (list (list byte)) := {|
  pcsc_establish e := (Ok tt, e); pcsc_list_readers e := (Ok ["reader"], e);
  pcsc_connect _ e := (Ok tt, e); pcsc_status_change _ e := (Ok true, e);
  card_transmit _ e := match e with r :: e => (Ok r, e) | [] => (Err PcscTimeout, []) end;
  random_bytes n e := (replicate n x05, e);
  random_scalar e := (replicate 32 x07, e) |}.

#[export] Instance kdf : Kdf := {|
  sha512 m := take 64 (m ++ replicate 64 x00); pbkdf2_sha256 _ _ _ := replicate 32 x00; nfkd_str s := s |}.

Definition open_session : Keycard := set_sc {|
  SecureChannel.open := true; SecureChannel.secret := []; SecureChannel.eph_pub := [];
  SecureChannel.enc_key := replicate 32 x05; SecureChannel.mac_key := replicate 32 x06;
  SecureChannel.iv := replicate 16 x01 |} fresh_keycard.

(** SELECT answers of an initialised card, with its instance uid and key. *)
Definition select_answer : list byte :=
  let inner := x8f :: x02 :: xaa :: xbb :: x80 :: x41 :: x04 :: replicate 64 x02 in
  xa4 :: to_u8 (Z.of_nat (length inner)) :: inner ++ [x90; x00].
End Scripted.

Import ToyAes Scripted.

Lemma open_session_ok : channel_ok open_session.
Proof. by constructor. Qed.

Lemma secure_channel_roundtrip_witness :
  exists enc : list byte,
    decrypt_data enc (replicate 32 x05) (replicate 16 x01) = Returned (str_bytes "123456").
Proof.
  destruct (secure_channel_roundtrip (Command.new CLA_GP INS_VERIFY_PIN x00 x00 (str_bytes "123456"))
    open_session [] open_session_ok) as (enc & mac & Hd & _).
  exact (ex_intro _ enc Hd).
Defined.

(** A wrong MAC before a whole block is an error, before 17 bytes a panic. *)
Lemma response_needs_mac_witness :
  unwrap_response {| Response.sw := SW_OK; Response.data := replicate 32 xff |} (open_session, [] : list (list byte))
    = (Returned (Err "invalid response MAC"), (open_session, [] : list (list byte)))
  /\ unwrap_response {| Response.sw := SW_OK; Response.data := replicate 33 xff |} (open_session, [] : list (list byte))
     = (Panicked, (open_session, [] : list (list byte))).
Proof.
  split.
  - destruct (response_needs_mac {| Response.sw := SW_OK; Response.data := replicate 32 xff |} open_session ([] : list (list byte)))
      as (_ & _ & Hopen). destruct (Hopen open_session_ok eq_refl) as [_ Hwhole].
    destruct (Hwhole (replicate 16 xff) (replicate 16 xff) eq_refl eq_refl eq_refl) as (mac & Hmac & _ & Hne & _).
    apply Hne. revert Hmac. vm_compute. by intros [= <-].
  - destruct (response_needs_mac {| Response.sw := SW_OK; Response.data := replicate 33 xff |} open_session ([] : list (list byte)))
      as (_ & _ & Hopen). destruct (Hopen open_session_ok eq_refl) as [Hpanic _].
    apply Hpanic. right. done.
Defined.

Lemma identify_in_the_clear_witness :
  SecureChannel.open (sc (select 100 (fresh_keycard, [select_answer; [x01; x90; x00]])).2.1) = false.
Proof.
  exact (proj1 (identify_in_the_clear (A := aes) 100 (replicate 32 x00) fresh_keycard
    (select 100 (fresh_keycard, [select_answer; [x01; x90; x00]])).2.1
    [select_answer; [x01; x90; x00]] [[x01; x90; x00]] [] [x01; x90; x00] eq_refl eq_refl)).
Defined.
