(* ===== verification/CardSession.v ===== *)
(** * A session with an honest card (crates/keycard-client/src/client.rs)

    What [Keycard] promises together with a card that follows the protocol.
    The card is an interface: [CardState] is what it remembers (its key, the
    pairing secret, the pairing slots, its side of the secure channel) and
    [HonestCard] what it answers to each command.  Against it: [select], [pair]
    and [open_secure_channel] give client and card the same session keys, and
    every command keeps the two sides of the channel in step.  [HonestToy] is a
    card that satisfies the interface. *)
From S2P Require Import Prelude RustStd Apdu Attest KeycardCrypto Keycard.

Class EcdhLaws (Ec : Ecdh) : Prop := {
  public_valid s : exists P, public_from_sec1 (public_bytes s) = Ok P;
  (** both sides of an exchange compute the same 32 bytes *)
  dh_agree a b A B :
    public_from_sec1 (public_bytes a) = Ok A -> public_from_sec1 (public_bytes b) = Ok B ->
    diffie_hellman a B = diffie_hellman b A;
  dh_length a B : length (diffie_hellman a B) = 32%nat
}.

Class KdfLaws (D : Kdf) : Prop := { sha512_length m : length (sha512 m) = 64%nat }.

(** The card's side of the secure channel. *)
Record Channel := { c_enc : list byte; c_mac : list byte; c_iv : list byte }.

Record CardState (S : Type) := {
  scalar : S;
  (** the hash of the pairing password *)
  secret_hash : list byte;
  (** the challenge of a pairing that is under way *)
  pending : option (list byte);
  slots : byte -> option (list byte);
  channel : option Channel
}.
Arguments scalar {_} _.
Arguments secret_hash {_} _.
Arguments pending {_} _.
Arguments slots {_} _.
Arguments channel {_} _.

Definition with_pending {S} (p : option (list byte)) (v : CardState S) : CardState S :=
  {| scalar := scalar v; secret_hash := secret_hash v; pending := p; slots := slots v; channel := channel v |}.
Definition with_slot {S} (i : byte) (key : list byte) (v : CardState S) : CardState S :=
  {| scalar := scalar v; secret_hash := secret_hash v; pending := None;
     slots := fun j => if decide (j = i) then Some key else slots v j; channel := channel v |}.
Definition with_channel {S} (c : option Channel) (v : CardState S) : CardState S :=
  {| scalar := scalar v; secret_hash := secret_hash v; pending := pending v; slots := slots v; channel := c |}.

(** The card's session keys: SHA-512 over the shared secret, the pairing key
    and its salt, cut in two. *)
Definition card_channel {D : Kdf} (secret key salt iv : list byte) : Channel :=
  let h := sha512 (secret ++ key ++ salt) in
  {| c_enc := take 32 h; c_mac := drop 32 h; c_iv := iv |}.

(** An application template with the instance uid and the card's public key. *)
Record app_template (data uid pub : list byte) : Prop := {
  at_size : Z.of_nat (length data) < 2 ^ 64;
  at_inner : exists tpl, ber_item data xa4 tpl
    /\ (exists pre full rest, tpl = pre ++ full ++ rest /\ ber_without x8f pre /\ ber_item full x8f uid)
    /\ (exists pre full rest, tpl = pre ++ full ++ rest /\ ber_without x80 pre /\ ber_item full x80 pub)
}.

Definition select_command : Command.t :=
  {| Command.cla := x00; Command.ins := INS_SELECT; Command.p1 := x04; Command.p2 := x00;
     Command.data := KEYCARD_INSTANCE_AID; Command.le := Some x00 |}.

(** Data that fits a short APDU together with its padding and MAC. *)
Definition short_data (cmd : Command.t) : Prop := (length (Command.data cmd) < 224)%nat.

(** What a card that follows the protocol answers; [app] is the plain answer
    of its application to a command over the channel. *)
Class HonestCard {A : Aes} {D : Kdf} {Hs : Hashes} {Ec : Ecdh} {E : Type} {H : CardHost E}
    (view : E -> CardState Scalar) (app : E -> Command.t -> list byte) : Prop := {
  random_ok n e : exists r e', random_bytes n e = (r, e') /\ length r = n /\ view e' = view e;
  scalar_ok e : view (random_scalar e).2 = view e;
  on_select e : exists data uid e',
    card_transmit (Command.serialize select_command) e = (Ok (data ++ [x90; x00]), e')
    /\ app_template data uid (public_bytes (scalar (view e))) /\ view e' = with_channel None (view e);
  on_pair_first e challenge : channel (view e) = None -> length challenge = 32%nat ->
    exists card_challenge e',
      card_transmit (Command.serialize (Command.new CLA_GP INS_PAIR P1_PAIR_FIRST x00 challenge)) e
      = (Ok ((sha256_parts [secret_hash (view e); challenge] ++ card_challenge) ++ [x90; x00]), e')
      /\ length card_challenge = 32%nat /\ view e' = with_pending (Some card_challenge) (view e);
  on_pair_final e card_challenge : channel (view e) = None -> pending (view e) = Some card_challenge ->
    exists index salt e',
      card_transmit (Command.serialize (Command.new CLA_GP INS_PAIR P1_PAIR_FINAL x00
                       (sha256_parts [secret_hash (view e); card_challenge]))) e
      = (Ok ((index :: salt) ++ [x90; x00]), e')
      /\ view e' = with_slot index (sha256_parts [secret_hash (view e); salt]) (view e);
  on_open e index key s P :
    channel (view e) = None -> slots (view e) index = Some key -> public_from_sec1 (public_bytes s) = Ok P ->
    exists salt iv e',
      card_transmit (Command.serialize (Command.new CLA_GP INS_OPEN_SECURE_CHANNEL index x00 (public_bytes s))) e
      = (Ok ((salt ++ iv) ++ [x90; x00]), e')
      /\ length salt = 32%nat /\ length iv = 16%nat
      /\ view e' = with_channel (Some (card_channel (diffie_hellman (scalar (view e)) P) key salt iv)) (view e);
  (** a command the card can decrypt, with the MAC it expects *)
  on_command e c cmd enc mac renc rmac :
    channel (view e) = Some c -> (length (mac ++ enc) <= 255)%nat -> Command.le cmd = None ->
    decrypt_data enc (c_enc c) (c_iv c) = Returned (Command.data cmd) ->
    calculate_mac (command_meta cmd enc) enc (c_mac c) = Returned mac ->
    encrypt_data (app e cmd) (c_enc c) mac = Returned renc ->
    calculate_mac (to_u8 (Z.of_nat (16 + length renc)) :: replicate 15 x00) renc (c_mac c) = Returned rmac ->
    exists e', card_transmit (Command.serialize (with_data cmd (mac ++ enc))) e
               = (Ok (rmac ++ renc ++ [x90; x00]), e')
      /\ view e' = with_channel (Some {| c_enc := c_enc c; c_mac := c_mac c; c_iv := rmac |}) (view e);
  on_mutual e data : length data = 32%nat ->
    Response.sw (parse_response (app e (Command.new CLA_GP INS_MUTUALLY_AUTHENTICATE x00 x00 data))) = SW_OK
}.

Section Session.
Context {A : Aes} {AL : AesLaws A} {D : Kdf} {DL : KdfLaws D} {Hs : Hashes} {HL : HashLaws Hs}
  {Ec : Ecdh} {EL : EcdhLaws Ec} {E : Type} {H : CardHost E}
  {view : E -> CardState Scalar} {app : E -> Command.t -> list byte} {HC : HonestCard view app}.

(** The two sides of the channel agree. *)
Record in_step (k : Keycard) (v : CardState Scalar) : Prop := {
  is_ok_channel : channel_ok k;
  is_same : channel v = Some {| c_enc := SecureChannel.enc_key (sc k); c_mac := SecureChannel.mac_key (sc k);
                                c_iv := SecureChannel.iv (sc k) |}
}.

Lemma transmit_ok cmd data k (e e' : E) :
  card_transmit (Command.serialize cmd) e = (Ok (data ++ [x90; x00]), e') ->
  transmit cmd (k, e) = (Returned (Ok {| Response.data := data; Response.sw := SW_OK |}), (k, e')).
Proof.
  intros Ht. unfold transmit, bindo, on_host, done_with, ret. cbn [fst snd]. rewrite Ht. cbn [map_err].
  by rewrite parse_response_app.
Qed.

(** A command over a channel in step. *)
Lemma send_in_step cmd k e :
  in_step k (view e) -> short_data cmd -> Command.le cmd = None ->
  exists iv e', send_sc cmd (k, e) = (Returned (Ok (parse_response (app e cmd))), (set_iv iv k, e'))
    /\ in_step (set_iv iv k) (view e') /\ slots (view e') = slots (view e).
Proof.
  intros [Hok Hc] Hsh Hle. destruct (wrap_command_ok cmd k e Hok) as (enc & mac & Henc & Hdec & Hmac & Hl & Hw).
  destruct (encrypt_data_ok (app e cmd) _ mac (ch_enc k Hok) Hl) as (renc & n & Hre & _ & _).
  destruct (calculate_mac_ok (to_u8 (Z.of_nat (16 + length renc)) :: replicate 15 x00) renc _ (ch_mac k Hok))
    as (rmac & Hrm & _); [done|].
  pose proof (encrypt_data_length _ _ _ _ (ch_enc k Hok) (ch_iv k Hok) Henc) as Hel.
  assert (Hfit : (length (mac ++ enc) <= 255)%nat) by (rewrite length_app; unfold short_data in Hsh; lia).
  destruct (on_command e _ cmd enc mac renc rmac Hc Hfit Hle Hdec Hmac Hre Hrm) as (e' & Htr & Hv).
  destruct (send_sc_open cmd k e e' enc mac (app e cmd) renc rmac Hok Hl Hw Hre Hrm Htr) as [Hsend Hok'].
  exists rmac, e'. split; [done|]. rewrite Hv. done.
Qed.

Lemma app_info_ok fuel data uid pub k (e : E) :
  app_template data uid pub -> (length data <= fuel)%nat ->
  app_info fuel {| Response.data := data; Response.sw := SW_OK |} (k, e)
  = (Returned (Ok pub), (set_info true uid k, e)).
Proof.
  intros [Hsz (tpl & Hit & (p1 & f1 & r1 & H1 & Hw1 & Hi1) & (p2 & f2 & r2 & H2 & Hw2 & Hi2))] Hf.
  assert (Hlt : (length tpl < length data)%nat).
  { destruct Hit as [t hdr v Hb]. cbn. rewrite length_app. lia. }
  assert (Hfull : forall f t v, ber_item f t v -> (0 < length f)%nat) by (intros ? ? ? [??? _]; cbn; lia).
  assert (Hhd : head data = Some xa4) by (by destruct Hit).
  unfold app_info. cbn [Response.data]. rewrite Hhd. cbn [bool_decide].
  rewrite bool_decide_false by done.
  unfold bindo, lift, ret, getk, updk, done_with. cbn [fst snd]. unfold Apdu.find_tag.
  rewrite (ber_loop_complete fuel data xa4 0 [] tpl data []); [|done|constructor|by rewrite app_nil_r|done|
    specialize (Hfull _ _ _ Hit); cbn; lia].
  specialize (Hfull _ _ _ Hi1) as Hl1. specialize (Hfull _ _ _ Hi2) as Hl2.
  rewrite (ber_loop_complete fuel tpl x8f 0 p1 uid f1 r1);
    [|lia|done|done|done|rewrite H1, !length_app in Hlt; lia].
  rewrite (ber_loop_complete fuel tpl x80 0 p2 pub f2 r2);
    [|lia|done|done|done|rewrite H2, !length_app in Hlt; lia].
  done.
Qed.

(** [select] gives both sides the same shared secret. *)
Lemma select_ok k e :
  exists n, forall fuel, (n <= fuel)%nat ->
  exists s P uid k' e',
    select fuel (k, e) = (Returned (Ok tt), (k', e'))
    /\ public_from_sec1 (public_bytes s) = Ok P
    /\ SecureChannel.eph_pub (sc k') = public_bytes s
    /\ SecureChannel.secret (sc k') = diffie_hellman (scalar (view e)) P
    /\ SecureChannel.open (sc k') = false
    /\ initialized k' = true /\ instance_uid k' = uid
    /\ view e' = with_channel None (view e).
Proof.
  destruct (on_select e) as (data & uid & e1 & Ht & Happ & Hv). exists (length data). intros fuel Hf.
  destruct (random_scalar e1) as [s e2] eqn:Hsc. pose proof (scalar_ok e1) as Hv2. rewrite Hsc in Hv2.
  cbn [snd] in Hv2.
  destruct (public_valid s) as [P HP]. destruct (public_valid (scalar (view e))) as [Q HQ].
  exists s, P, uid. unfold select. fold select_command. unfold bindo at 1.
  rewrite (transmit_ok _ _ _ _ _ Ht). cbn [Response.sw]. rewrite Z.eqb_refl. cbn [negb].
  unfold bindo at 1. rewrite (app_info_ok fuel data uid _ k e1 Happ Hf).
  unfold ecdh_generate, bindo, on_host, done_with, ret, getk, updk. cbn [fst snd]. rewrite Hsc. cbn [fst snd].
  rewrite HQ. cbn [map_err]. rewrite dh_length. cbn [Nat.eqb fst snd].
  do 2 eexists. split; [reflexivity|]. split; [done|]. split; [done|].
  split; [cbn; by apply dh_agree|]. do 3 (split; [done|]). congruence.
Qed.

(** [pair] with the card's password stores the key of the slot the card chose. *)
Lemma pair_ok pass k e :
  channel (view e) = None -> pairing_secret_hash pass = secret_hash (view e) ->
  exists i key e',
    pair pass (k, e) = (Returned (Ok tt), (set_pairing i key k, e'))
    /\ view e' = with_slot i key (with_pending (pending (view e)) (view e)).
Proof.
  intros Hc Hp. destruct (random_ok 32 e) as (ch & e1 & Hr & Hl & Hv1).
  destruct (on_pair_first e1 ch ltac:(by rewrite Hv1) Hl) as (cc & e2 & Ht2 & Hcc & Hv2).
  destruct (on_pair_final e2 cc) as (i & salt & e3 & Ht3 & Hv3); [by rewrite Hv2, Hv1|by rewrite Hv2|].
  assert (Hh : secret_hash (view e2) = pairing_secret_hash pass) by (by rewrite Hv2, Hv1, Hp).
  assert (Hh1 : secret_hash (view e1) = pairing_secret_hash pass) by (by rewrite Hv1, Hp).
  rewrite Hh in *. rewrite Hh1 in *.
  exists i, (sha256_parts [pairing_secret_hash pass; salt]), e3.
  split; [|by rewrite Hv3, Hv2, Hv1].
  unfold pair. unfold bindo at 1, on_host at 1. cbn [fst snd]. rewrite Hr.
  unfold bindo at 1. rewrite (transmit_ok _ _ _ _ _ Ht2). cbn [Response.sw Response.data].
  rewrite (proj2 (Z.eqb_neq _ _)) by done. rewrite Z.eqb_refl. cbn [negb].
  assert (Hlen : forall m, length (sha256_parts m) = 32%nat) by (intros m; apply sha256_length).
  rewrite !slice_at_ok by (rewrite length_app, Hlen, Hcc; lia).
  rewrite Nat.sub_0_r, drop_0, take_app_le, (take_ge (sha256_parts _)) by (rewrite Hlen; lia).
  rewrite drop_app_ge, Hlen, Nat.sub_diag, drop_0, take_ge by (rewrite ?Hlen; lia).
  unfold bindo at 1 2, lift, ret at 1 2. rewrite bool_decide_true by done. cbn [negb].
  unfold bindo at 1. rewrite (transmit_ok _ _ _ _ _ Ht3). cbn [Response.sw Response.data].
  rewrite Z.eqb_refl. cbn [negb].
  rewrite slice_at_ok by (cbn; lia). change (drop 1 (i :: salt)) with salt.
  rewrite take_ge by (cbn; lia). done.
Qed.

(** A wrong password is noticed on the card's cryptogram, and nothing derived
    from it is sent. *)
Lemma pair_wrong pass k e :
  channel (view e) = None ->
  (forall ch, length ch = 32%nat ->
     sha256_parts [pairing_secret_hash pass; ch] <> sha256_parts [secret_hash (view e); ch]) ->
  exists e' cc,
    pair pass (k, e) = (Returned (Err "invalid card cryptogram (wrong pairing password?)"), (k, e'))
    /\ view e' = with_pending (Some cc) (view e).
Proof.
  intros Hc Hp. destruct (random_ok 32 e) as (ch & e1 & Hr & Hl & Hv1).
  destruct (on_pair_first e1 ch ltac:(by rewrite Hv1) Hl) as (cc & e2 & Ht2 & Hcc & Hv2).
  exists e2, cc. split; [|by rewrite Hv2, Hv1]. rewrite Hv1 in *.
  unfold pair. unfold bindo at 1, on_host at 1. cbn [fst snd]. rewrite Hr.
  unfold bindo at 1. rewrite (transmit_ok _ _ _ _ _ Ht2). cbn [Response.sw Response.data].
  rewrite (proj2 (Z.eqb_neq _ _)) by done. rewrite Z.eqb_refl. cbn [negb].
  assert (Hlen : forall m, length (sha256_parts m) = 32%nat) by (intros m; apply sha256_length).
  rewrite !slice_at_ok by (rewrite length_app, Hlen, Hcc; lia).
  rewrite Nat.sub_0_r, drop_0, take_app_le, (take_ge (sha256_parts _)) by (rewrite Hlen; lia).
  unfold bindo at 1 2, lift, ret at 1 2. by rewrite bool_decide_false by auto.
Qed.
End Session.

Section Opening.
Context {A : Aes} {AL : AesLaws A} {D : Kdf} {DL : KdfLaws D} {Hs : Hashes} {HL : HashLaws Hs}
  {Ec : Ecdh} {EL : EcdhLaws Ec} {E : Type} {H : CardHost E}
  {view : E -> CardState Scalar} {app : E -> Command.t -> list byte} {HC : HonestCard view app}.

(** Both sides cut the same keys out of the hash. *)
Lemma derive_session_keys_ok secret key salt iv :
  length salt = 32%nat -> length iv = 16%nat ->
  exists enc mac, derive_session_keys secret key (salt ++ iv) = Returned (enc, mac, iv)
    /\ length enc = 32%nat /\ length mac = 32%nat
    /\ card_channel secret key salt iv = {| c_enc := enc; c_mac := mac; c_iv := iv |}.
Proof.
  intros Hsalt Hiv. unfold derive_session_keys, card_channel.
  pose proof (sha512_length (secret ++ key ++ salt)) as Hl.
  rewrite !(slice_at_ok _ _ (salt ++ iv)) by (rewrite length_app; lia). cbn [obind].
  rewrite Nat.sub_0_r, drop_0, take_app_le, (take_ge salt), drop_app_ge, Hsalt, Nat.sub_diag, drop_0,
    (take_ge iv) by lia.
  rewrite !slice_at_ok by lia. cbn [obind]. rewrite Nat.sub_0_r, drop_0.
  rewrite (take_ge (drop 32 _)) by (rewrite length_drop; lia).
  do 2 eexists. split; [reflexivity|]. rewrite length_take, length_drop, Hl. done.
Qed.

Lemma open_ok k e s P :
  channel (view e) = None ->
  slots (view e) (pairing_index k) = Some (pairing_key k) ->
  SecureChannel.eph_pub (sc k) = public_bytes s -> public_from_sec1 (public_bytes s) = Ok P ->
  SecureChannel.secret (sc k) = diffie_hellman (scalar (view e)) P ->
  exists c e', open_secure_channel (k, e) = (Returned (Ok tt), (set_sc c k, e'))
    /\ in_step (set_sc c k) (view e') /\ slots (view e') = slots (view e).
Proof.
  intros Hc Hslot He HP Hsec.
  destruct (on_open e _ _ s P Hc Hslot HP) as (salt & iv & e1 & Ht & Hsalt & Hiv & Hv1).
  destruct (derive_session_keys_ok (SecureChannel.secret (sc k)) (pairing_key k) salt iv Hsalt Hiv)
    as (enc & mac & Hd & Henc & Hmac & Hch).
  destruct (random_ok 32 e1) as (data & e2 & Hr & Hdl & Hv2).
  set (k1 := set_sc {| SecureChannel.open := true; SecureChannel.secret := SecureChannel.secret (sc k);
    SecureChannel.eph_pub := SecureChannel.eph_pub (sc k); SecureChannel.enc_key := enc;
    SecureChannel.mac_key := mac; SecureChannel.iv := iv |} k).
  assert (Hin : in_step k1 (view e2)).
  { split; [by constructor|]. rewrite Hv2, Hv1, <-Hsec. cbn. by rewrite Hch. }
  destruct (send_in_step (Command.new CLA_GP INS_MUTUALLY_AUTHENTICATE x00 x00 data) k1 e2 Hin)
    as (iv' & e3 & Hsend & Hin' & Hslots); [unfold short_data; cbn; lia|done|].
  eexists _, e3. split; [|split; [exact Hin'|]].
  - unfold open_secure_channel. unfold bindo at 1, getk at 1. cbn [fst]. rewrite He.
    unfold bindo at 1. rewrite (transmit_ok _ _ _ _ _ Ht). cbn [Response.sw Response.data].
    rewrite Z.eqb_refl. cbn [negb]. unfold bindo at 1, getk at 1. cbn [fst].
    rewrite Hd. unfold bindo at 1, lift, ret at 1. unfold bindo at 1, updk. cbn [fst snd]. fold k1.
    unfold bindo at 1, on_host at 1. cbn [fst snd]. rewrite Hr. unfold bindo at 1. rewrite Hsend.
    rewrite (on_mutual e2 data Hdl), Z.eqb_refl. done.
  - by rewrite Hslots, Hv2, Hv1.
Qed.
End Opening.

(** ** Properties *)

Section Properties.
Context {A : Aes} {AL : AesLaws A} {D : Kdf} {DL : KdfLaws D} {Hs : Hashes} {HL : HashLaws Hs}
  {Ec : Ecdh} {EL : EcdhLaws Ec} {E : Type} {H : CardHost E}
  {view : E -> CardState Scalar} {app : E -> Command.t -> list byte} {HC : HonestCard view app}.

(** C13: client and card agree on the session.  From any state of the session, a
    client that knows the card's pairing password selects, pairs and opens the
    secure channel without an error or a panic; then both sides hold the same
    encryption key, MAC key and IV, of the sizes the ciphers take, and the slot
    the card gave out holds the client's pairing key. *)
Theorem session_agrees pass k (e : E) :
  pairing_secret_hash pass = secret_hash (view e) ->
  exists n, forall fuel, (n <= fuel)%nat ->
  exists k' e',
    (let^? _ := select fuel in let^? _ := pair pass in open_secure_channel) (k, e)
    = (Returned (Ok tt), (k', e'))
    /\ in_step k' (view e') /\ initialized k' = true
    /\ slots (view e') (pairing_index k') = Some (pairing_key k').
Proof.
  intros Hp. destruct (select_ok k e) as [n Hsel]. exists n. intros fuel Hf.
  destruct (Hsel fuel Hf) as (s & P & uid & k1 & e1 & Hs1 & HP & Heph & Hsec & _ & Hinit & _ & Hv1).
  destruct (pair_ok pass k1 e1) as (i & key & e2 & Hp2 & Hv2); [by rewrite Hv1..|].
  assert (Hslot : slots (view e2) i = Some key) by (rewrite Hv2; cbn; by rewrite decide_True).
  destruct (open_ok (set_pairing i key k1) e2 s P) as (c & e3 & Ho & Hin & Hsl);
    [by rewrite Hv2, Hv1|done..|by rewrite Hv2, Hv1|].
  eexists _, e3. unfold bindo at 1. rewrite Hs1. unfold bindo at 1. rewrite Hp2.
  split; [exact Ho|]. split; [done|]. split; [done|]. by rewrite Hsl.
Qed.

(** C14: the channel stays in step.  On a channel whose two sides agree, every
    command whose data fits an APDU reaches the card's application and comes
    back with the application's answer, and afterwards the two sides agree
    again, so any number of commands may follow. *)
Theorem commands_stay_in_step cmd k (e : E) :
  in_step k (view e) -> short_data cmd -> Command.le cmd = None ->
  exists iv e', send_sc cmd (k, e) = (Returned (Ok (parse_response (app e cmd))), (set_iv iv k, e'))
    /\ in_step (set_iv iv k) (view e').
Proof.
  intros Hin Hs0 Hle. destruct (send_in_step cmd k e Hin Hs0 Hle) as (iv & e' & Hs1 & Hin' & _). eauto.
Qed.

(** C38: a wrong pairing password is noticed before anything derived from it is
    sent: the client compares the card's cryptogram, reports the error, keeps
    its session as it was and leaves the card waiting for the second step. *)
Theorem wrong_password_refused pass k (e : E) :
  channel (view e) = None ->
  (forall ch, length ch = 32%nat ->
     sha256_parts [pairing_secret_hash pass; ch] <> sha256_parts [secret_hash (view e); ch]) ->
  exists e' cc,
    pair pass (k, e) = (Returned (Err "invalid card cryptogram (wrong pairing password?)"), (k, e'))
    /\ view e' = with_pending (Some cc) (view e).
Proof. apply pair_wrong. Qed.

(** A key exported over a channel in step is the one in the card's template,
    for any path of at most 55 segments. *)
Theorem exported_key_read path ns key answer k (e : E) :
  in_step k (view e) -> decode_path path = Ok ns -> (length ns <= 55)%nat ->
  app e (Command.new CLA_GP INS_EXPORT_KEY P1_EXPORT_DERIVE P2_EXPORT_PRIV_AND_PUB (concat (be32 <$> ns)))
  = answer ++ [x90; x00] ->
  Z.of_nat (length answer) < 2 ^ 64 ->
  (exists tpl pre full rest, ber_item answer xa1 tpl
     /\ tpl = pre ++ full ++ rest /\ ber_without x81 pre /\ ber_item full x81 key) ->
  exists n, forall fuel, (n <= fuel)%nat ->
  exists iv e', export_key fuel path (k, e) = (Returned (Ok key), (set_iv iv k, e'))
    /\ in_step (set_iv iv k) (view e').
Proof.
  intros Hin Hp Hn Happ Hsz (tpl & pre & full & rest & Hit & Htpl & Hw & Hi).
  exists (length answer). intros fuel Hf.
  destruct (send_in_step (Command.new CLA_GP INS_EXPORT_KEY P1_EXPORT_DERIVE P2_EXPORT_PRIV_AND_PUB
    (concat (be32 <$> ns))) k e Hin) as (iv & e' & Hs1 & Hin' & _); [|done|].
  { unfold short_data. cbn [Command.data Command.new].
    assert (Hl : length (concat (be32 <$> ns)) = (4 * length ns)%nat)
      by (clear; induction ns as [|x ns IH]; [done|]; cbn in *; lia). lia. }
  exists iv, e'. split; [|done]. unfold export_key. rewrite Hp. unfold bindo at 1. rewrite Hs1, Happ.
  rewrite parse_response_app. cbn [Response.sw Response.data].
  change (u8 x90 * 256 + u8 x00 =? SW_OK) with true. cbn [negb].
  assert (Hlt : (length tpl < length answer)%nat).
  { destruct Hit as [t hdr v Hb]. cbn. rewrite length_app. lia. }
  assert (Hfull : forall f t v, ber_item f t v -> (0 < length f)%nat) by (intros ? ? ? [??? _]; cbn; lia).
  pose proof (Hfull _ _ _ Hit). pose proof (Hfull _ _ _ Hi).
  unfold bindo, lift, ret, done_with, Apdu.find_tag.
  rewrite (ber_loop_complete fuel answer xa1 0 [] tpl answer []);
    [|done|constructor|by rewrite app_nil_r|done|cbn; lia].
  rewrite (ber_loop_complete fuel tpl x81 0 pre key full rest);
    [|lia|done|done|done|rewrite Htpl, !length_app in Hlt; lia].
  done.
Qed.
End Properties.

(** ** A card that satisfies the interface, for the witnesses *)

Module HonestToy.
Import ToyAes.

#[export] Instance ecdh : Ecdh := {|
  PublicKey := byte; Scalar := byte;
  public_from_sec1 k := if (length k =? 65)%nat then ok_or (last k) "empty" else Err "signature error";
  diffie_hellman a B := replicate 32 (to_u8 (u8 a * u8 B));
  public_bytes a := x04 :: replicate 63 x00 ++ [a] |}.

#[export] Instance ecdh_laws : EcdhLaws ecdh.
Proof.
  assert (Hp : forall s : byte, public_from_sec1 (public_bytes s) = Ok s).
  { intros s. unfold public_from_sec1, public_bytes, ecdh. cbn [length]. rewrite length_app, length_replicate.
    cbn [length Nat.add Nat.eqb]. by rewrite app_comm_cons, last_snoc. }
  constructor.
  - intros s. exists s. apply Hp.
  - intros a b Pa Pb. rewrite !Hp. intros [= <-] [= <-]. unfold diffie_hellman, ecdh. by rewrite Z.mul_comm.
  - intros a B. apply length_replicate.
Qed.

(** The hash keeps the first bytes, so that pairing passwords are told apart. *)
#[export] Instance hashes : Hashes := {|
  sha256 m := take 32 (m ++ replicate 32 x00); keccak256 m := take 32 (m ++ replicate 32 x00) |}.
#[export] Instance hash_laws : HashLaws hashes.
Proof.
  constructor; intros m; cbn -[replicate]; rewrite length_take, length_app, length_replicate; lia.
Qed.

#[export] Instance kdf : Kdf := {|
  sha512 m := take 64 (m ++ replicate 64 x00);
  pbkdf2_sha256 p _ _ := take 32 (p ++ replicate 32 x00); nfkd_str s := s |}.
#[export] Instance kdf_laws : KdfLaws kdf.
Proof. constructor. intros m. cbn -[replicate]. rewrite length_take, length_app, length_replicate. lia. Qed.

Definition private_key : list byte := replicate 32 x2a.
Definition template (a : Scalar) : list byte :=
  let inner := [x8f; x02; xaa; xbb; x80; x41] ++ public_bytes a in
  xa4 :: to_u8 (Z.of_nat (length inner)) :: inner.
Definition export_answer : list byte :=
  let inner := x81 :: x20 :: private_key in
  xa1 :: to_u8 (Z.of_nat (length inner)) :: inner.

(** The application answers an export with a key and everything else with success. *)
Definition app (_ : CardState Scalar) (cmd : Command.t) : list byte :=
  (if bool_decide (Command.ins cmd = INS_EXPORT_KEY) then export_answer else []) ++ [x90; x00].

(** One command over the channel: MAC, decryption, answer. *)
Definition secured (v : CardState Scalar) (c : Channel) (cmd : Command.t) : option (list byte * CardState Scalar) :=
  let mac := take 16 (Command.data cmd) in
  let enc := drop 16 (Command.data cmd) in
  match decrypt_data enc (c_enc c) (c_iv c), calculate_mac (command_meta cmd enc) enc (c_mac c) with
  | Returned data, Returned mac' =>
      if bool_decide (mac = mac') then
        match encrypt_data (app v (with_data cmd data)) (c_enc c) mac with
        | Returned renc =>
            match calculate_mac (to_u8 (Z.of_nat (16 + length renc)) :: replicate 15 x00) renc (c_mac c) with
            | Returned rmac =>
                Some (rmac ++ renc, with_channel (Some {| c_enc := c_enc c; c_mac := c_mac c; c_iv := rmac |}) v)
            | _ => None
            end
        | _ => None
        end
      else None
  | _, _ => None
  end.

Definition respond (v : CardState Scalar) (cmd : Command.t) : option (list byte * CardState Scalar) :=
  if bool_decide (Command.le cmd = Some x00) then Some (template (scalar v), with_channel None v)
  else
    match channel v with
    | Some c => secured v c cmd
    | None =>
        if bool_decide (Command.ins cmd = INS_PAIR) then
          if bool_decide (Command.p1 cmd = P1_PAIR_FIRST) then
            let card_challenge := replicate 32 x0c in
            Some (sha256_parts [secret_hash v; Command.data cmd] ++ card_challenge,
                  with_pending (Some card_challenge) v)
          else
            match pending v with
            | Some ch =>
                if bool_decide (Command.data cmd = sha256_parts [secret_hash v; ch]) then
                  let salt := replicate 32 x0d in
                  Some (x01 :: salt, with_slot x01 (sha256_parts [secret_hash v; salt]) v)
                else None
            | None => None
            end
        else
          match slots v (Command.p1 cmd), public_from_sec1 (Command.data cmd) with
          | Some key, Ok P =>
              let salt := replicate 32 x0e in
              let iv := replicate 16 x0f in
              Some (salt ++ iv, with_channel (Some (card_channel (diffie_hellman (scalar v) P) key salt iv)) v)
          | _, _ => None
          end
    end.

#[export] Instance host : CardHost (CardState Scalar) := {|
  pcsc_establish v := (Ok tt, v); pcsc_list_readers v := (Ok ["reader"], v);
  pcsc_connect _ v := (Ok tt, v); pcsc_status_change _ v := (Ok true, v);
  card_transmit raw v :=
    match parse_apdu raw with
    | Some cmd =>
        match respond v cmd with
        | Some (data, v) => (Ok (data ++ [x90; x00]), v)
        | None => (Ok [x69; x82], v)
        end
    | None => (Ok [x67; x00], v)
    end;
  random_bytes n v := (replicate n x05, v);
  random_scalar v := (x07, v) |}.

Lemma transmit_respond cmd v data v' :
  (length (Command.data cmd) <= 255)%nat -> respond v cmd = Some (data, v') ->
  card_transmit (Command.serialize cmd) v = (Ok (data ++ [x90; x00]), v').
Proof. intros Hl Hr. cbn [card_transmit host]. by rewrite command_roundtrip, Hr. Qed.

Lemma sha256_parts_length parts : length (sha256_parts parts) = 32%nat.
Proof. apply sha256_length. Qed.

#[export] Instance honest : HonestCard (fun v => v) app.
Proof.
  constructor.
  - intros n e. exists (replicate n x05), e. by rewrite length_replicate.
  - done.
  - intros e. exists (template (scalar e)), [xaa; xbb], (with_channel None e).
    split; [apply transmit_respond; [cbn; lia|done]|]. split; [|done].
    split; [done|]. eexists. split; [|split].
    + apply (ber_intro xa4 [x47]), (ber_short x47). reflexivity.
    + exists [], [x8f; x02; xaa; xbb], (x80 :: x41 :: public_bytes (scalar e)). split; [reflexivity|].
      split; [constructor|]. apply (ber_intro x8f [x02] [xaa; xbb]), (ber_short x02). reflexivity.
    + exists [x8f; x02; xaa; xbb], (x80 :: x41 :: public_bytes (scalar e)), [].
      split; [by rewrite app_nil_r|]. split.
      * apply (ber_cons x80 [x8f; x02; xaa; xbb] x8f [xaa; xbb] []); [|done|constructor].
        apply (ber_intro x8f [x02] [xaa; xbb]), (ber_short x02). reflexivity.
      * apply (ber_intro x80 [x41]), (ber_short x41). reflexivity.
  - intros e ch Hc Hl. exists (replicate 32 x0c), (with_pending (Some (replicate 32 x0c)) e).
    split; [|done]. apply transmit_respond; [cbn; lia|]. unfold respond. by rewrite Hc.
  - intros e cc Hc Hp. exists x01, (replicate 32 x0d). eexists. split; [|reflexivity].
    apply transmit_respond; [cbn [Command.data Command.new]; rewrite sha256_parts_length; lia|].
    unfold respond. rewrite Hc, Hp. cbn [Command.data Command.new]. by rewrite (bool_decide_true (sha256_parts _ = _)).
  - intros e i key s P Hc Hs HP. exists (replicate 32 x0e), (replicate 16 x0f). eexists.
    split; [|split; [done|split; [done|reflexivity]]].
    apply transmit_respond; [cbn; lia|]. unfold respond. rewrite Hc. cbn [Command.le Command.new Command.ins Command.p1 Command.data].
    by rewrite Hs, HP.
  - intros e c cmd enc mac renc rmac Hc Hl Hle Hd Hm Hre Hrm. eexists. split; [|reflexivity].
    rewrite app_assoc. apply transmit_respond; [done|].
    unfold respond. rewrite Hc. change (Command.le (with_data cmd (mac ++ enc))) with (Command.le cmd).
    rewrite Hle. pose proof (calculate_mac_length _ _ _ _ Hm) as Hml.
    unfold secured. change (Command.data (with_data cmd (mac ++ enc))) with (mac ++ enc).
    rewrite take_app_le, (take_ge mac), drop_app_ge, Hml, Nat.sub_diag, drop_0 by lia.
    rewrite Hd. change (command_meta (with_data cmd (mac ++ enc)) enc) with (command_meta cmd enc).
    rewrite Hm, (bool_decide_true (mac = mac)) by done.
    change (app e (with_data (with_data cmd (mac ++ enc)) (Command.data cmd))) with (app e cmd).
    by rewrite Hre, Hrm.
  - intros e data Hl. reflexivity.
Qed.

Definition card : CardState Scalar :=
  {| scalar := x09; secret_hash := pairing_secret_hash "KeycardDefaultPairing"; pending := None;
     slots := fun _ => None; channel := None |}.
End HonestToy.

Import ToyAes HonestToy.

(** The session the toy card opens with the password. *)
Lemma session_agrees_witness :
  exists n k' (e' : CardState Scalar),
    (let^? _ := select n in let^? _ := pair "KeycardDefaultPairing" in open_secure_channel)
      (fresh_keycard, card) = (Returned (Ok tt), (k', e'))
    /\ in_step k' e' /\ initialized k' = true /\ slots e' (pairing_index k') = Some (pairing_key k').
Proof.
  destruct (session_agrees (A := ToyAes.aes) (AL := ToyAes.aes_laws) (HC := honest)
    "KeycardDefaultPairing" fresh_keycard card eq_refl) as [n Hn].
  exists n. apply Hn. reflexivity.
Defined.

(** The same session, computed. *)
Definition opened : Keycard * CardState Scalar :=
  ((let^? _ := select 100 in let^? _ := pair "KeycardDefaultPairing" in open_secure_channel)
     (fresh_keycard, card)).2.

Lemma opened_in_step : in_step opened.1 opened.2.
Proof. split; [by constructor|reflexivity]. Qed.

Definition pin_command : Command.t := Command.new CLA_GP INS_VERIFY_PIN x00 x00 (str_bytes "123456").

Lemma commands_stay_in_step_witness :
  exists iv (e' : CardState Scalar),
    send_sc pin_command opened
      = (Returned (Ok (parse_response (app opened.2 pin_command))), (set_iv iv opened.1, e'))
    /\ in_step (set_iv iv opened.1) e'.
Proof.
  exact (commands_stay_in_step (AL := ToyAes.aes_laws) (HC := honest) pin_command opened.1 opened.2
    opened_in_step ltac:(by apply Nat.ltb_lt) eq_refl).
Defined.

Lemma wrong_password_refused_witness :
  exists (e' : CardState Scalar) cc,
    pair "wrong" (fresh_keycard, card)
      = (Returned (Err "invalid card cryptogram (wrong pairing password?)"), (fresh_keycard, e'))
    /\ e' = with_pending (Some cc) card.
Proof.
  apply (wrong_password_refused (HC := honest) "wrong" fresh_keycard card eq_refl).
  intros ch _ Hs. apply (f_equal head) in Hs. vm_compute in Hs. discriminate Hs.
Defined.

Lemma exported_key_read_witness :
  exists n iv (e' : CardState Scalar),
    export_key n STEALTH_EXPORT_PATH opened = (Returned (Ok private_key), (set_iv iv opened.1, e'))
    /\ in_step (set_iv iv opened.1) e'.
Proof.
  destruct (exported_key_read (AL := ToyAes.aes_laws) (HC := honest) STEALTH_EXPORT_PATH
    [2 ^ 31 + 43; 2 ^ 31 + 60; 2 ^ 31 + 1581; 2 ^ 31; 2 ^ 31] private_key export_answer opened.1 opened.2
    opened_in_step stealth_path ltac:(cbn; lia) eq_refl eq_refl) as [n Hn].
  - exists (x81 :: x20 :: private_key), [], (x81 :: x20 :: private_key), [].
    split; [apply (ber_intro xa1 [x22]), (ber_short x22); reflexivity|].
    split; [by rewrite app_nil_r|]. split; [constructor|].
    apply (ber_intro x81 [x20]), (ber_short x20). reflexivity.
  - exists n. apply Hn. reflexivity.
Defined.
