(* ===== verification/AuthVector.v ===== *)
(** * The auth-vector contract kit (crates/rln-auth-vector/src/lib.rs)

    The request and reply structs with their serde shapes, the [AuthVector]
    trait as a record of operations, routing and dispatch, and the parsers of
    the caller side.  The operations of a vector have the effects [F], a
    monad (card hardware, IO, panics); the reference verifiers need none. *)
From S2P Require Import Prelude RustStd Json JsonInstance.

Definition PRODUCE_METHOD : string := "produce_auth".
Definition VERIFY_METHOD : string := "verify_auth".
Definition KEYCARD_ATTEST_AUTH_TYPE : string := "keycard-attestation".
Definition ETH_ALLOWLIST_AUTH_TYPE : string := "eth-allowlist".

Module ProduceRequest.
Record t := {
  auth_type : string;
  id_commitment_hex : string;
  args : option Value
}.

Definition to_fields (r : t) : list (string * Value) :=
  [("auth_type", VString r.(auth_type)); ("id_commitment_hex", VString r.(id_commitment_hex))]
  ++ ser_option "args" r.(args).

Definition from_value `{SerdeJson} (v : Value) : result t string :=
  let? src := struct_fields ["auth_type"; "id_commitment_hex"; "args"] v in
  let? a := field_required src "auth_type" de_string in
  let? i := field_required src "id_commitment_hex" de_string in
  let? x := field_default src "args" None (de_option de_value) in
  Ok {| auth_type := a; id_commitment_hex := i; args := x |}.
End ProduceRequest.

Module ProduceReply.
Record t := { payload_hex : string }.

Definition to_fields (r : t) : list (string * Value) := [("payload_hex", VString r.(payload_hex))].

Definition from_value `{SerdeJson} (v : Value) : result t string :=
  let? src := struct_fields ["payload_hex"] v in
  let? p := field_required src "payload_hex" de_string in
  Ok {| payload_hex := p |}.
End ProduceReply.

Module VerifyRequest.
Record t := {
  auth_type : string;
  payload_hex : string;
  id_commitment_hex : string;
  rate : Z;
  config : option Value
}.

Definition to_fields (r : t) : list (string * Value) :=
  [("auth_type", VString r.(auth_type)); ("payload_hex", VString r.(payload_hex));
   ("id_commitment_hex", VString r.(id_commitment_hex)); ("rate", VNumber (PosInt r.(rate)))]
  ++ ser_option "config" r.(config).

Definition from_value `{SerdeJson} (v : Value) : result t string :=
  let? src := struct_fields
                ["auth_type"; "payload_hex"; "id_commitment_hex"; "rate"; "config"] v in
  let? a := field_required src "auth_type" de_string in
  let? p := field_required src "payload_hex" de_string in
  let? i := field_required src "id_commitment_hex" de_string in
  let? r := field_default src "rate" 0 de_u64 in
  let? c := field_default src "config" None (de_option de_value) in
  Ok {| auth_type := a; payload_hex := p; id_commitment_hex := i; rate := r; config := c |}.
End VerifyRequest.

Module Verdict.
Record t := {
  ok : bool;
  reason : option string;
  nullifier : option string
}.

Definition accept (nullifier : option string) : t :=
  {| ok := true; reason := None; nullifier := nullifier |}.
Definition reject (reason : string) : t :=
  {| ok := false; reason := Some reason; nullifier := None |}.

Definition to_fields (r : t) : list (string * Value) :=
  [("ok", VBool r.(ok))] ++ ser_option "reason" (VString <$> r.(reason))
  ++ ser_option "nullifier" (VString <$> r.(nullifier)).

Definition from_value `{SerdeJson} (v : Value) : result t string :=
  let? src := struct_fields ["ok"; "reason"; "nullifier"] v in
  let? o := field_required src "ok" de_bool in
  let? r := field_default src "reason" None (de_option de_string) in
  let? n := field_default src "nullifier" None (de_option de_string) in
  Ok {| ok := o; reason := r; nullifier := n |}.
End Verdict.

(** The trait [AuthVector]; the operations of a vector have the effects [F]. *)
Record AuthVector (F : Type -> Type) := {
  auth_type : string;
  produce : ProduceRequest.t -> F (result ProduceReply.t string);
  verify : VerifyRequest.t -> F (result Verdict.t string)
}.
Arguments auth_type {_} _.
Arguments produce {_} _.
Arguments verify {_} _.

(** The trait's default methods. *)
Definition default_produce `{MRet F} (ty : string) (req : ProduceRequest.t)
    : F (result ProduceReply.t string) :=
  mret (Err ("auth vector '" +:+ ty +:+ "' has no producer on this module")).
Definition default_verify `{MRet F} (ty : string) (req : VerifyRequest.t)
    : F (result Verdict.t string) :=
  mret (Err ("auth vector '" +:+ ty +:+ "' has no verifier on this module")).

Section Dispatch.
Context {J : SerdeJson} {F : Type -> Type} {R : MRet F} {B : MBind F}.

Definition error_reply (msg : string) : string := to_string (json_obj [("error", VString msg)]).

Definition route (vectors : list (AuthVector F)) (ty : string) : result (AuthVector F) string :=
  ok_or (snd <$> list_find (fun v => auth_type v = ty) vectors)
    ("unknown auth_type '" +:+ ty +:+ "' on this module").

(** The closure [run] of [dispatch_produce]. *)
Definition run_produce (args_json : string) (vectors : list (AuthVector F))
    : F (result ProduceReply.t string) :=
  match
    let? req := map_err (fun e => "produce_auth args: " +:+ e)
                  (from_str_as ProduceRequest.from_value args_json) in
    let? v := route vectors req.(ProduceRequest.auth_type) in
    Ok (v, req)
  with
  | Ok (v, req) => produce v req
  | Err e => mret (Err e)
  end.

Definition produce_reply (r : result ProduceReply.t string) : string :=
  match r with
  | Ok reply =>
      match to_string_fields (ProduceReply.to_fields reply) with
      | Ok s => s
      | Err e => error_reply e
      end
  | Err e => error_reply e
  end.

Definition dispatch_produce (args_json : string) (vectors : list (AuthVector F)) : F string :=
  mbind (fun r => mret (produce_reply r)) (run_produce args_json vectors).

(** The closure [run] of [dispatch_verify]. *)
Definition run_verify (args_json : string) (vectors : list (AuthVector F))
    : F (result Verdict.t string) :=
  match
    let? req := map_err (fun e => "verify_auth args: " +:+ e)
                  (from_str_as VerifyRequest.from_value args_json) in
    let? v := route vectors req.(VerifyRequest.auth_type) in
    Ok (v, req)
  with
  | Ok (v, req) => verify v req
  | Err e => mret (Err e)
  end.

Definition verify_reply (r : result Verdict.t string) : string :=
  match r with
  | Ok verdict =>
      match to_string_fields (Verdict.to_fields verdict) with
      | Ok s => s
      | Err e => error_reply e
      end
  | Err e => error_reply e
  end.

Definition dispatch_verify (args_json : string) (vectors : list (AuthVector F)) : F string :=
  mbind (fun r => mret (verify_reply r)) (run_verify args_json vectors).

Definition parse_produce_reply (reply : Value) : result ProduceReply.t string :=
  match get_str reply "error" with
  | Some e => Err e
  | None => map_err (fun e => "produce_auth reply: " +:+ e) (ProduceReply.from_value reply)
  end.

Definition parse_verdict (reply : Value) : result Verdict.t string :=
  match get_str reply "error" with
  | Some e => Err e
  | None => map_err (fun e => "verify_auth reply: " +:+ e) (Verdict.from_value reply)
  end.
End Dispatch.

(** ** Lemmas *)

(** What a request becomes on the other side: a [null] config is no config. *)
Definition drop_null (v : option Value) : option Value :=
  match v with Some VNull => None | _ => v end.

Definition opt_wf (v : option Value) : Prop :=
  match v with Some v => json_wf 100 v | None => True end.

Definition verify_request_wf (r : VerifyRequest.t) : Prop :=
  str_valid r.(VerifyRequest.auth_type) /\ str_valid r.(VerifyRequest.payload_hex)
  /\ str_valid r.(VerifyRequest.id_commitment_hex) /\ is_u64 r.(VerifyRequest.rate)
  /\ opt_wf r.(VerifyRequest.config).

Definition produce_request_wf (r : ProduceRequest.t) : Prop :=
  str_valid r.(ProduceRequest.auth_type) /\ str_valid r.(ProduceRequest.id_commitment_hex)
  /\ opt_wf r.(ProduceRequest.args).

(** The request as the producer module sees it. *)
Definition produce_received (r : ProduceRequest.t) : ProduceRequest.t := {|
  ProduceRequest.auth_type := r.(ProduceRequest.auth_type);
  ProduceRequest.id_commitment_hex := r.(ProduceRequest.id_commitment_hex);
  ProduceRequest.args := drop_null r.(ProduceRequest.args) |}.

Definition produced_wf (r : result ProduceReply.t string) : Prop :=
  match r with Ok p => str_valid p.(ProduceReply.payload_hex) | Err e => str_valid e end.

Definition verdict_wf (v : Verdict.t) : Prop :=
  (forall s, v.(Verdict.reason) = Some s -> str_valid s)
  /\ (forall s, v.(Verdict.nullifier) = Some s -> str_valid s).

Lemma struct_fields_obj `{SerdeJson} names l :
  NoDup l.*1 -> exists src, struct_fields names (json_obj l) = Ok src
    /\ forall k, src k = obj_get k l.
Proof.
  intros Hd. eexists. split; [done|]. intros k. by apply vget_json_obj.
Qed.

(** The members of a serialised struct are distinct and well formed. *)
Lemma json_obj_wf_max l :
  Forall (fun p => str_valid p.1 /\ json_wf 119 p.2) l -> json_wf max_depth (json_obj l).
Proof. apply json_obj_wf. Qed.

Section ContractLemmas.
Context {J : SerdeJson}.

Lemma verify_request_fields r :
  NoDup (VerifyRequest.to_fields r).*1
  /\ (verify_request_wf r -> json_wf max_depth (json_obj (VerifyRequest.to_fields r))).
Proof.
  destruct r as [a p i n [c|]]; (split;
    [cbn; apply (bool_decide_unpack _); vm_compute; done
    |intros (Ha & Hp & Hi & Hn & Hc); apply json_obj_wf_max;
     unfold VerifyRequest.to_fields; cbn [ser_option app VerifyRequest.config]; solve_members;
     lazymatch goal with
     | |- json_wf _ _ => apply (json_wf_mono 100); [lia|exact Hc]
     | _ => assumption
     end]).
Qed.

Lemma verify_request_from_to r :
  VerifyRequest.from_value (json_obj (VerifyRequest.to_fields r))
  = Ok {| VerifyRequest.auth_type := r.(VerifyRequest.auth_type);
          VerifyRequest.payload_hex := r.(VerifyRequest.payload_hex);
          VerifyRequest.id_commitment_hex := r.(VerifyRequest.id_commitment_hex);
          VerifyRequest.rate := r.(VerifyRequest.rate);
          VerifyRequest.config := drop_null r.(VerifyRequest.config) |}.
Proof.
  unfold VerifyRequest.from_value.
  destruct (struct_fields_obj ["auth_type"; "payload_hex"; "id_commitment_hex"; "rate"; "config"]
    _ (proj1 (verify_request_fields r))) as (src & -> & Hsrc).
  unfold field_required, field_default. rewrite !Hsrc.
  by destruct r as [a p i n [[]|]].
Qed.

Lemma produce_request_fields r :
  NoDup (ProduceRequest.to_fields r).*1
  /\ (produce_request_wf r -> json_wf max_depth (json_obj (ProduceRequest.to_fields r))).
Proof.
  destruct r as [a i [x|]]; (split;
    [cbn; apply (bool_decide_unpack _); vm_compute; done
    |intros (Ha & Hi & Hx); apply json_obj_wf_max;
     unfold ProduceRequest.to_fields; cbn [ser_option app ProduceRequest.args]; solve_members;
     lazymatch goal with
     | |- json_wf _ _ => apply (json_wf_mono 100); [lia|exact Hx]
     | _ => assumption
     end]).
Qed.

Lemma produce_request_from_to r :
  ProduceRequest.from_value (json_obj (ProduceRequest.to_fields r)) = Ok (produce_received r).
Proof.
  unfold ProduceRequest.from_value.
  destruct (struct_fields_obj ["auth_type"; "id_commitment_hex"; "args"]
    _ (proj1 (produce_request_fields r))) as (src & -> & Hsrc).
  unfold field_required, field_default. rewrite !Hsrc. by destruct r as [a i [[]|]].
Qed.

Lemma produce_reply_fields r :
  NoDup (ProduceReply.to_fields r).*1
  /\ (str_valid r.(ProduceReply.payload_hex) -> json_wf max_depth (json_obj (ProduceReply.to_fields r))).
Proof.
  split; [cbn; apply (bool_decide_unpack _); vm_compute; done|].
  intros Hp. apply json_obj_wf_max. unfold ProduceReply.to_fields. solve_members. exact Hp.
Qed.

Lemma parse_produce_fields r : parse_produce_reply (json_obj (ProduceReply.to_fields r)) = Ok r.
Proof. by destruct r. Qed.

Lemma parse_produce_error msg :
  parse_produce_reply (json_obj [("error", VString msg)]) = Err msg.
Proof. done. Qed.

Lemma verdict_fields v :
  NoDup (Verdict.to_fields v).*1
  /\ (verdict_wf v -> json_wf max_depth (json_obj (Verdict.to_fields v))).
Proof.
  destruct v as [o [r|] [n|]]; (split;
    [cbn; apply (bool_decide_unpack _); vm_compute; done
    |intros (Hr & Hn); apply json_obj_wf_max;
     unfold Verdict.to_fields; cbn [ser_option app fmap option_fmap option_map Verdict.reason
       Verdict.nullifier] in *; solve_members; first [by apply Hr|by apply Hn]]).
Qed.

Lemma verdict_from_to v : Verdict.from_value (json_obj (Verdict.to_fields v)) = Ok v.
Proof.
  unfold Verdict.from_value.
  destruct (struct_fields_obj ["ok"; "reason"; "nullifier"]
    _ (proj1 (verdict_fields v))) as (src & -> & Hsrc).
  unfold field_required, field_default. rewrite !Hsrc. by destruct v as [o [r|] [n|]].
Qed.

Lemma verdict_no_error v : get_str (json_obj (Verdict.to_fields v)) "error" = None.
Proof.
  unfold get_str. rewrite (vget_json_obj _ _ (proj1 (verdict_fields v))).
  by destruct v as [o [r|] [n|]].
Qed.

Lemma parse_verdict_fields v : parse_verdict (json_obj (Verdict.to_fields v)) = Ok v.
Proof. unfold parse_verdict. by rewrite verdict_no_error, verdict_from_to. Qed.

Lemma parse_verdict_error msg :
  parse_verdict (json_obj [("error", VString msg)]) = Err msg.
Proof. done. Qed.

Lemma error_obj_wf msg : str_valid msg -> json_wf max_depth (json_obj [("error", VString msg)]).
Proof. intros. apply json_obj_wf_max. by solve_members. Qed.
End ContractLemmas.

(** The request as the verifier module sees it. *)
Definition received (r : VerifyRequest.t) : VerifyRequest.t := {|
  VerifyRequest.auth_type := r.(VerifyRequest.auth_type);
  VerifyRequest.payload_hex := r.(VerifyRequest.payload_hex);
  VerifyRequest.id_commitment_hex := r.(VerifyRequest.id_commitment_hex);
  VerifyRequest.rate := r.(VerifyRequest.rate);
  VerifyRequest.config := drop_null r.(VerifyRequest.config) |}.

(** What a module hosting [vectors] promises for a request: the answer of the
    first vector of that type, or the routing error. *)
Definition vector_answer `{MRet F} (vectors : list (AuthVector F)) (r : VerifyRequest.t)
    : F (result Verdict.t string) :=
  match route vectors r.(VerifyRequest.auth_type) with
  | Ok v => verify v r
  | Err e => mret (Err e)
  end.

Definition reply_wf (r : result Verdict.t string) : Prop :=
  match r with Ok v => verdict_wf v | Err e => str_valid e end.

Section CallLemmas.
Context {J : SerdeJson} {L : SerdeJsonLaws J} {St : Type}.

Lemma result_ok_Ok {A E} (r : result A E) a : result_ok r = Some a -> r = Ok a.
Proof. destruct r; simpl; congruence. Qed.

(** The text of a verify call reads back as the request. *)
Lemma verify_args req :
  verify_request_wf req ->
  exists args, to_string_fields (VerifyRequest.to_fields req) = Ok args /\ str_valid args
    /\ from_str_as VerifyRequest.from_value args = Ok (received req).
Proof.
  intros Hr. destruct (verify_request_fields req) as [Hd Hw].
  destruct (to_string_fields_ok _ Hd (Hw Hr)) as (args & Ha & _ & _ & Hv & Hfv).
  exists args. split; [done|]. split; [done|]. apply result_ok_Ok.
  by rewrite Hfv, verify_request_from_to.
Qed.

Lemma produce_args req :
  produce_request_wf req ->
  exists args, to_string_fields (ProduceRequest.to_fields req) = Ok args /\ str_valid args
    /\ from_str_as ProduceRequest.from_value args = Ok (produce_received req).
Proof.
  intros Hr. destruct (produce_request_fields req) as [Hd Hw].
  destruct (to_string_fields_ok _ Hd (Hw Hr)) as (args & Ha & _ & _ & Hv & Hfv).
  exists args. split; [done|]. split; [done|]. apply result_ok_Ok.
  by rewrite Hfv, produce_request_from_to.
Qed.

(** The text of a produce reply parses to the answer. *)
Lemma produce_reply_text (r : result ProduceReply.t string) :
  produced_wf r ->
  str_valid (produce_reply r) /\ produce_reply r <> ""
  /\ exists v, from_str (produce_reply r) = Ok v /\ parse_produce_reply v = r.
Proof.
  unfold produce_reply. destruct r as [p|e]; cbn [produced_wf]; intros Hr.
  - destruct (produce_reply_fields p) as [Hd Hw].
    destruct (to_string_fields_ok _ Hd (Hw Hr)) as (s & -> & Hs & Hne & Hv & _).
    split; [done|]. split; [done|]. eexists. split; [exact Hs|]. apply parse_produce_fields.
  - destruct (to_string_text _ (error_obj_wf e Hr)) as (Hv & Hne & _).
    split; [done|]. split; [done|]. eexists.
    split; [apply from_str_to_string, error_obj_wf, Hr|apply parse_produce_error].
Qed.

(** The text of a verify reply parses to the answer. *)
Lemma verify_reply_text (r : result Verdict.t string) :
  reply_wf r ->
  str_valid (verify_reply r) /\ verify_reply r <> ""
  /\ exists v, from_str (verify_reply r) = Ok v /\ parse_verdict v = r /\ is_object v = true.
Proof.
  unfold verify_reply. destruct r as [v|e]; cbn [reply_wf]; intros Hr.
  - destruct (verdict_fields v) as [Hd Hw].
    destruct (to_string_fields_ok _ Hd (Hw Hr)) as (s & -> & Hs & Hne & Hv & _).
    split; [done|]. split; [done|].
    eexists. split; [exact Hs|]. split; [apply parse_verdict_fields|done].
  - destruct (to_string_text _ (error_obj_wf e Hr)) as (Hv & Hne & _).
    split; [done|]. split; [done|].
    eexists. split; [apply from_str_to_string, error_obj_wf, Hr|].
    split; [apply parse_verdict_error|done].
Qed.

Lemma run_verify_answer (vectors : list (AuthVector (M St))) req args :
  from_str_as VerifyRequest.from_value args = Ok (received req) ->
  run_verify args vectors = vector_answer vectors (received req).
Proof.
  intros Ha. unfold run_verify, vector_answer. rewrite Ha. cbn.
  by destruct (route vectors _).
Qed.

(** What a module hosting [vectors] does with a produce request. *)
Definition produce_answer `{MRet F} (vectors : list (AuthVector F)) (r : ProduceRequest.t)
    : F (result ProduceReply.t string) :=
  match route vectors r.(ProduceRequest.auth_type) with
  | Ok v => produce v r
  | Err e => mret (Err e)
  end.

Lemma run_produce_answer `{MRet F} (vectors : list (AuthVector F)) req args :
  from_str_as ProduceRequest.from_value args = Ok (produce_received req) ->
  run_produce args vectors = produce_answer vectors (produce_received req).
Proof.
  intros Ha. unfold run_produce, produce_answer. rewrite Ha. cbn. by destruct (route vectors _).
Qed.

(** C25: the verify contract is wire-compatible by construction: a caller that
    serialises a request, hands the text to [dispatch_verify] of any module and
    parses the reply gets exactly what the vector answered, accept, reject and
    error alike; a [null] config arrives as no config. *)
Theorem verify_call_roundtrip (vectors : list (AuthVector (M St))) req st :
  verify_request_wf req ->
  reply_wf (vector_answer vectors (received req) st).1 ->
  exists args reply v,
    to_string_fields (VerifyRequest.to_fields req) = Ok args
    /\ dispatch_verify args vectors st = (reply, (vector_answer vectors (received req) st).2)
    /\ from_str reply = Ok v
    /\ parse_verdict v = (vector_answer vectors (received req) st).1.
Proof.
  intros Hr Hw. destruct (verify_args req Hr) as (args & Ha & _ & Hv).
  destruct (vector_answer vectors (received req) st) as [r st'] eqn:E. cbn in Hw.
  destruct (verify_reply_text r Hw) as (_ & _ & v & Hs & Hp & _).
  exists args. eexists. exists v. split; [done|]. split; [|by split].
  unfold dispatch_verify, mbind, state_bind, bind. by rewrite (run_verify_answer vectors req args Hv), E.
Qed.

(** Routing picks the first vector that owns the type, and a type no vector
    owns is answered with the error that names it. *)
Theorem route_first (vectors : list (AuthVector (M St))) ty :
  match route vectors ty with
  | Ok v => exists pre post, vectors = pre ++ v :: post /\ auth_type v = ty
      /\ Forall (fun u => auth_type u <> ty) pre
  | Err e => Forall (fun u => auth_type u <> ty) vectors
      /\ e = "unknown auth_type '" +:+ ty +:+ "' on this module"
  end.
Proof.
  unfold route. destruct (list_find _ vectors) as [[i v]|] eqn:E; cbn.
  - apply list_find_Some in E as (Hl & Ht & Hn). exists (take i vectors), (drop (S i) vectors).
    split; [by rewrite take_drop_middle|]. split; [done|].
    apply Forall_lookup. intros j u Hj. apply lookup_take_Some in Hj as [Hj ?]. by eapply Hn.
  - by apply list_find_None in E.
Qed.
End CallLemmas.

(** ** Witnesses *)

(** A vector that refuses the payload 00 and accepts every other one. *)
Definition verify_only : AuthVector (M unit) := {|
  auth_type := "verify-only";
  produce := default_produce "verify-only";
  verify req := ret (if decide (req.(VerifyRequest.payload_hex) = "00")
                     then Ok (Verdict.reject "zero payload")
                     else Ok (Verdict.accept (Some ("nul-" +:+ req.(VerifyRequest.id_commitment_hex)))))
|}.

Definition sample_verify_request : VerifyRequest.t := {|
  VerifyRequest.auth_type := "verify-only"; VerifyRequest.payload_hex := "01";
  VerifyRequest.id_commitment_hex := "beef"; VerifyRequest.rate := 100;
  VerifyRequest.config := None |}.

Lemma verify_call_roundtrip_witness :
  exists args reply v,
    to_string_fields (VerifyRequest.to_fields sample_verify_request) = Ok args
    /\ dispatch_verify args [verify_only] tt = (reply, tt)
    /\ from_str reply = Ok v
    /\ parse_verdict v = Ok (Verdict.accept (Some "nul-beef")).
Proof.
  apply (verify_call_roundtrip (L := json_instance_laws) [verify_only] sample_verify_request tt).
  - repeat split; vm_compute; done.
  - split; [done|]. intros s [= <-]. vm_compute. done.
Defined.
