(* ===== verification/Verifiers.v ===== *)
(** * The reference verifiers

    The server halves of the two reference vectors: [EthAuth]
    (rust/eth-auth-module/rust-lib/src/lib.rs), which recovers the signer of an
    EIP-191 message, and [KeycardAuth] (rust/keycard-auth-module/rust-lib/src/lib.rs),
    which verifies a card attestation.  Both are pure: the trait's effects are any
    [F].  [as_bytes()[1..]] of an encoded point and [h[12..]] of a digest
    cannot panic, as neither is that short. *)
From S2P Require Import Prelude RustStd Nullifiers Json Crates JsonInstance Attest AuthVector.

Section Common.
(** [iter().map(f).collect::<Result<Vec<_>, _>>()]: the first error wins. *)
Fixpoint collect {A B E} (f : A -> result B E) (l : list A) : result (list B) E :=
  match l with
  | [] => Ok []
  | a :: l =>
      let? b := f a in
      let? bs := collect f l in
      Ok (b :: bs)
  end.
End Common.

(** The array an operator's config holds under [k]. *)
Definition config_array (config : option Value) (k : string) : option (list Value) :=
  config ≫= fun c => vget c k ≫= as_array.

Definition strip_0x (s : string) : string := trim_start_matches "0x" s.

Section StripLemmas.
Context {X : HexCrate} {XL : HexLaws X}.

(** Hexadecimal text has no [0x] to strip. *)
Lemma strip_0x_digits s : forallb is_hex_digit (str_bytes s) = true -> strip_0x s = s.
Proof.
  intros Hd. unfold strip_0x, trim_start_matches.
  change (str_bytes "0x") with [x30; x78].
  apply str_bytes_inj. rewrite str_bytes_str.
  destruct (str_bytes s) as [|a l]; [done|]. cbn [length trim_start_go].
  rewrite decide_False; [done|]. intros Ht. destruct l as [|b r]; [done|].
  cbn in Ht. rewrite take_0 in Ht. injection Ht as _ ->.
  cbn [forallb] in Hd. change (is_hex_digit x78) with false in Hd.
  by rewrite andb_false_l, andb_false_r in Hd.
Qed.

Lemma strip_0x_hex bs : strip_0x (hex_encode bs) = hex_encode bs.
Proof. apply strip_0x_digits. by eapply hex_decode_digits, hex_decode_encode. Qed.

Lemma strip_0x_decodable s bs : hex_decode s = Ok bs -> strip_0x s = s.
Proof. intros Hd. by eapply strip_0x_digits, hex_decode_digits. Qed.
End StripLemmas.

Module EthAuth.
Section Eth.
Context {K : K256} {Hs : Hashes} {X : HexCrate} {U : UnicodeTables}.

Definition eip191_digest (id_commitment : list byte) : list byte :=
  let hexs := hex_encode id_commitment in
  keccak256 (x19 :: str_bytes "Ethereum Signed Message:" ++ [x0a]
             ++ str_bytes (pretty (Z.of_nat (length (str_bytes hexs))))
             ++ str_bytes hexs).

Definition recover_signer (id_commitment sig : list byte) : result string string :=
  if negb (length sig =? 65)%nat then
    Err ("signature must be 65 bytes, got " +:+ pretty (Z.of_nat (length sig)))
  else
    let digest := eip191_digest id_commitment in
    let v := default x00 (sig !! 64%nat) in
    let recid_byte := if 27 <=? u8 v then to_u8 (u8 v - 27) else v in
    let? recid := ok_or (recovery_id recid_byte) "invalid recovery id" in
    let? signature := map_err (fun e => "sig: " +:+ e) (signature_from_slice (take 64 sig)) in
    let? vk := map_err (fun e => "recovery failed: " +:+ e)
                 (recover_from_prehash digest signature recid) in
    let raw := drop 1 (to_encoded_point vk false) in
    let h := keccak256 raw in
    Ok ("0x" +:+ hex_encode (drop 12 h)).

(** An entry of the allowlist. *)
Definition allow_entry (e : Value) : result string string :=
  match as_str e with
  | Some s => Ok (to_lowercase s)
  | None => Err "allowlist entries must be strings"
  end.

Definition verify (req : VerifyRequest.t) : result Verdict.t string :=
  let? allowlist := ok_or (config_array (VerifyRequest.config req) "allowlist")
                      "config.allowlist (array of 0x addresses) is required" in
  let? allowlist := collect allow_entry allowlist in
  if bool_decide (allowlist = []) then Err "config.allowlist is empty — nothing can verify"
  else
    match hex_decode (strip_0x (VerifyRequest.payload_hex req)) with
    | Err e => Ok (Verdict.reject ("payload hex: " +:+ e))
    | Ok sig =>
        match hex_decode (strip_0x (VerifyRequest.id_commitment_hex req)) with
        | Err e => Ok (Verdict.reject ("id_commitment hex: " +:+ e))
        | Ok id_commitment =>
            match recover_signer id_commitment sig with
            | Err e => Ok (Verdict.reject ("signature verification failed: " +:+ e))
            | Ok signer =>
                if negb (existsb (fun a => bool_decide (a = signer)) allowlist) then
                  Ok (Verdict.reject ("address not allowlisted: " +:+ signer))
                else Ok (Verdict.accept (Some signer))
            end
        end
    end.

Definition EthAllowlistVector `{MRet F} : AuthVector F := {|
  auth_type := ETH_ALLOWLIST_AUTH_TYPE;
  produce := default_produce ETH_ALLOWLIST_AUTH_TYPE;
  AuthVector.verify req := mret (verify req) |}.

(** The module's method. *)
Definition verify_auth `{SerdeJson} `{MRet F, MBind F} (args_json : string) : F string :=
  dispatch_verify args_json [EthAllowlistVector].
End Eth.
End EthAuth.

Module KeycardAuth.
Section Keycard.
Context {K : K256} {Hs : Hashes} {X : HexCrate}.

(** An entry of [trusted_cas]. *)
Definition ca_entry (e : Value) : result (list byte) string :=
  let? s := ok_or (as_str e) "trusted_cas entries must be hex strings" in
  let? bytes := map_err (fun e => "trusted_cas hex: " +:+ e) (hex_decode (strip_0x s)) in
  if (length bytes =? 33)%nat then Ok bytes else Err "trusted_cas entries must be 33 bytes".

Definition parse_trusted_cas (config : option Value) : result (list (list byte)) string :=
  let? arr := ok_or (config_array config "trusted_cas")
                "config.trusted_cas (array of 33-byte CA pubkey hex) is required" in
  collect ca_entry arr.

Definition verify (req : VerifyRequest.t) : result Verdict.t string :=
  let? trusted_cas := parse_trusted_cas (VerifyRequest.config req) in
  if bool_decide (trusted_cas = []) then Err "config.trusted_cas is empty — nothing can verify"
  else
    match hex_decode (strip_0x (VerifyRequest.payload_hex req)) with
    | Err e => Ok (Verdict.reject ("payload hex: " +:+ e))
    | Ok payload =>
        match hex_decode (strip_0x (VerifyRequest.id_commitment_hex req)) with
        | Err e => Ok (Verdict.reject ("id_commitment hex: " +:+ e))
        | Ok id_commitment =>
            match parse_attestation payload with
            | Err e => Ok (Verdict.reject ("attestation parse failed: " +:+ error_text e))
            | Ok att =>
                let challenge := bound_challenge id_commitment in
                match verify_attestation att trusted_cas challenge with
                | Ok nullifier => Ok (Verdict.accept (Some (hex_encode nullifier)))
                | Err e => Ok (Verdict.reject ("attestation verification failed: " +:+ error_text e))
                end
            end
        end
    end.

Definition KeycardVector `{MRet F} : AuthVector F := {|
  auth_type := KEYCARD_ATTEST_AUTH_TYPE;
  produce := default_produce KEYCARD_ATTEST_AUTH_TYPE;
  AuthVector.verify req := mret (verify req) |}.

(** The module's method. *)
Definition verify_auth `{SerdeJson} `{MRet F, MBind F} (args_json : string) : F string :=
  dispatch_verify args_json [KeycardVector].
End Keycard.
End KeycardAuth.

(** ** Lemmas and properties *)

Lemma collect_ok {A B E} (f : A -> result B E) l bs :
  collect f l = Ok bs <-> Forall2 (fun a b => f a = Ok b) l bs.
Proof.
  revert bs. induction l as [|a l IH]; intros bs; cbn.
  - split; [intros [= <-]; constructor|by inversion 1].
  - split.
    + destruct (f a) as [b|] eqn:Hf; [|done]. destruct (collect f l) as [bs'|]; [|done].
      intros [= <-]. constructor; [done|]. by apply IH.
    + inversion 1 as [|? b ? bs' Hf Hl]; subst. rewrite Hf. by apply IH in Hl as ->.
Qed.

Lemma existsb_eq {A} `{EqDecision A} (x : A) l :
  existsb (fun a => bool_decide (a = x)) l = bool_decide (x ∈ l).
Proof.
  apply eq_true_iff_eq. rewrite bool_decide_eq_true, existsb_exists. split.
  - intros (a & Ha & ->%bool_decide_eq_true). by apply list_elem_of_In.
  - intros Hx. exists x. split; [by apply list_elem_of_In|by apply bool_decide_eq_true].
Qed.

Section VerifierProperties.
Context {K : K256} {Hs : Hashes} {X : HexCrate} {U : UnicodeTables}.

(** The allowlist an operator's config stands for. *)
Definition eth_allowlist (config : option Value) : result (list string) string :=
  let? entries := ok_or (config_array config "allowlist")
                    "config.allowlist (array of 0x addresses) is required" in
  let? allowlist := collect EthAuth.allow_entry entries in
  if bool_decide (allowlist = []) then Err "config.allowlist is empty — nothing can verify"
  else Ok allowlist.

Lemma eth_verify_unfold req :
  EthAuth.verify req
  = match eth_allowlist (VerifyRequest.config req) with
    | Err e => Err e
    | Ok allowlist =>
        match hex_decode (strip_0x (VerifyRequest.payload_hex req)) with
        | Err e => Ok (Verdict.reject ("payload hex: " +:+ e))
        | Ok sig =>
            match hex_decode (strip_0x (VerifyRequest.id_commitment_hex req)) with
            | Err e => Ok (Verdict.reject ("id_commitment hex: " +:+ e))
            | Ok idc =>
                match EthAuth.recover_signer idc sig with
                | Err e => Ok (Verdict.reject ("signature verification failed: " +:+ e))
                | Ok signer =>
                    if bool_decide (signer ∈ allowlist) then Ok (Verdict.accept (Some signer))
                    else Ok (Verdict.reject ("address not allowlisted: " +:+ signer))
                end
            end
        end
    end.
Proof.
  unfold EthAuth.verify, eth_allowlist. destruct (ok_or _ _) as [es|]; [|done].
  destruct (collect _ es) as [al|]; [|done]. case_bool_decide; [done|].
  destruct (hex_decode _) as [sig|]; [|done]. destruct (hex_decode _) as [idc|]; [|done].
  destruct (EthAuth.recover_signer idc sig) as [signer|]; [|done]. rewrite existsb_eq.
  by destruct (bool_decide _).
Qed.

(** C29: the eth verifier sorts its failures by whose they are: it answers with
    an error exactly when the operator's allowlist is missing, malformed or
    empty, the same error for every request; whatever the requester sends is a
    verdict.  It accepts exactly the signatures, over the commitment of this
    request, of an address of the lowercased allowlist, with that address as
    the nullifier. *)
Theorem eth_verify_exact req :
  (forall e, EthAuth.verify req = Err e <-> eth_allowlist (VerifyRequest.config req) = Err e)
  /\ (forall v, (EthAuth.verify req = Ok v /\ Verdict.ok v = true) <->
        exists allowlist sig idc signer,
          eth_allowlist (VerifyRequest.config req) = Ok allowlist
          /\ hex_decode (strip_0x (VerifyRequest.payload_hex req)) = Ok sig
          /\ hex_decode (strip_0x (VerifyRequest.id_commitment_hex req)) = Ok idc
          /\ EthAuth.recover_signer idc sig = Ok signer /\ signer ∈ allowlist
          /\ v = Verdict.accept (Some signer)).
Proof.
  rewrite eth_verify_unfold. destruct (eth_allowlist _) as [al|e]; cbn.
  2:{ split; [by split; intros [= ->]|]. intros v. split; [by intros [? _]|by intros (? & ? & ? & ? & ? & _)]. }
  split.
  { intros e. split; [|done]. destruct (hex_decode _) as [sig|]; [|done].
    destruct (hex_decode _) as [idc|]; [|done]. destruct (EthAuth.recover_signer idc sig); [|done].
    by case_bool_decide. }
  intros v. split.
  - destruct (hex_decode _) as [sig|]; [|by intros [[= <-] ?]].
    destruct (hex_decode _) as [idc|]; [|by intros [[= <-] ?]].
    destruct (EthAuth.recover_signer idc sig) as [signer|] eqn:Hr; [|by intros [[= <-] ?]].
    case_bool_decide; [|by intros [[= <-] ?]]. intros [[= <-] _]. by exists al, sig, idc, signer.
  - intros (al' & sig & idc & signer & [= <-] & -> & -> & -> & Hin & ->).
    by rewrite bool_decide_true.
Qed.

(** A recovery id may be sent raw or with the wallets' offset of 27: both
    signatures recover the same signer. *)
Theorem eth_recid_offset idc rs v :
  length rs = 64%nat -> u8 v < 27 ->
  EthAuth.recover_signer idc (rs ++ [to_u8 (u8 v + 27)]) = EthAuth.recover_signer idc (rs ++ [v]).
Proof.
  intros Hl Hv. unfold EthAuth.recover_signer. rewrite !length_app, Hl. cbn [length Nat.add Nat.eqb negb].
  rewrite !take_app_le, !lookup_app_r, Hl, Nat.sub_diag by lia. cbn.
  pose proof (u8_range v). rewrite u8_to_u8_small by lia.
  rewrite (proj2 (Z.leb_le 27 _)), (proj2 (Z.leb_gt 27 (u8 v))) by lia.
  replace (u8 v + 27 - 27) with (u8 v) by lia. by rewrite to_u8_u8.
Qed.

(** The CAs an operator's config stands for. *)
Definition keycard_cas (config : option Value) : result (list (list byte)) string :=
  let? cas := KeycardAuth.parse_trusted_cas config in
  if bool_decide (cas = []) then Err "config.trusted_cas is empty — nothing can verify" else Ok cas.

(** C26: the keycard verifier errs exactly on a missing, malformed or empty CA
    list, and accepts exactly the attestations that verify under one of those
    CAs for the challenge bound to the commitment of this request: an
    attestation made for another commitment does not count.  The nullifier is
    the hash of the card's identity key. *)
Theorem keycard_verify_exact req :
  (forall e, KeycardAuth.verify req = Err e <-> keycard_cas (VerifyRequest.config req) = Err e)
  /\ (forall v, (KeycardAuth.verify req = Ok v /\ Verdict.ok v = true) <->
        exists cas payload idc att n,
          keycard_cas (VerifyRequest.config req) = Ok cas
          /\ hex_decode (strip_0x (VerifyRequest.payload_hex req)) = Ok payload
          /\ hex_decode (strip_0x (VerifyRequest.id_commitment_hex req)) = Ok idc
          /\ parse_attestation payload = Ok att
          /\ verify_attestation att cas (bound_challenge idc) = Ok n
          /\ v = Verdict.accept (Some (hex_encode n))).
Proof.
  unfold KeycardAuth.verify, keycard_cas.
  destruct (KeycardAuth.parse_trusted_cas _) as [cas|e]; cbn.
  2:{ split; [by split; intros [= ->]|]. intros v. split; [by intros [? _]|by intros (? & ? & ? & ? & ? & ? & _)]. }
  case_bool_decide.
  { split; [by split; intros [= ->]|]. intros v. split; [by intros [? _]|by intros (? & ? & ? & ? & ? & ? & _)]. }
  split.
  { intros e. split; [|done]. destruct (hex_decode _) as [p|]; [|done].
    destruct (hex_decode _) as [idc|]; [|done]. destruct (parse_attestation p) as [att|]; [|done].
    by destruct (verify_attestation _ _ _). }
  intros v. split.
  - destruct (hex_decode _) as [p|]; [|by intros [[= <-] ?]].
    destruct (hex_decode _) as [idc|]; [|by intros [[= <-] ?]].
    destruct (parse_attestation p) as [att|] eqn:Hp; [|by intros [[= <-] ?]].
    destruct (verify_attestation _ _ _) as [n|] eqn:Hv; [|by intros [[= <-] ?]].
    intros [[= <-] _]. by exists cas, p, idc, att, n.
  - intros (cas' & p & idc & att & n & [= <-] & -> & -> & -> & -> & ->). done.
Qed.
End VerifierProperties.

(** ** Witnesses *)

Import Toy HexInstance.

Lemma eth_recid_offset_witness :
  EthAuth.recover_signer [x11] (replicate 64 x05 ++ [to_u8 (u8 x01 + 27)])
  = EthAuth.recover_signer [x11] (replicate 64 x05 ++ [x01]).
Proof. apply eth_recid_offset; reflexivity. Defined.
