(* ===== verification/MintCurve.v ===== *)
(** * The curve of the minting tool (tools/mint_attest.py)

    secp256k1 as the test tool writes it: modular inverses, point addition and
    the double-and-add loop, over Python's integers.  A point is [None] at
    infinity.  The double-and-add is measured against the multiples of the
    generator under the chord-and-tangent law.  An exception is [Panicked].  Primality of the modulus is not
    assumed: where an inverse is missing [pow] raises. *)
From S2P Require Import Prelude.
From Stdlib Require Import Zdiv.

Definition _P : Z := 0xFFFFFFFFFFFFFFFFFFFFFFFFFFFFFFFFFFFFFFFFFFFFFFFFFFFFFFFEFFFFFC2F.
Definition _N : Z := 0xFFFFFFFFFFFFFFFFFFFFFFFFFFFFFFFEBAAEDCE6AF48A03BBFD25E8CD0364141.
Definition _GX : Z := 0x79BE667EF9DCBBAC55A06295CE870B07029BFCDB2DCE28D959F2815B16F81798.
Definition _GY : Z := 0x483ADA7726A3C4655DA4FBFC0E1108A8FD17B448A68554199C47D08FFB10D4B8.

(** [pow(a, -1, m)] of Python, by Euclid's algorithm. *)
Fixpoint pow_inv_loop (fuel : nat) (r0 s0 r1 s1 : Z) : option Z :=
  match fuel with
  | O => None
  | S fuel =>
      if r1 =? 0 then if r0 =? 1 then Some s0 else None
      else pow_inv_loop fuel r1 s1 (r0 mod r1) (s0 - r0 / r1 * s1)
  end.

Definition pow_inv (a m : Z) : option Z :=
  (fun s => s mod m) <$> pow_inv_loop (Z.to_nat (2 * Z.log2 m + 2)) m 0 (a mod m) 1.

Definition _inv (a m : Z) : outcome Z := returned (pow_inv a m).

Definition point : Type := option (Z * Z).

Definition _add (p q : point) : outcome point :=
  match p, q with
  | None, _ => Returned q
  | _, None => Returned p
  | Some (p0, p1), Some (q0, q1) =>
      if (p0 =? q0) && ((p1 + q1) mod _P =? 0) then Returned None
      else
        let^ lam :=
          if (p0 =? q0) && (p1 =? q1)
          then let^ i := _inv (2 * p1) _P in Returned (3 * p0 * p0 * i mod _P)
          else let^ i := _inv (q0 - p0) _P in Returned ((q1 - p1) * i mod _P) in
        let x := (lam * lam - p0 - q0) mod _P in
        Returned (Some (x, (lam * (p0 - x) - p1) mod _P))
  end.

(** The loop halves [k]: its bits are fuel enough, unless [k] is negative, and
    then Python goes on for ever. *)
Fixpoint mul_loop (fuel : nat) (k : Z) (r p : point) : outcome point :=
  match fuel with
  | O => Running
  | S fuel =>
      if k =? 0 then Returned r
      else
        let^ r := if Z.odd k then _add r p else Returned r in
        let^ p := _add p p in
        mul_loop fuel (Z.shiftr k 1) r p
  end.

Definition _mul (k : Z) (p : point) : outcome point := mul_loop (Z.to_nat (Z.log2 k + 2)) k None p.

Definition _pub_point (priv : Z) : outcome point := _mul priv (Some (_GX, _GY)).

(** [x, y = point]: unpacking [None] raises. *)
Definition unpack (p : point) : outcome (Z * Z) := returned p.

(** [int.from_bytes(l, "big")] and [z.to_bytes(n, "big")] *)
Definition from_bytes_big (l : list byte) : Z := fold_left (fun a b => 256 * a + u8 b) l 0.

Fixpoint digits_big (n : nat) (z : Z) : list byte :=
  match n with O => [] | S n => digits_big n (z / 256) ++ [to_u8 z] end.

Definition to_bytes_big (n : nat) (z : Z) : outcome (list byte) :=
  if (0 <=? z) && (z <? 256 ^ Z.of_nat n) then Returned (digits_big n z) else Panicked.

Definition compressed_pub (priv : Z) : outcome (list byte) :=
  let^ p := _pub_point priv in
  let^ (x, y) := unpack p in
  let^ xs := to_bytes_big 32 x in
  Returned (to_u8 (2 + Z.land y 1) :: xs).

Definition uncompressed_pub (priv : Z) : outcome (list byte) :=
  let^ p := _pub_point priv in
  let^ (x, y) := unpack p in
  let^ xs := to_bytes_big 32 x in
  let^ ys := to_bytes_big 32 y in
  Returned (x04 :: xs ++ ys).

(** ** Inverses *)

Section Inverse.
Variables (a m : Z).
Hypothesis modulus : 1 < m.

#[local] Existing Instances eqm_setoid Zplus_eqm Zminus_eqm Zmult_eqm Zopp_eqm.
#[local] Infix "==" := (eqm m) (at level 70).

Lemma inv_loop_sound fuel r0 s0 r1 s1 i :
  r0 == s0 * a -> r1 == s1 * a -> pow_inv_loop fuel r0 s0 r1 s1 = Some i -> i * a == 1.
Proof.
  revert r0 s0 r1 s1. induction fuel as [|fuel IH]; intros r0 s0 r1 s1 H0 H1; cbn [pow_inv_loop]; [done|].
  destruct (Z.eqb_spec r1 0) as [_|Hr].
  - destruct (Z.eqb_spec r0 1) as [->|_]; [|done]. intros [= <-]. by symmetry.
  - apply IH; [done|]. rewrite Z.mod_eq, Z.mul_sub_distr_r by done.
    rewrite H0, H1 at 1. replace (r0 / r1 * s1 * a) with (r0 / r1 * (s1 * a)) by ring.
    rewrite (Z.mul_comm (s1 * a)). done.
Qed.

(** The arguments shrink by a bit in two turns. *)
Lemma inv_loop_complete fuel r0 s0 r1 s1 :
  0 <= r1 < r0 -> Z.log2 r0 + Z.log2 r1 + 2 <= Z.of_nat fuel -> Z.gcd r0 r1 = 1 ->
  is_Some (pow_inv_loop fuel r0 s0 r1 s1).
Proof.
  revert r0 s0 r1 s1. induction fuel as [|fuel IH]; intros r0 s0 r1 s1 Hr Hf Hg.
  { pose proof (Z.log2_nonneg r0). pose proof (Z.log2_nonneg r1). lia. }
  cbn [pow_inv_loop]. destruct (Z.eqb_spec r1 0) as [->|Hr1].
  - rewrite Z.gcd_0_r, Z.abs_eq in Hg by lia. by rewrite Hg.
  - pose proof (Z.mod_pos_bound r0 r1 ltac:(lia)). apply IH; [lia| |].
    + pose proof (Z.div_mod r0 r1 ltac:(lia)). pose proof (Z.div_str_pos r0 r1 ltac:(lia)).
      destruct (Z.eq_dec (r0 mod r1) 0) as [Hz|Hz].
      * rewrite Hz. change (Z.log2 0) with 0. pose proof (Z.log2_nonneg r1).
        destruct (Z.eq_dec (Z.log2 r0) 0) as [Hl0|]; [|pose proof (Z.log2_nonneg r0); lia].
        apply Z.log2_null in Hl0. lia.
      * assert (Z.log2 (r0 mod r1) < Z.log2 r0); [|lia].
        apply Z.log2_lt_pow2; [lia|]. pose proof (Z.log2_spec r0 ltac:(lia)) as [_ Hl].
        rewrite Z.pow_succ_r in Hl by apply Z.log2_nonneg. nia.
    + rewrite Z.gcd_comm, Z.gcd_mod by done. by rewrite Z.gcd_comm.
Qed.

(** [pow] gives the inverse between 0 and the modulus, whenever there is one. *)
Lemma pow_inv_spec i : pow_inv a m = Some i <-> 0 <= i < m /\ i * a mod m = 1.
Proof.
  assert (H1m : 1 mod m = 1) by (by apply Z.mod_small; lia).
  assert (Hs : forall j, pow_inv a m = Some j -> 0 <= j < m /\ j * a == 1).
  { intros j. unfold pow_inv. destruct (pow_inv_loop _ _ _ _ _) as [s|] eqn:E; [|done].
    intros [= <-]. split; [apply Z.mod_pos_bound; lia|].
    apply inv_loop_sound in E; unfold eqm in *.
    - by rewrite Z.mul_mod_idemp_l by lia.
    - rewrite Z.mod_same, Z.mul_0_l, Z.mod_0_l by lia. done.
    - by rewrite Z.mod_mod, Z.mul_1_l by lia. }
  split; [intros Hj; apply Hs in Hj; unfold eqm in Hj; by rewrite H1m in Hj|].
  intros [Hi Hia].
  assert (Hg : Z.gcd m a = 1).
  { apply Z.bezout_1_gcd. exists (- (i * a / m)), i. pose proof (Z.div_mod (i * a) m ltac:(lia)). lia. }
  assert (Hsome : is_Some (pow_inv a m)).
  { unfold pow_inv. apply fmap_is_Some. pose proof (Z.mod_pos_bound a m ltac:(lia)).
    apply inv_loop_complete; [lia| |].
    - pose proof (Z.log2_nonneg m). pose proof (Z.log2_le_mono (a mod m) m ltac:(lia)). lia.
    - by rewrite Z.gcd_comm, Z.gcd_mod by lia. }
  destruct Hsome as [j Hj]. destruct (Hs _ Hj) as [Hjr Hja]. rewrite Hj. f_equal.
  assert (Hji : j == i).
  { assert (Hi1 : i * a == 1) by (unfold eqm; by rewrite H1m).
    replace j with (j * 1) by ring. rewrite <-Hi1. replace (j * (i * a)) with (j * a * i) by ring.
    rewrite Hja. replace (1 * i) with i by ring. done. }
  unfold eqm in Hji. by rewrite !Z.mod_small in Hji by done.
Qed.
End Inverse.

(** ** Points stay on the curve *)

Definition on_curve (p : point) : Prop :=
  match p with
  | None => True
  | Some (x, y) => 0 <= x < _P /\ 0 <= y < _P /\ eqm _P (y * y) (x * x * x + 7)
  end.

Section Curve.
#[local] Existing Instances eqm_setoid Zplus_eqm Zminus_eqm Zmult_eqm Zopp_eqm.
#[local] Infix "==" := (eqm _P) (at level 70).

Lemma eqm_0_sub a b : a - b == 0 <-> a == b.
Proof.
  split; intros H.
  - replace a with (a - b + b) by ring. rewrite H. by replace (0 + b) with b by ring.
  - rewrite H. by replace (b - b) with 0 by ring.
Qed.

(** The cubic of a line through two points of the curve has a third root: with
    the cubic less its three linear factors written [al * x + be], the curve
    equation at the new point is that of its reflection. *)
Lemma third_root x1 x2 lam y1 al be :
  let x3 := lam * lam - x1 - x2 in
  al = 2 * lam * lam * x1 - 2 * lam * y1 - (x1 * x2 + x1 * x3 + x2 * x3) ->
  be = 7 - (y1 - lam * x1) * (y1 - lam * x1) + x1 * x2 * x3 ->
  al == 0 -> be == 0 ->
  let y3 := lam * (x1 - x3) - y1 in y3 * y3 == x3 * x3 * x3 + 7.
Proof.
  intros x3 Hal Hbe Ha Hb y3. symmetry. apply eqm_0_sub.
  replace (x3 * x3 * x3 + 7 - y3 * y3) with (al * x3 + be) by (rewrite Hal, Hbe; unfold y3, x3; ring).
  rewrite Ha, Hb. done.
Qed.

Lemma chord_on_curve x1 y1 x2 y2 i :
  y1 * y1 == x1 * x1 * x1 + 7 -> y2 * y2 == x2 * x2 * x2 + 7 -> i * (x2 - x1) == 1 ->
  let lam := (y2 - y1) * i in let x3 := lam * lam - x1 - x2 in
  let y3 := lam * (x1 - x3) - y1 in y3 * y3 == x3 * x3 * x3 + 7.
Proof.
  intros H1 H2 Hi lam x3.
  set (al := 2 * lam * lam * x1 - 2 * lam * y1 - (x1 * x2 + x1 * x3 + x2 * x3)).
  set (be := 7 - (y1 - lam * x1) * (y1 - lam * x1) + x1 * x2 * x3).
  assert (Hlam : lam * (x2 - x1) == y2 - y1).
  { unfold lam. replace ((y2 - y1) * i * (x2 - x1)) with ((y2 - y1) * (i * (x2 - x1))) by ring.
    rewrite Hi. by replace ((y2 - y1) * 1) with (y2 - y1) by ring. }
  assert (Hr1 : al * x1 + be == 0).
  { replace (al * x1 + be) with (x1 * x1 * x1 + 7 - y1 * y1) by (unfold al, be, x3; ring).
    rewrite H1. by apply eqm_0_sub. }
  assert (Hr2 : al * x2 + be == 0).
  { replace (al * x2 + be) with
      (x2 * x2 * x2 + 7 - (lam * (x2 - x1) + y1) * (lam * (x2 - x1) + y1)) by (unfold al, be, x3; ring).
    rewrite Hlam. replace (y2 - y1 + y1) with y2 by ring. rewrite H2. by apply eqm_0_sub. }
  assert (Hal : al == 0).
  { replace al with (al * 1) by ring. rewrite <-Hi.
    replace (al * (i * (x2 - x1))) with (i * ((al * x2 + be) - (al * x1 + be))) by ring.
    rewrite Hr1, Hr2. by replace (i * (0 - 0)) with 0 by ring. }
  apply (third_root x1 x2 lam y1 al be); [done..|].
  rewrite Hal in Hr1. by replace (0 * x1 + be) with be in Hr1 by ring.
Qed.

Lemma tangent_on_curve x y i :
  y * y == x * x * x + 7 -> i * (2 * y) == 1 ->
  let lam := 3 * x * x * i in let x3 := lam * lam - x - x in
  let y3 := lam * (x - x3) - y in y3 * y3 == x3 * x3 * x3 + 7.
Proof.
  intros H1 Hi lam x3.
  set (al := 2 * lam * lam * x - 2 * lam * y - (x * x + x * x3 + x * x3)).
  set (be := 7 - (y - lam * x) * (y - lam * x) + x * x * x3).
  assert (Hal : al == 0).
  { replace al with (3 * x * x - 3 * x * x * (i * (2 * y))) by (unfold al, x3, lam; ring).
    rewrite Hi. by replace (3 * x * x - 3 * x * x * 1) with 0 by ring. }
  apply (third_root x x lam y al be); [done..|].
  replace be with (x * x * x + 7 - y * y - al * x) by (unfold al, be, x3; ring).
  rewrite Hal, H1. by replace (x * x * x + 7 - (x * x * x + 7) - 0 * x) with 0 by ring.
Qed.

Lemma reduced_on_curve x y :
  y * y == x * x * x + 7 -> on_curve (Some (x mod _P, y mod _P)).
Proof.
  intros H. split; [by apply Z.mod_pos_bound|]. split; [by apply Z.mod_pos_bound|].
  repeat setoid_rewrite (Zmod_eqm _P). done.
Qed.

Lemma inv_returned a i : _inv a _P = Returned i -> i * a == 1.
Proof.
  unfold _inv. destruct (pow_inv a _P) as [j|] eqn:E; [|done]. intros [= <-].
  apply pow_inv_spec in E as [_ E]; [|done]. exact E.
Qed.

Lemma add_on_curve_lemma p q r : on_curve p -> on_curve q -> _add p q = Returned r -> on_curve r.
Proof.
  destruct p as [[p0 p1]|], q as [[q0 q1]|]; cbn [_add]; try (intros ? ? [= <-]; done).
  intros (_ & _ & Hp) (_ & _ & Hq). destruct ((p0 =? q0) && _); [by intros [= <-]|].
  destruct ((p0 =? q0) && (p1 =? q1)) eqn:He.
  - apply andb_true_iff in He as [->%Z.eqb_eq ->%Z.eqb_eq].
    destruct (_inv (2 * q1) _P) as [i| |] eqn:Hi; cbn [obind]; [|done..]. apply inv_returned in Hi.
    intros [= <-]. pose proof (tangent_on_curve q0 q1 i Hp Hi) as Hc. cbv zeta in Hc.
    apply (reduced_on_curve _ (_ * (_ - _) - _)). repeat setoid_rewrite (Zmod_eqm _P). exact Hc.
  - destruct (_inv (q0 - p0) _P) as [i| |] eqn:Hi; cbn [obind]; [|done..]. apply inv_returned in Hi.
    intros [= <-]. pose proof (chord_on_curve p0 p1 q0 q1 i Hp Hq Hi) as Hc. cbv zeta in Hc.
    apply (reduced_on_curve _ (_ * (_ - _) - _)). repeat setoid_rewrite (Zmod_eqm _P). exact Hc.
Qed.
End Curve.

(** ** Multiples of a point *)

Lemma generator_on_curve : on_curve (Some (_GX, _GY)).
Proof. split; [done|]. split; [done|]. unfold eqm. vm_compute. reflexivity. Qed.

Lemma mul_loop_on_curve fuel k r p q :
  on_curve r -> on_curve p -> mul_loop fuel k r p = Returned q -> on_curve q.
Proof.
  revert k r p. induction fuel as [|fuel IH]; intros k r p Hr Hp; cbn [mul_loop]; [done|].
  destruct (k =? 0); [by intros [= <-]|].
  destruct (if Z.odd k then _ else _) as [r'| |] eqn:E; cbn [obind]; [|done..].
  assert (Hr' : on_curve r') by (destruct (Z.odd k); [exact (add_on_curve_lemma r p r' Hr Hp E)|by injection E as <-]).
  destruct (_add p p) as [p'| |] eqn:E2; cbn [obind]; [|done..].
  apply IH; [done|]. exact (add_on_curve_lemma p p p' Hp Hp E2).
Qed.

Lemma pub_point_on_curve priv q : _pub_point priv = Returned q -> on_curve q.
Proof. intros Hq. eapply mul_loop_on_curve; [| |exact Hq]; [done|exact generator_on_curve]. Qed.

Lemma inv_not_running a : _inv a _P <> Running.
Proof. unfold _inv. by destruct (pow_inv a _P). Qed.

Lemma add_not_running p q : _add p q <> Running.
Proof.
  destruct p as [[p0 p1]|], q as [[q0 q1]|]; cbn [_add]; try done. destruct (_ && (_ =? 0)); [done|].
  destruct (_ && _); destruct (_inv _ _) eqn:E; cbn [obind]; try done; by apply inv_not_running in E.
Qed.

Lemma mul_loop_ends n k r p : 0 <= k < 2 ^ Z.of_nat n -> mul_loop (S n) k r p <> Running.
Proof.
  revert k r p. induction n as [|n IH]; intros k r p Hk.
  { assert (k = 0) as -> by (change (2 ^ Z.of_nat 0) with 1 in Hk; lia). done. }
  cbn [mul_loop]. destruct (k =? 0); [done|]. fold (mul_loop (S n)).
  destruct (if Z.odd k then _ else _) as [r'| |] eqn:E; cbn [obind]; [|done|].
  2:{ destruct (Z.odd k); [by apply add_not_running in E|done]. }
  destruct (_add p p) as [p'| |] eqn:E2; cbn [obind]; [|done|by apply add_not_running in E2].
  rewrite Z.shiftr_div_pow2 by lia. apply IH. change (2 ^ 1) with 2.
  rewrite Nat2Z.inj_succ, Z.pow_succ_r in Hk by lia.
  split; [apply Z.div_pos; lia|apply Z.div_lt_upper_bound; lia].
Qed.

Lemma points_on_curve_all :
  (forall p q r, on_curve p -> on_curve q -> _add p q = Returned r -> on_curve r)
  /\ (forall k p q, on_curve p -> _mul k p = Returned q -> on_curve q)
  /\ (forall k p, 0 <= k -> _mul k p <> Running)
  /\ (forall priv q, _pub_point priv = Returned q -> on_curve q).
Proof.
  split; [exact add_on_curve_lemma|]. split; [|split; [|exact pub_point_on_curve]].
  - intros k p q Hp Hq. by eapply mul_loop_on_curve; [| |exact Hq].
  - intros k p Hk. unfold _mul. pose proof (Z.log2_nonneg k).
    replace (Z.to_nat (Z.log2 k + 2)) with (S (Z.to_nat (Z.log2 k + 1))) by lia.
    apply mul_loop_ends. rewrite Z2Nat.id by lia. split; [done|].
    destruct (Z.eq_dec k 0) as [->|]; [done|]. apply Z.log2_spec. lia.
Qed.

(** What the tool computes with points stays on the curve, and ends.  A sum of
    points of the curve, when no inverse is missing, is a point of the curve with
    reduced coordinates, whether a chord, a tangent or the point at infinity;
    every public key of the tool is one, and for a key that is not negative the
    loop ends. *)
Theorem points_on_curve :
  (forall p q r, on_curve p -> on_curve q -> _add p q = Returned r -> on_curve r)
  /\ (forall k p q, on_curve p -> _mul k p = Returned q -> on_curve q)
  /\ (forall k p, 0 <= k -> _mul k p <> Running)
  /\ (forall priv q, _pub_point priv = Returned q -> on_curve q).
Proof. exact points_on_curve_all. Qed.

(** ** The group law

    What the tool's points are measured against: the chord-and-tangent sums of
    the curve as equations modulo [_P], and the multiples of the generator as
    what these sums reach from it.  Neither mentions the tool's algorithms. *)

Definition third (lam x0 y0 x1 x y : Z) : Prop :=
  x = (lam * lam - x0 - x1) mod _P /\ y = (lam * (x0 - x) - y0) mod _P.

Inductive curve_sum : point -> point -> point -> Prop :=
| sum_zero_l q : curve_sum None q q
| sum_zero_r p : curve_sum p None p
| sum_opposite x y y' : eqm _P (y + y') 0 -> curve_sum (Some (x, y)) (Some (x, y')) None
| sum_tangent x y lam x3 y3 :
    ~ eqm _P (2 * y) 0 -> eqm _P (lam * (2 * y)) (3 * x * x) -> third lam x y x x3 y3 ->
    curve_sum (Some (x, y)) (Some (x, y)) (Some (x3, y3))
| sum_chord x0 y0 x1 y1 lam x3 y3 :
    ~ eqm _P (x1 - x0) 0 -> eqm _P (lam * (x1 - x0)) (y1 - y0) -> third lam x0 y0 x1 x3 y3 ->
    curve_sum (Some (x0, y0)) (Some (x1, y1)) (Some (x3, y3)).

Inductive multiple : Z -> point -> Prop :=
| multiple_zero : multiple 0 None
| multiple_generator : multiple 1 (Some (_GX, _GY))
| multiple_sum a b p q r : multiple a p -> multiple b q -> curve_sum p q r -> multiple (a + b) r.

Section GroupLaw.
#[local] Existing Instances eqm_setoid Zplus_eqm Zminus_eqm Zmult_eqm Zopp_eqm.
#[local] Infix "==" := (eqm _P) (at level 70).

(** An element with an inverse is not zero, and divides what it should. *)
Lemma slope i a b : i * a == 1 -> ~ a == 0 /\ (b * i mod _P) * a == b.
Proof.
  intros Hi. split.
  - intros Ha. rewrite Ha, Z.mul_0_r in Hi. revert Hi. unfold eqm. by vm_compute.
  - rewrite (Zmod_eqm _P). replace (b * i * a) with (b * (i * a)) by ring. rewrite Hi. by rewrite Z.mul_1_r.
Qed.

Lemma add_sum p q r : _add p q = Returned r -> curve_sum p q r.
Proof.
  destruct p as [[p0 p1]|], q as [[q0 q1]|]; cbn [_add]; try (intros [= <-]; constructor).
  destruct ((p0 =? q0) && ((p1 + q1) mod _P =? 0)) eqn:Ho.
  { apply andb_true_iff in Ho as [->%Z.eqb_eq Ho%Z.eqb_eq]. intros [= <-]. by apply sum_opposite. }
  destruct ((p0 =? q0) && (p1 =? q1)) eqn:He.
  - apply andb_true_iff in He as [->%Z.eqb_eq ->%Z.eqb_eq].
    destruct (_inv (2 * q1) _P) as [i| |] eqn:Hi; cbn [obind]; [|done..]. apply inv_returned in Hi.
    intros [= <-]. destruct (slope _ _ (3 * q0 * q0) Hi) as [Hnz Hlam]. by eapply sum_tangent.
  - destruct (_inv (q0 - p0) _P) as [i| |] eqn:Hi; cbn [obind]; [|done..]. apply inv_returned in Hi.
    intros [= <-]. destruct (slope _ _ (q1 - p1) Hi) as [Hnz Hlam]. by eapply sum_chord.
Qed.
End GroupLaw.

(** The double-and-add loop computes [a + k * b] times the generator. *)
Lemma mul_loop_multiple fuel k a b r p q :
  multiple a r -> multiple b p -> mul_loop fuel k r p = Returned q -> multiple (a + k * b) q.
Proof.
  revert k a b r p. induction fuel as [|fuel IH]; intros k a b r p Hr Hp; cbn [mul_loop]; [done|].
  destruct (Z.eqb_spec k 0) as [->|_]; [intros [= <-]; by rewrite Z.mul_0_l, Z.add_0_r|].
  destruct (if Z.odd k then _ else _) as [r'| |] eqn:E; cbn [obind]; [|done..].
  assert (Hr' : multiple (a + (if Z.odd k then b else 0)) r').
  { destruct (Z.odd k); [eapply multiple_sum; [exact Hr|exact Hp|by apply add_sum]|].
    injection E as <-. by rewrite Z.add_0_r. }
  destruct (_add p p) as [p'| |] eqn:E2; cbn [obind]; [|done..]. intros Hm.
  pose proof (IH _ _ _ _ _ Hr' (multiple_sum _ _ _ _ _ Hp Hp (add_sum _ _ _ E2)) Hm) as H.
  replace (a + k * b) with (a + (if Z.odd k then b else 0) + Z.shiftr k 1 * (b + b)); [done|].
  rewrite <-Z.div2_spec. pose proof (Z.div2_odd k) as Hk. destruct (Z.odd k); cbn [Z.b2z] in Hk; nia.
Qed.

Lemma mul_multiple k q : _mul k (Some (_GX, _GY)) = Returned q -> multiple k q.
Proof.
  intros Hm. pose proof (mul_loop_multiple _ k 0 1 _ _ _ multiple_zero multiple_generator Hm) as H.
  by replace (0 + k * 1) with k in H by ring.
Qed.

(** ** Bytes *)

Lemma digits_big_length n z : length (digits_big n z) = n.
Proof. revert z. induction n as [|n IH]; intros z; cbn [digits_big]; [done|]. rewrite length_app, IH. cbn. lia. Qed.

Lemma from_bytes_big_snoc l b : from_bytes_big (l ++ [b]) = 256 * from_bytes_big l + u8 b.
Proof. unfold from_bytes_big. by rewrite fold_left_app. Qed.

Lemma from_digits_big n z : 0 <= z < 256 ^ Z.of_nat n -> from_bytes_big (digits_big n z) = z.
Proof.
  revert z. induction n as [|n IH]; intros z Hz; cbn [digits_big].
  - change (256 ^ Z.of_nat 0) with 1 in Hz. unfold from_bytes_big. cbn. lia.
  - rewrite Nat2Z.inj_succ, Z.pow_succ_r in Hz by lia.
    rewrite from_bytes_big_snoc, IH, u8_to_u8.
    + pose proof (Z.div_mod z 256 ltac:(lia)). lia.
    + split; [apply Z.div_pos; lia|apply Z.div_lt_upper_bound; lia].
Qed.

Lemma from_bytes_big_range l : 0 <= from_bytes_big l < 256 ^ Z.of_nat (length l).
Proof.
  induction l as [|b l IH] using rev_ind; [done|]. rewrite from_bytes_big_snoc, length_app.
  pose proof (u8_range b). cbn [length]. rewrite Nat.add_1_r, Nat2Z.inj_succ, Z.pow_succ_r by lia. lia.
Qed.

Lemma to_bytes_big_returned n z l :
  to_bytes_big n z = Returned l <-> 0 <= z < 256 ^ Z.of_nat n /\ l = digits_big n z.
Proof.
  unfold to_bytes_big. destruct ((0 <=? z) && (z <? _)) eqn:E.
  - apply andb_true_iff in E as [?%Z.leb_le ?%Z.ltb_lt]. split; [by intros [= <-]|by intros [_ ->]].
  - apply andb_false_iff in E. split; [done|]. intros [Hz _]. destruct E as [?%Z.leb_gt|?%Z.ltb_ge]; lia.
Qed.

(** A compressed key is a parity byte and the abscissa. *)
Lemma compressed_pub_shape priv pub :
  compressed_pub priv = Returned pub ->
  exists x y, _pub_point priv = Returned (Some (x, y)) /\ on_curve (Some (x, y))
    /\ pub = to_u8 (2 + Z.land y 1) :: digits_big 32 x /\ length pub = 33%nat.
Proof.
  unfold compressed_pub. destruct (_pub_point priv) as [q| |] eqn:Hq; cbn [obind]; [|done..].
  destruct q as [[x y]|]; cbn [unpack returned obind]; [|done].
  destruct (to_bytes_big 32 x) as [xs| |] eqn:Hx; cbn [obind]; [|done..]. intros [= <-].
  apply to_bytes_big_returned in Hx as [_ ->]. exists x, y. split; [done|].
  split; [by eapply pub_point_on_curve|]. split; [done|]. cbn [length]. by rewrite digits_big_length.
Qed.

(** ** Witness: the tangent at the generator *)

Definition _G : point := Some (_GX, _GY).
Definition twice_G : point := Some
  (0xc6047f9441ed7d6d3045406e95c07cd85c778e4b8cef3ca7abac09b95c709ee5,
   0x1ae168fea63dc339a3c58419466ceaeef7f632653266d0e1236431a950cfe52a).

Lemma double_G : _add _G _G = Returned twice_G.
Proof. vm_compute. reflexivity. Qed.

(** One turn of the loop, which doubles all the same. *)
Lemma mul_1_G : _mul 1 _G = Returned _G.
Proof.
  unfold _mul. change (Z.to_nat (Z.log2 1 + 2)) with 2%nat. cbn [mul_loop]. change (1 =? 0) with false.
  change (Z.odd 1) with true. cbv iota. change (_add None _G) with (Returned _G). cbn [obind].
  rewrite double_G. reflexivity.
Qed.

Lemma points_on_curve_witness : on_curve twice_G /\ _mul 1 _G <> Running.
Proof.
  destruct points_on_curve as (Hadd & _ & Hend & _). split.
  - apply (Hadd _G _G); [exact generator_on_curve|exact generator_on_curve|exact double_G].
  - apply Hend. lia.
Defined.
