(* ===== verification/Keccak.v ===== *)
(** * keccak-256 of the minting tool (tools/mint_attest.py)

    The permutation over a 5 by 5 matrix of Python integers, which the code
    keeps to 64 bits only in [_rol64], and the sponge around it.  An index out
    of range or a [to_bytes] that does not fit would raise; [lanes_ok] is the
    invariant that rules both out. *)
From S2P Require Import Prelude.

Definition _rol64 (a n : Z) : Z := (Z.shiftr a (64 - n mod 64) + Z.shiftl a (n mod 64)) mod (Z.shiftl 1 64).

(** [lanes[x][y]] and [lanes[x][y] = v]; the indices are below 5. *)
Definition lane (lanes : list (list Z)) (x y : nat) : Z := default 0 (lanes !! x ≫= fun row => row !! y).
Definition set_lane (x y : nat) (v : Z) (lanes : list (list Z)) : list (list Z) := alter (fun row => <[y := v]> row) x lanes.

Definition column (c : list Z) (x : nat) : Z := default 0 (c !! (x mod 5)%nat).

(** The 24 rounds' steps, in the order of the code. *)
Definition theta (lanes : list (list Z)) : list (list Z) :=
  let C := (fun x => Z.lxor (Z.lxor (Z.lxor (Z.lxor (lane lanes x 0) (lane lanes x 1)) (lane lanes x 2))
                       (lane lanes x 3)) (lane lanes x 4)) <$> seq 0 5 in
  let D := (fun x => Z.lxor (column C (x + 4)) (_rol64 (column C (x + 1)) 1)) <$> seq 0 5 in
  (fun x => (fun y => Z.lxor (lane lanes x y) (column D x)) <$> seq 0 5) <$> seq 0 5.

Fixpoint rho_pi_loop (ts : list nat) (x y : nat) (current : Z) (lanes : list (list Z)) : list (list Z) :=
  match ts with
  | [] => lanes
  | t :: ts =>
      let x' := y in
      let y' := ((2 * x + 3 * y) mod 5)%nat in
      let v := _rol64 current ((Z.of_nat t + 1) * (Z.of_nat t + 2) / 2) in
      rho_pi_loop ts x' y' (lane lanes x' y') (set_lane x' y' v lanes)
  end.

Definition rho_pi (lanes : list (list Z)) : list (list Z) := rho_pi_loop (seq 0 24) 1 0 (lane lanes 1 0) lanes.

Definition chi_row (lanes : list (list Z)) (y : nat) : list (list Z) :=
  let T := (fun x => lane lanes x y) <$> seq 0 5 in
  fold_left (fun lanes x =>
      set_lane x y (Z.lxor (column T x) (Z.land (Z.lnot (column T (x + 1))) (column T (x + 2)))) lanes)
    (seq 0 5) lanes.

Definition chi (lanes : list (list Z)) : list (list Z) := fold_left chi_row (seq 0 5) lanes.

Definition iota_step (s : Z * list (list Z)) (j : nat) : Z * list (list Z) :=
  let R := Z.lxor (Z.shiftl s.1 1) (Z.shiftr s.1 7 * 0x71) mod 256 in
  (R, if negb (Z.land R 2 =? 0)
      then set_lane 0 0 (Z.lxor (lane s.2 0 0) (Z.shiftl 1 (Z.shiftl 1 (Z.of_nat j) - 1))) s.2
      else s.2).

Definition iota (R : Z) (lanes : list (list Z)) : Z * list (list Z) := fold_left iota_step (seq 0 7) (R, lanes).

Definition keccak_round (s : Z * list (list Z)) : Z * list (list Z) := iota s.1 (chi (rho_pi (theta s.2))).

Definition _keccak_f (lanes : list (list Z)) : list (list Z) :=
  (fold_left (fun s _ => keccak_round s) (seq 0 24) (1, lanes)).2.

(** ** The sponge *)

(** [int.from_bytes(l, "little")] and [z.to_bytes(8, "little")] *)
Definition from_bytes_little (l : list byte) : Z := foldr (fun b a => u8 b + 256 * a) 0 l.

Fixpoint digits_little (n : nat) (z : Z) : list byte :=
  match n with O => [] | S n => to_u8 z :: digits_little n (z / 256) end.

Definition to_bytes_little (n : nat) (z : Z) : outcome (list byte) :=
  if (0 <=? z) && (z <? 256 ^ Z.of_nat n) then Returned (digits_little n z) else Panicked.

Definition rate : nat := 136.

(** The padded message: [0x01], zeros, and the top bit of the last byte. *)
Definition pad (data : list byte) : list byte :=
  let msg := data ++ [x01] in
  let msg := msg ++ replicate (Z.to_nat ((- Z.of_nat (length msg)) mod Z.of_nat rate)) x00 in
  match last msg with
  | Some b => take (length msg - 1) msg ++ [to_u8 (Z.lxor (u8 b) 0x80)]
  | None => []
  end.

Definition absorb_lane (block : list byte) (lanes : list (list Z)) (i : nat) : list (list Z) :=
  set_lane (i mod 5) (i / 5)
    (Z.lxor (lane lanes (i mod 5) (i / 5)) (from_bytes_little (take 8 (drop (8 * i) block)))) lanes.

Definition absorb (msg : list byte) (lanes : list (list Z)) (off : nat) : list (list Z) :=
  let block := take rate (drop off msg) in
  _keccak_f (fold_left (absorb_lane block) (seq 0 (rate / 8)) lanes).

(** [range(0, len(msg), rate)] *)
Definition offsets (msg : list byte) : list nat :=
  (fun i => i * rate)%nat <$> seq 0 ((length msg + rate - 1) / rate).

Fixpoint squeeze (idx : list nat) (lanes : list (list Z)) : outcome (list byte) :=
  match idx with
  | [] => Returned []
  | i :: idx =>
      let^ b := to_bytes_little 8 (lane lanes (i mod 5) (i / 5)) in
      let^ out := squeeze idx lanes in
      Returned (b ++ out)
  end.

Definition keccak256 (data : list byte) : outcome (list byte) :=
  let msg := pad data in
  let lanes := replicate 5 (replicate 5 0) in
  squeeze (seq 0 4) (fold_left (absorb msg) (offsets msg) lanes).


(** ** Every lane stays within 64 bits *)

Lemma u64_bits a : is_u64 a <-> forall i, 64 <= i -> Z.testbit a i = false.
Proof.
  unfold is_u64. split.
  - intros Ha i Hi. rewrite <-(Z.mod_small a (2 ^ 64)) by done. by apply Z.mod_pow2_bits_high.
  - intros Hb. replace a with (a mod 2 ^ 64); [by apply Z.mod_pos_bound|]. apply Z.bits_inj'. intros i Hi.
    destruct (Z.lt_ge_cases i 64); [by apply Z.mod_pow2_bits_low|].
    rewrite Z.mod_pow2_bits_high by lia. by rewrite Hb.
Qed.

Lemma lxor_u64 a b : is_u64 a -> is_u64 b -> is_u64 (Z.lxor a b).
Proof. rewrite !u64_bits. intros Ha Hb i Hi. by rewrite Z.lxor_spec, Ha, Hb. Qed.

Lemma land_u64 a b : is_u64 b -> is_u64 (Z.land a b).
Proof. rewrite !u64_bits. intros Hb i Hi. rewrite Z.land_spec, Hb by done. apply andb_false_r. Qed.

Lemma shiftl_1_u64 n : n < 64 -> is_u64 (Z.shiftl 1 n).
Proof.
  intros Hn. unfold is_u64. rewrite Z.shiftl_1_l. split; [by apply Z.pow_nonneg|].
  destruct (Z.lt_ge_cases n 0); [by rewrite Z.pow_neg_r by lia|]. apply Z.pow_lt_mono_r; lia.
Qed.

Lemma rol64_u64 a n : is_u64 (_rol64 a n).
Proof. by apply Z.mod_pos_bound. Qed.

Create HintDb lanes.
#[export] Hint Resolve lxor_u64 land_u64 rol64_u64 : lanes.

(** [_rol64] adds the two shifted halves; on a 64-bit word that is a rotation. *)
Lemma rol64_bits a n i :
  is_u64 a -> 0 <= i < 64 -> Z.testbit (_rol64 a n) i = Z.testbit a ((i - n) mod 64).
Proof.
  intros Ha Hi. unfold _rol64. set (m := n mod 64).
  assert (Hm : 0 <= m < 64) by (by apply Z.mod_pos_bound).
  assert (Hn : (i - n) mod 64 = (i - m) mod 64) by (unfold m; by rewrite Zminus_mod_idemp_r).
  assert (Hlow : 0 <= Z.shiftr a (64 - m) < 2 ^ m).
  { unfold is_u64 in Ha. rewrite Z.shiftr_div_pow2 by lia. split; [by apply Z.div_pos; [lia|apply Z.pow_pos_nonneg; lia]|].
    apply Z.div_lt_upper_bound; [apply Z.pow_pos_nonneg; lia|]. rewrite <-Z.pow_add_r by lia.
    replace (64 - m + m) with 64 by lia. lia. }
  rewrite Z.shiftl_1_l, Z.mod_pow2_bits_low by lia. rewrite Z.shiftl_mul_pow2 by lia.
  rewrite <-lor_disjoint_add by lia. rewrite Z.lor_spec, Z.shiftr_spec, Hn by lia.
  destruct (Z.lt_ge_cases i m).
  - rewrite Z.mul_pow2_bits_low, orb_false_r by lia. f_equal.
    rewrite <-(Z.mod_add _ 1) by lia. rewrite Z.mod_small by lia. lia.
  - rewrite (proj1 (u64_bits a) Ha) by lia. rewrite Z.mul_pow2_bits by lia. cbn [orb]. f_equal.
    symmetry. apply Z.mod_small. lia.
Qed.

(** Five rows of five 64-bit lanes. *)
Definition row_ok (row : list Z) : Prop := length row = 5%nat /\ Forall is_u64 row.
Definition lanes_ok (lanes : list (list Z)) : Prop := length lanes = 5%nat /\ Forall row_ok lanes.

Lemma is_u64_0 : is_u64 0.
Proof. by split. Qed.

Lemma lane_u64 lanes x y : lanes_ok lanes -> is_u64 (lane lanes x y).
Proof.
  intros [_ Hl]. unfold lane. destruct (lanes !! x) as [row|] eqn:Hx; cbn; [|exact is_u64_0].
  destruct (Forall_lookup_1 _ _ _ _ Hl Hx) as [_ Hr].
  destruct (row !! y) as [v|] eqn:Hy; cbn; [|exact is_u64_0]. by apply (Forall_lookup_1 _ _ _ _ Hr Hy).
Qed.

Lemma set_lane_ok x y v lanes : is_u64 v -> lanes_ok lanes -> lanes_ok (set_lane x y v lanes).
Proof.
  intros Hv [Hn Hl]. unfold set_lane. split; [by rewrite length_alter|].
  apply Forall_alter; [done|]. intros row _ [Hr Hu]. split; [by rewrite length_insert|]. by apply Forall_insert.
Qed.
#[export] Hint Resolve lane_u64 set_lane_ok : lanes.

Lemma column_u64 c x : Forall is_u64 c -> is_u64 (column c x).
Proof.
  intros Hc. unfold column. destruct (c !! _) as [v|] eqn:E; cbn; [|exact is_u64_0].
  by apply (Forall_lookup_1 _ _ _ _ Hc E).
Qed.

Lemma fmap_u64 (f : nat -> Z) l : (forall x, is_u64 (f x)) -> Forall is_u64 (f <$> l).
Proof. intros Hf. apply Forall_fmap, Forall_forall. intros x _. apply Hf. Qed.
#[export] Hint Resolve column_u64 fmap_u64 : lanes.

Lemma fold_lanes {A} (f : list (list Z) -> A -> list (list Z)) l lanes :
  (forall s a, lanes_ok s -> lanes_ok (f s a)) -> lanes_ok lanes -> lanes_ok (fold_left f l lanes).
Proof. intros Hf. revert lanes. induction l as [|a l IH]; intros lanes Hl; [done|]. by apply IH, Hf. Qed.

Lemma theta_ok lanes : lanes_ok lanes -> lanes_ok (theta lanes).
Proof.
  intros Hl. split; [done|]. apply Forall_fmap, Forall_forall. intros x _. split; [done|].
  apply fmap_u64. intros y. apply lxor_u64; [auto with lanes|]. apply column_u64, fmap_u64. intros x0.
  apply lxor_u64; [|auto with lanes]. apply column_u64, fmap_u64. intros x1. auto 10 with lanes.
Qed.

Lemma rho_pi_ok ts x y current lanes : lanes_ok lanes -> lanes_ok (rho_pi_loop ts x y current lanes).
Proof.
  revert x y current lanes. induction ts as [|t ts IH]; intros x y current lanes Hl; [done|].
  apply IH. auto with lanes.
Qed.

Lemma chi_ok lanes : lanes_ok lanes -> lanes_ok (chi lanes).
Proof.
  apply fold_lanes. intros s y Hs. unfold chi_row.
  assert (HT : Forall is_u64 ((fun x => lane s x y) <$> seq 0 5)) by auto with lanes.
  generalize dependent ((fun x => lane s x y) <$> seq 0 5). intros T HT.
  apply fold_lanes; [|done]. auto 8 with lanes.
Qed.

Lemma iota_ok R lanes : lanes_ok lanes -> lanes_ok (iota R lanes).2.
Proof.
  unfold iota. assert (Hjs : Forall (fun j => (j < 7)%nat) (seq 0 7)).
  { apply Forall_forall. intros j Hj%elem_of_seq. lia. }
  generalize dependent (seq 0 7). intros js. revert R lanes.
  induction js as [|j js IH]; intros R lanes Hj Hl; [done|].
  apply Forall_cons in Hj as [Hj Hjs]. cbn [fold_left]. unfold iota_step at 2. apply IH; [done|].
  cbn [fst snd]. destruct (negb _); [|done]. apply set_lane_ok; [|done]. apply lxor_u64; [auto with lanes|].
  apply shiftl_1_u64. rewrite Z.shiftl_1_l. assert (2 ^ Z.of_nat j <= 2 ^ 6) by (apply Z.pow_le_mono_r; lia). lia.
Qed.

Lemma keccak_round_ok s : lanes_ok s.2 -> lanes_ok (keccak_round s).2.
Proof. intros Hl. unfold keccak_round. apply iota_ok, chi_ok. unfold rho_pi. apply rho_pi_ok, theta_ok, Hl. Qed.

#[local] Opaque keccak_round.

Lemma keccak_f_ok lanes : lanes_ok lanes -> lanes_ok (_keccak_f lanes).
Proof.
  unfold _keccak_f. intros Hl. change lanes with (1, lanes).2 in Hl. generalize dependent (1, lanes).
  generalize (seq 0 24). intros l. induction l as [|n l IH]; intros s Hl; [done|]. apply IH, keccak_round_ok, Hl.
Qed.

Lemma from_bytes_little_range l : 0 <= from_bytes_little l < 256 ^ Z.of_nat (length l).
Proof.
  induction l as [|b l IH]; cbn [from_bytes_little foldr length]; [done|].
  pose proof (u8_range b). fold (from_bytes_little l). rewrite Nat2Z.inj_succ, Z.pow_succ_r by lia. lia.
Qed.

Lemma absorb_ok msg lanes off : lanes_ok lanes -> lanes_ok (absorb msg lanes off).
Proof.
  intros Hl. apply keccak_f_ok, fold_lanes; [|done]. intros s i Hs. unfold absorb_lane.
  apply set_lane_ok; [|done]. apply lxor_u64; [auto with lanes|].
  set (l := take 8 _). pose proof (from_bytes_little_range l) as Hr.
  assert (Hlen : (length l <= 8)%nat) by (unfold l; rewrite length_take; lia).
  assert (256 ^ Z.of_nat (length l) <= 256 ^ 8) by (apply Z.pow_le_mono_r; lia).
  unfold is_u64. change (2 ^ 64) with (256 ^ 8). lia.
Qed.

Lemma digits_little_length n z : length (digits_little n z) = n.
Proof. revert z. induction n as [|n IH]; intros z; cbn; [done|]. by rewrite IH. Qed.

Lemma squeeze_ok idx lanes :
  lanes_ok lanes -> exists out, squeeze idx lanes = Returned out /\ length out = (8 * length idx)%nat.
Proof.
  intros Hl. induction idx as [|i idx (out & IH & Hlen)]; [by exists []|]. cbn [squeeze].
  pose proof (lane_u64 lanes (i mod 5) (i / 5) Hl) as [Hlo Hhi]. change (2 ^ 64) with (256 ^ Z.of_nat 8) in Hhi.
  unfold to_bytes_little. rewrite (proj2 (Z.leb_le _ _)), (proj2 (Z.ltb_lt _ _)) by done. cbn [andb obind].
  rewrite IH. cbn [obind]. eexists. split; [done|]. rewrite length_app, digits_little_length, Hlen. cbn. lia.
Qed.

Lemma keccak256_total data : exists h, keccak256 data = Returned h /\ length h = 32%nat.
Proof.
  unfold keccak256. cbv zeta. destruct (squeeze_ok (seq 0 4)
    (fold_left (absorb (pad data)) (offsets (pad data)) (replicate 5 (replicate 5 0)))) as (h & Hh & Hlen).
  - apply fold_lanes; [intros s off; apply absorb_ok|]. split; [done|]. repeat constructor; done.
  - by exists h.
Qed.

(** Keccak-256 of the tool never raises and gives 32 bytes.  Python's integers
    do not wrap, and the complement in the chi step makes negative ones; still
    every lane is within 64 bits after every step of the permutation, so the
    lanes that are squeezed fit their eight bytes. *)
Theorem keccak256_returns data : exists h, keccak256 data = Returned h /\ length h = 32%nat.
Proof. apply keccak256_total. Qed.

(** The first vector of [selftest]. *)
Example selftest_keccak :
  match keccak256 [] with Returned h => from_bytes_little (reverse h) | _ => 0 end
  = 0xc5d2460186f7233c927e7db2dcc703c0e500b653ca82273b7bfad8045d85a470.
Proof. vm_compute. reflexivity. Qed.
