(* ===== verification/Mint.v ===== *)
(** * The minting tool (tools/mint_attest.py): signatures and attestations

    [sign_prehash], the DER and TLV encoders and [mint], which makes the
    attestations the end-to-end tests feed to the gifter.  [hashlib.sha256] is
    [sha256] of [Hashes], [bytes.hex] is [hex_encode], keccak and the curve are
    the tool's own.  What the gifter's verifier makes of a minted attestation is
    proved from two interfaces of the curve library: its formats
    ([SignatureFormats]) and the correctness of its ECDSA for a key ([Ecdsa]). *)
From S2P Require Import Prelude RustStd Crates JsonInstance Json AuthVector Attest Verifiers MintCurve Keccak.
From Stdlib Require Import Zdiv.

Section Mint.
Context {Hs : Hashes}.

(** [while True]: a turn of the loop is repeated when the nonce will not do. *)
Fixpoint sign_loop (fuel : nat) (priv : Z) (prehash : list byte) (z ctr : Z) : outcome (Z * Z * Z) :=
  match fuel with
  | O => Running
  | S fuel =>
      let^ privb := to_bytes_big 32 priv in
      let^ ctrb := to_bytes_big 4 ctr in
      let k := from_bytes_big (sha256 (privb ++ prehash ++ ctrb)) mod _N in
      let ctr := ctr + 1 in
      if k =? 0 then sign_loop fuel priv prehash z ctr
      else
        let^ p := _mul k (Some (_GX, _GY)) in
        let^ (rx, ry) := unpack p in
        if _N <=? rx then sign_loop fuel priv prehash z ctr
        else
          let r := rx mod _N in
          if r =? 0 then sign_loop fuel priv prehash z ctr
          else
            let^ i := _inv k _N in
            let s := i * (z + r * priv) mod _N in
            if s =? 0 then sign_loop fuel priv prehash z ctr
            else
              let recid := Z.land ry 1 in
              if _N / 2 <? s then Returned (r, _N - s, Z.lxor recid 1) else Returned (r, s, recid)
  end.

Definition sign_prehash (fuel : nat) (priv : Z) (prehash : list byte) : outcome (Z * Z * Z) :=
  sign_loop fuel priv prehash (from_bytes_big prehash) 0.

(** [bytes([z])] *)
Definition byte_of (z : Z) : outcome byte :=
  if (0 <=? z) && (z <? 256) then Returned (to_u8 z) else Panicked.

(** [v.bit_length()] *)
Definition bit_length (v : Z) : Z := if v =? 0 then 0 else Z.log2 (Z.abs v) + 1.

Definition enc_int (v : Z) : outcome (list byte) :=
  let n := (bit_length v + 7) / 8 in
  let^ b := to_bytes_big (Z.to_nat (if n =? 0 then 1 else n)) v in
  let^ b0 := returned (head b) in
  let b := if negb (Z.land (u8 b0) 0x80 =? 0) then x00 :: b else b in
  let^ l := byte_of (Z.of_nat (length b)) in
  Returned (x02 :: l :: b).

Definition der_encode (r s : Z) : outcome (list byte) :=
  let^ er := enc_int r in
  let^ es := enc_int s in
  let body := er ++ es in
  let^ l := byte_of (Z.of_nat (length body)) in
  Returned (x30 :: l :: body).

Definition tlv (tag : byte) (value : list byte) : outcome (list byte) :=
  let n := Z.of_nat (length value) in
  if n <? 0x80 then
    let^ l := byte_of n in Returned (tag :: l :: value)
  else if n <=? 0xFF then
    let^ l := byte_of n in Returned (tag :: x81 :: l :: value)
  else
    let^ hi := byte_of (Z.shiftr n 8) in
    let^ lo := byte_of (Z.land n 0xFF) in
    Returned (tag :: x82 :: hi :: lo :: value).

Definition DOMAIN : list byte := str_bytes "logos/rln/keycard-attest/1".

Definition bound_challenge (id_commitment : list byte) : list byte := sha256 (DOMAIN ++ id_commitment).

(** The dict that [mint] returns, its values before [.hex()]. *)
Record minted := {
  m_tlv : list byte;
  m_challenge : list byte;
  m_ca_pub : list byte;
  m_ident_pub : list byte;
  m_nullifier : list byte
}.

Definition mint (fuel : nat) (ca_priv card_priv : Z) (id_commitment : list byte) : outcome minted :=
  let^ ident_pub := compressed_pub card_priv in
  let prehash := sha256 ident_pub in
  let^ (r, s, recid) := sign_prehash fuel ca_priv prehash in
  let^ rb := to_bytes_big 32 r in
  let^ sb := to_bytes_big 32 s in
  let^ rec := byte_of recid in
  let cert := ident_pub ++ rb ++ sb ++ [rec] in
  let challenge := bound_challenge id_commitment in
  let^ (cr, cs, _) := sign_prehash fuel card_priv challenge in
  let^ t := tlv x8a cert in
  let^ der := der_encode cr cs in
  let template := t ++ der in
  let^ out := tlv xa0 template in
  let^ ca_pub := compressed_pub ca_priv in
  let^ nul := Keccak.keccak256 ident_pub in
  Returned {| m_tlv := out; m_challenge := challenge; m_ca_pub := ca_pub; m_ident_pub := ident_pub;
              m_nullifier := nul |}.
End Mint.

(** ** Signatures *)

Section SignProps.
Context {Hs : Hashes}.
#[local] Existing Instances eqm_setoid Zplus_eqm Zminus_eqm Zmult_eqm Zopp_eqm.

(** The signing equation of ECDSA, in low-S form: the nonce's point is that
    multiple of the generator, on the curve with the abscissa [r], and [s] times
    the nonce is [z + r * priv] or its negation; [recid] is the parity of the
    ordinate, flipped with the sign. *)
Definition signs (priv z r s recid : Z) : Prop :=
  0 < r < _N /\ 0 < s <= _N / 2
  /\ exists k x y, 0 < k < _N /\ _mul k (Some (_GX, _GY)) = Returned (Some (x, y))
     /\ multiple k (Some (x, y)) /\ on_curve (Some (x, y)) /\ r = x
     /\ ((recid = y mod 2 /\ eqm _N (s * k) (z + r * priv))
         \/ (recid = 1 - y mod 2 /\ eqm _N (s * k) (- (z + r * priv)))).

Lemma recid_values priv z r s recid : signs priv z r s recid -> recid = 0 \/ recid = 1.
Proof.
  intros (_ & _ & k & x & y & _ & _ & _ & _ & _ & H). pose proof (Z.mod_pos_bound y 2 ltac:(lia)).
  destruct H as [[-> _]|[-> _]]; lia.
Qed.

Lemma land_1 y : Z.land y 1 = y mod 2.
Proof. change 1 with (Z.ones 1). by rewrite Z.land_ones by lia. Qed.

Lemma lxor_1 b : 0 <= b < 2 -> Z.lxor b 1 = 1 - b.
Proof. intros Hb. assert (b = 0 \/ b = 1) as [->| ->] by lia; done. Qed.

Lemma sign_loop_signs fuel priv prehash z ctr r s recid :
  sign_loop fuel priv prehash z ctr = Returned (r, s, recid) -> signs priv z r s recid.
Proof.
  revert ctr. induction fuel as [|fuel IH]; intros ctr; cbn [sign_loop]; [done|].
  destruct (to_bytes_big 32 priv) as [privb| |]; cbn [obind]; [|done..].
  destruct (to_bytes_big 4 ctr) as [ctrb| |]; cbn [obind]; [|done..].
  set (k := from_bytes_big _ mod _N). assert (Hk : 0 <= k < _N) by (by apply Z.mod_pos_bound). clearbody k.
  destruct (Z.eqb_spec k 0) as [|Hk0]; [apply IH|].
  destruct (_mul k _) as [[[x y]|]| |] eqn:Hm; cbn [obind unpack returned]; [|done..].
  pose proof (proj1 (proj2 points_on_curve_all) _ _ _ generator_on_curve Hm) as Hc.
  destruct (Z.leb_spec _N x) as [|Hx]; [apply IH|].
  pose proof Hc as (Hx0 & Hy & He). rewrite (Z.mod_small x _N) by lia.
  destruct (Z.eqb_spec x 0) as [|Hr0]; [apply IH|].
  destruct (_inv k _N) as [i| |] eqn:Hi; cbn [obind]; [|done..].
  assert (Hik : eqm _N (i * k) 1).
  { revert Hi. unfold _inv. destruct (pow_inv k _N) as [j|] eqn:E; [|done]. intros [= <-].
    apply pow_inv_spec in E as [_ E]; [|done]. exact E. }
  set (s0 := i * (z + x * priv) mod _N). assert (Hs0 : 0 <= s0 < _N) by (by apply Z.mod_pos_bound).
  assert (Hsk : eqm _N (s0 * k) (z + x * priv)).
  { unfold s0. transitivity (i * (z + x * priv) * k); [unfold eqm; by rewrite Z.mul_mod_idemp_l by done|].
    replace (i * (z + x * priv) * k) with (i * k * (z + x * priv)) by ring. rewrite Hik.
    by replace (1 * (z + x * priv)) with (z + x * priv) by ring. }
  clearbody s0. destruct (Z.eqb_spec s0 0) as [|Hs00]; [apply IH|]. rewrite land_1.
  assert (HN : _N = 2 * (_N / 2) + 1) by (vm_compute; reflexivity).
  pose proof (Z.mod_pos_bound y 2 ltac:(lia)) as Hpar.
  destruct (Z.ltb_spec (_N / 2) s0) as [Hlt|Hge]; intros [= <- <- <-].
  - split; [lia|]. split; [lia|]. exists k, x, y. split; [lia|]. split; [exact Hm|]. split; [exact (mul_multiple _ _ Hm)|]. split; [exact Hc|]. split; [done|].
    right. split; [by apply lxor_1|]. replace ((_N - s0) * k) with (- (s0 * k) + k * _N) by ring.
    transitivity (- (s0 * k)); [unfold eqm; by rewrite Z.mod_add by done|]. by rewrite Hsk.
  - split; [lia|]. split; [lia|]. exists k, x, y. split; [lia|]. split; [exact Hm|]. split; [exact (mul_multiple _ _ Hm)|]. split; [exact Hc|]. split; [done|]. left. by split.
Qed.

(** C34: what [sign_prehash] returns is an ECDSA signature of the prehash under the
    key, in low-S form, whose recovery id is the parity of its point: both
    numbers are in range, as the DER and the compact encoding need them. *)
Theorem sign_prehash_signs fuel priv prehash r s recid :
  sign_prehash fuel priv prehash = Returned (r, s, recid) ->
  signs priv (from_bytes_big prehash) r s recid /\ (recid = 0 \/ recid = 1).
Proof. intros Hsg%sign_loop_signs. split; [done|]. by eapply recid_values. Qed.
End SignProps.

(** ** DER *)

(** The content of a DER INTEGER: the value, not negative, in the fewest bytes. *)
Definition der_int (v : Z) (b : list byte) : Prop :=
  from_bytes_big b = v /\ (0 < length b <= 33)%nat
  /\ exists b0 rest, b = b0 :: rest /\ u8 b0 < 128
     /\ (b0 = x00 -> forall b1 rest', rest = b1 :: rest' -> 128 <= u8 b1).

Lemma byte_of_length n : (n < 256)%nat -> byte_of (Z.of_nat n) = Returned (to_u8 (Z.of_nat n)).
Proof. intros Hn. unfold byte_of. by rewrite (proj2 (Z.leb_le _ _)), (proj2 (Z.ltb_lt _ _)) by lia. Qed.

Lemma land_top b : (Z.land (u8 b) 0x80 =? 0) = (u8 b <? 128).
Proof. rewrite land_80. by destruct (u8 b <? 128). Qed.

Lemma from_bytes_big_zero b : from_bytes_big (x00 :: b) = from_bytes_big b.
Proof. done. Qed.

(** The bytes of a number that needs them all begin with one that is not zero. *)
Lemma digits_big_head n v :
  256 ^ Z.of_nat n <= v < 256 ^ Z.of_nat (S n) -> exists b0 rest, digits_big (S n) v = b0 :: rest /\ u8 b0 <> 0.
Proof.
  revert v. induction n as [|n IH]; intros v Hv.
  - change (256 ^ Z.of_nat 0) with 1 in Hv. change (256 ^ Z.of_nat 1) with 256 in Hv.
    exists (to_u8 v), []. split; [done|]. rewrite u8_to_u8_small by lia. lia.
  - cbn [digits_big] in *. destruct (IH (v / 256)) as (b0 & rest & Hd & Hb).
    { rewrite !Nat2Z.inj_succ, !Z.pow_succ_r in Hv by lia. rewrite Nat2Z.inj_succ, Z.pow_succ_r by lia.
      split; [apply Z.div_le_lower_bound; lia|apply Z.div_lt_upper_bound; lia]. }
    rewrite Hd. by exists b0, (rest ++ [to_u8 v]).
Qed.

(** The number of bytes [bit_length] asks for. *)
Lemma enc_length v :
  0 <= v < 2 ^ 256 ->
  let n := (bit_length v + 7) / 8 in
  exists m, Z.to_nat (if n =? 0 then 1 else n) = S m /\ (m < 32)%nat
    /\ v < 256 ^ Z.of_nat (S m) /\ (v = 0 /\ m = 0%nat \/ 256 ^ Z.of_nat m <= v).
Proof.
  intros Hv. cbv zeta. unfold bit_length. destruct (Z.eqb_spec v 0) as [->|Hv0].
  { exists 0%nat. split; [done|]. split; [lia|]. split; [done|by left]. }
  rewrite Z.abs_eq by lia. pose proof (Z.log2_nonneg v). pose proof (Z.log2_spec v ltac:(lia)) as [Hlo Hhi].
  assert (Hlog : Z.log2 v < 256) by (apply Z.log2_lt_pow2; lia).
  set (n := (Z.log2 v + 1 + 7) / 8). assert (Hn : n = Z.log2 v / 8 + 1).
  { unfold n. replace (Z.log2 v + 1 + 7) with (Z.log2 v + 1 * 8) by lia. apply Z.div_add. lia. }
  assert (Hq : 0 <= Z.log2 v / 8 < 32).
  { split; [apply Z.div_pos; lia|apply Z.div_lt_upper_bound; lia]. }
  pose proof (Z.div_mod (Z.log2 v) 8 ltac:(lia)). pose proof (Z.mod_pos_bound (Z.log2 v) 8 ltac:(lia)).
  rewrite (proj2 (Z.eqb_neq n 0)) by lia. exists (Z.to_nat (Z.log2 v / 8)). split; [lia|]. split; [lia|].
  change 256 with (2 ^ 8). rewrite <-!Z.pow_mul_r by lia. rewrite Nat2Z.inj_succ, !Z2Nat.id by lia. split.
  - eapply Z.lt_le_trans; [exact Hhi|]. apply Z.pow_le_mono_r; lia.
  - right. eapply Z.le_trans; [|exact Hlo]. apply Z.pow_le_mono_r; lia.
Qed.

Lemma enc_int_der v :
  0 <= v < 2 ^ 256 ->
  exists b, enc_int v = Returned (x02 :: to_u8 (Z.of_nat (length b)) :: b) /\ der_int v b.
Proof.
  intros Hv. destruct (enc_length v Hv) as (m & Hn & Hm & Hlt & Hge). unfold enc_int. cbv zeta.
  rewrite Hn. pose proof (proj2 (to_bytes_big_returned (S m) v _) (conj (conj (proj1 Hv) Hlt) eq_refl)) as Hb.
  rewrite Hb. cbn [obind]. pose proof (digits_big_length (S m) v) as Hlen.
  pose proof (from_digits_big (S m) v ltac:(lia)) as Hval.
  assert (Hhd : v = 0 /\ m = 0%nat \/ exists b0 rest, digits_big (S m) v = b0 :: rest /\ u8 b0 <> 0).
  { destruct Hge as [?|Hge]; [by left|right]. apply digits_big_head. lia. }
  destruct (digits_big (S m) v) as [|b0 rest] eqn:Hd; [done|]. cbn [head returned obind]. rewrite land_top.
  assert (Hfirst : b0 = x00 -> rest = []).
  { intros ->. destruct Hhd as [[_ ->]|(b1 & r1 & [= <- <-] & Hnz)]; [|done]. cbn in Hlen. by destruct rest. }
  destruct (Z.ltb_spec (u8 b0) 128) as [Hlow|Hhigh]; cbn [negb].
  - rewrite byte_of_length by lia. cbn [obind]. eexists. split; [done|].
    split; [done|]. split; [lia|]. exists b0, rest. split; [done|]. split; [done|]. by intros ->%Hfirst.
  - rewrite byte_of_length by (cbn [length] in *; lia). cbn [obind]. eexists. split; [done|].
    split; [by rewrite from_bytes_big_zero|]. split; [cbn [length] in *; lia|].
    exists x00, (b0 :: rest). split; [done|]. split; [done|]. by intros _ b1 r1 [= <- <-].
Qed.

Lemma der_encode_der r s :
  0 <= r < 2 ^ 256 -> 0 <= s < 2 ^ 256 ->
  exists br bs, der_int r br /\ der_int s bs
    /\ let body := x02 :: to_u8 (Z.of_nat (length br)) :: br ++ x02 :: to_u8 (Z.of_nat (length bs)) :: bs in
       der_encode r s = Returned (x30 :: to_u8 (Z.of_nat (length body)) :: body) /\ (length body <= 70)%nat.
Proof.
  intros Hr Hs. destruct (enc_int_der r Hr) as (br & Hbr & Dr), (enc_int_der s Hs) as (bs & Hbs & Ds).
  exists br, bs. split; [done|]. split; [done|]. cbv zeta. unfold der_encode. rewrite Hbr, Hbs. cbn [obind app].
  destruct Dr as (_ & Hlr & _), Ds as (_ & Hls & _).
  set (body := x02 :: _). assert (Hbl : (length body <= 70)%nat).
  { unfold body. cbn [length]. rewrite length_app. cbn [length]. lia. }
  rewrite byte_of_length by lia. by split.
Qed.

(** The DER of a signature is canonical: a SEQUENCE of two INTEGERs, each the
    number, not negative, in the fewest bytes, as strict readers demand.  It has
    at most 72 bytes, so that its length always fits one byte. *)
Theorem der_encode_canonical r s :
  0 <= r < 2 ^ 256 -> 0 <= s < 2 ^ 256 ->
  exists br bs, der_int r br /\ der_int s bs
    /\ let body := x02 :: to_u8 (Z.of_nat (length br)) :: br ++ x02 :: to_u8 (Z.of_nat (length bs)) :: bs in
       der_encode r s = Returned (x30 :: to_u8 (Z.of_nat (length body)) :: body) /\ (length body <= 70)%nat.
Proof. apply der_encode_der. Qed.

(** The tool's TLV is an element of the grammar the gifter reads. *)
Lemma tlv_element tag value full : tlv tag value = Returned full -> tlv_item full tag value.
Proof.
  unfold tlv. set (n := Z.of_nat (length value)).
  assert (Hbyte : forall z b, byte_of z = Returned b -> u8 b = z).
  { intros z b. unfold byte_of. destruct (0 <=? z) eqn:E0, (z <? 256) eqn:E1; try done. intros [= <-].
    bool_to_prop. apply u8_to_u8_small. lia. }
  destruct (Z.ltb_spec n 0x80); [|destruct (Z.leb_spec n 0xFF)].
  - destruct (byte_of n) as [l| |] eqn:E; [|done..]. intros [= <-]. apply Hbyte in E.
    apply (item_intro tag [l]). replace (length value) with (Z.to_nat (u8 l)) by lia. constructor. lia.
  - destruct (byte_of n) as [l| |] eqn:E; [|done..]. intros [= <-]. apply Hbyte in E.
    apply (item_intro tag [x81; l]). replace (length value) with (Z.to_nat (u8 l)) by lia. constructor.
  - destruct (byte_of (Z.shiftr n 8)) as [hi| |] eqn:Eh; cbn [obind]; [|done..].
    destruct (byte_of (Z.land n 0xFF)) as [lo| |] eqn:El; cbn [obind]; [|done..]. intros [= <-].
    apply Hbyte in Eh, El. apply (item_intro tag [x82; hi; lo]).
    replace (length value) with (Z.to_nat (u8 hi * 256 + u8 lo)); [constructor|].
    rewrite Eh, El. change 0xFF with (Z.ones 8). rewrite Z.land_ones, Z.shiftr_div_pow2 by lia.
    change (2 ^ 8) with 256. pose proof (Z.div_mod n 256 ltac:(lia)). lia.
Qed.

Lemma returned_inj {A} (a b : A) : Returned a = Returned b -> a = b.
Proof. by intros [= ->]. Qed.

Lemma short_item tag value :
  (length value < 128)%nat -> tlv_item (tag :: to_u8 (Z.of_nat (length value)) :: value) tag value.
Proof.
  intros Hl. apply (item_intro tag [_]). assert (Hb : u8 (to_u8 (Z.of_nat (length value))) = Z.of_nat (length value))
    by (apply u8_to_u8_small; lia).
  replace (length value) with (Z.to_nat (u8 (to_u8 (Z.of_nat (length value))))) at 2 by lia. constructor. lia.
Qed.

(** ** Minted attestations and the gifter's verifier *)

(** What k256 documents of a signature's formats: a recovery identifier is a
    byte, a compact signature the 64 bytes of two scalars, a DER signature the
    SEQUENCE of the two INTEGERs of X.690, and low-S is its normal form. *)
Class SignatureFormats (K : K256) := {
  sig_of : Z -> Z -> Signature;
  rid_of : Z -> RecoveryId;
  recovery_id_bit b : b = 0 \/ b = 1 -> recovery_id (to_u8 b) = Some (rid_of b);
  signature_of_slice r s :
    0 < r < _N -> 0 < s < _N -> signature_from_slice (digits_big 32 r ++ digits_big 32 s) = Ok (sig_of r s);
  signature_of_der r s br bs :
    0 < r < _N -> 0 < s < _N -> der_int r br -> der_int s bs ->
    let body := x02 :: to_u8 (Z.of_nat (length br)) :: br ++ x02 :: to_u8 (Z.of_nat (length bs)) :: bs in
    signature_from_der (x30 :: to_u8 (Z.of_nat (length body)) :: body) = Ok (sig_of r s);
  normalize_low r s : 0 < r < _N -> 0 < s <= _N / 2 -> normalize_s (sig_of r s) = None
}.

(** The key pairs of the curve: the SEC 1 encoding of the private key's multiple
    of the generator, which the double-and-add computes. *)
Definition key_pair (priv : Z) (pub : list byte) : Prop :=
  exists x y, _mul priv (Some (_GX, _GY)) = Returned (Some (x, y))
    /\ multiple priv (Some (x, y)) /\ on_curve (Some (x, y))
    /\ pub = to_u8 (2 + y mod 2) :: digits_big 32 x.

Lemma compressed_key_pair priv pub : compressed_pub priv = Returned pub -> key_pair priv pub.
Proof.
  intros Hp. destruct (compressed_pub_shape _ _ Hp) as (x & y & Hq & Hc & -> & _). exists x, y.
  split; [exact Hq|]. split; [exact (mul_multiple _ _ Hq)|]. split; [done|]. by rewrite land_1.
Qed.

(** The correctness of ECDSA for a private key, which SEC 1 (4.1.4 and 4.1.6)
    gives for all of them: numbers that satisfy the signing equation recover the
    public key from the hash, and verify under it.  It speaks of any numbers that
    satisfy the equation, wherever they come from.  In [signs] and [key_pair] it
    is [multiple] that says which point is meant; what the double-and-add returns
    stands beside it for a concrete library to compute. *)
Class Ecdsa {K : K256} {F : SignatureFormats K} (priv : Z) : Prop := {
  ecdsa_recovers pub h r s recid :
    key_pair priv pub -> length h = 32%nat -> signs priv (from_bytes_big h) r s recid ->
    exists vk, recover_from_prehash h (sig_of r s) (rid_of recid) = Ok vk /\ to_encoded_point vk true = pub;
  ecdsa_verifies pub h r s recid :
    key_pair priv pub -> length h = 32%nat -> signs priv (from_bytes_big h) r s recid ->
    exists vk, from_sec1_bytes pub = Ok vk /\ verify_prehash vk h (sig_of r s) = true
}.

Section Minted.
Context {K : K256} {Hs : Hashes} {HL : HashLaws Hs} {X : HexCrate} {XL : HexLaws X} {F : SignatureFormats K}.

Lemma signs_range priv z r s recid : signs priv z r s recid -> 0 <= r < 2 ^ 256 /\ 0 <= s < 2 ^ 256.
Proof.
  intros (Hr & Hs' & _). assert (_N < 2 ^ 256 /\ _N / 2 < 2 ^ 256) by (vm_compute; done). lia.
Qed.

(** The parts of a minted attestation. *)
Lemma mint_parts fuel ca_priv card_priv idc m :
  mint fuel ca_priv card_priv idc = Returned m ->
  exists r s recid cr cs crec der t,
    compressed_pub card_priv = Returned (m_ident_pub m) /\ compressed_pub ca_priv = Returned (m_ca_pub m)
    /\ sign_prehash fuel ca_priv (sha256 (m_ident_pub m)) = Returned (r, s, recid)
    /\ sign_prehash fuel card_priv (bound_challenge idc) = Returned (cr, cs, crec)
    /\ der_encode cr cs = Returned der
    /\ tlv x8a (m_ident_pub m ++ digits_big 32 r ++ digits_big 32 s ++ [to_u8 recid]) = Returned t
    /\ tlv xa0 (t ++ der) = Returned (m_tlv m)
    /\ Keccak.keccak256 (m_ident_pub m) = Returned (m_nullifier m)
    /\ m_challenge m = bound_challenge idc.
Proof.
  unfold mint. destruct (compressed_pub card_priv) as [ident| |]; cbn [obind]; [|done..].
  destruct (sign_prehash fuel ca_priv _) as [[[r s] recid]| |] eqn:Hsg; cbn [obind]; [|done..].
  destruct (to_bytes_big 32 r) as [rb| |] eqn:Hr; cbn [obind]; [|done..].
  destruct (to_bytes_big 32 s) as [sb| |] eqn:Hsb; cbn [obind]; [|done..].
  destruct (byte_of recid) as [rec| |] eqn:Hrec; cbn [obind]; [|done..].
  destruct (sign_prehash fuel card_priv _) as [[[cr cs] crec]| |] eqn:Hcs; cbn [obind]; [|done..].
  destruct (tlv x8a _) as [t| |] eqn:Ht; cbn [obind]; [|done..].
  destruct (der_encode cr cs) as [der| |] eqn:Hd; cbn [obind]; [|done..].
  destruct (tlv xa0 _) as [out| |] eqn:Ho; cbn [obind]; [|done..].
  destruct (compressed_pub ca_priv) as [ca| |]; cbn [obind]; [|done..].
  destruct (Keccak.keccak256 ident) as [nul| |] eqn:Hnul; cbn [obind]; [|done..]. intros [= <-].
  apply to_bytes_big_returned in Hr as [_ ->]. apply to_bytes_big_returned in Hsb as [_ ->].
  revert Hrec. unfold byte_of. destruct (_ && _); [|done]. intros [= <-].
  by exists r, s, recid, cr, cs, crec, der, t.
Qed.

(** And from its parts it is made. *)
Lemma mint_built fuel ca_priv card_priv idc ident r s recid rb sb rec cr cs crec der out ca nul prehash challenge :
  compressed_pub card_priv = Returned ident ->
  sign_prehash fuel ca_priv prehash = Returned (r, s, recid) ->
  to_bytes_big 32 r = Returned rb -> to_bytes_big 32 s = Returned sb -> byte_of recid = Returned rec ->
  sign_prehash fuel card_priv challenge = Returned (cr, cs, crec) ->
  der_encode cr cs = Returned der ->
  (let^ t := tlv x8a (ident ++ rb ++ sb ++ [rec]) in tlv xa0 (t ++ der)) = Returned out ->
  compressed_pub ca_priv = Returned ca -> Keccak.keccak256 ident = Returned nul ->
  prehash = sha256 ident -> challenge = bound_challenge idc ->
  mint fuel ca_priv card_priv idc = Returned {| m_tlv := out; m_challenge := challenge; m_ca_pub := ca;
    m_ident_pub := ident; m_nullifier := nul |}.
Proof.
  intros H1 H2 H3 H4 H5 H6 H7 H8 H9 H10 -> ->. unfold mint. rewrite H1. cbn [obind].
  rewrite H2. cbn [obind]. rewrite H3, H4, H5. cbn [obind]. rewrite H6. cbn [obind]. rewrite H7.
  destruct (tlv x8a _) as [t| |]; cbn [obind] in *; [|done..]. rewrite H8. cbn [obind]. rewrite H9. cbn [obind].
  by rewrite H10.
Qed.

(** A signature under the CA's key, as the certificate carries it, recovers it. *)
Lemma certificate_signature priv pub h r s recid :
  Ecdsa priv -> key_pair priv pub -> length h = 32%nat -> signs priv (from_bytes_big h) r s recid ->
  exists id sg vk, recovery_id (to_u8 recid) = Some id
    /\ signature_from_slice (digits_big 32 r ++ digits_big 32 s) = Ok sg
    /\ recover_from_prehash h sg id = Ok vk /\ to_encoded_point vk true = pub.
Proof.
  intros He Hkp Hl Hsg. pose proof Hsg as (Hr & Hs' & _). assert (_N / 2 < _N) by done.
  destruct (ecdsa_recovers pub h r s recid Hkp Hl Hsg) as (vk & Hrec & Hvk).
  exists (rid_of recid), (sig_of r s), vk. split; [by apply recovery_id_bit; eapply recid_values|].
  split; [apply signature_of_slice; lia|done].
Qed.

(** A signature under the card's key, as its DER, verifies. *)
Lemma challenge_signature priv pub h r s recid der :
  Ecdsa priv -> key_pair priv pub -> length h = 32%nat -> signs priv (from_bytes_big h) r s recid -> der_encode r s = Returned der ->
  exists br bs sg vk,
    let body := x02 :: to_u8 (Z.of_nat (length br)) :: br ++ x02 :: to_u8 (Z.of_nat (length bs)) :: bs in
    der = x30 :: to_u8 (Z.of_nat (length body)) :: body /\ (length body <= 70)%nat
    /\ signature_from_der der = Ok sg /\ from_sec1_bytes pub = Ok vk
    /\ verify_prehash vk h (default sg (normalize_s sg)) = true.
Proof.
  intros He Hkp Hl Hsg Hd. pose proof Hsg as (Hr & Hs' & _). assert (_N / 2 < _N) by done.
  destruct (signs_range _ _ _ _ _ Hsg) as [Hr2 Hs2].
  destruct (der_encode_der r s Hr2 Hs2) as (br & bs & Dr & Ds & Hd' & Hbl).
  rewrite Hd' in Hd. apply returned_inj in Hd. subst der.
  destruct (ecdsa_verifies pub h r s recid Hkp Hl Hsg) as (vk & Hvk & Hv).
  exists br, bs, (sig_of r s), vk. split; [done|]. split; [done|].
  split; [apply signature_of_der; [lia..|done|done]|]. split; [done|]. by rewrite normalize_low by lia.
Qed.

Lemma parse_minted fuel ca_priv card_priv idc m :
  mint fuel ca_priv card_priv idc = Returned m ->
  Ecdsa ca_priv -> Ecdsa card_priv ->
  exists att, parse_attestation (m_tlv m) = Ok att /\ ident_pub att = m_ident_pub m
    /\ verify_attestation att [m_ca_pub m] (bound_challenge idc) = Ok (nullifier (m_ident_pub m)).
Proof.
  intros Hm Hca Hcard.
  destruct (mint_parts _ _ _ _ _ Hm) as (r & s & recid & cr & cs & crec & der & t & Hid & Hcap & Hsg & Hcs & Hd & Ht & Ho & _).
  destruct (compressed_pub_shape _ _ Hid) as (x & y & _ & _ & _ & Hlen).
  pose proof (sign_loop_signs _ _ _ _ _ _ _ _ Hsg) as Hsig. pose proof (sign_loop_signs _ _ _ _ _ _ _ _ Hcs) as Hcsg.
  destruct (certificate_signature _ _ _ _ _ _ Hca (compressed_key_pair _ _ Hcap) (sha256_length _) Hsig)
    as (id & sg & vk & Hrid & Hslice & Hrec & Hvk).
  destruct (challenge_signature _ _ _ _ _ _ _ Hcard (compressed_key_pair _ _ Hid) (sha256_length _) Hcsg Hd)
    as (br & bs & csg & cvk & Hd' & Hbl & Hder & Hsec & Hver).
  set (ca := digits_big 32 r ++ digits_big 32 s ++ [to_u8 recid]) in *.
  assert (Hcal : length ca = 65%nat) by (unfold ca; by rewrite !length_app, !digits_big_length).
  exists {| ident_pub := m_ident_pub m; ca_sig := ca; challenge_sig := csg |}. split; [|split; [done|]].
  - eapply (parse_reads (m_tlv m) (t ++ der) (m_tlv m) [] [] t _ ca [] der der _ t []); try done.
    + by rewrite app_nil_r.
    + constructor.
    + by apply tlv_element.
    + constructor.
    + by apply tlv_element.
    + by rewrite app_nil_r.
    + rewrite <-(app_nil_r t). econstructor; [by apply tlv_element|done|constructor].
    + rewrite Hd'. apply (short_item x30). eapply Nat.le_lt_trans; [exact Hbl|lia].
  - apply verify_attestation_iff. exists (to_u8 recid), id, sg, vk, cvk. cbn [Attest.ca_sig Attest.ident_pub challenge_sig].
    split; [unfold ca; by rewrite app_assoc, lookup_app_r, length_app, !digits_big_length by (by rewrite length_app, !digits_big_length)|].
    split; [done|]. split.
    { unfold ca. rewrite app_assoc, take_app_le, take_ge by (rewrite length_app, !digits_big_length; lia). done. }
    split; [done|]. split; [rewrite Hvk; by apply list_elem_of_singleton|]. done.
Qed.

(** The verify request that presents a minted attestation to a gifter trusting
    the minting CA. *)
Definition minted_request (m : minted) (idc : list byte) (rate : Z) : VerifyRequest.t := {|
  VerifyRequest.auth_type := KEYCARD_ATTEST_AUTH_TYPE;
  VerifyRequest.payload_hex := hex_encode (m_tlv m);
  VerifyRequest.id_commitment_hex := hex_encode idc;
  VerifyRequest.rate := rate;
  VerifyRequest.config := Some (json_obj [("trusted_cas", VArray [VString (hex_encode (m_ca_pub m))])]) |}.

(** C27: what the tool mints, the gifter's keycard verifier accepts, for that
    commitment, and the nullifier is the one the tool printed: the tool's TLV and
    DER are what [parse_attestation] reads, its certificate is over the hash the
    verifier recovers from, its challenge is the bound one, and what it signs
    satisfies the signing equation of ECDSA under the two keys.  Of the curve
    library it takes the formats it documents and that ECDSA is correct for the
    two keys, and of tiny_keccak that it agrees with the tool's keccak on the key. *)
Theorem minted_attestation_accepted fuel ca_priv card_priv idc m rate :
  mint fuel ca_priv card_priv idc = Returned m ->
  Ecdsa ca_priv -> Ecdsa card_priv ->
  Keccak.keccak256 (m_ident_pub m) = Returned (Attest.keccak256 (m_ident_pub m)) ->
  KeycardAuth.verify (minted_request m idc rate) = Ok (Verdict.accept (Some (hex_encode (m_nullifier m)))).
Proof.
  intros Hm Hca Hcard Hk. destruct (parse_minted _ _ _ _ _ Hm Hca Hcard) as (att & Hp & _ & Hv).
  destruct (mint_parts _ _ _ _ _ Hm) as (? & ? & ? & ? & ? & ? & ? & ? & _ & Hpub & _ & _ & _ & _ & _ & Hnul & _).
  rewrite Hk in Hnul. injection Hnul as <-.
  destruct (compressed_pub_shape _ _ Hpub) as (? & ? & _ & _ & _ & Hlen).
  unfold KeycardAuth.verify, minted_request. cbn [VerifyRequest.config VerifyRequest.payload_hex VerifyRequest.id_commitment_hex].
  assert (Hcas : KeycardAuth.parse_trusted_cas
    (Some (json_obj [("trusted_cas", VArray [VString (hex_encode (m_ca_pub m))])])) = Ok [m_ca_pub m]).
  { unfold KeycardAuth.parse_trusted_cas. change (config_array _ "trusted_cas") with (Some [VString (hex_encode (m_ca_pub m))]).
    cbn [ok_or collect]. unfold KeycardAuth.ca_entry. cbn [as_str ok_or].
    rewrite strip_0x_hex, hex_decode_encode. cbn [map_err]. by rewrite Hlen. }
  rewrite Hcas. cbn [bool_decide]. rewrite !strip_0x_hex, !hex_decode_encode, Hp.
  change (Attest.bound_challenge idc) with (bound_challenge idc). by rewrite Hv.
Qed.
End Minted.

(** ** Witnesses: both keys are 1, and the hash makes the nonce 1 *)

Module OneKey.
Definition one : list byte := replicate 31 x00 ++ [x01].
Definition pub_G : list byte := to_u8 (2 + Z.land _GY 1) :: digits_big 32 _GX.

#[export] Instance hashes : Hashes := {|
  sha256 _ := one;
  Attest.keccak256 m := match Keccak.keccak256 m with Returned h => h | _ => [] end |}.

#[export] Instance hash_laws : HashLaws hashes.
Proof.
  constructor; intros m; [done|]. destruct (keccak256_total m) as (h & Hh & Hl).
  unfold Attest.keccak256, hashes. by rewrite Hh.
Qed.

Lemma keccak_agrees m : Keccak.keccak256 m = Returned (Attest.keccak256 m).
Proof.
  destruct (keccak256_total m) as (h & Hh & _). unfold Attest.keccak256, hashes. rewrite Hh. reflexivity.
Qed.

Lemma compressed_one : compressed_pub 1 = Returned pub_G.
Proof. unfold compressed_pub, _pub_point. fold _G. rewrite mul_1_G. vm_compute. reflexivity. Qed.

Definition half_sig : Z * Z * Z := (_GX, _GX + 1, 0).

Lemma sign_one : sign_prehash 1 1 one = Returned half_sig.
Proof.
  unfold sign_prehash. cbn [sign_loop].
  replace (to_bytes_big 32 1) with (Returned one) by (vm_compute; reflexivity).
  replace (to_bytes_big 4 0) with (Returned (replicate 4 x00)) by (vm_compute; reflexivity).
  cbn [obind]. change (sha256 _) with one.
  replace (from_bytes_big one mod _N) with 1 by (vm_compute; reflexivity).
  change (1 =? 0) with false. fold _G. rewrite mul_1_G. vm_compute. reflexivity.
Qed.

Definition one_cert : list byte := pub_G ++ digits_big 32 _GX ++ digits_big 32 (_GX + 1) ++ [x00].

Definition one_der : list byte := Eval vm_compute in
  match der_encode _GX (_GX + 1) with Returned d => d | _ => [] end.
Definition one_tlv : list byte := Eval vm_compute in
  match tlv x8a one_cert with
  | Returned t => match tlv xa0 (t ++ one_der) with Returned o => o | _ => [] end
  | _ => [] end.

Definition one_minted (nul : list byte) : minted := {|
  m_tlv := one_tlv; m_challenge := one; m_ca_pub := pub_G; m_ident_pub := pub_G; m_nullifier := nul |}.

Lemma one_parts :
  to_bytes_big 32 _GX = Returned (digits_big 32 _GX)
  /\ to_bytes_big 32 (_GX + 1) = Returned (digits_big 32 (_GX + 1))
  /\ der_encode _GX (_GX + 1) = Returned one_der
  /\ (let^ t := tlv x8a one_cert in tlv xa0 (t ++ one_der)) = Returned one_tlv.
Proof. vm_compute. done. Qed.

Lemma minted_one idc : mint 1 1 1 idc = Returned (one_minted (Attest.keccak256 pub_G)).
Proof.
  destruct one_parts as (H1 & H2 & H3 & H4).
  exact (mint_built 1 1 1 idc pub_G _GX (_GX + 1) 0 _ _ x00 _GX (_GX + 1) 0 one_der one_tlv pub_G _ one one
    compressed_one sign_one H1 H2 eq_refl sign_one H3 H4 compressed_one (keccak_agrees pub_G) eq_refl eq_refl).
Qed.

End OneKey.

Import OneKey.

Lemma sign_prehash_signs_witness : signs 1 (from_bytes_big one) _GX (_GX + 1) 0 /\ (0 = 0 \/ 0 = 1).
Proof. apply (sign_prehash_signs 1 1 one _GX (_GX + 1) 0). exact sign_one. Defined.

Lemma der_encode_canonical_witness :
  exists br bs, der_int 1 br /\ der_int 128 bs
    /\ let body := x02 :: to_u8 (Z.of_nat (length br)) :: br ++ x02 :: to_u8 (Z.of_nat (length bs)) :: bs in
       der_encode 1 128 = Returned (x30 :: to_u8 (Z.of_nat (length body)) :: body) /\ (length body <= 70)%nat.
Proof. apply (der_encode_canonical 1 128); lia. Defined.
