(* ===== verification/KeycardCapture.v ===== *)
(** * The attestation producer (rust/keycard-capture-module/rust-lib/src/lib.rs)

    The client half of the keycard vector: one card session that selects the
    applet, has the card sign the challenge bound to the commitment, and checks
    the attestation before handing it out.  The session may panic where
    [Keycard] does. *)
From S2P Require Import Prelude RustStd Nullifiers Json Crates JsonInstance Apdu Attest KeycardCrypto Keycard.
From S2P Require Import AuthVector Verifiers.

Section Capture.
Context {K : K256} {A : Aes} {D : Kdf} {Hs : Hashes} {Ec : Ecdh} {X : HexCrate} {J : SerdeJson}
  {E : Type} {H : CardHost E}.

Definition parse_hex32 (field value : string) : result (list byte) string :=
  match result_ok (hex_decode (strip_0x value)) with
  | Some b =>
      if (length b =? 32)%nat then Ok b else Err (field +:+ " must be 64 hex chars")
  | None => Err (field +:+ " must be 64 hex chars")
  end.

(** The part of [produce] that talks to the card. *)
Definition capture (fuel : nat) (challenge : list byte)
    : M (St (E := E)) (outcome (result (list byte) string)) :=
  let^? _ := select fuel in
  let^! kc := getk in
  if negb (initialized kc) then done_with (Err "card is not initialized")
  else identify challenge.

Definition produce (fuel : nat) (req : ProduceRequest.t) : M E (outcome (result ProduceReply.t string)) :=
  match parse_hex32 "id_commitment_hex" (ProduceRequest.id_commitment_hex req) with
  | Err e => ret (Returned (Err e))
  | Ok idc_bytes =>
      let challenge := bound_challenge idc_bytes in
      let! kc := connect in
      match kc with
      | Err e => ret (Returned (Err e))
      | Ok kc =>
          let! r := (fun e => let '(r, s) := capture fuel challenge (kc, e) in (r, s.2)) in
          ret (let^ r := r in
               Returned (
                 let? tlv := r in
                 let? att := map_err (fun e => "parse attestation: " +:+ error_text e)
                               (parse_attestation tlv) in
                 let? _ := map_err (fun e => "attestation not verified: " +:+ error_text e)
                             (verify_attestation att [STATUS_PRODUCTION_CA] challenge) in
                 Ok {| ProduceReply.payload_hex := hex_encode tlv |}))
      end
  end.

(** The vector of the module; it only produces. *)
Definition KeycardVector (fuel : nat) : AuthVector (OM E) := {|
  auth_type := KEYCARD_ATTEST_AUTH_TYPE;
  AuthVector.produce := produce fuel;
  verify := default_verify KEYCARD_ATTEST_AUTH_TYPE |}.

(** The module's method. *)
Definition produce_auth (fuel : nat) (args_json : string) : OM E string :=
  dispatch_produce args_json [KeycardVector fuel].

Definition card_status : M E string :=
  let! r := reader_card_present in
  ret match r with
      | Ok present => to_string (json_obj [("present", VBool present)])
      | Err e => to_string (json_obj [("present", VBool false); ("error", VString e)])
      end.

(** ** Lemmas and properties *)

Context {XL : HexLaws X}.

Lemma more_cas att cas cas' challenge n :
  verify_attestation att cas challenge = Ok n -> (forall c, c ∈ cas -> c ∈ cas') ->
  verify_attestation att cas' challenge = Ok n.
Proof.
  intros (b & recid & sig & ca & ident & H1 & H2 & H3 & H4 & Hin & H5)%verify_attestation_iff Hsub.
  apply verify_attestation_iff. exists b, recid, sig, ca, ident. repeat (split; [done|]).
  split; [by apply Hsub|done].
Qed.

(** A payload handed out is an attestation, under the production CA, for the
    challenge bound to the commitment of the request. *)
Lemma produce_ok fuel req (e e' : E) reply :
  produce fuel req e = (Returned (Ok reply), e') ->
  exists idc tlv att n,
    hex_decode (strip_0x (ProduceRequest.id_commitment_hex req)) = Ok idc /\ length idc = 32%nat
    /\ ProduceReply.payload_hex reply = hex_encode tlv /\ parse_attestation tlv = Ok att
    /\ verify_attestation att [STATUS_PRODUCTION_CA] (bound_challenge idc) = Ok n.
Proof.
  intros Hp. unfold produce in Hp.
  destruct (parse_hex32 _ _) as [idc|] eqn:Hhex; [|done].
  assert (Hdec : hex_decode (strip_0x (ProduceRequest.id_commitment_hex req)) = Ok idc /\ length idc = 32%nat).
  { unfold parse_hex32 in Hhex. destruct (hex_decode _) as [b|]; [|done]. cbn in Hhex.
    destruct (_ =? 32)%nat eqn:Hl; [|done]. apply Nat.eqb_eq in Hl. by injection Hhex as ->. }
  unfold bind at 1 in Hp. destruct (connect e) as [[kc|] e1]; [|done].
  unfold bind in Hp. destruct (capture fuel _ (kc, e1)) as [[[tlv|]| |] s]; try done.
  unfold ret in Hp. cbn [obind] in Hp.
  destruct (parse_attestation tlv) as [att|] eqn:Hatt; [|done]. cbn [map_err] in Hp.
  destruct (verify_attestation att _ _) as [n|] eqn:Hv; [|done]. cbn [map_err] in Hp.
  injection Hp as <- _. exists idc, tlv, att, n. by destruct Hdec.
Qed.

(** What the capture module hands out, the verifier accepts.  A payload
    produced for a commitment is accepted for that commitment by every gifter
    whose config trusts the production CA, with the hash of the card's identity
    key as the nullifier; card trouble is an error, never a bad payload. *)
Theorem captured_attestation_verifies fuel req (e e' : E) reply vr cas :
  produce fuel req e = (Returned (Ok reply), e') ->
  VerifyRequest.payload_hex vr = ProduceReply.payload_hex reply ->
  VerifyRequest.id_commitment_hex vr = ProduceRequest.id_commitment_hex req ->
  keycard_cas (VerifyRequest.config vr) = Ok cas -> STATUS_PRODUCTION_CA ∈ cas ->
  exists att, KeycardAuth.verify vr = Ok (Verdict.accept (Some (hex_encode (nullifier (ident_pub att))))).
Proof.
  intros Hp Hpay Hidc Hcas Hin.
  destruct (produce_ok _ _ _ _ _ Hp) as (idc & tlv & att & n & Hdec & _ & Hhex & Hatt & Hv).
  exists att. pose proof (verify_attestation_sound _ _ _ _ Hv) as ->.
  unfold KeycardAuth.verify. rewrite Hpay, Hidc, Hhex, strip_0x_hex, hex_decode_encode, Hdec, Hatt.
  unfold keycard_cas in Hcas. destruct (KeycardAuth.parse_trusted_cas _) as [cs|]; [|done].
  case_bool_decide; [done|]. injection Hcas as ->.
  rewrite (more_cas _ _ cas _ _ Hv); [done|]. by intros c ->%list_elem_of_singleton.
Qed.

(** The producer contract on the module's method: the text of a call with a
    serialised request is the text of what [produce] gave for that request, and
    a caller parses it to that answer, an error included; a panic of the card
    session goes through, and a request of another type is an error that leaves
    the card alone. *)
Theorem produce_auth_answers {L : SerdeJsonLaws J} fuel req (e : E) :
  produce_request_wf req ->
  exists args, to_string_fields (ProduceRequest.to_fields req) = Ok args
    /\ match (if decide (KEYCARD_ATTEST_AUTH_TYPE = ProduceRequest.auth_type req)
              then produce fuel (produce_received req) e
              else (Returned (Err ("unknown auth_type '" +:+ ProduceRequest.auth_type req
                                   +:+ "' on this module")), e)) with
       | (Returned r, e') =>
           produce_auth fuel args e = (Returned (produce_reply r), e')
           /\ (produced_wf r -> exists v, from_str (produce_reply r) = Ok v /\ parse_produce_reply v = r)
       | (Panicked, e') => produce_auth fuel args e = (Panicked, e')
       | (Running, e') => produce_auth fuel args e = (Running, e')
       end.
Proof.
  intros Hr. destruct (produce_args req Hr) as (args & Ha & _ & Hfs). exists args. split; [done|].
  unfold produce_auth, dispatch_produce. rewrite (run_produce_answer _ _ _ Hfs).
  unfold mbind, outcome_bind, bindo, produce_answer, route. cbn [list_find].
  change (ProduceRequest.auth_type (produce_received req)) with (ProduceRequest.auth_type req).
  cbn [auth_type KeycardVector]. case_decide; cbn.
  - destruct (produce fuel (produce_received req) e) as [[r| |] e']; [|done..]. split; [done|].
    intros Hw. destruct (produce_reply_text r Hw) as (_ & _ & H'). exact H'.
  - split; [done|]. intros Hw. destruct (produce_reply_text (Err _) Hw) as (_ & _ & H'). exact H'.
Qed.
End Capture.

(** ** Witness *)

Import Toy HexInstance ToyAes Scripted.

Definition capture_request : ProduceRequest.t := {|
  ProduceRequest.auth_type := KEYCARD_ATTEST_AUTH_TYPE;
  ProduceRequest.id_commitment_hex := hex_encode commitment; ProduceRequest.args := None |}.

Definition genuine_card : list (list byte) := [select_answer; tlv ++ [x90; x00]].

Definition gifter_verifies : VerifyRequest.t := {|
  VerifyRequest.auth_type := KEYCARD_ATTEST_AUTH_TYPE; VerifyRequest.payload_hex := hex_encode tlv;
  VerifyRequest.id_commitment_hex := hex_encode commitment; VerifyRequest.rate := 100;
  VerifyRequest.config := Some (json_obj
    [("trusted_cas", VArray [VString (hex_encode STATUS_PRODUCTION_CA)])]) |}.

Lemma captured_attestation_verifies_witness :
  exists att, KeycardAuth.verify gifter_verifies
    = Ok (Verdict.accept (Some (hex_encode (nullifier (ident_pub att))))).
Proof.
  apply (captured_attestation_verifies (A := aes) 200 capture_request genuine_card []
    {| ProduceReply.payload_hex := hex_encode tlv |} gifter_verifies [STATUS_PRODUCTION_CA]).
  - vm_compute. reflexivity.
  - reflexivity.
  - reflexivity.
  - vm_compute. reflexivity.
  - apply list_elem_of_singleton. reflexivity.
Defined.

Lemma capture_request_wf : produce_request_wf capture_request.
Proof. split; [by vm_compute|]. split; [apply hex_encode_valid|done]. Qed.

Lemma produce_auth_answers_witness :
  exists args e', produce_auth (A := aes) 200 args genuine_card
    = (Returned (produce_reply (Ok {| ProduceReply.payload_hex := hex_encode tlv |})), e').
Proof.
  destruct (produce_auth_answers (A := aes) (L := json_instance_laws) 200 capture_request genuine_card
    capture_request_wf) as (args & _ & Hm).
  rewrite decide_True in Hm by reflexivity.
  assert (Hp : produce (A := aes) 200 (produce_received capture_request) genuine_card
    = (Returned (Ok {| ProduceReply.payload_hex := hex_encode tlv |}), [])) by (vm_compute; reflexivity).
  rewrite Hp in Hm. destruct Hm as [Hm _]. exact (ex_intro _ args (ex_intro _ [] Hm)).
Defined.
