(* ===== verification/Lp.v ===== *)
(** * The cross-module client (rust/rln-gifter-module/rust-lib/src/lp.rs)

    The statics [CLIENTS] and [OWNER], the creation of clients on the owner
    thread, and one call with its explicit timeout: synchronous on the owner
    thread, asynchronous with a reply channel on any other.  The C ABI of the
    protocol library is the class [LpHost] over a state [E] that stands for the
    rest of the process and the clock.  [calls] is a ghost trace of the calls
    handed to that ABI.  The calling thread is the argument [cur].

    A callback is delivered at most once per dispatched call, with a C string
    given here by its bytes; that late or repeated callbacks would touch freed
    memory is outside the model. *)
From S2P Require Import Prelude RustStd Json Crates JsonInstance.

Definition RLN_MODULE : string := "liblogos_lez_rln_module".
Definition LIBP2P_MODULE : string := "libp2p_module".

Abbreviation ThreadId := nat.

(** What a callback brings: the delay in nanoseconds after the dispatch, the
    [ok] argument and the text ([None] is a null pointer). *)
Record Callback := { cb_delay : Z; cb_ok : Z; cb_json : option (list byte) }.

Class LpHost (E : Type) := {
  (** target and origin; a client handle, 0 when none can be made *)
  lp_client_create : string -> string -> M E Z;
  (** client, method, arguments, timeout: code, result text, error text *)
  lp_invoke : Z -> string -> string -> Z -> M E (Z * option (list byte) * option (list byte));
  (** code of the dispatch, and the callback that follows *)
  lp_invoke_async : Z -> string -> string -> Z -> M E (Z * option Callback);
  (** the monotonic clock, in nanoseconds *)
  instant_now : E -> Z;
  (** the thread blocks for that many nanoseconds *)
  pass : Z -> E -> E
}.

Definition LP_OK : Z := 0.

Class LpHostLaws E (H : LpHost E) : Prop := {
  now_pass d e : 0 <= d -> instant_now e + d <= instant_now (pass d e);
  now_create t o e : instant_now e <= instant_now (lp_client_create t o e).2;
  now_invoke c m a t e : instant_now e <= instant_now (lp_invoke c m a t e).2;
  now_invoke_async c m a t e : instant_now e <= instant_now (lp_invoke_async c m a t e).2;
  delay_nonneg c m a t e rc cb e' :
    lp_invoke_async c m a t e = ((rc, Some cb), e') -> 0 <= cb_delay cb
}.

(** A call handed to the protocol library. *)
Record LpCall := { target : string; method : string; args_json : string; timeout_ms : Z }.

Record Lp (E : Type) := {
  env : E;
  CLIENTS : option (gmap string Z);
  OWNER : option ThreadId;
  calls : list LpCall
}.
Arguments env {_} _.
Arguments CLIENTS {_} _.
Arguments OWNER {_} _.
Arguments calls {_} _.

(** [CString::new]: refuses an interior NUL. *)
Definition cstring (s : string) : option string :=
  if existsb (fun b => u8 b =? 0) (str_bytes s) then None else Some s.

(** A C string pointer read with [CStr::from_ptr(..).to_string_lossy()]. *)
Definition c_text (p : option (list byte)) : option string := from_utf8_lossy <$> p.

Section Encoding.
Context {B : Base64Crate}.

Definition b64 (bytes : list byte) : string := base64_encode bytes.

Definition b64_decode (s : string) : result (list byte) string :=
  map_err (fun e => "base64 decode: " +:+ e) (base64_decode s).
End Encoding.

Section Client.
Context {E : Type} {H : LpHost E} {J : SerdeJson}.
Context (cur : ThreadId).

Definition set_env (e : E) (s : Lp E) : Lp E :=
  {| env := e; CLIENTS := CLIENTS s; OWNER := OWNER s; calls := calls s |}.
Definition host {A} (m : M E A) : M (Lp E) A := zoom env set_env m.

Definition record_call (c : LpCall) (s : Lp E) : Lp E :=
  {| env := env s; CLIENTS := CLIENTS s; OWNER := OWNER s; calls := calls s ++ [c] |}.

(** [get_or_insert_with(HashMap::new).insert(target, handle)] *)
Definition insert_client (target : string) (raw : Z) (s : Lp E) : Lp E :=
  {| env := env s; CLIENTS := Some (<[target := raw]> (default ∅ (CLIENTS s)));
     OWNER := OWNER s; calls := calls s |}.

Definition lookup_client (target : string) (s : Lp E) : option Z :=
  CLIENTS s ≫= fun m => m !! target.

Definition have_client (target : string) (s : Lp E) : bool :=
  match CLIENTS s with Some m => bool_decide (is_Some (m !! target)) | None => false end.

Definition create_client (target : string) : M (Lp E) bool :=
  match cstring target, cstring "core" with
  | Some t, Some o =>
      let! raw := host (lp_client_create t o) in
      if raw =? 0 then ret false
      else
        let! _ := modify (insert_client target raw) in
        ret true
  | _, _ => ret false
  end.

Definition set_owner (s : Lp E) : Lp E :=
  {| env := env s; CLIENTS := CLIENTS s; OWNER := Some cur; calls := calls s |}.

Fixpoint create_all (targets : list string) : M (Lp E) unit :=
  match targets with
  | [] => ret tt
  | t :: ts => let! _ := create_client t in create_all ts
  end.

Definition init (targets : list string) : M (Lp E) unit :=
  let! _ := modify set_owner in
  create_all targets.

Definition on_owner_thread (s : Lp E) : bool :=
  match OWNER s with Some id => bool_decide (id = cur) | None => false end.

Definition ensure_client (target : string) : M (Lp E) (result unit string) :=
  let! s := get in
  if have_client target s then ret (Ok tt)
  else if negb (on_owner_thread s) then
    ret (Err ("cannot open lp client for " +:+ target +:+ " off the owner thread"))
  else
    let! created := create_client target in
    ret (if (created : bool) then Ok tt
         else Err ("lp_client_create failed for " +:+ target +:+ " (is the module loaded?)")).

Definition client_ptr (target : string) : M (Lp E) (option Z) :=
  let! s := get in
  let! _ := (if negb (have_client target s) && on_owner_thread s
             then create_client target else ret false) in
  let! s := get in
  ret (lookup_client target s).

Definition reply_trampoline (ok : Z) (json : option (list byte)) : bool * string :=
  (negb (ok =? 0), default "" (c_text json)).

Definition err_message (raw : string) : string :=
  match result_ok (from_str raw) ≫= (fun v => vget v "message" ≫= as_str) with
  | Some m => m
  | None => raw
  end.

Definition parse_ok (raw : string) : Value :=
  if is_empty raw then VNull
  else match from_str raw with Ok v => v | Err _ => VString raw end.

(** [rx.recv_timeout(wait)] on the channel of the callback. *)
Definition recv_timeout (wait : Z) (cb : option Callback) : M E (option (bool * string)) :=
  match cb with
  | Some c =>
      if cb_delay c <=? wait then
        fun e => (Some (reply_trampoline (cb_ok c) (cb_json c)), pass (cb_delay c) e)
      else fun e => (None, pass wait e)
  | None => fun e => (None, pass wait e)
  end.

(** The branch of [call_json] on the owner thread. *)
Definition call_sync (client : Z) (method args_c : string) (timeout_ms : Z)
    : M (Lp E) (result Value string) :=
  let! (rc, result_json, error_json) := host (lp_invoke client method args_c timeout_ms) in
  if negb (rc =? LP_OK) then
    ret (Err match c_text error_json with
             | None => method +:+ ": lp error " +:+ pretty rc
             | Some m => m
             end)
  else ret (Ok (parse_ok (default "" (c_text result_json)))).

(** The wait of the other branch: [timeout_ms as u64 + 10_000] milliseconds. *)
Definition reply_wait (timeout_ms : Z) : Z := wrap64 (wrap64 timeout_ms + 10000) * 1000000.

(** The branch of [call_json] off the owner thread. *)
Definition call_async (client : Z) (method args_c : string) (timeout_ms : Z)
    : M (Lp E) (result Value string) :=
  let! (rc, cb) := host (lp_invoke_async client method args_c timeout_ms) in
  if negb (rc =? LP_OK) then
    ret (Err (method +:+ ": lp_invoke_async dispatch failed rc=" +:+ pretty rc))
  else
    let! reply := host (recv_timeout (reply_wait timeout_ms) cb) in
    ret match reply with
        | None => Err (method +:+ ": reply channel timed out")
        | Some (ok, raw) =>
            if negb ok then Err (method +:+ ": " +:+ err_message raw) else Ok (parse_ok raw)
        end.

Definition call_json (target method : string) (args : Value) (timeout_ms : Z)
    : M (Lp E) (result Value string) :=
  let! client := client_ptr target in
  match client with
  | None => ret (Err ("no lp client for " +:+ target))
  | Some client =>
      match cstring method, cstring (to_string args) with
      | Some method_c, Some args_c =>
          let! _ := modify (record_call {| target := target; method := method_c;
                                           args_json := args_c; timeout_ms := timeout_ms |}) in
          let! s := get in
          if on_owner_thread s then call_sync client method_c args_c timeout_ms
          else call_async client method_c args_c timeout_ms
      | _, _ => ret (Err (method +:+ ": args not CString-safe"))
      end
  end.

(** The unwrapping of a [StdLogosResult] envelope in [call_libp2p]. *)
Definition unwrap_libp2p (method : string) (v : Value) : result Value string :=
  let? env := (match v with
               | VString s =>
                   if negb (is_empty s)
                   then map_err (fun e => method +:+ ": reply parse: " +:+ e) (from_str s)
                   else Ok v
               | other => Ok other
               end) in
  if is_object env && bool_decide (is_Some (vget env "success")) then
    let ok := default true (get_bool env "success") in
    if negb ok then
      let e := match get_str env "error" with
               | Some s => if negb (is_empty s) then s else "libp2p call failed"
               | None => "libp2p call failed"
               end in
      Err (method +:+ ": " +:+ e)
    else Ok (default VNull (vget env "value"))
  else Ok env.

Definition call_libp2p (method : string) (args : Value) (timeout_ms : Z)
    : M (Lp E) (result Value string) :=
  let!? v := call_json LIBP2P_MODULE method args timeout_ms in
  ret (unwrap_libp2p method v).

(** The unwrapping of a cdylib module's text reply in [call_module_json]. *)
Definition unwrap_module (method : string) (v : Value) : result Value string :=
  match v with
  | VString s =>
      if negb (is_empty s)
      then map_err (fun e => method +:+ ": reply parse: " +:+ e) (from_str s)
      else Err (method +:+ ": empty reply")
  | other => Ok other
  end.

Definition call_module_json (target method : string) (args : Value) (timeout_ms : Z)
    : M (Lp E) (result Value string) :=
  let!? v := call_json target method args timeout_ms in
  ret (unwrap_module method v).
End Client.

(** ** Lemmas *)

Section ClientLemmas.
Context {E : Type} {H : LpHost E} {J : SerdeJson}.
Context (cur : ThreadId).

(** What every operation of this file does to its state: the owner stays, the
    clients are only added to, the calls [cs] are handed to the library. *)
Record lp_ext (cs : list LpCall) (s s' : Lp E) : Prop := {
  ext_owner : OWNER s' = OWNER s;
  ext_calls : calls s' = calls s ++ cs;
  ext_clients t p : lookup_client t s = Some p -> lookup_client t s' = Some p
}.

Lemma lp_ext_refl s : lp_ext [] s s.
Proof. by constructor; rewrite ?app_nil_r. Qed.

Lemma lp_ext_trans cs cs' s1 s2 s3 :
  lp_ext cs s1 s2 -> lp_ext cs' s2 s3 -> lp_ext (cs ++ cs') s1 s3.
Proof.
  intros [Ho Hc Hl] [Ho' Hc' Hl']. constructor; [congruence| |auto].
  by rewrite Hc', Hc, app_assoc.
Qed.

Lemma lp_ext_env e s : lp_ext [] s (set_env e s).
Proof. by constructor; rewrite ?app_nil_r. Qed.

Lemma lp_ext_record c s : lp_ext [c] s (record_call c s).
Proof. by constructor. Qed.

Lemma lookup_insert_client t t' raw (s : Lp E) :
  lookup_client t (insert_client t' raw s) = if decide (t = t') then Some raw else lookup_client t s.
Proof.
  unfold lookup_client, insert_client. cbn. case_decide as Ht.
  - subst. by rewrite lookup_insert_eq.
  - rewrite lookup_insert_ne by congruence. destruct (CLIENTS s); cbn; [done|apply lookup_empty].
Qed.

Lemma lp_ext_insert t raw s : lookup_client t s = None -> lp_ext [] s (insert_client t raw s).
Proof.
  intros Hn. constructor; rewrite ?app_nil_r; [done..|].
  intros t' p Hp. rewrite lookup_insert_client. case_decide; [congruence|done].
Qed.

Lemma have_client_lookup t (s : Lp E) :
  have_client t s = bool_decide (is_Some (lookup_client t s)).
Proof.
  unfold have_client, lookup_client. by destruct (CLIENTS s).
Qed.

Lemma have_client_false t (s : Lp E) : have_client t s = false <-> lookup_client t s = None.
Proof.
  rewrite have_client_lookup, bool_decide_eq_false. symmetry. apply eq_None_not_Some.
Qed.

Lemma have_client_true t (s : Lp E) : have_client t s = true <-> is_Some (lookup_client t s).
Proof. by rewrite have_client_lookup, bool_decide_eq_true. Qed.

Lemma create_client_spec t s :
  lookup_client t s = None ->
  let '(b, s') := create_client t s in
  lp_ext [] s s' /\ (if b : bool then is_Some (lookup_client t s') else CLIENTS s' = CLIENTS s).
Proof.
  intros Hn. unfold create_client. destruct (cstring t) as [c|]; [|by split; [apply lp_ext_refl|]].
  unfold bind, host, zoom, modify, ret.
  change (cstring "core") with (Some "core"). cbn [cstring].
  destruct (lp_client_create c "core" (env s)) as [raw e]. destruct (raw =? 0).
  - split; [apply lp_ext_env|done].
  - split.
    + by apply (lp_ext_trans [] [] _ (set_env e s)), lp_ext_insert; [apply lp_ext_env|].
    + rewrite lookup_insert_client, decide_True by done. eauto.
Qed.

Lemma on_owner_ext cs s s' : lp_ext cs s s' -> on_owner_thread cur s' = on_owner_thread cur s.
Proof. intros [Ho _ _]. unfold on_owner_thread. by rewrite Ho. Qed.

(** The handle a call uses is the one the table then holds; off the owner
    thread nothing changes. *)
Lemma client_ptr_spec t s :
  let '(p, s') := client_ptr cur t s in
  lp_ext [] s s' /\ p = lookup_client t s'
  /\ (on_owner_thread cur s = false -> s' = s)
  /\ (forall q, lookup_client t s = Some q -> p = Some q /\ s' = s).
Proof.
  unfold client_ptr, bind, get, ret. destruct (have_client t s) eqn:Hh; cbn.
  { split; [apply lp_ext_refl|]. by repeat split. }
  apply have_client_false in Hh. destruct (on_owner_thread cur s).
  - pose proof (create_client_spec t s Hh) as Hc. destruct (create_client t s) as [b s'].
    destruct Hc as [He _]. repeat split; try done; try congruence; by apply He.
  - split; [apply lp_ext_refl|]. by repeat split.
Qed.

Lemma host_ext {A} (m : M E A) s : lp_ext [] s (host m s).2.
Proof. unfold host, zoom. destruct (m (env s)). apply lp_ext_env. Qed.

Lemma call_sync_ext c m a t s : lp_ext [] s (call_sync c m a t s).2.
Proof.
  unfold call_sync, bind. pose proof (host_ext (lp_invoke c m a t) s) as Hh.
  destruct (host _ s) as [[[rc r] er] s']. by destruct (negb _).
Qed.

Lemma call_async_ext c m a t s : lp_ext [] s (call_async c m a t s).2.
Proof.
  unfold call_async, bind. pose proof (host_ext (lp_invoke_async c m a t) s) as Hh.
  destruct (host _ s) as [[rc cb] s'] eqn:Eh. destruct (negb _); [done|].
  pose proof (host_ext (recv_timeout (reply_wait t) cb) s') as Hr.
  destruct (host (recv_timeout _ _) s') as [r s'']. cbn in *.
  by apply (lp_ext_trans [] [] _ s').
Qed.

(** One call hands at most one call to the library, the one it was asked for;
    handing none is an error. *)
Lemma call_json_ext t m args tm s :
  let '(r, s') := call_json cur t m args tm s in
  exists cs, lp_ext cs s s'
    /\ (cs = [] /\ is_ok r = false
        \/ cs = [{| target := t; method := m; args_json := to_string args; timeout_ms := tm |}]).
Proof.
  unfold call_json. unfold bind at 1. pose proof (client_ptr_spec t s) as Hc.
  destruct (client_ptr cur t s) as [p s1]. destruct Hc as (He & _ & _ & _).
  destruct p as [p|]; [|exists []; cbn; auto].
  unfold cstring. destruct (existsb _ (str_bytes m)); [exists []; cbn; auto|].
  destruct (existsb _ (str_bytes (to_string args))); [exists []; cbn; auto|].
  unfold bind, modify, get. set (c := {| target := t |}).
  pose proof (lp_ext_trans _ _ _ _ _ He (lp_ext_record c s1)) as Hr.
  destruct (on_owner_thread cur _).
  - pose proof (call_sync_ext p m (to_string args) tm (record_call c s1)) as Hs.
    destruct (call_sync _ _ _ _ _) as [r s']. exists [c].
    split; [by apply (lp_ext_trans _ _ _ _ _ Hr Hs)|by right].
  - pose proof (call_async_ext p m (to_string args) tm (record_call c s1)) as Hs.
    destruct (call_async _ _ _ _ _) as [r s']. exists [c].
    split; [by apply (lp_ext_trans _ _ _ _ _ Hr Hs)|by right].
Qed.

Lemma call_module_json_ext t m args tm s :
  let '(r, s') := call_module_json cur t m args tm s in
  exists cs, lp_ext cs s s'
    /\ (cs = [] /\ is_ok r = false
        \/ cs = [{| target := t; method := m; args_json := to_string args; timeout_ms := tm |}]).
Proof.
  unfold call_module_json, bind. pose proof (call_json_ext t m args tm s) as Hc.
  destruct (call_json _ _ _ _ _ _) as [[v|e] s']; destruct Hc as (cs & He & [[-> Hf]| ->]); try done;
    eexists; (split; [exact He|]); auto.
Qed.

Lemma call_libp2p_ext m args tm s :
  let '(r, s') := call_libp2p cur m args tm s in
  exists cs, lp_ext cs s s'
    /\ (cs = [] /\ is_ok r = false
        \/ cs = [{| target := LIBP2P_MODULE; method := m; args_json := to_string args;
                    timeout_ms := tm |}]).
Proof.
  unfold call_libp2p, bind. pose proof (call_json_ext LIBP2P_MODULE m args tm s) as Hc.
  destruct (call_json _ _ _ _ _ _) as [[v|e] s']; destruct Hc as (cs & He & [[-> Hf]| ->]); try done;
    eexists; (split; [exact He|]); auto.
Qed.
End ClientLemmas.

Section ReplyLemmas.
Context {E : Type} {H : LpHost E} {J : SerdeJson}.

(** A thread that owns nothing uses the handle it finds and changes nothing. *)
Lemma client_ptr_found cur t p (s : Lp E) :
  lookup_client t s = Some p -> client_ptr cur t s = (Some p, s).
Proof.
  intros Hp. pose proof (client_ptr_spec cur t s) as Hc.
  destruct (client_ptr cur t s) as [q s']. destruct Hc as (_ & _ & _ & Hc).
  by destruct (Hc p Hp) as [-> ->].
Qed.

Lemma call_json_found cur t m args tm p (s : Lp E) :
  lookup_client t s = Some p -> cstring m = Some m -> cstring (to_string args) = Some (to_string args) ->
  call_json cur t m args tm s
  = (if on_owner_thread cur s then call_sync else call_async) p m (to_string args) tm
      (record_call {| target := t; method := m; args_json := to_string args; timeout_ms := tm |} s).
Proof.
  intros Hp Hm Ha. unfold call_json, bind at 1. rewrite (client_ptr_found cur t p s Hp), Hm, Ha.
  unfold bind at 1, modify. unfold bind at 1, get.
  change (on_owner_thread cur (record_call _ s)) with (on_owner_thread cur s).
  by destruct (on_owner_thread cur s).
Qed.

(** With a client there, a call of plain text is handed to the library. *)
Lemma call_json_made cur t m args tm p (s : Lp E) :
  lookup_client t s = Some p -> cstring m = Some m -> cstring (to_string args) = Some (to_string args) ->
  lp_ext [{| target := t; method := m; args_json := to_string args; timeout_ms := tm |}] s
    (call_json cur t m args tm s).2.
Proof.
  intros Hp Hm Ha. rewrite (call_json_found _ _ _ _ _ p) by done.
  eapply (lp_ext_trans [_] []); [apply lp_ext_record|].
  destruct (on_owner_thread cur s); [apply call_sync_ext|apply call_async_ext].
Qed.

Lemma call_libp2p_made cur m args tm p (s : Lp E) :
  lookup_client LIBP2P_MODULE s = Some p -> cstring m = Some m ->
  cstring (to_string args) = Some (to_string args) ->
  lp_ext [{| target := LIBP2P_MODULE; method := m; args_json := to_string args; timeout_ms := tm |}] s
    (call_libp2p cur m args tm s).2.
Proof.
  intros Hp Hm Ha. pose proof (call_json_made cur LIBP2P_MODULE m args tm p s Hp Hm Ha) as He.
  unfold call_libp2p, bind. by destruct (call_json _ _ _ _ _ _) as [[v|e] s'].
Qed.

(** The text of a well-formed value is a C string. *)
Lemma json_cstring {L : SerdeJsonLaws J} v :
  json_wf max_depth v -> cstring (to_string v) = Some (to_string v).
Proof.
  intros Hv. destruct (to_string_text v Hv) as (_ & _ & Hn). unfold cstring.
  destruct (existsb _ _) eqn:He; [|done]. apply existsb_exists in He as (b & Hb & Hz). bool_to_prop.
  destruct Hn. apply list_elem_of_In. by rewrite <-(u8_inj b x00 Hz).
Qed.

(** [ensure_client] is what makes a target reachable from worker threads:
    after an [Ok] there is a client for the target, it was there or the owner
    thread made it, and in every later state any thread finds that handle
    without creating one.  An [Err] leaves the table as it was, and off the
    owner thread nothing is created at all. *)
Theorem ensure_client_ready cur t (s : Lp E) :
  let '(r, s') := ensure_client cur t s in
  lp_ext [] s s'
  /\ (is_Some (lookup_client t s) -> r = Ok tt /\ s' = s)
  /\ (on_owner_thread cur s = false -> s' = s)
  /\ match r with
     | Ok _ => exists p, lookup_client t s' = Some p
         /\ forall cur' cs s'', lp_ext cs s' s'' -> client_ptr cur' t s'' = (Some p, s'')
     | Err _ => lookup_client t s = None /\ CLIENTS s' = CLIENTS s
     end.
Proof.
  unfold ensure_client. unfold bind at 1, get. destruct (have_client t s) eqn:Hh.
  - apply have_client_true in Hh. cbn.
    split; [apply lp_ext_refl|]. split; [done|]. split; [done|]. destruct Hh as [p Hp]. exists p. split; [done|].
    intros cur' cs s'' [_ _ Hl]. by apply client_ptr_found, Hl.
  - apply have_client_false in Hh. destruct (on_owner_thread cur s); cbn.
    + unfold bind. pose proof (create_client_spec t s Hh) as Hc.
      destruct (create_client t s) as [[] s']; destruct Hc as [He Hc]; cbn.
      * split; [done|]. split; [intros [q Hq]; congruence|]. split; [done|].
        destruct Hc as [p Hp]. exists p. split; [done|].
        intros cur' cs s'' [_ _ Hl]. by apply client_ptr_found, Hl.
      * split; [done|]. split; [intros [q Hq]; congruence|]. done.
    + split; [apply lp_ext_refl|]. split; [intros [q Hq]; congruence|]. done.
Qed.

(** C35: the two transports of [call_json] agree: the same reply text, returned
    by the synchronous call on the owner thread or delivered in time by the
    callback on a worker, gives the same value. *)
Theorem transports_agree (owner worker : ThreadId) t m args tm p raw cb e1 e2 (s : Lp E) :
  OWNER s = Some owner -> worker <> owner ->
  lookup_client t s = Some p ->
  lp_invoke p m (to_string args) tm (env s) = (LP_OK, Some raw, None, e1) ->
  lp_invoke_async p m (to_string args) tm (env s) = (LP_OK, Some cb, e2) ->
  cb_json cb = Some raw -> cb_ok cb <> 0 -> cb_delay cb <= reply_wait tm ->
  (call_json owner t m args tm s).1 = (call_json worker t m args tm s).1.
Proof.
  intros Ho Hw Hp Hs Ha Hj Hk Hd.
  destruct (cstring m) as [m'|] eqn:Hm; [|unfold call_json, bind;
    by rewrite !(client_ptr_found _ t p s Hp), Hm].
  destruct (cstring (to_string args)) as [a|] eqn:Hargs; [|unfold call_json, bind;
    by rewrite !(client_ptr_found _ t p s Hp), Hm, Hargs].
  assert (m' = m) as -> by (unfold cstring in Hm; case_in Hm; done).
  assert (a = to_string args) as -> by (unfold cstring in Hargs; case_in Hargs; done).
  rewrite !(call_json_found _ t m args tm p s Hp Hm Hargs).
  unfold on_owner_thread. rewrite Ho, bool_decide_true, bool_decide_false by congruence.
  unfold call_sync, call_async, bind, host, zoom. cbn. rewrite Hs, Ha. cbn.
  unfold recv_timeout. rewrite (proj2 (Z.leb_le _ _) Hd). cbn.
  rewrite Hj, (proj2 (Z.eqb_neq _ _) Hk). done.
Qed.

(** [call_libp2p] honours the StdLogosResult envelope: success gives the
    inner value, failure its error text, a value without [success] is passed
    through; and an envelope sent as text is read like the envelope itself. *)
Theorem libp2p_envelope m ok v e s env :
  unwrap_libp2p m (json_obj [("success", VBool ok); ("value", v); ("error", VString e)])
  = (if ok then Ok v
     else Err (m +:+ ": " +:+ if is_empty e then "libp2p call failed" else e))
  /\ (vget env "success" = None -> as_str env = None -> unwrap_libp2p m env = Ok env)
  /\ (from_str s = Ok env -> s <> "" -> as_str env = None ->
      unwrap_libp2p m (VString s) = unwrap_libp2p m env).
Proof.
  split; [|split].
  - unfold unwrap_libp2p, get_bool, get_str. cbn. destruct ok, e; done.
  - intros Hn Hs. unfold unwrap_libp2p. destruct env; try done. cbn in *.
    by rewrite bool_decide_false by (rewrite Hn; by intros [? ?]).
  - intros Hf Hne Hs. unfold unwrap_libp2p. rewrite Hf. by destruct s, env.
Qed.
End ReplyLemmas.

(** ** The clock never runs backwards through a call *)

Section ClockLemmas.
Context {E : Type} {H : LpHost E} {HL : LpHostLaws E H} {J : SerdeJson}.
Context (cur : ThreadId).

Definition clock_of (s : Lp E) : Z := instant_now (env s).

Lemma create_client_clock t s : clock_of s <= clock_of (create_client t s).2.
Proof.
  unfold create_client. destruct (cstring t) as [c|]; [|cbn; lia].
  destruct (cstring "core") as [o|]; [|cbn; lia]. unfold bind, host, zoom, clock_of.
  pose proof (now_create c o (env s)). destruct (lp_client_create c o (env s)) as [raw e].
  cbn [fst snd] in *. destruct (raw =? 0); cbn; lia.
Qed.

Lemma client_ptr_clock t s : clock_of s <= clock_of (client_ptr cur t s).2.
Proof.
  unfold client_ptr, bind, get, ret. destruct (_ && _); [|cbn; lia].
  pose proof (create_client_clock t s). by destruct (create_client t s).
Qed.

Lemma call_sync_clock c m a tm s : clock_of s <= clock_of (call_sync c m a tm s).2.
Proof.
  unfold call_sync, bind, host, zoom, clock_of. pose proof (now_invoke c m a tm (env s)).
  destruct (lp_invoke c m a tm (env s)) as [[[rc r] er] e]. cbn [fst snd] in *.
  by destruct (negb _).
Qed.

Lemma reply_wait_nonneg tm : 0 <= reply_wait tm.
Proof. unfold reply_wait. pose proof (wrap64_u64 (wrap64 tm + 10000)) as Hu. unfold is_u64 in Hu. lia. Qed.

Lemma call_async_clock c m a tm s : clock_of s <= clock_of (call_async c m a tm s).2.
Proof.
  unfold call_async, bind, host, zoom, clock_of. pose proof (now_invoke_async c m a tm (env s)) as Hn.
  destruct (lp_invoke_async c m a tm (env s)) as [[rc cb] e] eqn:Hi. cbn [fst snd] in *.
  destruct (negb _); [done|]. cbn. pose proof (reply_wait_nonneg tm) as Hw.
  pose proof (now_pass (reply_wait tm) e Hw) as Hp. destruct cb as [cb|]; cbn; [|lia].
  pose proof (delay_nonneg c m a tm (env s) rc cb e Hi) as Hd.
  pose proof (now_pass (cb_delay cb) e Hd). destruct (cb_delay cb <=? _); cbn; lia.
Qed.

Lemma call_json_clock t m args tm s : clock_of s <= clock_of (call_json cur t m args tm s).2.
Proof.
  unfold call_json. unfold bind at 1. pose proof (client_ptr_clock t s).
  destruct (client_ptr cur t s) as [[p|] s1]; cbn [snd] in *; [|done].
  destruct (cstring m) as [mc|]; [|done]. destruct (cstring (to_string args)) as [ac|]; [|done].
  unfold bind, modify, get. set (s2 := record_call _ s1).
  change (clock_of s1) with (clock_of s2) in *. etrans; [done|].
  destruct (on_owner_thread cur s2); [apply call_sync_clock|apply call_async_clock].
Qed.

Lemma call_module_json_clock t m args tm s :
  clock_of s <= clock_of (call_module_json cur t m args tm s).2.
Proof.
  unfold call_module_json, bind. pose proof (call_json_clock t m args tm s).
  by destruct (call_json _ _ _ _ _ _) as [[v|e] s'].
Qed.
End ClockLemmas.

(** ** A simulated host, for the witnesses

    Modules are given by their answers; a call takes no time but the delay of
    its callback. *)
Module SimHost.
Record t := {
  clock : Z;
  known : string -> bool;
  handles : list string;
  (** target, method, arguments *)
  answer : string -> string -> string -> option Callback
}.

Definition set_clock (c : Z) (e : t) : t :=
  {| clock := c; known := known e; handles := handles e; answer := answer e |}.

Definition reply (client : Z) (method args : string) (e : t) : option Callback :=
  handles e !! (Z.to_nat client - 1)%nat ≫= fun target =>
  (fun cb => {| cb_delay := Z.max 0 (cb_delay cb); cb_ok := cb_ok cb; cb_json := cb_json cb |})
    <$> answer e target method args.

#[global] Instance sim_host : LpHost t := {|
  lp_client_create target _ e :=
    if known e target then
      (Z.of_nat (S (length (handles e))),
       {| clock := clock e; known := known e; handles := handles e ++ [target];
          answer := answer e |})
    else (0, e);
  lp_invoke client method args _ e :=
    (match reply client method args e with
     | Some cb => if cb_ok cb =? 0 then (-1, None, cb_json cb) else (0, cb_json cb, None)
     | None => (-2, None, None)
     end, e);
  lp_invoke_async client method args _ e := ((0, reply client method args e), e);
  instant_now := clock;
  pass d e := set_clock (clock e + Z.max 0 d) e |}.

#[global] Instance sim_laws : LpHostLaws t sim_host.
Proof.
  constructor; cbn; try lia.
  - intros t o e. by destruct (known e t).
  - intros c m a _ e rc cb e' [= _ Hr _]. unfold reply in Hr.
    destruct (handles e !! _) as [t'|]; [|done]. cbn in Hr.
    destruct (answer e t' m a); [|done]. cbn in Hr. injection Hr as <-. cbn. lia.
Qed.

(** A module that answers at once. *)
Definition at_once (text : string) : Callback :=
  {| cb_delay := 0; cb_ok := 1; cb_json := Some (str_bytes text) |}.

Definition boot (answer : string -> string -> string -> option Callback) : Lp t := {|
  env := {| clock := 0; known _ := true; handles := []; answer := answer |};
  CLIENTS := None; OWNER := None; calls := [] |}.
End SimHost.

Definition echo_host : Lp SimHost.t :=
  (init 0%nat ["echo"] (SimHost.boot (fun _ _ args => Some (SimHost.at_once args)))).2.

Lemma transports_agree_witness :
  (call_json (J := json_instance) 0%nat "echo" "m" (VArray []) 1000 echo_host).1
  = (call_json (J := json_instance) 1%nat "echo" "m" (VArray []) 1000 echo_host).1.
Proof.
  eapply (transports_agree (J := json_instance) 0%nat 1%nat "echo" "m" (VArray []) 1000 1
    _ _ _ _ echo_host); try reflexivity; vm_compute; done.
Defined.
