(* ===== verification/Hosting.v ===== *)
(** * Modules behind the lp client

    What a host promises of a module it runs: a call of the module's handle is
    answered, on either transport, with a text the module's method may return
    for the argument text.  The callers' theorems are proved against these
    interfaces; [Hosted] and [EndToEnd] put the modules of the repository
    behind them. *)
From S2P Require Import Prelude RustStd Nullifiers Json Crates JsonInstance Lp.

Section Hosting.
Context {E : Type} {H : LpHost E} {J : SerdeJson}.

(** The arguments of a method with one text argument. *)
Definition one_arg (args : string) : Value := VArray [VString args].

(** The text a module's string result travels as. *)
Definition carries (raw : option (list byte)) (text : string) : Prop :=
  c_text raw = Some (to_string (VString text)).

(** In the host's state [e], the calls of [method] on the handle [p] that
    succeed bring a text related by [R] to their argument. *)
Record answers (e : E) (p : Z) (method : string) (R : string -> string -> Prop) : Prop := {
  answers_sync args tm r er e' : str_valid args ->
    lp_invoke p method (to_string (one_arg args)) tm e = ((LP_OK, r, er), e') ->
    exists text, carries r text /\ R args text;
  answers_async args tm cb e' : str_valid args ->
    lp_invoke_async p method (to_string (one_arg args)) tm e = ((LP_OK, Some cb), e') ->
    cb_ok cb <> 0 -> exists text, carries (cb_json cb) text /\ R args text
}.

(** Every such call succeeds, and in time. *)
Record prompt (e : E) (p : Z) (method : string) : Prop := {
  prompt_sync args tm : str_valid args -> exists r er e',
    lp_invoke p method (to_string (one_arg args)) tm e = ((LP_OK, r, er), e');
  prompt_async args tm : str_valid args -> exists cb e',
    lp_invoke_async p method (to_string (one_arg args)) tm e = ((LP_OK, Some cb), e')
    /\ cb_ok cb <> 0 /\ cb_delay cb <= reply_wait tm
}.

(** What [call_module_json] makes of the raw text. *)
Definition module_value (method : string) (raw : option (list byte)) : result Value string :=
  unwrap_module method (parse_ok (default "" (c_text raw))).

Context {L : SerdeJsonLaws J}.

Lemma one_arg_cstring args :
  str_valid args -> cstring (to_string (one_arg args)) = Some (to_string (one_arg args)).
Proof.
  intros Hv. apply json_cstring, (json_wf_array 119), Forall_singleton.
  by apply (json_wf_string 118).
Qed.

(** A text that is JSON is read as its value. *)
Lemma carried_value method raw text v :
  carries raw text -> str_valid text -> text <> "" -> from_str text = Ok v ->
  module_value method raw = Ok v.
Proof.
  unfold carries, module_value. intros -> Hv Hne Hf.
  assert (Hw : json_wf max_depth (VString text)) by by apply (json_wf_string 119).
  unfold parse_ok. cbn [default]. unfold id. destruct (to_string_text _ Hw) as (_ & Hts & _).
  rewrite is_empty_false by done. rewrite from_str_to_string by done. cbn.
  rewrite is_empty_false by done. cbn. by rewrite Hf.
Qed.

Context (cur : ThreadId).

Lemma one_arg_call module method p args tm (l : Lp E) :
  lookup_client module l = Some p -> cstring method = Some method -> str_valid args ->
  call_json cur module method (one_arg args) tm l
  = (if on_owner_thread cur l then call_sync else call_async) p method (to_string (one_arg args)) tm
      (record_call {| target := module; method := method;
         args_json := to_string (one_arg args); timeout_ms := tm |} l).
Proof. intros Hp Hm Hv. by apply call_json_found; [| |apply one_arg_cstring]. Qed.

(** A call that brings a value brings one the module answered. *)
Lemma answered module p method R args tm (l : Lp E) reply l' :
  lookup_client module l = Some p -> answers (env l) p method R ->
  cstring method = Some method -> str_valid args ->
  call_module_json cur module method (one_arg args) tm l = (Ok reply, l') ->
  exists raw text, carries raw text /\ R args text /\ module_value method raw = Ok reply.
Proof.
  intros Hp [Hsync Hasync] Hm Hv Hc.
  unfold call_module_json, bind in Hc. rewrite (one_arg_call _ _ p) in Hc by done.
  destruct (on_owner_thread cur l); unfold call_sync, call_async, bind, host, zoom in Hc;
    cbn [env record_call] in Hc.
  - destruct (lp_invoke _ _ _ _ _) as [[[rc raw] er] e] eqn:Hi. cbn in Hc.
    destruct (rc =? LP_OK) eqn:Hrc; [|done]. apply Z.eqb_eq in Hrc as ->. cbn in Hc.
    injection Hc as Hc _. destruct (Hsync _ _ _ _ _ Hv Hi) as (text & Hr & Ht). by exists raw, text.
  - destruct (lp_invoke_async _ _ _ _ _) as [[rc cb] e] eqn:Hi. cbn in Hc.
    destruct (rc =? LP_OK) eqn:Hrc; [|done]. apply Z.eqb_eq in Hrc as ->. cbn in Hc.
    destruct cb as [cb|]; [|done]. cbn in Hc. destruct (cb_delay cb <=? _); [|done]. cbn in Hc.
    destruct (cb_ok cb =? 0) eqn:Hok; [done|]. apply Z.eqb_neq in Hok. cbn in Hc.
    injection Hc as Hc _. destruct (Hasync _ _ _ _ Hv Hi Hok) as (text & Hr & Ht).
    by exists (cb_json cb), text.
Qed.

(** A prompt module brings one, if its texts are JSON. *)
Lemma prompt_answered module p method R args tm (l : Lp E) :
  lookup_client module l = Some p -> answers (env l) p method R -> prompt (env l) p method ->
  cstring method = Some method -> str_valid args ->
  (forall text, R args text -> str_valid text /\ text <> "" /\ is_ok (from_str text) = true) ->
  exists reply l', call_module_json cur module method (one_arg args) tm l = (Ok reply, l').
Proof.
  intros Hp [Hsync Hasync] [Psync Pasync] Hm Hv Htext.
  assert (Hval : forall raw, (exists text, carries raw text /\ R args text) ->
    exists v, module_value method raw = Ok v).
  { intros raw (text & Hr & (Hvt & Hne & Hok)%Htext).
    destruct (from_str text) as [v|] eqn:Hf; [|done]. exists v. by eapply carried_value. }
  unfold call_module_json, bind. rewrite (one_arg_call _ _ p) by done.
  destruct (on_owner_thread cur l); unfold call_sync, call_async, bind, host, zoom;
    cbn [env record_call].
  - destruct (Psync args tm Hv) as (raw & er & e' & Hi). rewrite Hi. cbn.
    destruct (Hval raw) as [v Hval']; [by eapply Hsync|]. unfold module_value in Hval'.
    rewrite Hval'. by eexists _, _.
  - destruct (Pasync args tm Hv) as (cb & e' & Hi & Hok & Hd). rewrite Hi. cbn.
    rewrite (proj2 (Z.leb_le _ _) Hd). cbn. rewrite (proj2 (Z.eqb_neq _ _) Hok). cbn.
    destruct (Hval (cb_json cb)) as [v Hval']; [by eapply Hasync|]. unfold module_value in Hval'.
    rewrite Hval'. by eexists _, _.
Qed.
End Hosting.

(** ** Modules of the simulated host *)

Definition text_callback (text : string) : Callback := SimHost.at_once (to_string (VString text)).

Lemma text_callback_carries text : carries (cb_json (text_callback text)) text.
Proof.
  unfold carries, text_callback. cbn [SimHost.at_once cb_json c_text fmap option_fmap option_map].
  apply (f_equal Some), from_utf8_lossy_str, is_ascii_chars, pos_bits_ascii.
Qed.

Lemma sim_reply (e : SimHost.t) p target method a text :
  SimHost.handles e !! (Z.to_nat p - 1)%nat = Some target ->
  SimHost.answer e target method a = Some (text_callback text) ->
  SimHost.reply p method a e = Some (text_callback text).
Proof. intros Hh Ha. unfold SimHost.reply. rewrite Hh. cbn [mbind option_bind]. by rewrite Ha. Qed.

(** A module that answers with related texts, or not at all. *)
Lemma sim_answers (e : SimHost.t) p target method R (reply : string -> option string) :
  SimHost.handles e !! (Z.to_nat p - 1)%nat = Some target ->
  (forall args, str_valid args ->
     SimHost.answer e target method (to_string (one_arg args)) = text_callback <$> reply args) ->
  (forall args text, reply args = Some text -> R args text) ->
  answers e p method R.
Proof.
  intros Hh Ha HR.
  assert (Hrep : forall args cb, str_valid args ->
    SimHost.reply p method (to_string (one_arg args)) e = Some cb ->
    exists text, cb = text_callback text /\ R args text).
  { intros args cb Hv. destruct (reply args) as [text|] eqn:Hr.
    - rewrite (sim_reply _ _ _ _ _ text Hh) by by rewrite Ha, Hr. intros [= <-]. eauto.
    - unfold SimHost.reply. rewrite Hh. cbn [mbind option_bind]. by rewrite Ha, Hr. }
  constructor; intros args tm; cbn [lp_invoke lp_invoke_async SimHost.sim_host].
  - intros r er e' Hv. destruct (SimHost.reply _ _ _ _) as [cb|] eqn:Hr; [|done].
    destruct (Hrep _ _ Hv Hr) as (text & -> & Ht). cbn [text_callback SimHost.at_once cb_ok Z.eqb].
    intros [= <- _ _]. exists text. split; [apply (text_callback_carries text)|done].
  - intros cb e' Hv [= Hr _] _. destruct (Hrep _ _ Hv Hr) as (text & -> & Ht).
    exists text. split; [apply text_callback_carries|done].
Qed.

(** A module that always answers. *)
Lemma sim_prompt (e : SimHost.t) p target method (reply : string -> string) :
  SimHost.handles e !! (Z.to_nat p - 1)%nat = Some target ->
  (forall args, str_valid args ->
     SimHost.answer e target method (to_string (one_arg args)) = Some (text_callback (reply args))) ->
  prompt e p method.
Proof.
  intros Hh Ha.
  constructor; intros args tm Hv; cbn [lp_invoke lp_invoke_async SimHost.sim_host];
    rewrite (sim_reply _ _ _ _ _ _ Hh (Ha args Hv)); cbn [text_callback SimHost.at_once cb_ok Z.eqb].
  - by eexists _, _, _.
  - eexists _, _. split; [done|]. split; [done|]. cbn [cb_delay]. apply reply_wait_nonneg.
Qed.
