(* ===== verification/Server.v ===== *)
(** * The gifter node (rust/rln-gifter-module/rust-lib/src/server.rs)

    The statics [SERVER], [CONSUMED_NULLIFIERS] and [SERVING] with the lp
    client and the file system form the state [World].  [serve] is the entry
    point, [handle_request] the handler of one request, [handle_stream] and
    [worker_iteration] the worker around it.  A lock is held for one update of
    its static, so that each operation here is one uninterrupted run of its
    thread.  [confirm_loop] polls a clock and takes fuel; [None] is a loop that
    is still polling. *)
From S2P Require Import Prelude RustStd Wire Nullifiers Json Crates JsonInstance AuthVector Lp.

Definition ACCEPT_TIMEOUT_MS : Z := 3600000.
Definition READ_TIMEOUT_MS : Z := 60000.
Definition WRITE_TIMEOUT_MS : Z := 30000.
Definition REGISTER_TIMEOUT_MS : Z := 190000.
(** durations in nanoseconds, as the clock *)
Definition SECOND : Z := 1000000000.
Definition CONFIRM_BUDGET : Z := 150 * SECOND.
Definition CONFIRM_POLL : Z := 2 * SECOND.
Definition GET_MEMBERSHIP_TIMEOUT_MS : Z := 30000.
Definition MOUNT_TIMEOUT_MS : Z := 30000.
Definition AUTH_VERIFY_TIMEOUT_MS : Z := 30000.
Definition DEFAULT_MAX_RATE : Z := 100.
Definition MAX_RPC_SIZE : Z := 4096.

Record ServerCfg := {
  config : string;
  wallet : string;
  auth_verifiers : gmap string (string * option Value);
  nullifiers_path : string;
  max_rate_limit : Z
}.

Record World (E : Type) := {
  lp : Lp E;
  fs : Fs;
  SERVER : option ServerCfg;
  CONSUMED_NULLIFIERS : option (gset string);
  SERVING : bool;
  (** the worker threads spawned so far *)
  workers : nat
}.
Arguments lp {_} _.
Arguments fs {_} _.
Arguments SERVER {_} _.
Arguments CONSUMED_NULLIFIERS {_} _.
Arguments SERVING {_} _.
Arguments workers {_} _.

Inductive RegisterError : Type :=
| NotSubmitted (m : string)
| Unconfirmed (m : string).

Definition message (e : RegisterError) : string :=
  match e with NotSubmitted m | Unconfirmed m => m end.

Definition num (z : Z) : Value := VNumber (PosInt z).

Definition confirmed_leaf (reply : Value) : option Z :=
  if bool_decide (get_bool reply "registered" <> Some true) then None
  else get_u64 reply "leaf_index".

Definition failure_response (request_id : string) (auth_success : bool) (message : string)
    : RlnGifterResponse.t := {|
  RlnGifterResponse.request_id := request_id;
  RlnGifterResponse.auth_success := auth_success;
  RlnGifterResponse.error := Some message;
  RlnGifterResponse.success := None;
  RlnGifterResponse.failure :=
    Some {| MembershipAllocationFailure.error_message := message |} |}.

Section State.
Context {E : Type}.

Definition set_lp (l : Lp E) (w : World E) : World E :=
  {| lp := l; fs := fs w; SERVER := SERVER w; CONSUMED_NULLIFIERS := CONSUMED_NULLIFIERS w;
     SERVING := SERVING w; workers := workers w |}.
Definition on_lp {A} (m : M (Lp E) A) : M (World E) A := zoom lp set_lp m.

Definition set_fs (f : Fs) (w : World E) : World E :=
  {| lp := lp w; fs := f; SERVER := SERVER w; CONSUMED_NULLIFIERS := CONSUMED_NULLIFIERS w;
     SERVING := SERVING w; workers := workers w |}.
Definition set_server (c : option ServerCfg) (w : World E) : World E :=
  {| lp := lp w; fs := fs w; SERVER := c; CONSUMED_NULLIFIERS := CONSUMED_NULLIFIERS w;
     SERVING := SERVING w; workers := workers w |}.
Definition set_consumed (c : option (gset string)) (w : World E) : World E :=
  {| lp := lp w; fs := fs w; SERVER := SERVER w; CONSUMED_NULLIFIERS := c;
     SERVING := SERVING w; workers := workers w |}.
Definition set_serving (b : bool) (w : World E) : World E :=
  {| lp := lp w; fs := fs w; SERVER := SERVER w; CONSUMED_NULLIFIERS := CONSUMED_NULLIFIERS w;
     SERVING := b; workers := workers w |}.
(** [std::thread::spawn(worker_loop)] *)
Definition spawn_worker (w : World E) : World E :=
  {| lp := lp w; fs := fs w; SERVER := SERVER w; CONSUMED_NULLIFIERS := CONSUMED_NULLIFIERS w;
     SERVING := SERVING w; workers := S (workers w) |}.

(** The set behind [get_or_insert_with(HashSet::new)]. *)
Definition consumed (w : World E) : gset string := default ∅ (CONSUMED_NULLIFIERS w).
End State.

Section Server.
Context {E : Type} {H : LpHost E} {J : SerdeJson} {X : HexCrate} {B : Base64Crate}
  {U : UnicodeTables}.
Context (cur : ThreadId).

Definition blob (v : Value) : Value := VArray [VString (to_string v)].

(** ** [serve] *)

(** The loop over the members of [authVerifiers]. *)
Fixpoint read_verifiers (map : list (string * Value)) (verifiers : gmap string (string * option Value))
    : M (Lp E) (result (gmap string (string * option Value)) string) :=
  match map with
  | [] => ret (Ok verifiers)
  | (atype, v) :: map =>
      let module := default "" (get_str v "module") in
      if is_empty module then ret (Err ("authVerifiers['" +:+ atype +:+ "'] needs a module"))
      else
        let! r := ensure_client cur module in
        match map_err (fun e => "authVerifiers['" +:+ atype +:+ "']: " +:+ e) r with
        | Ok _ => read_verifiers map (<[atype := (module, vget v "config")]> verifiers)
        | Err e => ret (Err e)
        end
  end.

Definition parse_verifiers (a : Value)
    : M (Lp E) (result (gmap string (string * option Value)) string) :=
  match vget a "authVerifiers" with
  | None | Some VNull => ret (Ok ∅)
  | Some (VObject map) => read_verifiers map ∅
  | Some _ => ret (Err "authVerifiers must be an object of {type: {module, config?}}")
  end.

Definition merge_consumed (path : string) (w : World E) : World E :=
  set_consumed (Some (consumed w ∪ load_nullifiers (fs w) path)) w.

Definition serve (args_json : string) : M (World E) (result Value string) :=
  let!? a := ret (map_err (fun e => "serve args: " +:+ e) (from_str args_json)) in
  let!? config := ret (ok_or (get_str a "config") "missing config") in
  let!? wallet := ret (ok_or (get_str a "wallet") "missing wallet") in
  let max_rate_limit := default DEFAULT_MAX_RATE (get_u64 a "maxRateLimit") in
  let nullifiers_path := default "" (get_str a "consumedNullifiersPath") in
  let!? verifiers := on_lp (parse_verifiers a) in
  let! _ := modify (merge_consumed nullifiers_path) in
  let! _ := modify (set_server (Some {|
    config := config; wallet := wallet; auth_verifiers := verifiers;
    nullifiers_path := nullifiers_path; max_rate_limit := max_rate_limit |})) in
  let! w := get in
  let! _ := modify (set_serving true) in
  let!? _ := (if negb (SERVING w) then
    let! r := on_lp (call_libp2p cur "mountProtocol" (VArray [VString RLN_GIFTER_CODEC])
                       MOUNT_TIMEOUT_MS) in
    match r with
    | Err e =>
        let! _ := modify (set_serving false) in
        ret (Err ("mountProtocol: " +:+ e))
    | Ok _ =>
        let! _ := modify spawn_worker in
        ret (Ok tt)
    end
  else ret (Ok tt)) in
  ret (Ok (json_obj [("mounted", VBool true)])).

(** ** [register] *)

(** [tx_hash_bytes] from a [register_member] reply. *)
Definition tx_hash_of (reply : Value) : list byte :=
  match get_str reply "tx_result" ≫= (fun tx_result =>
          result_ok (from_str tx_result) ≫= (fun inner => get_str inner "tx_hash")) with
  | Some txh => default [] (result_ok (hex_decode (trim_start_matches "0x" txh)))
  | None => []
  end.

Fixpoint confirm_loop (fuel : nat) (cfg : ServerCfg) (idc_hex : string) (tx_hash_bytes : list byte)
    (deadline : Z) : M (Lp E) (option (result MembershipAllocationSuccess.t RegisterError)) :=
  match fuel with
  | O => ret None
  | S fuel =>
      let! m := call_module_json cur RLN_MODULE "get_membership"
                  (VArray [VString (config cfg); VString idc_hex]) GET_MEMBERSHIP_TIMEOUT_MS in
      match result_ok m ≫= confirmed_leaf with
      | Some leaf_index =>
          ret (Some (Ok {|
            MembershipAllocationSuccess.leaf_index := leaf_index;
            MembershipAllocationSuccess.merkle_root := [];
            MembershipAllocationSuccess.block_number := 0;
            MembershipAllocationSuccess.transaction_hash := tx_hash_bytes;
            MembershipAllocationSuccess.config_account_id := Some (config cfg) |}))
      | None =>
          let! s := get in
          if deadline <=? instant_now (env s) then
            ret (Some (Err (Unconfirmed (
              "registration submitted (tx " +:+ hex_encode tx_hash_bytes
              +:+ ") but not on chain within " +:+ pretty (CONFIRM_BUDGET / SECOND)
              +:+ "s; it may still land"))))
          else
            let! _ := host (modify (pass CONFIRM_POLL)) in
            confirm_loop fuel cfg idc_hex tx_hash_bytes deadline
      end
  end.

Definition register (fuel : nat) (cfg : ServerCfg) (id_commitment : list byte) (rate : Z)
    : M (Lp E) (option (result MembershipAllocationSuccess.t RegisterError)) :=
  let idc_hex := hex_encode id_commitment in
  let! r := call_module_json cur RLN_MODULE "register_member"
              (VArray [VString (config cfg); VString (wallet cfg); VString idc_hex; num rate])
              REGISTER_TIMEOUT_MS in
  match r with
  | Err e => ret (Some (Err (NotSubmitted e)))
  | Ok reply =>
      let tx_hash_bytes := tx_hash_of reply in
      let! s := get in
      let deadline := instant_now (env s) + CONFIRM_BUDGET in
      confirm_loop fuel cfg idc_hex tx_hash_bytes deadline
  end.

(** ** [handle_request] *)

(** The effective rate: the requested one under the operator's cap. *)
Definition effective_rate (cfg : ServerCfg) (req : RlnGifterRequest.t) : Z :=
  let rate := default DEFAULT_MAX_RATE (RlnGifterRequest.rate_limit req) in
  if max_rate_limit cfg <? rate then max_rate_limit cfg else rate.

(** The reservation of [nul] in the consumed set; false when it is there. *)
Definition reserve (nul : string) : M (World E) bool :=
  let! w := get in
  let! _ := modify (set_consumed (Some (consumed w))) in
  if bool_decide (nul ∈ consumed w) then ret false
  else
    let! _ := modify (set_consumed (Some ({[nul]} ∪ consumed w))) in
    ret true.

(** What happens to the nullifier of an accepting verdict. *)
Definition claim_nullifier (request_id auth_type module nul : string)
    : M (World E) (result (option string) RlnGifterResponse.t) :=
  let nul := to_lowercase (trim nul) in
  if is_empty nul || existsb (fun c => is_whitespace c || is_control c) (chars nul) then
    ret (Err (failure_response request_id false ("auth verifier " +:+ module +:+ ": malformed nullifier")))
  else
    let nul := auth_type +:+ ":" +:+ nul in
    let! reserved := reserve nul in
    if (reserved : bool) then ret (Ok (Some nul))
    else ret (Err (failure_response request_id false ("credential already used: " +:+ nul))).

Definition verify_request (cfg_config : option Value) (req : RlnGifterRequest.t) (auth_type : string)
    (rate : Z) : VerifyRequest.t := {|
  VerifyRequest.auth_type := auth_type;
  VerifyRequest.payload_hex := hex_encode (RlnGifterRequest.authentication_payload req);
  VerifyRequest.id_commitment_hex := hex_encode (RlnGifterRequest.identity_commitment req);
  VerifyRequest.rate := rate;
  VerifyRequest.config := cfg_config |}.

(** The block under [if !cfg.auth_verifiers.is_empty()]: the reserved key, or
    the response of an early return. *)
Definition authorize (cfg : ServerCfg) (req : RlnGifterRequest.t) (auth_type : string) (rate : Z)
    : M (World E) (result (option string) RlnGifterResponse.t) :=
  let id := RlnGifterRequest.request_id req in
  if bool_decide (auth_verifiers cfg = ∅) then ret (Ok None)
  else
    match auth_verifiers cfg !! auth_type with
    | None =>
        ret (Err (failure_response id false
                    ("unsupported authentication_type: '" +:+ auth_type +:+ "'")))
    | Some (module, verifier_config) =>
        match to_string_fields (VerifyRequest.to_fields
                (verify_request verifier_config req auth_type rate)) with
        | Err e => ret (Err (failure_response id false ("verify request: " +:+ e)))
        | Ok verify_json =>
            let! r := on_lp (call_module_json cur module VERIFY_METHOD
                               (VArray [VString verify_json]) AUTH_VERIFY_TIMEOUT_MS) in
            match r with
            | Err e =>
                ret (Err (failure_response id false ("auth verifier " +:+ module +:+ ": " +:+ e)))
            | Ok reply =>
                match parse_verdict reply with
                | Err e =>
                    ret (Err (failure_response id false ("auth verifier " +:+ module +:+ ": " +:+ e)))
                | Ok verdict =>
                    if negb (Verdict.ok verdict) then
                      ret (Err (failure_response id false
                        (default "verifier rejected the request" (Verdict.reason verdict))))
                    else
                      match Verdict.nullifier verdict with
                      | None => ret (Ok None)
                      | Some nul => claim_nullifier id auth_type module nul
                      end
                end
            end
        end
    end.

(** [auth::append_nullifier] on the store of the configuration. *)
Definition persist (path nul : string) : M (World E) unit :=
  modify (fun w => set_fs (append_nullifier (fs w) path nul) w).

(** [if let Some(set) = lock(..).as_mut() { set.remove(nul); }] *)
Definition rollback (nul : string) : M (World E) unit :=
  modify (fun w => match CONSUMED_NULLIFIERS w with
                   | Some set => set_consumed (Some (set ∖ {[nul]})) w
                   | None => w
                   end).

(** The settlement of the reservation after [register]. *)
Definition settle (cfg : ServerCfg) (req : RlnGifterRequest.t) (authorized_nullifier : option string)
    (r : result MembershipAllocationSuccess.t RegisterError) : M (World E) RlnGifterResponse.t :=
  match r with
  | Ok success =>
      let! _ := match authorized_nullifier with
                | Some nul => persist (nullifiers_path cfg) nul
                | None => ret tt
                end in
      ret {| RlnGifterResponse.request_id := RlnGifterRequest.request_id req;
             RlnGifterResponse.auth_success := true;
             RlnGifterResponse.error := None;
             RlnGifterResponse.success := Some success;
             RlnGifterResponse.failure := None |}
  | Err e =>
      let! _ := match authorized_nullifier with
                | Some nul =>
                    match e with
                    | NotSubmitted _ => rollback nul
                    | Unconfirmed _ => persist (nullifiers_path cfg) nul
                    end
                | None => ret tt
                end in
      ret {| RlnGifterResponse.request_id := RlnGifterRequest.request_id req;
             RlnGifterResponse.auth_success := true;
             RlnGifterResponse.error := None;
             RlnGifterResponse.success := None;
             RlnGifterResponse.failure :=
               Some {| MembershipAllocationFailure.error_message := message e |} |}
  end.

Definition handle_request (fuel : nat) (buf : list byte) : M (World E) (option RlnGifterResponse.t) :=
  match RlnGifterRequest.decode buf with
  | Err e => ret (Some (failure_response "N/A" false ("decode error: " +:+ e)))
  | Ok req =>
      let id := RlnGifterRequest.request_id req in
      if negb (length (RlnGifterRequest.identity_commitment req) =? 32)%nat then
        ret (Some (failure_response id true "identity_commitment must be 32 bytes"))
      else
        let! w := get in
        match SERVER w with
        | None => ret (Some (failure_response id true "gifter not configured"))
        | Some cfg =>
            let auth_type := from_utf8_lossy (RlnGifterRequest.authentication_type req) in
            let rate := effective_rate cfg req in
            let! authorized := authorize cfg req auth_type rate in
            match authorized with
            | Err response => ret (Some response)
            | Ok authorized_nullifier =>
                let! r := on_lp (register fuel cfg (RlnGifterRequest.identity_commitment req) rate) in
                match r with
                | None => ret None
                | Some r =>
                    let! response := settle cfg req authorized_nullifier r in
                    ret (Some response)
                end
            end
        end
  end.

(** ** The worker *)

Definition handle_stream (fuel : nat) (stream_id : Z) : M (World E) (option (result unit string)) :=
  let! read := on_lp (call_libp2p cur "streamReadLpJson"
    (blob (json_obj [("streamId", num stream_id); ("maxSize", num MAX_RPC_SIZE);
                     ("timeoutMs", num READ_TIMEOUT_MS)]))
    (READ_TIMEOUT_MS + 10000)) in
  match (let? read := read in
         let? data_b64 := ok_or (get_str read "dataB64") "streamReadLpJson: no dataB64" in
         b64_decode data_b64) with
  | Err e => ret (Some (Err e))
  | Ok req_bytes =>
      let! resp := handle_request fuel req_bytes in
      match resp with
      | None => ret None
      | Some resp =>
          let! _ := on_lp (call_libp2p cur "streamWriteLpJson"
            (blob (json_obj [("streamId", num stream_id);
                             ("dataB64", VString (b64 (RlnGifterResponse.encode resp)))]))
            (WRITE_TIMEOUT_MS + 10000)) in
          let! _ := on_lp (call_libp2p cur "streamReleaseJson"
            (blob (json_obj [("streamId", num stream_id)])) 10000) in
          ret (Some (Ok tt))
      end
  end.

(** One turn of [worker_loop]; the errors it prints are dropped. *)
Definition worker_iteration (fuel : nat) : M (World E) (option unit) :=
  let! accept := on_lp (call_libp2p cur "protocolAcceptStream"
    (blob (json_obj [("proto", VString RLN_GIFTER_CODEC); ("timeoutMs", num ACCEPT_TIMEOUT_MS)]))
    ACCEPT_TIMEOUT_MS) in
  match result_ok accept ≫= (fun v => get_u64 v "streamId") with
  | None => ret (Some tt)
  | Some stream_id =>
      let! r := handle_stream fuel stream_id in
      match r with None => ret None | Some _ => ret (Some tt) end
  end.

(** The first [n] turns of [worker_loop]. *)
Fixpoint worker_loop (fuel n : nat) : M (World E) (option unit) :=
  match n with
  | O => ret (Some tt)
  | S n =>
      let! r := worker_iteration fuel in
      match r with None => ret None | Some _ => worker_loop fuel n end
  end.
End Server.
