(* ===== verification/GiftSpec.v ===== *)
(** * What the gifter node promises: specification and refinement

    The abstract side of [Server]: which calls a request may make
    ([authorized_by], [registered]), what it does to the credentials
    ([settled]), and the relation [handled] that one request implements; then
    the properties of [handle_request] that follow. *)
From S2P Require Import Prelude RustStd Wire Nullifiers Json Crates JsonInstance AuthVector Lp Server.

(** ** Keys of the consumed set *)

(** A nullifier as the server keeps it: trimmed, lowercased, not empty, and
    without white space or control characters. *)
Record normal_nullifier {U : UnicodeTables} (n : string) : Prop := {
  nn_valid : str_valid n;
  nn_nonempty : n <> "";
  nn_lower : Forall lower_stable (chars n);
  nn_clean c : c ∈ chars n -> is_whitespace c = false /\ is_control c = false
}.

Definition key_of (auth_type nul : string) : string := auth_type +:+ ":" +:+ nul.

(** A vector name that survives the store: lowercase, no newline, no leading
    white space. *)
Record storable_type {U : UnicodeTables} (ty : string) : Prop := {
  st_valid : str_valid ty;
  st_lower : Forall lower_stable (chars ty);
  st_line : 10 ∉ chars ty;
  st_head c : head (chars ty) = Some c -> is_whitespace c = false
}.

Section Keys.
Context {U : UnicodeTables} {UL : UnicodeLaws U}.

Lemma normalised nul :
  let n := to_lowercase (trim nul) in
  is_empty n || existsb (fun c => is_whitespace c || is_control c) (chars n) = false ->
  normal_nullifier n.
Proof.
  intros n [He Hw]%orb_false_iff. destruct (to_lowercase_chars (trim nul)) as [Hv Hl].
  constructor; [done| |done|].
  - intros E. by rewrite E in He.
  - intros c Hc. apply orb_false_iff. apply not_true_is_false. intros Ht.
    apply not_true_iff_false in Hw. apply Hw, existsb_exists. exists c.
    split; [by apply list_elem_of_In|done].
Qed.

Lemma chars_key ty n : str_valid ty -> chars (key_of ty n) = chars ty ++ 58 :: chars n.
Proof.
  intros Ht. unfold key_of. rewrite !chars_app by done.
  change (chars ":") with [58]. done.
Qed.

(** A key of a storable type is returned by the store as it was written. *)
Lemma key_canonical ty n : storable_type ty -> normal_nullifier n -> canonical_key (key_of ty n).
Proof.
  intros [Tv Tl Tn Th] [Nv Ne Nl Nc]. constructor.
  - unfold key_of. by repeat apply str_valid_app.
  - unfold key_of. intros E%(f_equal str_bytes). rewrite !str_bytes_app in E.
    apply app_eq_nil in E as [_ E]. done.
  - rewrite chars_key by done. apply Forall_app. split; [done|]. constructor; [|done].
    split; [done|]. vm_compute. done.
  - rewrite chars_key by done. rewrite elem_of_app, elem_of_cons. intros [?|[?|Hc]]; [done|done|].
    apply Nc in Hc as [Hc _]. by vm_compute in Hc.
  - rewrite chars_key by done. destruct (chars ty) as [|d r] eqn:E; cbn.
    + by intros c [= <-].
    + intros c [= <-]. by apply Th.
  - rewrite chars_key by done. intros c. rewrite last_app, last_cons.
    destruct (last (chars n)) as [d|] eqn:E.
    + intros [= <-]. apply (Nc d). by apply last_Some_elem_of.
    + by intros [= <-].
Qed.
End Keys.

(** ** Specification of one request *)

Section Spec.
Context {E : Type} {H : LpHost E} {J : SerdeJson} {X : HexCrate} {U : UnicodeTables}.
Context (cur : ThreadId).

Definition verify_call (module verify_json : string) : LpCall := {|
  target := module; method := VERIFY_METHOD;
  args_json := to_string (VArray [VString verify_json]);
  timeout_ms := AUTH_VERIFY_TIMEOUT_MS |}.

Definition register_call (cfg : ServerCfg) (idc : list byte) (rate : Z) : LpCall := {|
  target := RLN_MODULE; method := "register_member";
  args_json := to_string (VArray [VString (config cfg); VString (wallet cfg);
                                  VString (hex_encode idc); num rate]);
  timeout_ms := REGISTER_TIMEOUT_MS |}.

Definition get_call (cfg : ServerCfg) (idc : list byte) : LpCall := {|
  target := RLN_MODULE; method := "get_membership";
  args_json := to_string (VArray [VString (config cfg); VString (hex_encode idc)]);
  timeout_ms := GET_MEMBERSHIP_TIMEOUT_MS |}.

Definition request_type (req : RlnGifterRequest.t) : string :=
  from_utf8_lossy (RlnGifterRequest.authentication_type req).

(** The verifier configured for the request answered [v]; it was shown the
    rate that is registered and the operator's config. *)
Definition judged (cfg : ServerCfg) (req : RlnGifterRequest.t) (l : Lp E) (v : Verdict.t)
    (l' : Lp E) : Prop :=
  exists module conf verify_json reply,
    auth_verifiers cfg !! request_type req = Some (module, conf)
    /\ to_string_fields (VerifyRequest.to_fields
         (verify_request conf req (request_type req) (effective_rate cfg req))) = Ok verify_json
    /\ call_module_json cur module VERIFY_METHOD (VArray [VString verify_json])
         AUTH_VERIFY_TIMEOUT_MS l = (Ok reply, l')
    /\ parse_verdict reply = Ok v
    /\ lp_ext [verify_call module verify_json] l l'.

(** Who may be given a membership, and on which credential. *)
Inductive authorized_by (cfg : ServerCfg) (req : RlnGifterRequest.t) (l : Lp E)
    : option string -> Lp E -> Prop :=
| auth_open : auth_verifiers cfg = ∅ -> authorized_by cfg req l None l
| auth_plain v l' :
    judged cfg req l v l' -> Verdict.ok v = true -> Verdict.nullifier v = None ->
    authorized_by cfg req l None l'
| auth_key v n l' :
    judged cfg req l v l' -> Verdict.ok v = true -> Verdict.nullifier v = Some n ->
    normal_nullifier (to_lowercase (trim n)) ->
    authorized_by cfg req l (Some (key_of (request_type req) (to_lowercase (trim n)))) l'.

(** A refusal before any registration: an error without membership. *)
Definition refusal (request_id : string) (auth_success : bool) (r : RlnGifterResponse.t) : Prop :=
  exists msg, r = failure_response request_id auth_success msg.

(** What a request may touch besides the lp client. *)
Record frame (w w' : World E) : Prop := {
  frame_server : SERVER w' = SERVER w;
  frame_serving : SERVING w' = SERVING w;
  frame_workers : workers w' = workers w
}.

Lemma frame_refl w : frame w w.
Proof. by constructor. Qed.
Lemma frame_trans w1 w2 w3 : frame w1 w2 -> frame w2 w3 -> frame w1 w3.
Proof. intros [] []. constructor; congruence. Qed.
Lemma frame_lp l w : frame w (set_lp l w).
Proof. by constructor. Qed.
Lemma frame_fs f w : frame w (set_fs f w).
Proof. by constructor. Qed.
Lemma frame_consumed c w : frame w (set_consumed c w).
Proof. by constructor. Qed.
Hint Resolve frame_refl frame_lp frame_fs frame_consumed : gifter.

Definition verify_calls (cs : list LpCall) : Prop :=
  cs = [] \/ exists module verify_json, cs = [verify_call module verify_json].

Context {UL : UnicodeLaws U}.

Lemma claim_nullifier_spec id ty module n (w : World E) :
  let '(r, w') := claim_nullifier id ty module n w in
  lp w' = lp w /\ fs w' = fs w /\ frame w w'
  /\ match r with
     | Err resp => refusal id false resp /\ consumed w' = consumed w
     | Ok key =>
         normal_nullifier (to_lowercase (trim n))
         /\ key = Some (key_of ty (to_lowercase (trim n)))
         /\ (key_of ty (to_lowercase (trim n)) ∉ consumed w)
         /\ consumed w' = {[key_of ty (to_lowercase (trim n))]} ∪ consumed w
     end.
Proof.
  unfold claim_nullifier. destruct (_ || _) eqn:Hn.
  { cbn. repeat split; try done. by eexists. }
  apply normalised in Hn. unfold reserve, bind, get, modify, ret.
  destruct (bool_decide _) eqn:Hin; cbn.
  - repeat split; try done. by eexists.
  - apply bool_decide_eq_false in Hin. repeat split; try apply Hn; done.
Qed.

Lemma on_lp_eq {A} (m : M (Lp E) A) w : on_lp m w = ((m (lp w)).1, set_lp (m (lp w)).2 w).
Proof. unfold on_lp, zoom. by destruct (m (lp w)). Qed.

Lemma authorize_spec cfg req (w : World E) :
  let '(r, w') := authorize cur cfg req (request_type req) (effective_rate cfg req) w in
  fs w' = fs w /\ frame w w'
  /\ match r with
     | Err resp =>
         refusal (RlnGifterRequest.request_id req) false resp /\ consumed w' = consumed w
         /\ exists cs, lp_ext cs (lp w) (lp w') /\ verify_calls cs
     | Ok None => authorized_by cfg req (lp w) None (lp w') /\ consumed w' = consumed w
     | Ok (Some key) =>
         authorized_by cfg req (lp w) (Some key) (lp w')
         /\ (key ∉ consumed w) /\ consumed w' = {[key]} ∪ consumed w
     end.
Proof.
  assert (Href : forall id b msg, refusal id b (failure_response id b msg)) by (by eexists).
  assert (Hnil : exists cs, lp_ext cs (lp w) (lp w) /\ verify_calls cs).
  { exists []. split; [apply lp_ext_refl|by left]. }
  unfold authorize. case_bool_decide as Hopen.
  { cbn. auto using auth_open with gifter. }
  destruct (auth_verifiers cfg !! request_type req) as [[module conf]|] eqn:Hv; [|cbn; auto with gifter].
  destruct (to_string_fields _) as [verify_json|e] eqn:Hj; [|cbn; auto with gifter].
  unfold bind at 1. rewrite on_lp_eq.
  pose proof (call_module_json_ext cur module VERIFY_METHOD (VArray [VString verify_json])
    AUTH_VERIFY_TIMEOUT_MS (lp w)) as Hc.
  destruct (call_module_json _ _ _ _ _ _) as [r l'] eqn:Hcall. cbn [fst snd].
  destruct Hc as (cs & He & Hcs).
  assert (Hex : exists cs, lp_ext cs (lp w) (lp (set_lp l' w)) /\ verify_calls cs).
  { exists cs. split; [done|]. destruct Hcs as [[-> _]| ->]; [by left|right; by eexists _, _]. }
  destruct r as [reply|e]; [|cbn; auto with gifter].
  destruct Hcs as [[_ Hf]|Hcs]; [done|]. rewrite Hcs in He.
  destruct (parse_verdict reply) as [v|e] eqn:Hp; [|cbn; auto with gifter].
  assert (Hjudged : judged cfg req (lp w) v l') by (by exists module, conf, verify_json, reply).
  destruct (Verdict.ok v) eqn:Hok; cbn [negb]; [|cbn; auto with gifter].
  destruct (Verdict.nullifier v) as [n|] eqn:Hn.
  - pose proof (claim_nullifier_spec (RlnGifterRequest.request_id req) (request_type req) module n
      (set_lp l' w)) as Hclaim.
    destruct (claim_nullifier _ _ _ _ _) as [[key|resp] w']; destruct Hclaim as (Hl & Hfs & Hfr & Hr);
      pose proof (frame_trans _ _ _ (frame_lp l' w) Hfr) as Hfr'.
    + destruct Hr as (Hnorm & -> & Hfresh & Hcons). split; [done|]. split; [done|].
      rewrite Hl. split; [|done]. by eapply auth_key.
    + split; [done|]. split; [done|]. destruct Hr as [Hr ->]. split; [done|]. split; [done|].
      by rewrite Hl.
  - cbn. split; [done|]. split; [auto with gifter|]. split; [|done]. by eapply auth_plain.
Qed.
End Spec.

(** ** Specification of the registration *)

Section RegisterSpec.
Context {E : Type} {H : LpHost E} {J : SerdeJson} {X : HexCrate} {U : UnicodeTables}.
Context (cur : ThreadId).

(** The membership reported for a confirmed leaf. *)
Definition gift (cfg : ServerCfg) (tx : list byte) (leaf : Z) : MembershipAllocationSuccess.t := {|
  MembershipAllocationSuccess.leaf_index := leaf;
  MembershipAllocationSuccess.merkle_root := [];
  MembershipAllocationSuccess.block_number := 0;
  MembershipAllocationSuccess.transaction_hash := tx;
  MembershipAllocationSuccess.config_account_id := Some (config cfg) |}.

Definition call_register (cfg : ServerCfg) (idc : list byte) (rate : Z) :=
  call_module_json cur RLN_MODULE "register_member"
    (VArray [VString (config cfg); VString (wallet cfg); VString (hex_encode idc); num rate])
    REGISTER_TIMEOUT_MS.

Definition call_get (cfg : ServerCfg) (idc : list byte) :=
  call_module_json cur RLN_MODULE "get_membership"
    (VArray [VString (config cfg); VString (hex_encode idc)]) GET_MEMBERSHIP_TIMEOUT_MS.

(** The outcome of a registration, the calls it made and the state after it:
    the submission failed; or it was answered, and the registry then showed
    the leaf, or did not until the budget was spent. *)
Inductive registered (cfg : ServerCfg) (idc : list byte) (rate : Z) (l : Lp E)
    : result MembershipAllocationSuccess.t RegisterError -> list LpCall -> Lp E -> Prop :=
| reg_not_submitted e cs l' :
    call_register cfg idc rate l = (Err e, l') ->
    cs = [] \/ cs = [register_call cfg idc rate] ->
    registered cfg idc rate l (Err (NotSubmitted e)) cs l'
| reg_confirmed reply l1 cs m l2 leaf l' :
    call_register cfg idc rate l = (Ok reply, l1) ->
    Forall (eq (get_call cfg idc)) cs ->
    call_get cfg idc l2 = (Ok m, l') -> confirmed_leaf m = Some leaf ->
    registered cfg idc rate l (Ok (gift cfg (tx_hash_of reply) leaf))
      (register_call cfg idc rate :: cs) l'
| reg_unconfirmed reply l1 cs msg l' :
    call_register cfg idc rate l = (Ok reply, l1) ->
    Forall (eq (get_call cfg idc)) cs ->
    clock_of l1 + CONFIRM_BUDGET <= clock_of l' ->
    registered cfg idc rate l (Err (Unconfirmed msg)) (register_call cfg idc rate :: cs) l'.

Lemma call_get_ext cfg idc l :
  exists cs, lp_ext cs l (call_get cfg idc l).2 /\ Forall (eq (get_call cfg idc)) cs.
Proof.
  unfold call_get. pose proof (call_module_json_ext cur RLN_MODULE "get_membership"
    (VArray [VString (config cfg); VString (hex_encode idc)]) GET_MEMBERSHIP_TIMEOUT_MS l) as Hc.
  destruct (call_module_json _ _ _ _ _ _) as [r l'].
  destruct Hc as (cs & He & [[-> _]| ->]); eexists; (split; [exact He|]); repeat constructor.
Qed.

Lemma confirm_loop_spec fuel cfg idc tx deadline l r l' :
  confirm_loop cur fuel cfg (hex_encode idc) tx deadline l = (Some r, l') ->
  exists cs, lp_ext cs l l' /\ Forall (eq (get_call cfg idc)) cs
    /\ match r with
       | Ok s => exists l2 m leaf, call_get cfg idc l2 = (Ok m, l')
           /\ confirmed_leaf m = Some leaf /\ s = gift cfg tx leaf
       | Err e => exists msg, e = Unconfirmed msg /\ deadline <= clock_of l'
       end.
Proof.
  revert l. induction fuel as [|fuel IH]; intros l; [done|]. cbn [confirm_loop].
  fold (call_get cfg idc). unfold bind at 1.
  destruct (call_get_ext cfg idc l) as (cs & He & Hcs).
  destruct (call_get cfg idc l) as [m l1] eqn:Hg. cbn [snd] in He.
  destruct (result_ok m ≫= confirmed_leaf) as [leaf|] eqn:Hleaf.
  - intros [= <- <-]. exists cs. split; [done|]. split; [done|].
    destruct m as [m|]; [|done]. by exists l, m, leaf.
  - unfold bind at 1, get. destruct (_ <=? _) eqn:Hd.
    + intros [= <- <-]. bool_to_prop. exists cs. split; [done|]. split; [done|]. by eexists.
    + unfold bind, host, zoom, modify. intros Hr. apply IH in Hr as (cs' & He' & Hcs' & Hr).
      exists (cs ++ cs'). split; [|split; [by apply Forall_app|done]].
      eapply lp_ext_trans; [exact He|]. apply (lp_ext_trans [] cs' _ _ _ (lp_ext_env _ l1) He').
Qed.

Lemma register_spec fuel cfg idc rate l r l' :
  register cur fuel cfg idc rate l = (Some r, l') ->
  exists cs, lp_ext cs l l' /\ registered cfg idc rate l r cs l'.
Proof.
  unfold register. fold (call_register cfg idc rate). unfold bind at 1.
  pose proof (call_module_json_ext cur RLN_MODULE "register_member"
    (VArray [VString (config cfg); VString (wallet cfg); VString (hex_encode idc); num rate])
    REGISTER_TIMEOUT_MS l) as Hc.
  fold (call_register cfg idc rate l) in Hc.
  destruct (call_register cfg idc rate l) as [[reply|e] l1] eqn:Hreg;
    destruct Hc as (cs & He & Hcs).
  - destruct Hcs as [[_ Hf]| ->]; [done|]. unfold bind, get. intros Hr.
    apply confirm_loop_spec in Hr as (cs' & He' & Hcs' & Hr). exists (register_call cfg idc rate :: cs').
    split; [by apply (lp_ext_trans _ _ _ _ _ He He')|].
    destruct r as [s|e].
    + destruct Hr as (l2 & m & leaf & Hg & Hl & ->). by eapply reg_confirmed.
    + destruct Hr as (msg & -> & Hd). by eapply reg_unconfirmed.
  - intros [= <- <-]. exists cs. split; [done|]. apply reg_not_submitted; [done|].
    destruct Hcs as [[? _]|?]; auto.
Qed.

(** The polls a confirmation needs at most. *)
Definition CONFIRM_POLLS : nat := 76.

Lemma confirm_loop_total `{!LpHostLaws E H} fuel cfg idc_hex tx deadline l :
  deadline - clock_of l <= (Z.of_nat fuel - 1) * CONFIRM_POLL -> (0 < fuel)%nat ->
  exists r l', confirm_loop cur fuel cfg idc_hex tx deadline l = (Some r, l').
Proof.
  revert l. induction fuel as [|fuel IH]; intros l Hd Hf; [lia|]. cbn [confirm_loop].
  unfold bind at 1.
  pose proof (call_module_json_clock cur RLN_MODULE "get_membership"
    (VArray [VString (config cfg); VString idc_hex]) GET_MEMBERSHIP_TIMEOUT_MS l) as Hc.
  destruct (call_module_json _ _ _ _ _ _) as [m l1]. cbn [snd] in Hc.
  destruct (result_ok m ≫= confirmed_leaf); [by eexists _, _|].
  unfold bind at 1, get. destruct (_ <=? _) eqn:Hn; [by eexists _, _|]. bool_to_prop.
  unfold bind, host, zoom, modify. cbn.
  pose proof (now_pass CONFIRM_POLL (env l1) ltac:(done)) as Hp.
  unfold clock_of in *. destruct fuel as [|fuel]; [lia|].
  apply IH; [|lia]. cbn. lia.
Qed.

Lemma register_total `{!LpHostLaws E H} fuel cfg idc rate l :
  (CONFIRM_POLLS <= fuel)%nat ->
  exists r l', register cur fuel cfg idc rate l = (Some r, l').
Proof.
  intros Hf. unfold register. unfold bind at 1. destruct (call_module_json _ _ _ _ _ _) as [[reply|e] l1];
    [|by eexists _, _].
  unfold bind, get. apply confirm_loop_total; unfold clock_of, CONFIRM_BUDGET, CONFIRM_POLL, SECOND,
    CONFIRM_POLLS in *; lia.
Qed.
End RegisterSpec.

(** ** Refinement: [handle_request] implements the specification *)

Section Handled.
Context {E : Type} {H : LpHost E} {J : SerdeJson} {X : HexCrate} {U : UnicodeTables}.
Context (cur : ThreadId).

(** What the registration's outcome does to the reserved credential: kept and
    written to the store when a transaction may exist, given back otherwise. *)
Definition settled (cfg : ServerCfg) (key : option string)
    (r : result MembershipAllocationSuccess.t RegisterError) (w w' : World E) : Prop :=
  match key, r with
  | Some k, Ok _ | Some k, Err (Unconfirmed _) =>
      consumed w' = {[k]} ∪ consumed w
      /\ fs w' = append_nullifier (fs w) (nullifiers_path cfg) k
  | _, _ => consumed w' = consumed w /\ fs w' = fs w
  end.

Definition gift_response (request_id : string)
    (r : result MembershipAllocationSuccess.t RegisterError) : RlnGifterResponse.t := {|
  RlnGifterResponse.request_id := request_id;
  RlnGifterResponse.auth_success := true;
  RlnGifterResponse.error := None;
  RlnGifterResponse.success := result_ok r;
  RlnGifterResponse.failure :=
    match r with
    | Ok _ => None
    | Err e => Some {| MembershipAllocationFailure.error_message := message e |}
    end |}.

Inductive handled (buf : list byte) (w : World E) : RlnGifterResponse.t -> World E -> Prop :=
| handled_undecodable e resp :
    RlnGifterRequest.decode buf = Err e -> refusal "N/A" false resp ->
    handled buf w resp w
| handled_refused req b resp cs w' :
    RlnGifterRequest.decode buf = Ok req ->
    refusal (RlnGifterRequest.request_id req) b resp ->
    lp_ext cs (lp w) (lp w') -> verify_calls cs ->
    fs w' = fs w -> consumed w' = consumed w -> frame w w' ->
    handled buf w resp w'
| handled_gift req cfg key l1 r cs w' :
    RlnGifterRequest.decode buf = Ok req ->
    length (RlnGifterRequest.identity_commitment req) = 32%nat ->
    SERVER w = Some cfg ->
    authorized_by cur cfg req (lp w) key l1 ->
    (forall k, key = Some k -> k ∉ consumed w) ->
    registered cur cfg (RlnGifterRequest.identity_commitment req) (effective_rate cfg req) l1
      r cs (lp w') ->
    lp_ext cs l1 (lp w') ->
    settled cfg key r w w' -> frame w w' ->
    handled buf w (gift_response (RlnGifterRequest.request_id req) r) w'.

Lemma settle_spec cfg req key r (w : World E) :
  let '(resp, w') := settle cfg req key r w in
  resp = gift_response (RlnGifterRequest.request_id req) r
  /\ lp w' = lp w /\ frame w w'
  /\ fs w' = match key, r with
             | Some k, Ok _ | Some k, Err (Unconfirmed _) =>
                 append_nullifier (fs w) (nullifiers_path cfg) k
             | _, _ => fs w
             end
  /\ consumed w' = match key, r with
                   | Some k, Err (NotSubmitted _) => consumed w ∖ {[k]}
                   | _, _ => consumed w
                   end.
Proof.
  destruct r as [s|[m|m]], key as [k|]; cbn; try (split; [done|]; split; [done|];
    split; [by constructor|]; by split).
  unfold rollback, modify, bind, ret, consumed. destruct (CONSUMED_NULLIFIERS w) as [set|] eqn:Ec; cbn;
    (split; [done|]; split; [done|]; split; [by constructor|]; split; [done|]).
  - done.
  - rewrite Ec. cbn. set_solver.
Qed.

Context {UL : UnicodeLaws U}.

Lemma handle_request_handled fuel buf (w : World E) resp w' :
  handle_request cur fuel buf w = (Some resp, w') -> handled buf w resp w'.
Proof.
  assert (Href : forall id b msg, refusal id b (failure_response id b msg)) by (by eexists).
  unfold handle_request. destruct (RlnGifterRequest.decode buf) as [req|e] eqn:Hdec.
  2:{ intros [= <- <-]. by eapply handled_undecodable. }
  destruct (_ =? 32)%nat eqn:Hlen; cbn [negb].
  2:{ intros [= <- <-]. eapply (handled_refused _ _ _ _ _ []); eauto using lp_ext_refl, frame_refl.
      by left. }
  unfold bind at 1, get. destruct (SERVER w) as [cfg|] eqn:Hsrv.
  2:{ intros [= <- <-]. eapply (handled_refused _ _ _ _ _ []); eauto using lp_ext_refl, frame_refl.
      by left. }
  fold (request_type req). unfold bind at 1.
  pose proof (authorize_spec cur cfg req w) as Ha.
  destruct (authorize _ _ _ _ _ _) as [[key|resp0] w1]; destruct Ha as (Hfs & Hfr & Ha).
  2:{ intros [= <- <-]. destruct Ha as (Hr & Hc & cs & He & Hcs). by eapply handled_refused. }
  unfold bind at 1. rewrite on_lp_eq.
  destruct (register _ _ _ _ _ (lp w1)) as [[r|] l2] eqn:Hreg; [|done]. cbn [fst snd].
  apply register_spec in Hreg as (cs & He & Hr). unfold bind.
  pose proof (settle_spec cfg req key r (set_lp l2 w1)) as Hs.
  destruct (settle _ _ _ _ _) as [resp1 w2]. destruct Hs as (-> & Hl & Hfr2 & Hfs2 & Hc2).
  intros [= <- <-]. change (lp (set_lp l2 w1)) with l2 in Hl. subst l2.
  assert (Hfr' : frame w w2) by (eapply frame_trans, frame_trans; [done|apply frame_lp|done]).
  assert (Hau : authorized_by cur cfg req (lp w) key (lp w1)) by (destruct key; apply Ha).
  apply Nat.eqb_eq in Hlen.
  eapply handled_gift; eauto.
  - intros k ->. apply Ha.
  - change (fs (set_lp (lp w2) w1)) with (fs w1) in Hfs2.
    change (consumed (set_lp (lp w2) w1)) with (consumed w1) in Hc2.
    rewrite Hfs in Hfs2. unfold settled.
    destruct key as [k|]; [destruct Ha as (_ & Hk & Hc)|destruct Ha as (_ & Hc)];
      rewrite Hc in Hc2; destruct r as [s|[m|m]]; rewrite ?Hfs2, ?Hc2; (split; [|done]); try done.
    set_solver.
Qed.

(** With enough fuel for the polls every request is answered. *)
Lemma handle_request_total `{!LpHostLaws E H} fuel buf (w : World E) :
  (CONFIRM_POLLS <= fuel)%nat ->
  exists resp w', handle_request cur fuel buf w = (Some resp, w').
Proof.
  intros Hf. unfold handle_request. destruct (RlnGifterRequest.decode buf) as [req|e]; [|by eexists _, _].
  destruct (negb _); [by eexists _, _|]. unfold bind at 1, get.
  destruct (SERVER w) as [cfg|]; [|by eexists _, _]. unfold bind at 1.
  destruct (authorize _ _ _ _ _ _) as [[key|resp0] w1]; [|by eexists _, _].
  unfold bind at 1. rewrite on_lp_eq.
  destruct (register_total cur fuel cfg (RlnGifterRequest.identity_commitment req)
    (effective_rate cfg req) (lp w1) Hf) as (r & l2 & ->). cbn [fst snd]. unfold bind.
  destruct (settle _ _ _ _ _). by eexists _, _.
Qed.
End Handled.
