(* ===== verification/VerifierKeys.v ===== *)
(** * The credentials of the reference verifiers in the gifter's store

    What [EthAuth] and [KeycardAuth] put into a verdict passes the gifter's
    normalisation unchanged and makes keys that the store returns after a
    restart. *)
From S2P Require Import Prelude RustStd Nullifiers Json Crates JsonInstance Attest AuthVector.
From S2P Require Import Verifiers Lp Server GiftSpec.

(** Text of lowercase hexadecimal digits, with an [x] allowed. *)
Definition plain_byte (b : byte) : bool := is_hex_lower b || bool_decide (b = x78).

Section Plain.
Context {U : UnicodeTables}.

Lemma plain_char b :
  plain_byte b = true ->
  u8 b < 128 /\ lower_stable (u8 b) /\ is_whitespace (u8 b) = false /\ is_control (u8 b) = false.
Proof.
  intros Hb. assert (Hr : u8 b < 128 /\ to_lower (u8 b) = [u8 b] /\ is_whitespace (u8 b) = false
    /\ is_control (u8 b) = false) by (revert Hb; by destruct b; vm_compute).
  destruct Hr as (H1 & H2 & H3 & H4). repeat split; try done. lia.
Qed.

Lemma plain_normal s :
  s <> "" -> forallb plain_byte (str_bytes s) = true ->
  to_lowercase (trim s) = s /\ normal_nullifier s.
Proof.
  intros Hne Hp%forallb_is_true.
  assert (Ha : is_ascii s) by (eapply Forall_impl; [exact Hp|]; intros b Hb; by apply plain_char).
  destruct (is_ascii_chars s Ha) as [Hv Hc].
  assert (Hl : Forall lower_stable (chars s)).
  { rewrite Hc, Forall_fmap. eapply Forall_impl; [exact Hp|]. intros b Hb. by apply plain_char. }
  assert (Hclean : forall c, c ∈ chars s -> is_whitespace c = false /\ is_control c = false).
  { rewrite Hc. intros c (b & -> & Hb)%list_elem_of_fmap. rewrite Forall_forall in Hp.
    by apply plain_char, Hp. }
  split; [|by constructor]. unfold trim. rewrite trim_list_id.
  - rewrite of_chars_chars by done. by apply to_lowercase_stable.
  - intros c Hh. apply Hclean. destruct (chars s); [done|]. injection Hh as ->. apply list_elem_of_here.
  - intros c Hh. by apply Hclean, last_Some_elem_of.
Qed.

Context {X : HexCrate} {XL : HexLaws X}.

Lemma hex_plain bs : forallb plain_byte (str_bytes (hex_encode bs)) = true.
Proof.
  apply forallb_forall. intros b Hb. pose proof (hex_encode_digits bs) as Hd.
  rewrite forallb_forall in Hd. unfold plain_byte. by rewrite (Hd b Hb).
Qed.

(** A vector named in lowercase letters, digits and dashes survives the store. *)
Definition name_byte (b : byte) : bool :=
  ((97 <=? u8 b) && (u8 b <=? 122)) || ((48 <=? u8 b) && (u8 b <=? 57)) || (u8 b =? 45).

Lemma name_char b :
  name_byte b = true ->
  u8 b < 128 /\ to_lower (u8 b) = [u8 b] /\ is_whitespace (u8 b) = false /\ (u8 b =? 10) = false.
Proof. by destruct b; vm_compute. Qed.

Lemma storable_name ty : forallb name_byte (str_bytes ty) = true -> storable_type ty.
Proof.
  intros Hp%forallb_is_true.
  assert (Ha : is_ascii ty) by (eapply Forall_impl; [exact Hp|]; intros b Hb; by apply name_char).
  destruct (is_ascii_chars ty Ha) as [Hv Hc].
  assert (Hcs : forall c, c ∈ chars ty -> lower_stable c /\ is_whitespace c = false /\ c <> 10).
  { rewrite Hc. intros c (b & -> & Hb)%list_elem_of_fmap. rewrite Forall_forall in Hp.
    apply Hp, name_char in Hb as (Hlt & Hlow & Hws & Hnl). bool_to_prop.
    split; [|done]. split; [lia|done]. }
  constructor; [done| | |].
  - apply Forall_forall. intros c Hin. by apply Hcs.
  - intros Hin. by apply Hcs in Hin as (_ & _ & ?).
  - intros c Hh. apply Hcs. destruct (chars ty); [done|]. injection Hh as ->. apply list_elem_of_here.
Qed.

Lemma storable_eth : storable_type ETH_ALLOWLIST_AUTH_TYPE.
Proof. apply storable_name. by vm_compute. Qed.

Lemma storable_keycard : storable_type KEYCARD_ATTEST_AUTH_TYPE.
Proof. apply storable_name. by vm_compute. Qed.
End Plain.

Section Keys.
Context {K : K256} {Hs : Hashes} {X : HexCrate} {U : UnicodeTables}.
Context {HL : HashLaws Hs} {XL : HexLaws X} {UL : UnicodeLaws U}.

Lemma eth_nullifier req v n :
  EthAuth.verify req = Ok v -> Verdict.nullifier v = Some n ->
  exists bs, n = "0x" +:+ hex_encode bs.
Proof.
  rewrite eth_verify_unfold. destruct (eth_allowlist _); [|done].
  destruct (hex_decode _) as [sig|]; [|by intros [= <-]].
  destruct (hex_decode _) as [idc|]; [|by intros [= <-]].
  destruct (EthAuth.recover_signer idc sig) as [signer|] eqn:Hr; [|by intros [= <-]].
  case_bool_decide; intros [= <-] Hn; [|done]. injection Hn as <-.
  unfold EthAuth.recover_signer in Hr. destruct (negb _); [done|].
  destruct (ok_or _ _); [|done]. destruct (map_err _ _); [|done]. destruct (map_err _ _); [|done].
  injection Hr as <-. by eexists.
Qed.

Lemma keycard_nullifier req v n :
  KeycardAuth.verify req = Ok v -> Verdict.nullifier v = Some n ->
  exists k, n = hex_encode (nullifier k).
Proof.
  unfold KeycardAuth.verify. destruct (KeycardAuth.parse_trusted_cas _); [|done].
  destruct (bool_decide _); [done|].
  destruct (hex_decode _) as [p|]; [|by intros [= <-]].
  destruct (hex_decode _) as [idc|]; [|by intros [= <-]].
  destruct (parse_attestation p) as [att|]; [|by intros [= <-]].
  destruct (verify_attestation _ _ _) as [k|] eqn:Hv; [|by intros [= <-]].
  intros [= <-] Hn. injection Hn as <-. exists (ident_pub att).
  apply verify_attestation_sound in Hv. by rewrite Hv.
Qed.

(** The nullifiers the reference verifiers give pass the normalisation and make
    keys the store returns. *)
Lemma eth_normal req v n :
  EthAuth.verify req = Ok v -> Verdict.nullifier v = Some n ->
  to_lowercase (trim n) = n /\ normal_nullifier n
  /\ canonical_key (key_of ETH_ALLOWLIST_AUTH_TYPE n).
Proof.
  intros Hv Hn. destruct (eth_nullifier req v n Hv Hn) as [bs ->].
  destruct (plain_normal ("0x" +:+ hex_encode bs)) as [Ht Hnorm]; [done| |].
  { rewrite str_bytes_app, forallb_app, hex_plain. done. }
  split; [done|]. split; [done|]. by apply key_canonical, Hnorm; apply storable_eth.
Qed.

Lemma keycard_normal req v n :
  KeycardAuth.verify req = Ok v -> Verdict.nullifier v = Some n ->
  to_lowercase (trim n) = n /\ normal_nullifier n
  /\ canonical_key (key_of KEYCARD_ATTEST_AUTH_TYPE n).
Proof.
  intros Hv Hn. destruct (keycard_nullifier req v n Hv Hn) as [k ->].
  destruct (plain_normal (hex_encode (nullifier k))) as [Ht Hnorm]; [|apply hex_plain|].
  { intros E. pose proof (hex_encode_length (nullifier k)) as Hl. rewrite E in Hl.
    unfold nullifier in Hl. rewrite keccak256_length in Hl. done. }
  split; [done|]. split; [done|]. by apply key_canonical, Hnorm; apply storable_keycard.
Qed.

(** C12: the credentials of the reference verifiers are safe in the gifter's
    store: whatever they accept, the nullifier passes the gifter's
    normalisation unchanged, its key is one the store returns as it was
    written (so a spent address or card stays spent over a restart), and no
    key of one vector is a key of the other. *)
Theorem reference_credentials_survive :
  (forall req v n, EthAuth.verify req = Ok v -> Verdict.nullifier v = Some n ->
     to_lowercase (trim n) = n /\ normal_nullifier n
     /\ canonical_key (key_of ETH_ALLOWLIST_AUTH_TYPE n))
  /\ (forall req v n, KeycardAuth.verify req = Ok v -> Verdict.nullifier v = Some n ->
     to_lowercase (trim n) = n /\ normal_nullifier n
     /\ canonical_key (key_of KEYCARD_ATTEST_AUTH_TYPE n))
  /\ (forall n n', key_of ETH_ALLOWLIST_AUTH_TYPE n <> key_of KEYCARD_ATTEST_AUTH_TYPE n').
Proof.
  split; [exact eth_normal|]. split; [exact keycard_normal|]. intros n n' E. discriminate E.
Qed.
End Keys.

(** ** Witness *)

Import Toy HexInstance.

Definition toy_request : VerifyRequest.t := {|
  VerifyRequest.auth_type := KEYCARD_ATTEST_AUTH_TYPE;
  VerifyRequest.payload_hex := hex_encode tlv;
  VerifyRequest.id_commitment_hex := hex_encode commitment;
  VerifyRequest.rate := 100;
  VerifyRequest.config := Some (json_obj
    [("trusted_cas", VArray [VString (hex_encode STATUS_PRODUCTION_CA)])]) |}.

Lemma reference_credentials_survive_witness :
  exists n, KeycardAuth.verify toy_request = Ok (Verdict.accept (Some n))
    /\ canonical_key (U := caseless_tables) (key_of KEYCARD_ATTEST_AUTH_TYPE n).
Proof.
  exists (hex_encode (nullifier STATUS_PRODUCTION_CA)). split; [vm_compute; reflexivity|].
  destruct (reference_credentials_survive (U := caseless_tables)) as (_ & Hk & _).
  refine (proj2 (proj2 (Hk toy_request (Verdict.accept (Some _)) _ _ eq_refl))).
  vm_compute. reflexivity.
Defined.
