(* ===== verification/GiftProps.v ===== *)
(** * Properties of the gifter node

    The answers, the authorisation and the settlement of one request; the life
    of the credentials over runs of requests, re-serves and restarts; the entry
    point [serve]. *)
From S2P Require Import Prelude RustStd Wire Nullifiers Json Crates JsonInstance AuthVector Lp.
From S2P Require Import Server GiftSpec.

(** ** [serve] *)

Section ServeSpec.
Context {E : Type} {H : LpHost E} {J : SerdeJson} {U : UnicodeTables}.
Context (cur : ThreadId).

Definition member_module (v : Value) : string := default "" (get_str v "module").

Definition verifiers_of (map : list (string * Value)) (acc : gmap string (string * option Value)) :=
  fold_left (fun acc p => <[p.1 := (member_module p.2, vget p.2 "config")]> acc) map acc.

Lemma ensure_client_ext t (s : Lp E) :
  let '(r, s') := ensure_client cur t s in
  lp_ext [] s s' /\ (is_ok r = true -> is_Some (lookup_client t s')).
Proof.
  unfold ensure_client. unfold bind at 1, get. destruct (have_client t s) eqn:Hh.
  - apply have_client_true in Hh. cbn. split; [apply lp_ext_refl|done].
  - apply have_client_false in Hh. destruct (on_owner_thread cur s); cbn.
    + unfold bind. pose proof (create_client_spec t s Hh) as Hc.
      destruct (create_client t s) as [[] s']; destruct Hc as [He Hc]; by cbn.
    + split; [apply lp_ext_refl|done].
Qed.

Lemma read_verifiers_spec map acc l :
  let '(r, l') := read_verifiers cur map acc l in
  lp_ext [] l l'
  /\ match r with
     | Ok vs => vs = verifiers_of map acc
         /\ Forall (fun p => member_module p.2 <> ""
                             /\ is_Some (lookup_client (member_module p.2) l')) map
     | Err _ => True
     end.
Proof.
  revert acc l. induction map as [|[ty v] map IH]; intros acc l.
  { cbn. split; [apply lp_ext_refl|]. by split. }
  cbn [read_verifiers]. fold (member_module v).
  destruct (is_empty (member_module v)) eqn:Hm; [cbn; by split; [apply lp_ext_refl|]|].
  unfold bind. pose proof (ensure_client_ext (member_module v) l) as Hc.
  destruct (ensure_client cur (member_module v) l) as [r l1]. destruct Hc as [He Hc].
  destruct r as [[]|e]; cbn [map_err]; [|by split].
  specialize (IH (<[ty:=(member_module v, vget v "config")]> acc) l1).
  destruct (read_verifiers _ _ _ _) as [r l2]. destruct IH as [He2 IH].
  pose proof (lp_ext_trans _ _ _ _ _ He He2) as He'. split; [done|].
  destruct r as [vs|e]; [|done]. destruct IH as [-> IH]. split; [done|].
  constructor; [|done]. cbn. split; [by intros E'; rewrite E' in Hm|].
  destruct (Hc eq_refl) as [p Hp]. exists p. by apply He2.
Qed.

(** The members of [authVerifiers], when it may be used at all. *)
Definition verifier_members (a : Value) : option (list (string * Value)) :=
  match vget a "authVerifiers" with
  | None | Some VNull => Some []
  | Some (VObject map) => Some map
  | Some _ => None
  end.

Lemma parse_verifiers_spec a l :
  let '(r, l') := parse_verifiers cur a l in
  lp_ext [] l l'
  /\ match r with
     | Ok vs => exists map, verifier_members a = Some map /\ vs = verifiers_of map ∅
         /\ Forall (fun p => member_module p.2 <> ""
                             /\ is_Some (lookup_client (member_module p.2) l')) map
     | Err _ => True
     end.
Proof.
  unfold parse_verifiers, verifier_members.
  destruct (vget a "authVerifiers") as [[| | | | |map]|];
    try (cbn; split; [apply lp_ext_refl|]; solve [done|by exists []]).
  pose proof (read_verifiers_spec map ∅ l) as Hr. destruct (read_verifiers _ _ _ _) as [[vs|e] l'];
    destruct Hr as [He Hr]; (split; [done|]); [|done]. exists map. by destruct Hr.
Qed.

(** The configuration [serve] reads from its arguments. *)
Definition serve_config (a : Value) (vs : gmap string (string * option Value)) : option ServerCfg :=
  match get_str a "config", get_str a "wallet" with
  | Some c, Some wl => Some {|
      config := c; wallet := wl; auth_verifiers := vs;
      nullifiers_path := default "" (get_str a "consumedNullifiersPath");
      max_rate_limit := default DEFAULT_MAX_RATE (get_u64 a "maxRateLimit") |}
  | _, _ => None
  end.

(** [serve] either fails with the node as it was, or installs the
    configuration it was given; then it mounts the protocol unless it did
    before. *)
Inductive served (args : string) (w : World E) : result Value string -> World E -> Prop :=
| served_rejected e w' :
    lp_ext [] (lp w) (lp w') -> fs w' = fs w -> frame w w' ->
    CONSUMED_NULLIFIERS w' = CONSUMED_NULLIFIERS w ->
    served args w (Err e) w'
| served_configured a vs cfg l1 r w' :
    from_str args = Ok a ->
    parse_verifiers cur a (lp w) = (Ok vs, l1) ->
    serve_config a vs = Some cfg ->
    (exists cs, lp_ext cs l1 (lp w')) ->
    fs w' = fs w -> SERVER w' = Some cfg ->
    CONSUMED_NULLIFIERS w' = Some (consumed w ∪ load_nullifiers (fs w) (nullifiers_path cfg)) ->
    (SERVING w' = is_ok r
     /\ (r = Ok (json_obj [("mounted", VBool true)]) \/ SERVING w = false /\ is_ok r = false)
     /\ workers w' = (workers w + if SERVING w then 0 else if is_ok r then 1 else 0)%nat) ->
    served args w r w'.

Lemma serve_served args w :
  let '(r, w') := serve cur args w in served args w r w'.
Proof.
  assert (Hrej : forall e, served args w (Err e) w).
  { intros e. apply served_rejected; try done. apply lp_ext_refl. }
  unfold serve. unfold bind at 1, ret at 1. destruct (from_str args) as [a|e] eqn:Ha; cbn [map_err];
    [|apply Hrej].
  unfold bind at 1, ret at 1. destruct (get_str a "config") as [c|] eqn:Hc; cbn [ok_or]; [|apply Hrej].
  unfold bind at 1, ret at 1. destruct (get_str a "wallet") as [wl|] eqn:Hw; cbn [ok_or]; [|apply Hrej].
  unfold bind at 1. rewrite on_lp_eq.
  pose proof (parse_verifiers_spec a (lp w)) as Hv.
  destruct (parse_verifiers cur a (lp w)) as [[vs|e] l1] eqn:Hp; cbn [fst snd]; destruct Hv as [He Hv].
  2:{ apply served_rejected; try done. }
  set (path := default "" (get_str a "consumedNullifiersPath")).
  set (cfg := Build_ServerCfg _ _ _ _ _).
  assert (Hcfg : serve_config a vs = Some cfg) by (unfold serve_config; by rewrite Hc, Hw).
  unfold bind at 1, modify at 1. unfold bind at 1, modify at 1. unfold bind at 1, get.
  set (w2 := set_server _ _). unfold bind at 1, modify at 1.
  change (SERVING w2) with (SERVING w). destruct (SERVING w) eqn:Hsv; cbn [negb].
  - unfold bind, ret. eapply served_configured; try done. { exists []. apply lp_ext_refl. }
    rewrite Hsv. cbn. split; [done|]. split; [by left|]. lia.
  - unfold bind at 1 2. rewrite on_lp_eq. change (lp (set_serving true w2)) with l1.
    pose proof (call_libp2p_ext cur "mountProtocol" (VArray [VString RLN_GIFTER_CODEC])
      MOUNT_TIMEOUT_MS l1) as Hm.
    destruct (call_libp2p _ _ _ _ _) as [[v|e] l2]; destruct Hm as (cs & Hm & _); cbn [fst snd];
      unfold bind, modify, ret.
    + eapply served_configured; try done; [by exists cs|]. rewrite Hsv. cbn.
      split; [done|]. split; [by left|]. lia.
    + eapply served_configured; try done; [by exists cs|]. rewrite Hsv. cbn.
      split; [done|]. split; [by right|]. lia.
Qed.
End ServeSpec.

(** ** The life of the credentials *)

(** The credential a request leaves spent: the one it was authorised by, when
    a registration was confirmed or may still land. *)
Definition spent_key `{LpHost E, SerdeJson, HexCrate, UnicodeTables} (cur : ThreadId)
    (fuel : nat) (buf : list byte) (w : World E) : option string :=
  match RlnGifterRequest.decode buf, SERVER w with
  | Ok req, Some cfg =>
      if negb (length (RlnGifterRequest.identity_commitment req) =? 32)%nat then None
      else
        match authorize cur cfg req (request_type req) (effective_rate cfg req) w with
        | (Ok (Some key), w1) =>
            match register cur fuel cfg (RlnGifterRequest.identity_commitment req)
                    (effective_rate cfg req) (lp w1) with
            | (Some (Ok _), _) | (Some (Err (Unconfirmed _)), _) => Some key
            | _ => None
            end
        | _ => None
        end
  | _, _ => None
  end.

Section Life.
Context {E : Type} {H : LpHost E} {J : SerdeJson} {X : HexCrate} {U : UnicodeTables}
  {UL : UnicodeLaws U}.
Context (cur : ThreadId).

Lemma request_spends fuel buf (w : World E) resp w' :
  handle_request cur fuel buf w = (Some resp, w') ->
  frame w w'
  /\ match spent_key cur fuel buf w with
     | None => consumed w' = consumed w /\ fs w' = fs w
     | Some k =>
         (k ∉ consumed w) /\ consumed w' = {[k]} ∪ consumed w
         /\ exists cfg req l1, SERVER w = Some cfg
            /\ authorized_by cur cfg req (lp w) (Some k) l1
            /\ fs w' = append_nullifier (fs w) (nullifiers_path cfg) k
     end.
Proof.
  unfold handle_request, spent_key. destruct (RlnGifterRequest.decode buf) as [req|e] eqn:Hdec.
  2:{ intros [= <- <-]. by split. }
  destruct (SERVER w) as [cfg|] eqn:Hsrv; destruct (_ =? 32)%nat; cbn [negb];
    try (intros [= <- <-]; split; [by constructor|done]);
    unfold bind at 1, get; rewrite Hsrv; [|intros [= <- <-]; split; [by constructor|done]].
  fold (request_type req). unfold bind at 1.
  pose proof (authorize_spec cur cfg req w) as Ha.
  destruct (authorize _ _ _ _ _ _) as [[key|resp0] w1]; destruct Ha as (Hfs & Hfr & Ha).
  2:{ intros [= <- <-]. split; [done|]. by destruct Ha as (_ & -> & _). }
  unfold bind at 1. rewrite on_lp_eq.
  destruct (register _ _ _ _ _ (lp w1)) as [[r|] l2]; [|done]. cbn [fst snd]. unfold bind.
  pose proof (settle_spec cfg req key r (set_lp l2 w1)) as Hs.
  destruct (settle _ _ _ _ _) as [resp1 w2]. destruct Hs as (-> & Hl & Hfr2 & Hfs2 & Hc2).
  intros [= <- <-].
  split; [eapply frame_trans, frame_trans; [done|apply frame_lp|done]|].
  change (fs (set_lp l2 w1)) with (fs w1) in Hfs2.
  change (consumed (set_lp l2 w1)) with (consumed w1) in Hc2. rewrite Hfs in Hfs2.
  destruct key as [k|]; [destruct Ha as (Hau & Hk & Hc)|destruct Ha as (Hau & Hc); rewrite Hc in Hc2];
    rewrite ?Hc in Hc2; destruct r as [s|[m|m]]; rewrite ?Hfs2, ?Hc2; try done.
  - split; [done|]. split; [done|]. by exists cfg, req, (lp w1).
  - split; [|done]. clear -Hk. set_solver.
  - split; [done|]. split; [done|]. by exists cfg, req, (lp w1).
Qed.

(** A node that keeps its store at [p], with vectors whose names survive it. *)
Definition cfg_ok (p : string) (cfg : ServerCfg) : Prop :=
  nullifiers_path cfg = p
  /\ forall ty mc, auth_verifiers cfg !! ty = Some mc -> storable_type ty.

(** A new process: the statics are empty, the files stay. *)
Definition restarted (l : Lp E) (w : World E) : World E :=
  {| lp := l; fs := fs w; SERVER := None; CONSUMED_NULLIFIERS := None; SERVING := false;
     workers := 0 |}.

(** What happens to a node, with the credentials the requests leave spent. *)
Inductive run (p : string) : World E -> list string -> World E -> Prop :=
| run_nil w : run p w [] w
| run_request w ks w1 fuel buf resp w2 :
    run p w ks w1 -> handle_request cur fuel buf w1 = (Some resp, w2) ->
    run p w (ks ++ option_list (spent_key cur fuel buf w1)) w2
| run_serve w ks w1 owner args r w2 :
    run p w ks w1 -> serve owner args w1 = (r, w2) ->
    (forall cfg, SERVER w2 = Some cfg -> cfg_ok p cfg) ->
    run p w ks w2
| run_host w ks w1 l :
    run p w ks w1 -> run p w ks (set_lp l w1)
| run_restart w ks w1 l : run p w ks w1 -> run p w ks (restarted l w1).

(** The store at [p] is usable and in shape. *)
Definition store_usable (p : string) (f : Fs) : Prop :=
  p <> "" /\ fs_readable f p = true /\ fs_appendable f p = true /\ store_ok f p.

Lemma append_usable p f k :
  store_usable p f -> canonical_key k ->
  store_usable p (append_nullifier f p k)
  /\ load_nullifiers (append_nullifier f p k) p = {[k]} ∪ load_nullifiers f p.
Proof.
  intros (Hp & Hr & Ha & Hok) Hk. destruct (append_load f p k Hp Hr Ha Hok Hk) as [Hl Hs].
  split; [|done]. split; [done|]. unfold append_nullifier, append_file in *.
  by repeat case_match.
Qed.

Lemma authorized_canonical p cfg req l k l' :
  cfg_ok p cfg -> authorized_by cur cfg req l (Some k) l' -> canonical_key k.
Proof.
  intros [_ Ht] Ha. inversion Ha as [| |v n l1 (module & conf & vj & reply & Hv & _) Hok Hn Hnorm]; subst.
  apply key_canonical; [by eapply Ht|done].
Qed.

(** The invariant of a run: everything spent is in the store, and a configured
    node has the whole store in its set. *)
Record life (p : string) (ks : list string) (w0 w : World E) : Prop := {
  life_store : store_usable p (fs w);
  life_cfg cfg : SERVER w = Some cfg ->
    cfg_ok p cfg /\ load_nullifiers (fs w) p ⊆ consumed w;
  life_keys : load_nullifiers (fs w) p = list_to_set ks ∪ load_nullifiers (fs w0) p;
  life_nodup : NoDup ks;
  life_fresh k : k ∈ ks -> k ∉ load_nullifiers (fs w0) p
}.

Lemma life_request p ks w0 w fuel buf resp w' :
  life p ks w0 w -> handle_request cur fuel buf w = (Some resp, w') ->
  life p (ks ++ option_list (spent_key cur fuel buf w)) w0 w'.
Proof.
  intros [Hst Hcfg Hk Hnd Hfr] Hr. apply request_spends in Hr as [Hf Hr].
  destruct (spent_key _ _ _ _) as [k|]; cbn [option_list].
  - destruct Hr as (Hnew & Hc & cfg & req & l1 & Hs & Hau & Hfs).
    destruct (Hcfg cfg Hs) as [Hok Hsub]. pose proof (authorized_canonical _ _ _ _ _ _ Hok Hau) as Hcan.
    destruct Hok as [Hpath Htypes]. rewrite Hpath in Hfs.
    destruct (append_usable p (fs w) k Hst Hcan) as [Hst' Hl'].
    constructor; rewrite ?Hfs, ?Hc; try done.
    + intros cfg' Hs'. rewrite (frame_server _ _ Hf), Hs in Hs'. injection Hs' as <-.
      split; [done|]. rewrite Hl'. clear -Hsub. set_solver.
    + rewrite Hl', Hk, list_to_set_app_L. cbn. clear. set_solver.
    + apply NoDup_app. split; [done|]. split; [|apply NoDup_singleton].
      intros k' Hk' ->%list_elem_of_singleton. clear -Hk' Hk Hsub Hnew. set_solver.
    + intros k' [Hk'|Hk'%list_elem_of_singleton]%elem_of_app; [auto|subst k'].
      clear -Hk Hsub Hnew. set_solver.
  - destruct Hr as [Hc Hfs]. rewrite app_nil_r.
    constructor; rewrite ?Hfs, ?Hc, ?(frame_server _ _ Hf); done.
Qed.

Lemma life_serve p ks w0 w owner args r w' :
  life p ks w0 w -> serve owner args w = (r, w') ->
  (forall cfg, SERVER w' = Some cfg -> cfg_ok p cfg) ->
  life p ks w0 w'.
Proof.
  intros [Hst Hcfg Hk Hnd Hfr] Hs Hok. pose proof (serve_served owner args w) as Hsv.
  rewrite Hs in Hsv. destruct Hsv as [e w' _ Hfs Hf Hc|a vs cfg l1 r w' _ _ _ _ Hfs Hsrv Hc _].
  - constructor; rewrite ?Hfs; try done. intros cfg. rewrite (frame_server _ _ Hf).
    unfold consumed. rewrite Hc. apply Hcfg.
  - constructor; rewrite ?Hfs; try done. intros cfg' Hs'. split; [auto|].
    rewrite Hsrv in Hs'. injection Hs' as <-. destruct (Hok _ Hsrv) as [Hp _].
    unfold consumed at 1. rewrite Hc, Hp. cbn. set_solver.
Qed.

Lemma run_life p w0 ks w :
  SERVER w0 = None -> store_usable p (fs w0) -> run p w0 ks w -> life p ks w0 w.
Proof.
  intros H0 Hst Hr. induction Hr as [w|w ks w1 fuel buf resp w2 _ IH Hq|w ks w1 owner args r w2 _ IH Hs Hok
    |w ks w1 l _ IH|w ks w1 l _ IH].
  - constructor; [done|congruence| |constructor|by intros ? ?%not_elem_of_nil]. cbn. set_solver.
  - by eapply life_request; [apply IH|].
  - by eapply life_serve; [apply IH|..].
  - destruct (IH H0 Hst) as [I1 I2 I3 I4 I5]. by constructor.
  - destruct (IH H0 Hst) as [I1 I2 I3 I4 I5]. by constructor.
Qed.
End Life.

(** ** Properties of one request *)

Section RequestProperties.
Context {E : Type} {H : LpHost E} {J : SerdeJson} {X : HexCrate} {U : UnicodeTables}
  {UL : UnicodeLaws U}.
Context (cur : ThreadId).

Lemma effective_rate_capped cfg req : effective_rate cfg req <= max_rate_limit cfg.
Proof. unfold effective_rate. destruct (_ <? _) eqn:E'; bool_to_prop; lia. Qed.

Lemma authorized_ext cfg req l key l' :
  authorized_by cur cfg req l key l' ->
  exists cs, lp_ext cs l l' /\ verify_calls cs /\ (auth_verifiers cfg <> ∅ -> cs <> []).
Proof.
  intros [Ho|v l1 (module & conf & vj & reply & _ & _ & _ & _ & He)|
          v n l1 (module & conf & vj & reply & _ & _ & _ & _ & He)].
  - exists []. split; [apply lp_ext_refl|]. split; [by left|done].
  - eexists. split; [exact He|]. split; [right; by eexists _, _|done].
  - eexists. split; [exact He|]. split; [right; by eexists _, _|done].
Qed.

Lemma registered_calls cfg idc rate l r cs l' :
  registered cur cfg idc rate l r cs l' ->
  exists gets, Forall (eq (get_call cfg idc)) gets
    /\ (cs = [] \/ cs = register_call cfg idc rate :: gets).
Proof. intros [e cs' l1 _ [-> | ->]| |]; eauto. Qed.

(** C10: a request of a configured node implements the specification: with fuel
    for 76 polls the handler returns, and its answer and effects are those of
    [handled]. *)
Theorem request_refines_spec `{!LpHostLaws E H} fuel buf (w : World E) :
  (CONFIRM_POLLS <= fuel)%nat ->
  exists resp w', handle_request cur fuel buf w = (Some resp, w') /\ handled cur buf w resp w'.
Proof.
  intros Hf. destruct (handle_request_total cur fuel buf w Hf) as (resp & w' & Hr).
  exists resp, w'. split; [done|]. by eapply handle_request_handled.
Qed.

(** C6: no membership is bought without authority.  The calls of a request are
    at most one verifier call, then at most one [register_member], then polls;
    a [register_member] is made only for a 32-byte commitment, after an
    accepting verdict of the configured verifier (or on an open gifter), and at
    the rate the verifier was shown, which is under the operator's cap. *)
Theorem registration_authorised fuel buf (w : World E) resp w' :
  handle_request cur fuel buf w = (Some resp, w') ->
  exists asked bought polls,
    calls (lp w') = calls (lp w) ++ asked ++ bought ++ polls
    /\ verify_calls asked
    /\ (bought ++ polls = []
        \/ exists req cfg key l1,
             RlnGifterRequest.decode buf = Ok req
             /\ length (RlnGifterRequest.identity_commitment req) = 32%nat
             /\ SERVER w = Some cfg
             /\ authorized_by cur cfg req (lp w) key l1
             /\ (auth_verifiers cfg <> ∅ -> asked <> [])
             /\ effective_rate cfg req <= max_rate_limit cfg
             /\ bought = [register_call cfg (RlnGifterRequest.identity_commitment req)
                            (effective_rate cfg req)]
             /\ Forall (eq (get_call cfg (RlnGifterRequest.identity_commitment req))) polls).
Proof.
  intros Hr. apply handle_request_handled in Hr; [|exact UL].
  destruct Hr as [e resp Hd Hr|req b resp cs w' Hd Hr He Hv Hfs Hc Hf
    |req cfg key l1 r cs w' Hd Hlen Hs Ha Hk Hr He Hset Hf].
  - exists [], [], []. rewrite !app_nil_r. split; [done|]. split; [by left|by left].
  - exists cs, [], []. rewrite app_nil_r. split; [apply He|]. split; [done|by left].
  - destruct (authorized_ext _ _ _ _ _ Ha) as (asked & Hea & Hva & Hne).
    pose proof (lp_ext_trans _ _ _ _ _ Hea He) as [_ Hcalls _].
    destruct (registered_calls _ _ _ _ _ _ _ Hr) as (polls & Hp & [-> | ->]).
    + exists asked, [], []. rewrite !app_nil_r in *. split; [done|]. split; [done|by left].
    + eexists asked, [_], polls. split; [exact Hcalls|]. split; [done|]. right.
      exists req, cfg, key, l1. repeat (split; [done|]). split; [apply effective_rate_capped|done].
Qed.

Lemma confirmed_success fuel buf (w : World E) resp w' s :
  handle_request cur fuel buf w = (Some resp, w') ->
  RlnGifterResponse.success resp = Some s ->
  exists req cfg l m,
    RlnGifterRequest.decode buf = Ok req
    /\ RlnGifterResponse.request_id resp = RlnGifterRequest.request_id req
    /\ RlnGifterResponse.auth_success resp = true
    /\ SERVER w = Some cfg
    /\ call_get cur cfg (RlnGifterRequest.identity_commitment req) l = (Ok m, lp w')
    /\ get_bool m "registered" = Some true
    /\ get_u64 m "leaf_index" = Some (MembershipAllocationSuccess.leaf_index s)
    /\ MembershipAllocationSuccess.config_account_id s = Some (config cfg).
Proof.
  intros Hr Hsuc. apply handle_request_handled in Hr; [|exact UL].
  destruct Hr as [e resp Hd [msg ->]|req b resp cs w' Hd [msg ->] He Hv Hfs Hc Hf
    |req cfg key l1 r cs w' Hd Hlen Hs Ha Hk Hr He Hset Hf]; [done|done|].
  destruct r as [s'|e]; [|done]. cbn in Hsuc. injection Hsuc as ->.
  inversion Hr as [|reply l2 cs' m l3 leaf l' Hreg Hpolls Hget Hleaf|]; subst.
  exists req, cfg, l3, m. repeat (split; [done|]). unfold confirmed_leaf in Hleaf.
  case_bool_decide as Hb; [done|]. cbn. split; [|by split].
  destruct (get_bool m "registered") as [[]|]; try done; by destruct Hb.
Qed.

(** C11: a membership is reported only when the registry confirmed it: the last
    poll said [registered] and gave the leaf that is reported, under the
    operator's config account. *)
Theorem success_is_confirmed fuel buf (w : World E) resp w' s :
  handle_request cur fuel buf w = (Some resp, w') ->
  RlnGifterResponse.success resp = Some s ->
  exists req cfg l m,
    RlnGifterRequest.decode buf = Ok req
    /\ RlnGifterResponse.request_id resp = RlnGifterRequest.request_id req
    /\ RlnGifterResponse.auth_success resp = true
    /\ SERVER w = Some cfg
    /\ call_get cur cfg (RlnGifterRequest.identity_commitment req) l = (Ok m, lp w')
    /\ get_bool m "registered" = Some true
    /\ get_u64 m "leaf_index" = Some (MembershipAllocationSuccess.leaf_index s)
    /\ MembershipAllocationSuccess.config_account_id s = Some (config cfg).
Proof. apply confirmed_success. Qed.

(** Every response names its request ([N/A] for bytes that are none), and
    is a membership, a refusal before registration or a failed registration:
    never a success with an error, and never a failed authentication with a
    membership. *)
Theorem response_shape fuel buf (w : World E) resp w' :
  handle_request cur fuel buf w = (Some resp, w') ->
  RlnGifterResponse.request_id resp
  = match RlnGifterRequest.decode buf with
    | Ok req => RlnGifterRequest.request_id req
    | Err _ => "N/A"
    end
  /\ (is_Some (RlnGifterResponse.success resp) <-> RlnGifterResponse.failure resp = None)
  /\ (is_Some (RlnGifterResponse.success resp) ->
      RlnGifterResponse.auth_success resp = true /\ RlnGifterResponse.error resp = None)
  /\ (RlnGifterResponse.auth_success resp = false -> is_Some (RlnGifterResponse.error resp)).
Proof.
  intros Hr. apply handle_request_handled in Hr; [|exact UL].
  destruct Hr as [e resp -> [msg ->]|req b resp cs w' -> [msg ->] He Hv Hfs Hc Hf
    |req cfg key l1 r cs w' -> Hlen Hs Ha Hk Hr He Hset Hf].
  1,2: cbn; split; [done|]; split; [by split; [intros [? ?]|]|]; split; [by intros [? ?]|eauto].
  destruct r as [s|e]; cbn; (split; [done|]); (split; [split; [done|eauto]|]); try done.
Qed.

Lemma judged_deterministic cfg req l v l1 v' l1' :
  judged cur cfg req l v l1 -> judged cur cfg req l v' l1' -> v = v' /\ l1 = l1'.
Proof.
  intros (m & c & vj & r & H1 & H2 & H3 & H4 & _) (m' & c' & vj' & r' & H1' & H2' & H3' & H4' & _).
  rewrite H1 in H1'. injection H1' as <- <-. rewrite H2 in H2'. injection H2' as <-.
  rewrite H3 in H3'. injection H3' as <- <-. rewrite H4 in H4'. by injection H4' as <-.
Qed.

(** C9: a credential is accepted once.  When the verifier accepts with a
    nullifier whose normal form is already consumed for that vector, whatever
    its casing and surrounding white space, the request is refused before any
    registration, the error names the credential, and neither the set nor the
    store changes. *)
Theorem used_credential_refused fuel buf (w : World E) req cfg v n l1 :
  RlnGifterRequest.decode buf = Ok req ->
  length (RlnGifterRequest.identity_commitment req) = 32%nat ->
  SERVER w = Some cfg -> auth_verifiers cfg <> ∅ ->
  judged cur cfg req (lp w) v l1 -> Verdict.ok v = true -> Verdict.nullifier v = Some n ->
  normal_nullifier (to_lowercase (trim n)) ->
  key_of (request_type req) (to_lowercase (trim n)) ∈ consumed w ->
  exists w', handle_request cur fuel buf w
    = (Some (failure_response (RlnGifterRequest.request_id req) false
         ("credential already used: " +:+ key_of (request_type req) (to_lowercase (trim n)))), w')
    /\ consumed w' = consumed w /\ fs w' = fs w /\ lp w' = l1.
Proof.
  intros Hd Hlen Hs Hne (module & conf & vj & reply & Hv & Hj & Hc & Hp & _) Hok Hn Hnorm Hin.
  unfold handle_request. rewrite Hd, Hlen. cbn [Nat.eqb negb]. unfold bind at 1, get. rewrite Hs.
  fold (request_type req). unfold bind at 1, authorize. rewrite bool_decide_false by done.
  rewrite Hv, Hj. unfold bind at 1. rewrite on_lp_eq, Hc. cbn [fst snd]. rewrite Hp, Hok, Hn. cbn [negb].
  unfold claim_nullifier.
  assert (Hclean : is_empty (to_lowercase (trim n))
    || existsb (fun c => is_whitespace c || is_control c) (chars (to_lowercase (trim n))) = false).
  { destruct Hnorm as [_ Hne' _ Hcl]. apply orb_false_iff. split; [by apply is_empty_false|].
    apply not_true_is_false. intros (c & Hc' & Hb)%existsb_exists.
    apply list_elem_of_In, Hcl in Hc' as [H1 H2]. by rewrite H1, H2 in Hb. }
  rewrite Hclean. unfold reserve, bind, get, modify, ret.
  fold (key_of (request_type req) (to_lowercase (trim n))).
  change (consumed (set_lp l1 w)) with (consumed w). rewrite bool_decide_true by done.
  eexists. split; [reflexivity|]. by repeat split.
Qed.

(** C8: the settlement of a reserved credential.  A confirmed registration and
    one that may still land keep it consumed and append it to the store; a
    registration that was not submitted gives it back, leaving set and store as
    they were; the client is told which. *)
Theorem reservation_settled fuel buf (w : World E) req cfg k w1 r l2 :
  RlnGifterRequest.decode buf = Ok req ->
  length (RlnGifterRequest.identity_commitment req) = 32%nat ->
  SERVER w = Some cfg ->
  authorize cur cfg req (request_type req) (effective_rate cfg req) w = (Ok (Some k), w1) ->
  register cur fuel cfg (RlnGifterRequest.identity_commitment req) (effective_rate cfg req) (lp w1)
    = (Some r, l2) ->
  exists w', handle_request cur fuel buf w
      = (Some (gift_response (RlnGifterRequest.request_id req) r), w')
    /\ (k ∉ consumed w)
    /\ match r with
       | Ok _ | Err (Unconfirmed _) =>
           consumed w' = {[k]} ∪ consumed w
           /\ fs w' = append_nullifier (fs w) (nullifiers_path cfg) k
       | Err (NotSubmitted _) => consumed w' = consumed w /\ fs w' = fs w
       end.
Proof.
  intros Hd Hlen Hs Ha Hr. unfold handle_request. rewrite Hd, Hlen. cbn [Nat.eqb negb].
  unfold bind at 1, get. rewrite Hs. fold (request_type req).
  pose proof (authorize_spec cur cfg req w) as Hspec. unfold bind at 1. rewrite Ha in *.
  destruct Hspec as (Hfs & _ & _ & Hk & Hc). unfold bind at 1. rewrite on_lp_eq, Hr. cbn [fst snd].
  unfold bind. pose proof (settle_spec cfg req (Some k) r (set_lp l2 w1)) as Hset.
  destruct (settle _ _ _ _ _) as [resp w2]. destruct Hset as (-> & _ & _ & Hfs2 & Hc2).
  change (fs (set_lp l2 w1)) with (fs w1) in Hfs2.
  change (consumed (set_lp l2 w1)) with (consumed w1) in Hc2. rewrite Hfs in Hfs2. rewrite Hc in Hc2.
  exists w2. split; [done|]. split; [done|].
  destruct r as [s|[m|m]]; rewrite Hfs2, Hc2; try done. split; [|done]. clear -Hk. set_solver.
Qed.
End RequestProperties.

(** ** Properties of the confirmation *)

Section ConfirmProperties.
Context {E : Type} {H : LpHost E} {J : SerdeJson} {X : HexCrate}.
Context (cur : ThreadId).

Lemma confirm_loop_more fuel fuel' cfg idc_hex tx deadline l r l' :
  (fuel <= fuel')%nat ->
  confirm_loop cur fuel cfg idc_hex tx deadline l = (Some r, l') ->
  confirm_loop cur fuel' cfg idc_hex tx deadline l = (Some r, l').
Proof.
  revert fuel' l. induction fuel as [|fuel IH]; intros [|fuel'] l Hle; try done; [lia|].
  cbn [confirm_loop]. unfold bind at 1 4. destruct (call_module_json _ _ _ _ _ _) as [m l1].
  destruct (result_ok m ≫= confirmed_leaf); [done|]. unfold bind at 1 3, get.
  destruct (_ <=? _); [done|]. unfold bind, host, zoom, modify. apply IH. lia.
Qed.

(** Waiting for the registry ends.  However the registry answers, the loop
    returns within 76 polls of two seconds, more fuel changes nothing, and it
    gives up only when the 150 seconds are over. *)
Theorem confirmation_terminates {HL : LpHostLaws E H} fuel cfg idc rate l :
  (CONFIRM_POLLS <= fuel)%nat ->
  exists r l', register cur fuel cfg idc rate l = (Some r, l')
    /\ register cur CONFIRM_POLLS cfg idc rate l = (Some r, l')
    /\ (forall msg, r = Err (Unconfirmed msg) -> clock_of l + CONFIRM_BUDGET <= clock_of l').
Proof.
  intros Hf. destruct (register_total cur CONFIRM_POLLS cfg idc rate l ltac:(done)) as (r & l' & Hr).
  exists r, l'. split; [|split; [done|]].
  - revert Hr. unfold register. unfold bind at 1 3. destruct (call_module_json _ _ _ _ _ _) as [[reply|e] l1];
      [|done]. unfold bind, get. by apply confirm_loop_more.
  - intros msg ->. apply register_spec in Hr as (cs & _ & Hr).
    inversion Hr as [| |reply l1 cs' msg' l2 Hreg _ Hd]; subst.
    pose proof (call_module_json_clock cur RLN_MODULE "register_member"
      (VArray [VString (config cfg); VString (wallet cfg); VString (hex_encode idc); num rate])
      REGISTER_TIMEOUT_MS l) as Hc. fold (call_register cur cfg idc rate l) in Hc.
    rewrite Hreg in Hc. cbn [snd] in Hc. lia.
Qed.
End ConfirmProperties.

(** ** Properties of runs *)

Section RunProperties.
Context {E : Type} {H : LpHost E} {J : SerdeJson} {X : HexCrate} {U : UnicodeTables}
  {UL : UnicodeLaws U}.
Context (cur : ThreadId).

(** No credential is spent twice.  Over any run of requests, re-serves,
    restarts and whatever the host does, with a usable store and vector names
    that survive it, the credentials left spent are distinct, none was in the
    store before, and all are in the store at the end. *)
Theorem no_credential_spent_twice p (w0 : World E) ks w :
  SERVER w0 = None -> store_usable p (fs w0) -> run cur p w0 ks w ->
  NoDup ks
  /\ (forall k, k ∈ ks -> k ∉ load_nullifiers (fs w0) p)
  /\ load_nullifiers (fs w) p = list_to_set ks ∪ load_nullifiers (fs w0) p.
Proof. intros H0 Hst Hr. by destruct (run_life cur p w0 ks w H0 Hst Hr). Qed.

Lemma unanswered_grows fuel buf (w : World E) w' :
  handle_request cur fuel buf w = (None, w') -> consumed w ⊆ consumed w'.
Proof.
  unfold handle_request. destruct (RlnGifterRequest.decode buf) as [req|e]; [|done].
  destruct (negb _); [done|]. unfold bind at 1, get. destruct (SERVER w) as [cfg|]; [|done].
  fold (request_type req). unfold bind at 1. pose proof (authorize_spec cur cfg req w) as Ha.
  destruct (authorize _ _ _ _ _ _) as [[key|resp0] w1]; [|done]. destruct Ha as (_ & _ & Ha).
  unfold bind at 1. rewrite on_lp_eq.
  destruct (register _ _ _ _ _ (lp w1)) as [[r|] l2]; cbn [fst snd]; unfold bind.
  - by destruct (settle _ _ _ _ _).
  - intros [= <-]. change (consumed (set_lp l2 w1)) with (consumed w1).
    destruct key; [destruct Ha as (_ & _ & ->)|destruct Ha as (_ & ->)]; clear; set_solver.
Qed.

(** Replay knowledge only grows while the process lives: neither a request,
    answered or still polling, nor a [serve] call, successful or not, removes a
    consumed credential. *)
Theorem consumed_only_grows owner fuel buf args (w : World E) :
  consumed w ⊆ consumed (handle_request cur fuel buf w).2
  /\ consumed w ⊆ consumed (serve owner args w).2.
Proof.
  split.
  - destruct (handle_request cur fuel buf w) as [[resp|] w'] eqn:Hr; cbn;
      [|by eapply unanswered_grows].
    apply request_spends in Hr as [_ Hr].
    destruct (spent_key _ _ _ _); [destruct Hr as (_ & -> & _)|destruct Hr as [-> _]];
      clear; set_solver.
  - pose proof (serve_served owner args w) as Hs. destruct (serve owner args w) as [r w2]. cbn.
    destruct Hs as [e w2 _ _ _ Hc|a vs cfg l1 r w2 _ _ _ _ _ _ Hc _];
      unfold consumed; rewrite Hc; [done|]. cbn. clear. set_solver.
Qed.
End RunProperties.

(** ** Properties of [serve] *)

Section ServeProperties.
Context {E : Type} {H : LpHost E} {J : SerdeJson} {U : UnicodeTables}.

Lemma insert_fold_nonempty map (acc : gmap string (string * option Value)) :
  map <> [] \/ acc <> ∅ -> verifiers_of map acc <> ∅.
Proof.
  revert acc. unfold verifiers_of. induction map as [|p map IH]; intros acc Hne; cbn.
  - by destruct Hne.
  - apply IH. right. apply insert_non_empty.
Qed.

(** How a [serve] whose verifiers cannot be read fails, with the clients it
    leaves: it stops at the first member without a module or without a client,
    and has by then opened clients for the members before it, if they had none. *)
Inductive verifiers_rejected (map : list (string * Value)) (l : Lp E) : string -> Lp E -> Prop :=
| rejected_at pre q post e l' :
    map = pre ++ q :: post ->
    Forall (fun p => member_module p.2 <> "" /\ is_Some (lookup_client (member_module p.2) l')) pre ->
    (member_module q.2 = "" /\ e = "authVerifiers['" +:+ q.1 +:+ "'] needs a module"
     \/ lookup_client (member_module q.2) l' = None
        /\ exists why, e = "authVerifiers['" +:+ q.1 +:+ "']: " +:+ why) ->
    (forall t h, lookup_client t l' = Some h ->
       lookup_client t l = Some h \/ exists p, p ∈ pre /\ member_module p.2 = t) ->
    verifiers_rejected map l e l'.

Lemma create_client_others t t' (s : Lp E) :
  t <> t' -> lookup_client t (create_client t' s).2 = lookup_client t s.
Proof.
  intros Ht. unfold create_client. destruct (cstring t') as [c|]; [|done].
  unfold bind, host, zoom, modify, ret. change (cstring "core") with (Some "core"). cbn [cstring].
  destruct (lp_client_create c "core" (env s)) as [raw e]. destruct (raw =? 0); [reflexivity|].
  cbn [snd]. rewrite lookup_insert_client, decide_False by done. reflexivity.
Qed.

(** [ensure_client] touches one client, and none when it fails. *)
Lemma ensure_client_others cur t t' (s : Lp E) :
  let '(r, s') := ensure_client cur t' s in
  (is_ok r = false \/ t <> t' -> lookup_client t s' = lookup_client t s)
  /\ (is_ok r = false -> lookup_client t' s' = None).
Proof.
  unfold ensure_client, bind at 1, get. destruct (have_client t' s) eqn:Hh; [done|].
  apply have_client_false in Hh. destruct (on_owner_thread cur s); cbn; [|done].
  unfold bind. pose proof (create_client_spec t' s Hh) as Hc. pose proof (create_client_others t t' s) as Ho.
  destruct (create_client t' s) as [[] s']; destruct Hc as [_ Hc]; cbn in *.
  - split; [|done]. intros [|Hne]; [done|by apply Ho].
  - unfold lookup_client in *. by rewrite Hc.
Qed.

Lemma read_verifiers_rejects cur map acc l e l' :
  read_verifiers cur map acc l = (Err e, l') -> verifiers_rejected map l e l'.
Proof.
  revert acc l. induction map as [|[ty v] map IH]; intros acc l; cbn [read_verifiers]; [done|].
  fold (member_module v). destruct (is_empty (member_module v)) eqn:Hm.
  { intros [= <- <-]. apply (rejected_at _ _ [] (ty, v) map); [done|constructor| |by left].
    left. split; [cbn; by destruct (member_module v)|done]. }
  unfold bind. pose proof (ensure_client_ext cur (member_module v) l) as Hc.
  pose proof (fun t => ensure_client_others cur t (member_module v) l) as Ho.
  destruct (ensure_client cur (member_module v) l) as [[[]|why] l1]; cbn [map_err]; destruct Hc as [_ Hc].
  - intros Hr. pose proof (read_verifiers_spec cur map (<[ty:=(member_module v, vget v "config")]> acc) l1) as Hx.
    rewrite Hr in Hx. destruct Hx as [[_ _ Hx] _]. destruct (Hc eq_refl) as [h1 Hh1].
    destruct (IH _ _ Hr) as [pre q post e l' Heq Hpre Hq Hl]. apply (rejected_at _ _ ((ty, v) :: pre) q post); [by rewrite Heq| |done|].
    + constructor; [|done]. cbn. split; [by intros E'; rewrite E' in Hm|]. eauto.
    + intros t h [Ht|(p & Hin & Hp)]%Hl; [|right; exists p; split; [by right|done]].
      destruct (decide (t = member_module v)) as [->|Hne]; [right; exists (ty, v); split; [left|done]|].
      left. rewrite <-(proj1 (Ho t)); [done|by right].
  - intros [= <- <-]. apply (rejected_at _ _ [] (ty, v) map); [done|constructor| |].
    + right. split; [exact (proj2 (Ho "") eq_refl)|by exists why].
    + intros t h Ht. left. rewrite <-(proj1 (Ho t)); [done|by left].
Qed.

Lemma set_lp_id (w : World E) : set_lp (lp w) w = w.
Proof. by destruct w. Qed.

(** C16: [authVerifiers] that is there but malformed fails [serve], whatever else
    is in its arguments: it never degrades to an open gifter.  Of the node only the
    clients can differ afterwards: no module was called, no client is lost, and
    the only new ones are those of the members before the one that is refused,
    which have a module and a client.  The configuration, the credentials, the
    files, the worker and the mounted protocol are as they were. *)
Theorem serve_rejects_malformed cur args a (w : World E) :
  from_str args = Ok a ->
  verifier_members a = None
  \/ (exists map p, verifier_members a = Some map /\ p ∈ map /\ member_module p.2 = "") ->
  exists e l, serve cur args w = (Err e, set_lp l w) /\ lp_ext [] (lp w) l
    /\ match get_str a "config", get_str a "wallet", verifier_members a with
       | None, _, _ => l = lp w /\ e = "missing config"
       | Some _, None, _ => l = lp w /\ e = "missing wallet"
       | Some _, Some _, None => l = lp w /\ e = "authVerifiers must be an object of {type: {module, config?}}"
       | Some _, Some _, Some map => verifiers_rejected map (lp w) e l
       end.
Proof.
  intros Ha Hbad. unfold serve. unfold bind at 1, ret at 1. rewrite Ha. cbn [map_err].
  unfold bind at 1, ret at 1. destruct (get_str a "config") as [c|]; cbn [ok_or];
    [|exists "missing config", (lp w); rewrite set_lp_id; by split_and!; [|apply lp_ext_refl|..]].
  unfold bind at 1, ret at 1. destruct (get_str a "wallet") as [wl|]; cbn [ok_or];
    [|exists "missing wallet", (lp w); rewrite set_lp_id; by split_and!; [|apply lp_ext_refl|..]].
  unfold bind at 1. rewrite on_lp_eq. pose proof (parse_verifiers_spec cur a (lp w)) as Hv.
  assert (Hr : forall map e l, verifier_members a = Some map ->
    parse_verifiers cur a (lp w) = (Err e, l) -> verifiers_rejected map (lp w) e l).
  { unfold parse_verifiers, verifier_members. intros map e l.
    destruct (vget a "authVerifiers") as [[| | | | |m]|]; try done. intros [= ->]. apply read_verifiers_rejects. }
  assert (Hn : verifier_members a = None -> parse_verifiers cur a (lp w)
    = (Err "authVerifiers must be an object of {type: {module, config?}}", lp w)).
  { unfold parse_verifiers, verifier_members. by destruct (vget a "authVerifiers") as [[| | | | |m]|]. }
  destruct (verifier_members a) as [map|] eqn:Hm.
  - destruct (parse_verifiers cur a (lp w)) as [[vs|e] l] eqn:Hp; cbn [fst snd]; destruct Hv as [He Hv].
    + exfalso. destruct Hv as (map' & [= <-] & _ & Hall). destruct Hbad as [|(m & p & [= <-] & Hin & Hemp)]; [done|].
      rewrite Forall_forall in Hall. by destruct (Hall p Hin) as [Hne _].
    + exists e, l. split; [done|]. split; [done|]. by apply Hr.
  - rewrite (Hn eq_refl). cbn [fst snd]. eexists _, (lp w). by split_and!; [|apply lp_ext_refl|..].
Qed.

(** C19: a [serve] that answers [mounted] has installed exactly the
    configuration of its arguments: every member of [authVerifiers] names a
    module with an open client, which worker threads find, no member means an
    open gifter and some member never does, and the stored credentials are
    consumed. *)
Theorem serve_installs cur args v (w : World E) w' :
  serve cur args w = (Ok v, w') ->
  exists a map cfg, from_str args = Ok a /\ verifier_members a = Some map
    /\ serve_config a (verifiers_of map ∅) = Some cfg /\ SERVER w' = Some cfg
    /\ (auth_verifiers cfg = ∅ <-> map = [])
    /\ Forall (fun p => member_module p.2 <> ""
         /\ exists h, forall worker cs l, lp_ext cs (lp w') l ->
              client_ptr worker (member_module p.2) l = (Some h, l)) map
    /\ consumed w' = consumed w ∪ load_nullifiers (fs w) (nullifiers_path cfg)
    /\ SERVING w' = true /\ v = json_obj [("mounted", VBool true)].
Proof.
  intros Hs. pose proof (serve_served cur args w) as Hv. rewrite Hs in Hv.
  inversion Hv as [|a vs cfg l1 r w2 Ha Hp Hcfg (cs & He) Hfs Hsrv Hc (Hsv & Hok & Hw)]; subst.
  pose proof (parse_verifiers_spec cur a (lp w)) as Hspec. rewrite Hp in Hspec.
  destruct Hspec as (_ & map & Hm & -> & Hall). exists a, map, cfg.
  split; [done|]. split; [done|]. split; [done|]. split; [done|]. split; [|split; [|split]].
  - unfold serve_config in Hcfg. destruct (get_str a "config"), (get_str a "wallet"); simplify_eq/=.
    split; [|by intros ->]. intros Hemp. destruct map as [|p map]; [done|].
    exfalso. revert Hemp. apply insert_fold_nonempty. by left.
  - eapply Forall_impl; [exact Hall|]. intros p [Hne [h Hh]]. split; [done|]. exists h.
    intros worker cs' l Hl. apply client_ptr_found, Hl, He, Hh.
  - unfold consumed at 1. by rewrite Hc.
  - split; [by rewrite Hsv|]. destruct Hok as [[= ->]|[_ ?]]; done.
Qed.

(** A sequence of [serve] calls from any threads. *)
Definition serves (l : list (ThreadId * string)) (w : World E) : World E :=
  fold_left (fun w p => (serve p.1 p.2 w).2) l w.

(** The serialised worker is spawned at most once, however often [serve]
    is called, and exists exactly while the node counts as serving; a failed
    mount spawns none and lets a later call try again. *)
Theorem worker_spawned_once l (w : World E) :
  SERVING w = false -> workers w = 0%nat ->
  workers (serves l w) = (if SERVING (serves l w) then 1 else 0)%nat.
Proof.
  intros Hs Hw. assert (Hinv : workers w = (if SERVING w then 1 else 0)%nat) by by rewrite Hs.
  clear Hs Hw. revert w Hinv. induction l as [|[cur args] l IH]; intros w Hinv; [done|].
  apply IH. cbn [fst snd]. pose proof (serve_served cur args w) as Hv. destruct (serve cur args w) as [r w']. cbn [snd].
  destruct Hv as [e w' _ _ Hf _|a vs cfg l1 r w' _ _ _ _ _ _ _ (Hsv & Hok & Hw)].
  - destruct Hf as [_ Hf1 Hf2]. by rewrite Hf1, Hf2.
  - rewrite Hw, Hsv, Hinv. destruct (SERVING w) eqn:E1; cbn.
    + by destruct Hok as [-> |[? _]].
    + by destruct (is_ok r).
Qed.
End ServeProperties.
