(* ===== verification/Hosted.v ===== *)
(** * The reference vectors behind the gifter

    A verifier module as the host runs it: the calls of its handle are answered
    by the module's own dispatcher.  With the two reference modules hosted, a
    membership of the node is traced back to what the requester had to show: a
    signature of an allowlisted address over the commitment, or a card
    attestation under a trusted CA. *)
From S2P Require Import Prelude RustStd Nullifiers Json Crates JsonInstance Attest AuthVector.
From S2P Require Import Wire Verifiers KeycardCapture Lp Hosting Server GiftSpec VerifierKeys.

(** The error texts of the crates are Rust strings. *)
Class TextLaws (K : K256) (X : HexCrate) : Prop := {
  hex_error_text s e : hex_decode s = Err e -> str_valid e;
  slice_error_text s e : signature_from_slice s = Err e -> str_valid e;
  der_error_text s e : signature_from_der s = Err e -> str_valid e;
  recover_error_text m s r e : recover_from_prehash m s r = Err e -> str_valid e;
  sec1_error_text s e : from_sec1_bytes s = Err e -> str_valid e
}.

(** ** The texts of a reply *)

Section Texts.
Context {K : K256} {Hs : Hashes} {X : HexCrate} {U : UnicodeTables}.
Context {XL : HexLaws X} {TL : TextLaws K X}.

(** All errors of a result satisfy [P]. *)
Definition errs {A E} (P : E -> Prop) (r : result A E) : Prop :=
  match r with Ok _ => True | Err e => P e end.
Definition error_valid (e : Error) : Prop := str_valid (error_text e).

Lemma errs_bind {A B E} (P : E -> Prop) (r : result A E) (k : A -> result B E) :
  errs P r -> (forall a, errs P (k a)) -> errs P (let? a := r in k a).
Proof. destruct r; cbn; auto. Qed.

Lemma errs_map {A E F} (P : F -> Prop) (f : E -> F) (r : result A E) :
  errs (fun e => P (f e)) r -> errs P (map_err f r).
Proof. by destruct r. Qed.

Lemma errs_ok_or {A E} (P : E -> Prop) (o : option A) e : P e -> errs P (ok_or o e).
Proof. by destruct o. Qed.

Lemma errs_intro {A E} (P : E -> Prop) (r : result A E) : (forall e, r = Err e -> P e) -> errs P r.
Proof. destruct r; cbn; auto. Qed.

Lemma hex_tag_valid tag : str_valid (hex_tag tag).
Proof. by destruct tag; vm_compute. Qed.

Lemma byte_at_text buf i msg : str_valid msg -> errs error_valid (byte_at buf i msg).
Proof. intros. apply errs_ok_or. unfold error_valid. cbn. valid_text. Qed.

Lemma read_len_text buf i : errs error_valid (read_len buf i).
Proof.
  unfold read_len. apply errs_bind; [apply byte_at_text; by vm_compute|]. intros l0.
  destruct (_ <? _); [done|]. destruct (_ =? 0x81).
  { apply errs_bind; [apply byte_at_text; by vm_compute|done]. }
  destruct (_ =? 0x82); [|by vm_compute].
  apply errs_bind; [apply byte_at_text; by vm_compute|]. intros hi.
  apply errs_bind; [apply byte_at_text; by vm_compute|done].
Qed.

Lemma find_loop_text fuel buf tag i : errs error_valid (find_loop fuel buf tag i).
Proof.
  assert (Hn : error_valid (tag_not_found tag)).
  { unfold error_valid. cbn. pose proof (hex_tag_valid tag). valid_text. }
  revert i. induction fuel as [|fuel IH]; intros i; [done|]. cbn [find_loop].
  destruct (negb _); [done|]. apply errs_bind; [apply read_len_text|]. intros [vlen lhdr].
  destruct (negb _); [by vm_compute|]. by case_bool_decide.
Qed.

Lemma parse_attestation_text tlv : errs error_valid (parse_attestation tlv).
Proof.
  unfold parse_attestation. apply errs_bind; [apply find_loop_text|]. intros [template ?].
  apply errs_bind; [apply find_loop_text|]. intros [cert ?]. destruct (negb _); [by vm_compute|].
  apply errs_bind; [apply find_loop_text|]. intros [? der]. apply errs_bind; [|done].
  apply errs_map, errs_intro. intros e He%der_error_text. unfold error_valid. cbn. valid_text.
Qed.

Lemma verify_attestation_text att cas c : errs error_valid (verify_attestation att cas c).
Proof.
  unfold verify_attestation. apply errs_bind; [apply errs_ok_or; by vm_compute|]. intros recid.
  apply errs_bind.
  { apply errs_map, errs_intro. intros e He%slice_error_text. unfold error_valid. cbn. valid_text. }
  intros sig. apply errs_bind.
  { apply errs_map, errs_intro. intros e He%recover_error_text. unfold error_valid. cbn. valid_text. }
  intros ca. destruct (negb _); [by vm_compute|]. apply errs_bind.
  { apply errs_map, errs_intro. intros e He%sec1_error_text. unfold error_valid. cbn. valid_text. }
  intros ident. case_match; by vm_compute.
Qed.
End Texts.

Section Replies.
Context {K : K256} {Hs : Hashes} {X : HexCrate} {U : UnicodeTables}.
Context {XL : HexLaws X} {TL : TextLaws K X}.

Lemma errs_collect {A B E} (P : E -> Prop) (f : A -> result B E) l :
  (forall a, errs P (f a)) -> errs P (collect f l).
Proof.
  intros Hf. induction l as [|a l IH]; [done|]. cbn. apply errs_bind; [apply Hf|]. intros b.
  by apply errs_bind.
Qed.

Lemma reject_wf m : str_valid m -> reply_wf (Ok (Verdict.reject m)).
Proof. intros Hm. split; [by intros s [= <-]|done]. Qed.

Lemma accept_wf n : str_valid n -> reply_wf (Ok (Verdict.accept (Some n))).
Proof. intros Hn. split; [done|by intros s [= <-]]. Qed.

Lemma recover_signer_text idc sig :
  match EthAuth.recover_signer idc sig with
  | Ok s => exists h, s = "0x" +:+ hex_encode h
  | Err e => str_valid e
  end.
Proof.
  unfold EthAuth.recover_signer. destruct (negb _).
  { cbn [errs]. valid_text. }
  destruct (ok_or _ _) as [recid|e] eqn:Hr; [|].
  2:{ destruct (recovery_id _); [done|]. cbn in Hr. injection Hr as <-. by vm_compute. }
  destruct (signature_from_slice _) as [s|e] eqn:Hs'; cbn [map_err].
  2:{ apply slice_error_text in Hs'. valid_text. }
  destruct (recover_from_prehash _ _ _) as [k|e] eqn:Hk; cbn [map_err].
  2:{ apply recover_error_text in Hk. valid_text. }
  by eexists.
Qed.

Lemma eth_reply_wf req : reply_wf (EthAuth.verify req).
Proof.
  rewrite eth_verify_unfold. destruct (eth_allowlist _) as [al|e] eqn:Hal.
  2:{ assert (Ht : errs str_valid (eth_allowlist (VerifyRequest.config req))).
      { unfold eth_allowlist. apply errs_bind; [apply errs_ok_or; by vm_compute|]. intros es.
        apply errs_bind.
        - apply errs_collect. intros v. unfold EthAuth.allow_entry. case_match; by vm_compute.
        - intros l. case_bool_decide; by vm_compute. }
      by rewrite Hal in Ht. }
  destruct (hex_decode (strip_0x (VerifyRequest.payload_hex req))) as [sig|e] eqn:Hp.
  2:{ apply hex_error_text in Hp. apply reject_wf. valid_text. }
  destruct (hex_decode (strip_0x (VerifyRequest.id_commitment_hex req))) as [idc|e] eqn:Hi.
  2:{ apply hex_error_text in Hi. apply reject_wf. valid_text. }
  pose proof (recover_signer_text idc sig) as Hr.
  destruct (EthAuth.recover_signer idc sig) as [signer|e]; [|apply reject_wf; valid_text].
  destruct Hr as [h ->]. case_bool_decide; [apply accept_wf|apply reject_wf]; valid_text.
Qed.

Lemma keycard_reply_wf req : reply_wf (KeycardAuth.verify req).
Proof.
  unfold KeycardAuth.verify. destruct (KeycardAuth.parse_trusted_cas _) as [cas|e] eqn:Hc.
  2:{ assert (Ht : errs str_valid (KeycardAuth.parse_trusted_cas (VerifyRequest.config req))).
      { unfold KeycardAuth.parse_trusted_cas. apply errs_bind; [apply errs_ok_or; by vm_compute|].
        intros es. apply errs_collect. intros v. unfold KeycardAuth.ca_entry.
        apply errs_bind; [apply errs_ok_or; by vm_compute|]. intros s. apply errs_bind.
        - apply errs_map, errs_intro. intros e' He%hex_error_text. valid_text.
        - intros bs. case_match; by vm_compute. }
      by rewrite Hc in Ht. }
  destruct (bool_decide _); [by vm_compute|].
  destruct (hex_decode (strip_0x (VerifyRequest.payload_hex req))) as [p|e] eqn:Hp.
  2:{ apply hex_error_text in Hp. apply reject_wf. valid_text. }
  destruct (hex_decode (strip_0x (VerifyRequest.id_commitment_hex req))) as [idc|e] eqn:Hi.
  2:{ apply hex_error_text in Hi. apply reject_wf. valid_text. }
  pose proof (parse_attestation_text p) as Hat.
  destruct (parse_attestation p) as [att|e]; [|by apply reject_wf; valid_text].
  pose proof (verify_attestation_text att cas (bound_challenge idc)) as Hv.
  destruct (verify_attestation _ _ _) as [n|e]; [apply accept_wf; valid_text|].
  by apply reject_wf; valid_text.
Qed.

(** A module that hosts one vector answers the requests of its type, and the
    routing error to others. *)
Lemma one_vector_answer {St} (v : AuthVector (M St)) r st :
  (vector_answer [v] r st).1
  = if decide (auth_type v = VerifyRequest.auth_type r) then (verify v r st).1
    else Err ("unknown auth_type '" +:+ VerifyRequest.auth_type r +:+ "' on this module").
Proof. unfold vector_answer, route. cbn. by case_decide. Qed.

Lemma one_vector_wf {St} (v : AuthVector (M St)) r st :
  str_valid (VerifyRequest.auth_type r) -> reply_wf (verify v r st).1 ->
  reply_wf (vector_answer [v] r st).1.
Proof. intros Ht Hr. rewrite one_vector_answer. case_decide; [done|]. cbn. valid_text. Qed.
End Replies.

(** ** Verifier modules behind the lp client *)

Section Hosted.
Context {E : Type} {H : LpHost E} {J : SerdeJson}.

(** In the host's state [e] the handle [p] is a module over [vectors]: its
    verify calls are answered by the dispatcher. *)
Definition hosted (e : E) (p : Z) (vectors : list (AuthVector (M unit))) : Prop :=
  answers e p VERIFY_METHOD (fun args text => text = (dispatch_verify args vectors tt).1).

(** Its verify calls are answered in time. *)
Definition responsive (e : E) (p : Z) : Prop := prompt e p VERIFY_METHOD.

Context {L : SerdeJsonLaws J}.

Lemma dispatch_text (vectors : list (AuthVector (M unit))) vr args :
  from_str_as VerifyRequest.from_value args = Ok (received vr) ->
  (dispatch_verify args vectors tt).1 = verify_reply (vector_answer vectors (received vr) tt).1.
Proof.
  intros Ha. unfold dispatch_verify, mbind, state_bind, bind.
  rewrite (run_verify_answer vectors vr args Ha). by destruct (vector_answer vectors (received vr) tt).
Qed.

Context (cur : ThreadId).

(** The value a verify call brings is the answer of the module's vectors. *)
Lemma hosted_verdict module p vectors vr args tm (l : Lp E) reply l' :
  lookup_client module l = Some p -> hosted (env l) p vectors ->
  verify_request_wf vr -> to_string_fields (VerifyRequest.to_fields vr) = Ok args ->
  reply_wf (vector_answer vectors (received vr) tt).1 ->
  call_module_json cur module VERIFY_METHOD (one_arg args) tm l = (Ok reply, l') ->
  parse_verdict reply = (vector_answer vectors (received vr) tt).1.
Proof.
  intros Hp Hh Hvr Hargs Hr Hc.
  destruct (verify_args vr Hvr) as (args' & Ha & Hv & Hfs). rewrite Hargs in Ha. injection Ha as <-.
  destruct (answered cur module p _ _ args tm l reply l' Hp Hh eq_refl Hv Hc) as (raw & text & Hraw & -> & Hval).
  rewrite (dispatch_text _ _ _ Hfs) in Hraw.
  destruct (verify_reply_text _ Hr) as (Hvt & Hne & v & Hf & Hparse & _).
  rewrite (carried_value _ raw _ v Hraw Hvt Hne Hf) in Hval. by injection Hval as <-.
Qed.

(** A responsive module brings one. *)
Lemma responsive_call module p vectors vr args tm (l : Lp E) :
  lookup_client module l = Some p -> hosted (env l) p vectors -> responsive (env l) p ->
  verify_request_wf vr -> to_string_fields (VerifyRequest.to_fields vr) = Ok args ->
  reply_wf (vector_answer vectors (received vr) tt).1 ->
  exists reply l', call_module_json cur module VERIFY_METHOD (one_arg args) tm l = (Ok reply, l').
Proof.
  intros Hp Hh Hresp Hvr Hargs Hr.
  destruct (verify_args vr Hvr) as (args' & Ha & Hv & Hfs). rewrite Hargs in Ha. injection Ha as <-.
  eapply (prompt_answered cur module p); [done|exact Hh|exact Hresp|done|done|]. intros text ->.
  rewrite (dispatch_text _ _ _ Hfs).
  destruct (verify_reply_text _ Hr) as (Hvt & Hne & v & -> & _). done.
Qed.
End Hosted.

(** ** The node with the reference verifiers *)

Section Reference.
Context {E : Type} {H : LpHost E} {J : SerdeJson} {X : HexCrate} {U : UnicodeTables}
  {K : K256} {Hs : Hashes}.
Context (cur : ThreadId).

(** Every configured verifier is a module of one of the two reference vectors. *)
Record reference_gifter (cfg : ServerCfg) (l : Lp E) : Prop := {
  rg_closed : auth_verifiers cfg <> ∅;
  rg_rate : is_u64 (max_rate_limit cfg);
  rg_module ty module conf : auth_verifiers cfg !! ty = Some (module, conf) ->
    opt_wf conf
    /\ exists p, lookup_client module l = Some p
       /\ (hosted (env l) p [EthAuth.EthAllowlistVector] \/ hosted (env l) p [KeycardAuth.KeycardVector])
}.

(** The credential a requester has shown, with the proof that was sent: a
    signature of an allowlisted address over the commitment, or an attestation
    of a card of a trusted CA for the challenge bound to it. *)
Inductive earned (cfg : ServerCfg) (req : RlnGifterRequest.t) : string -> Prop :=
| earned_eth module conf allowlist signer :
    request_type req = ETH_ALLOWLIST_AUTH_TYPE ->
    auth_verifiers cfg !! ETH_ALLOWLIST_AUTH_TYPE = Some (module, conf) ->
    eth_allowlist conf = Ok allowlist ->
    EthAuth.recover_signer (RlnGifterRequest.identity_commitment req)
      (RlnGifterRequest.authentication_payload req) = Ok signer ->
    signer ∈ allowlist ->
    earned cfg req (key_of ETH_ALLOWLIST_AUTH_TYPE signer)
| earned_keycard module conf cas att n :
    request_type req = KEYCARD_ATTEST_AUTH_TYPE ->
    auth_verifiers cfg !! KEYCARD_ATTEST_AUTH_TYPE = Some (module, conf) ->
    keycard_cas conf = Ok cas ->
    parse_attestation (RlnGifterRequest.authentication_payload req) = Ok att ->
    verify_attestation att cas (bound_challenge (RlnGifterRequest.identity_commitment req)) = Ok n ->
    earned cfg req (key_of KEYCARD_ATTEST_AUTH_TYPE (hex_encode n)).

Context {L : SerdeJsonLaws J} {XL : HexLaws X} {TL : TextLaws K X} {UL : UnicodeLaws U} {HL : HashLaws Hs}.

Lemma config_array_null conf k : config_array (drop_null conf) k = config_array conf k.
Proof. by destruct conf as [[]|]. Qed.

(** The request a verifier is asked. *)
Definition asked (conf : option Value) (cfg : ServerCfg) (req : RlnGifterRequest.t) : VerifyRequest.t :=
  verify_request conf req (request_type req) (effective_rate cfg req).

Lemma asked_wf conf cfg req :
  opt_wf conf -> is_u64 (max_rate_limit cfg) ->
  (forall r, RlnGifterRequest.rate_limit req = Some r -> is_u64 r) ->
  verify_request_wf (asked conf cfg req).
Proof.
  intros Hc Hm Hr. split; [apply from_utf8_lossy_valid|]. split; [apply hex_encode_valid|].
  split; [apply hex_encode_valid|]. split; [|done]. cbn. unfold effective_rate.
  case_match; [done|]. destruct (RlnGifterRequest.rate_limit req) as [r|]; [by apply Hr|done].
Qed.

Lemma asked_eth conf cfg req :
  EthAuth.verify (received (asked conf cfg req))
  = match eth_allowlist conf with
    | Err e => Err e
    | Ok allowlist =>
        match EthAuth.recover_signer (RlnGifterRequest.identity_commitment req)
                (RlnGifterRequest.authentication_payload req) with
        | Err e => Ok (Verdict.reject ("signature verification failed: " +:+ e))
        | Ok signer =>
            if bool_decide (signer ∈ allowlist) then Ok (Verdict.accept (Some signer))
            else Ok (Verdict.reject ("address not allowlisted: " +:+ signer))
        end
    end.
Proof.
  rewrite eth_verify_unfold. cbn [received asked verify_request VerifyRequest.config
    VerifyRequest.payload_hex VerifyRequest.id_commitment_hex].
  unfold eth_allowlist. rewrite config_array_null. by rewrite !strip_0x_hex, !hex_decode_encode.
Qed.

Lemma asked_keycard conf cfg req :
  KeycardAuth.verify (received (asked conf cfg req))
  = match keycard_cas conf with
    | Err e => Err e
    | Ok cas =>
        match parse_attestation (RlnGifterRequest.authentication_payload req) with
        | Err e => Ok (Verdict.reject ("attestation parse failed: " +:+ error_text e))
        | Ok att =>
            match verify_attestation att cas (bound_challenge (RlnGifterRequest.identity_commitment req)) with
            | Ok n => Ok (Verdict.accept (Some (hex_encode n)))
            | Err e => Ok (Verdict.reject ("attestation verification failed: " +:+ error_text e))
            end
        end
    end.
Proof.
  unfold KeycardAuth.verify, keycard_cas. cbn [received asked verify_request VerifyRequest.config
    VerifyRequest.payload_hex VerifyRequest.id_commitment_hex].
  assert (Hn : KeycardAuth.parse_trusted_cas (drop_null conf) = KeycardAuth.parse_trusted_cas conf)
    by (unfold KeycardAuth.parse_trusted_cas; by rewrite config_array_null).
  rewrite Hn, !strip_0x_hex, !hex_decode_encode.
  destruct (KeycardAuth.parse_trusted_cas conf) as [cas|]; [|done]. by case_bool_decide.
Qed.

(** What a reference module accepts is an earned credential, in the form the
    node keeps it. *)
Lemma judged_reference cfg req (l : Lp E) v l' :
  reference_gifter cfg l -> (forall r, RlnGifterRequest.rate_limit req = Some r -> is_u64 r) ->
  judged cur cfg req l v l' -> Verdict.ok v = true ->
  exists n, Verdict.nullifier v = Some n /\ to_lowercase (trim n) = n
    /\ earned cfg req (key_of (request_type req) n).
Proof.
  intros [_ Hm Hmod] Hr (module & conf & args & reply & Hcfg & Hargs & Hcall & Hv & _) Hok.
  destruct (Hmod _ _ _ Hcfg) as (Hw & p & Hp & Hh). pose proof (asked_wf conf cfg req Hw Hm Hr) as Hvr.
  assert (Hans : forall vec : AuthVector (M unit), hosted (env l) p [vec] -> reply_wf (verify vec (received (asked conf cfg req)) tt).1 ->
    auth_type vec = request_type req /\ (verify vec (received (asked conf cfg req)) tt).1 = Ok v).
  { intros vec Hvec Hrep.
    assert (Hrw : reply_wf (vector_answer [vec] (received (asked conf cfg req)) tt).1).
    { apply one_vector_wf; [apply from_utf8_lossy_valid|done]. }
    pose proof (hosted_verdict cur module p [vec] (asked conf cfg req) args _ l reply l' Hp Hvec Hvr Hargs Hrw Hcall)
      as Hpv.
    rewrite Hv, one_vector_answer in Hpv. case_decide; [done|by exfalso]. }
  destruct Hh as [Hh|Hh].
  - destruct (Hans _ Hh) as [Hty Hver]; [apply eth_reply_wf|]. cbn in Hty, Hver.
    pose proof Hver as Hshape. rewrite asked_eth in Hshape.
    destruct (eth_allowlist conf) as [al|] eqn:Hal; [|done].
    destruct (EthAuth.recover_signer _ _) as [signer|] eqn:Hrec; [|by injection Hshape as <-].
    case_bool_decide as Hin; [|by injection Hshape as <-]. injection Hshape as <-.
    exists signer. split; [done|]. split; [by eapply (eth_normal _ _ signer Hver)|]. rewrite <-Hty.
    by eapply (earned_eth _ _ module conf al); [done|rewrite Hty|..].
  - destruct (Hans _ Hh) as [Hty Hver]; [apply keycard_reply_wf|]. cbn in Hty, Hver.
    pose proof Hver as Hshape. rewrite asked_keycard in Hshape.
    destruct (keycard_cas conf) as [cas|] eqn:Hcas; [|done].
    destruct (parse_attestation _) as [att|] eqn:Hatt; [|by injection Hshape as <-].
    destruct (verify_attestation _ _ _) as [n|] eqn:Hn; [|by injection Hshape as <-].
    injection Hshape as <-. exists (hex_encode n). split; [done|].
    split; [by eapply (keycard_normal _ _ (hex_encode n) Hver)|]. rewrite <-Hty.
    by eapply (earned_keycard _ _ module conf cas att); [done|rewrite Hty|..].
Qed.

(** C3: with the reference verifiers no membership is bought for nothing.  Every
    registration the node attempts, successful or not, is for a request that
    carries a signature of an allowlisted address over its own commitment, or
    an attestation of a card of a trusted CA bound to it; the address or card
    was not spent before, and a confirmed membership leaves it spent, in memory
    and in the store. *)
Theorem registration_is_earned fuel buf (w : World E) cfg resp w' :
  fits buf -> SERVER w = Some cfg -> reference_gifter cfg (lp w) ->
  handle_request cur fuel buf w = (Some resp, w') ->
  RlnGifterResponse.error resp = None ->
  exists req key,
    RlnGifterRequest.decode buf = Ok req /\ earned cfg req key
    /\ (key ∉ consumed w)
    /\ (forall s, RlnGifterResponse.success resp = Some s ->
          key ∈ consumed w' /\ fs w' = append_nullifier (fs w) (nullifiers_path cfg) key).
Proof.
  intros Hf Hsrv Href Hreq Herr. apply handle_request_handled in Hreq; [|exact UL].
  destruct Hreq as [e resp Hd [m ->]|req b resp cs w' Hd [m ->] _ _ _ _ _
    |req cfg' key l1 r cs w' Hd Hlen Hs' Ha Hk Hr He Hset Hfr]; [done|done|].
  rewrite Hsrv in Hs'. injection Hs' as <-. exists req.
  assert (Hrate : forall r, RlnGifterRequest.rate_limit req = Some r -> is_u64 r)
    by (intros r'; by eapply decode_rate_u64).
  assert (Hkey : exists k, key = Some k /\ earned cfg req k).
  { destruct Ha as [Ho|v l' Hj Hok Hn|v n l' Hj Hok Hn Hnorm].
    - by destruct (rg_closed _ _ Href).
    - destruct (judged_reference cfg req (lp w) v l' Href Hrate Hj Hok) as (n & Hn' & _). congruence.
    - destruct (judged_reference cfg req (lp w) v l' Href Hrate Hj Hok) as (n' & Hn' & Ht & He').
      rewrite Hn in Hn'. injection Hn' as <-. rewrite Ht. by eexists. }
  destruct Hkey as (k & -> & He'). exists k. split; [done|]. split; [done|]. split; [by apply Hk|].
  intros s Hsuc. destruct r as [s'|e]; [|done]. destruct Hset as [-> ->]. split; [set_solver|done].
Qed.

(** The types of the reference vectors that are configured are mapped to
    modules of them, which answer in time. *)
Record ready_gifter (cfg : ServerCfg) (l : Lp E) : Prop := {
  ready_rate : is_u64 (max_rate_limit cfg);
  ready_module vec module conf :
    vec ∈ [EthAuth.EthAllowlistVector; KeycardAuth.KeycardVector] ->
    auth_verifiers cfg !! auth_type vec = Some (module, conf) ->
    opt_wf conf
    /\ exists p, lookup_client module l = Some p /\ hosted (env l) p [vec] /\ responsive (env l) p
}.

Lemma claim_fresh id ty module n (w : World E) :
  to_lowercase (trim n) = n -> normal_nullifier n -> (key_of ty n ∉ consumed w) ->
  claim_nullifier id ty module n w
  = (Ok (Some (key_of ty n)), set_consumed (Some ({[key_of ty n]} ∪ consumed w)) w).
Proof.
  intros Ht [_ Hne _ Hc] Hfresh. unfold claim_nullifier. rewrite Ht, is_empty_false by done.
  destruct (existsb _ _) eqn:He; cbn [orb].
  { apply existsb_exists in He as (c & Hin%list_elem_of_In & Hb). cbn in Hb. by destruct (Hc c Hin) as [Hw Hk]; rewrite Hw, Hk in Hb. }
  fold (key_of ty n). unfold reserve, bind, get, modify, ret.
  rewrite bool_decide_false by done. by cbn.
Qed.

Lemma ready_accepts cfg req (vec : AuthVector (M unit)) module conf (w : World E) n :
  ready_gifter cfg (lp w) -> (forall r, RlnGifterRequest.rate_limit req = Some r -> is_u64 r) ->
  vec ∈ [EthAuth.EthAllowlistVector; KeycardAuth.KeycardVector] ->
  request_type req = auth_type vec -> auth_verifiers cfg !! auth_type vec = Some (module, conf) ->
  (verify vec (received (asked conf cfg req)) tt).1 = Ok (Verdict.accept (Some n)) -> str_valid n ->
  to_lowercase (trim n) = n -> normal_nullifier n -> key_of (auth_type vec) n ∉ consumed w ->
  exists l', authorize cur cfg req (request_type req) (effective_rate cfg req) w
    = (Ok (Some (key_of (auth_type vec) n)),
       set_consumed (Some ({[key_of (auth_type vec) n]} ∪ consumed w)) (set_lp l' w)).
Proof.
  intros [Hm Hmod] Hr Hvec Hty Hcfg Hver Hn Ht Hnorm Hfresh.
  destruct (Hmod vec module conf Hvec Hcfg) as (Hw & p & Hp & Hh & Hresp).
  pose proof (asked_wf conf cfg req Hw Hm Hr) as Hvr.
  destruct (verify_args _ Hvr) as (args & Hargs & _).
  assert (Hans : (vector_answer [vec] (received (asked conf cfg req)) tt).1 = Ok (Verdict.accept (Some n))).
  { rewrite one_vector_answer, decide_True; [done|]. by symmetry. }
  assert (Hrw : reply_wf (vector_answer [vec] (received (asked conf cfg req)) tt).1)
    by (rewrite Hans; by apply accept_wf).
  destruct (responsive_call cur module p [vec] (asked conf cfg req) args AUTH_VERIFY_TIMEOUT_MS (lp w)
    Hp Hh Hresp Hvr Hargs Hrw) as (reply & l' & Hcall).
  pose proof (hosted_verdict cur module p [vec] (asked conf cfg req) args _ (lp w) reply l' Hp Hh Hvr Hargs Hrw Hcall)
    as Hpv.
  rewrite Hans in Hpv. exists l'. unfold authorize.
  rewrite bool_decide_false by (intros Hemp; rewrite Hemp, lookup_empty in Hcfg; done).
  rewrite Hty, Hcfg, <-Hty. fold (asked conf cfg req). rewrite Hargs. unfold bind at 1. rewrite on_lp_eq.
  fold (one_arg args). rewrite Hcall. cbn [fst snd]. rewrite Hpv.
  cbn -[claim_nullifier]. rewrite Hty. by rewrite (claim_fresh _ _ _ n (set_lp l' w)).
Qed.

Lemma earned_authorized cfg req key (w : World E) :
  ready_gifter cfg (lp w) -> (forall r, RlnGifterRequest.rate_limit req = Some r -> is_u64 r) ->
  earned cfg req key -> key ∉ consumed w ->
  exists l' w', authorize cur cfg req (request_type req) (effective_rate cfg req) w = (Ok (Some key), w')
    /\ lp w' = l'.
Proof.
  intros Hready Hr He Hfresh.
  assert (Hgo : forall (vec : AuthVector (M unit)) module conf n,
    vec ∈ [EthAuth.EthAllowlistVector; KeycardAuth.KeycardVector] ->
    request_type req = auth_type vec -> auth_verifiers cfg !! auth_type vec = Some (module, conf) ->
    (verify vec (received (asked conf cfg req)) tt).1 = Ok (Verdict.accept (Some n)) ->
    to_lowercase (trim n) = n /\ normal_nullifier n /\ canonical_key (key_of (auth_type vec) n) ->
    key = key_of (auth_type vec) n ->
    exists l' w', authorize cur cfg req (request_type req) (effective_rate cfg req) w = (Ok (Some key), w')
      /\ lp w' = l').
  { intros vec module conf n Hvec Hty Hcfg Hver (Ht & Hn & _) ->.
    destruct (ready_accepts cfg req vec module conf w n) as (l' & Ha); try done; [by apply Hn|].
    by eexists _, _. }
  destruct He as [module conf al signer Hty Hcfg Hal Hrec Hin|module conf cas att n Hty Hcfg Hcas Hatt Hn].
  - assert (Hver : EthAuth.verify (received (asked conf cfg req)) = Ok (Verdict.accept (Some signer)))
      by (rewrite asked_eth, Hal, Hrec; by rewrite bool_decide_true).
    eapply (Hgo EthAuth.EthAllowlistVector module conf signer); try done; [apply list_elem_of_here|].
    by apply (eth_normal _ _ _ Hver).
  - assert (Hver : KeycardAuth.verify (received (asked conf cfg req))
      = Ok (Verdict.accept (Some (hex_encode n)))) by (by rewrite asked_keycard, Hcas, Hatt, Hn).
    eapply (Hgo KeycardAuth.KeycardVector module conf (hex_encode n)); try done;
      [apply list_elem_of_further, list_elem_of_here|]. by apply (keycard_normal _ _ _ Hver).
Qed.

Lemma earned_registers `{!LpHostLaws E H} fuel buf (w : World E) req cfg key :
  fits buf -> RlnGifterRequest.decode buf = Ok req ->
  length (RlnGifterRequest.identity_commitment req) = 32%nat ->
  SERVER w = Some cfg -> ready_gifter cfg (lp w) ->
  earned cfg req key -> key ∉ consumed w -> (CONFIRM_POLLS <= fuel)%nat ->
  exists l1 r w',
    handle_request cur fuel buf w = (Some (gift_response (RlnGifterRequest.request_id req) r), w')
    /\ register cur fuel cfg (RlnGifterRequest.identity_commitment req) (effective_rate cfg req) l1
       = (Some r, lp w')
    /\ (forall reply l2 m l3 leaf,
          call_register cur cfg (RlnGifterRequest.identity_commitment req) (effective_rate cfg req) l1
            = (Ok reply, l2) ->
          call_get cur cfg (RlnGifterRequest.identity_commitment req) l2 = (Ok m, l3) ->
          confirmed_leaf m = Some leaf -> r = Ok (gift cfg (tx_hash_of reply) leaf)).
Proof.
  intros Hf Hd Hlen Hsrv Hready He Hfresh Hfuel.
  assert (Hrate : forall r, RlnGifterRequest.rate_limit req = Some r -> is_u64 r)
    by (intros r'; by eapply decode_rate_u64).
  destruct (earned_authorized cfg req key w Hready Hrate He Hfresh) as (l1 & w1 & Hauth & Hl).
  destruct (register_total cur fuel cfg (RlnGifterRequest.identity_commitment req)
    (effective_rate cfg req) (lp w1) Hfuel) as (r & l2 & Hreg).
  destruct (settle cfg req (Some key) r (set_lp l2 w1)) as [resp w'] eqn:Hset.
  pose proof (settle_spec cfg req (Some key) r (set_lp l2 w1)) as Hsp. rewrite Hset in Hsp.
  destruct Hsp as (-> & Hlw & _). exists (lp w1), r, w'. split; [|split].
  - unfold handle_request. rewrite Hd, (proj2 (Nat.eqb_eq _ _) Hlen). cbn [negb].
    unfold bind at 1, get. rewrite Hsrv. fold (request_type req). unfold bind at 1. rewrite Hauth.
    unfold bind at 1. rewrite on_lp_eq, Hreg. cbn [fst snd]. unfold bind. by rewrite Hset.
  - by rewrite Hlw.
  - intros reply la m lb leaf Hr Hg Hleaf.
    unfold register in Hreg. fold (call_register cur cfg (RlnGifterRequest.identity_commitment req)
      (effective_rate cfg req)) in Hreg. unfold bind at 1 in Hreg. rewrite Hr in Hreg.
    unfold bind, get in Hreg. destruct fuel as [|fuel]; [unfold CONFIRM_POLLS in Hfuel; lia|].
    cbn [confirm_loop] in Hreg. fold (call_get cur cfg (RlnGifterRequest.identity_commitment req)) in Hreg.
    unfold bind at 1 in Hreg. rewrite Hg in Hreg. cbn [result_ok mbind option_bind] in Hreg.
    rewrite Hleaf in Hreg. by injection Hreg as <- _.
Qed.
(** C4: an honest requester is served.  When the reference modules answer and a
    request carries an earned credential that is not spent, [handle_request]
    returns within the poll bound, and its answer is the outcome of a
    registration of that commitment; if the registry then takes the transaction
    and shows a leaf at the first look, the answer is that membership. *)
Theorem earned_is_registered `{!LpHostLaws E H} fuel buf (w : World E) req cfg key :
  fits buf -> RlnGifterRequest.decode buf = Ok req ->
  length (RlnGifterRequest.identity_commitment req) = 32%nat ->
  SERVER w = Some cfg -> ready_gifter cfg (lp w) ->
  earned cfg req key -> key ∉ consumed w -> (CONFIRM_POLLS <= fuel)%nat ->
  exists l1 r w',
    handle_request cur fuel buf w = (Some (gift_response (RlnGifterRequest.request_id req) r), w')
    /\ register cur fuel cfg (RlnGifterRequest.identity_commitment req) (effective_rate cfg req) l1
       = (Some r, lp w')
    /\ (forall reply l2 m l3 leaf,
          call_register cur cfg (RlnGifterRequest.identity_commitment req) (effective_rate cfg req) l1
            = (Ok reply, l2) ->
          call_get cur cfg (RlnGifterRequest.identity_commitment req) l2 = (Ok m, l3) ->
          confirmed_leaf m = Some leaf -> r = Ok (gift cfg (tx_hash_of reply) leaf)).
Proof. apply earned_registers. Qed.
End Reference.

(** ** Witnesses: a node with the keycard verifier *)

Import Toy HexInstance.
#[local] Existing Instance caseless_tables.

#[local] Instance toy_texts : TextLaws Toy.k256 hex_instance.
Proof.
  constructor; try done; intros s e.
  - unfold hex_decode, hex_instance, ok_or. destruct (decode_bytes _); [done|].
    intros [= <-]. by vm_compute.
  - unfold signature_from_slice, Toy.k256. case_match; [done|]. intros [= <-]. by vm_compute.
  - unfold from_sec1_bytes, Toy.k256. case_match; [done|]. intros [= <-]. by vm_compute.
Qed.

(** The deployment: the keycard verifier, and a registry that confirms leaf 7. *)
Definition card_modules (target method args : string) : option Callback :=
  if bool_decide (method = VERIFY_METHOD) then
    match from_str args with
    | Ok (VArray [VString a]) =>
        Some (SimHost.at_once (to_string (VString
          (dispatch_verify (F := M unit) a [KeycardAuth.KeycardVector] tt).1)))
    | _ => None
    end
  else if bool_decide (method = "get_membership") then
    Some (SimHost.at_once (to_string (VString (to_string (json_obj
      [("registered", VBool true); ("leaf_index", num 7)])))))
  else Some (SimHost.at_once (to_string (VString (to_string (json_obj []))))).

Definition card_config : Value := json_obj [("trusted_cas", VArray [VString (hex_encode STATUS_PRODUCTION_CA)])].

Definition card_cfg : ServerCfg := {|
  config := "cfg"; wallet := "wal";
  auth_verifiers := {[KEYCARD_ATTEST_AUTH_TYPE := ("keycard", Some card_config)]};
  nullifiers_path := "nul"; max_rate_limit := 20 |}.

Definition card_node : World SimHost.t := {|
  lp := (init 0%nat [RLN_MODULE; "keycard"] (SimHost.boot card_modules)).2;
  fs := {| fs_files := ∅; fs_readable _ := true; fs_appendable _ := true |};
  SERVER := Some card_cfg; CONSUMED_NULLIFIERS := None; SERVING := true; workers := 1 |}.

Definition card_request : RlnGifterRequest.t := {|
  RlnGifterRequest.request_id := "r1";
  RlnGifterRequest.authentication_type := str_bytes KEYCARD_ATTEST_AUTH_TYPE;
  RlnGifterRequest.authentication_payload := tlv;
  RlnGifterRequest.identity_commitment := commitment;
  RlnGifterRequest.rate_limit := Some 50 |}.
Definition card_bytes : list byte := RlnGifterRequest.encode card_request.
Definition card_key : string := key_of KEYCARD_ATTEST_AUTH_TYPE (hex_encode (nullifier STATUS_PRODUCTION_CA)).

Lemma card_hosted :
  hosted (env (lp card_node)) 2 [KeycardAuth.KeycardVector] /\ responsive (env (lp card_node)) 2.
Proof.
  assert (Ha : forall args, str_valid args -> SimHost.answer (env (lp card_node)) "keycard" VERIFY_METHOD (to_string (one_arg args))
    = Some (text_callback (dispatch_verify (F := M unit) args [KeycardAuth.KeycardVector] tt).1)).
  { intros args Hv. change (SimHost.answer (env (lp card_node))) with card_modules. unfold card_modules.
    rewrite bool_decide_true by done. cbn [from_str to_string json_instance].
    rewrite text_value_text; [done|]. unfold str_valid in Hv. cbn. by rewrite Hv. }
  split.
  - apply (sim_answers _ _ "keycard" _ _ (fun args => Some (dispatch_verify (F := M unit) args [KeycardAuth.KeycardVector] tt).1));
      [by vm_compute|exact Ha|by intros args text [= <-]].
  - eapply (sim_prompt _ _ "keycard"); [by vm_compute|exact Ha].
Qed.

Lemma card_entry ty module conf :
  auth_verifiers card_cfg !! ty = Some (module, conf) ->
  ty = KEYCARD_ATTEST_AUTH_TYPE /\ module = "keycard" /\ conf = Some card_config.
Proof.
  cbn. intros [<- [= <- <-]]%lookup_singleton_Some. done.
Qed.

Lemma card_config_wf : opt_wf (Some card_config).
Proof.
  apply (json_obj_wf 99), members_cons; [by vm_compute| |apply members_nil].
  apply (json_wf_array 98), Forall_singleton, (json_wf_string 97), hex_encode_valid.
Qed.

Lemma card_reference : reference_gifter card_cfg (lp card_node).
Proof.
  constructor; [done|by vm_compute|]. intros ty module conf (_ & -> & ->)%card_entry.
  split; [apply card_config_wf|]. exists 2. split; [by vm_compute|]. right. apply card_hosted.
Qed.

Lemma card_ready : ready_gifter card_cfg (lp card_node).
Proof.
  constructor; [by vm_compute|]. intros vec module conf Hvec (Hty & -> & ->)%card_entry.
  split; [apply card_config_wf|]. exists 2. split; [by vm_compute|].
  apply elem_of_cons in Hvec as [-> | ->%list_elem_of_singleton]; [done|]. apply card_hosted.
Qed.

Lemma card_earned : earned card_cfg card_request card_key.
Proof.
  eapply earned_keycard; [by vm_compute|by vm_compute|by vm_compute|by vm_compute|by vm_compute].
Qed.

Lemma card_decodes : RlnGifterRequest.decode card_bytes = Ok card_request.
Proof. vm_compute. reflexivity. Qed.

Lemma earned_is_registered_witness :
  exists r w', handle_request (U := caseless_tables) 1%nat CONFIRM_POLLS card_bytes card_node
    = (Some (gift_response "r1" r), w').
Proof.
  destruct (earned_is_registered (U := caseless_tables) 1%nat CONFIRM_POLLS card_bytes card_node
    card_request card_cfg card_key) as (l1 & r & w' & Hr & _).
  - vm_compute. reflexivity.
  - exact card_decodes.
  - reflexivity.
  - reflexivity.
  - exact card_ready.
  - exact card_earned.
  - apply not_elem_of_empty.
  - reflexivity.
  - exact (ex_intro _ r (ex_intro _ w' Hr)).
Defined.

Lemma registration_is_earned_witness :
  exists resp w' key,
    handle_request (U := caseless_tables) 1%nat CONFIRM_POLLS card_bytes card_node = (Some resp, w')
    /\ earned card_cfg card_request key.
Proof.
  destruct (earned_registers (U := caseless_tables) 1%nat CONFIRM_POLLS card_bytes card_node
    card_request card_cfg card_key ltac:(vm_compute; reflexivity) card_decodes eq_refl eq_refl card_ready
    card_earned (not_elem_of_empty _) ltac:(reflexivity)) as (l1 & r & w' & Hr & _).
  destruct (registration_is_earned (U := caseless_tables) 1%nat CONFIRM_POLLS card_bytes card_node card_cfg
    (gift_response "r1" r) w' ltac:(vm_compute; reflexivity) eq_refl card_reference Hr eq_refl)
    as (req & key & Hd & He & _).
  rewrite card_decodes in Hd. injection Hd as <-.
  exact (ex_intro _ _ (ex_intro _ w' (ex_intro _ key (conj Hr He)))).
Defined.
