(* ===== verification/Interleave.v ===== *)
(** * The worker and [serve] interleaved

    The worker holds the lock of a static for one update only, so the owner
    thread's [serve] may run between the steps of a request.  [phase] is where
    the worker stands, with the configuration it cloned; [step] lets [serve],
    the host and a restart come in between any two of its steps.
    [handle_request] is the run of its steps in a row. *)
From S2P Require Import Prelude RustStd Wire Nullifiers Json Crates JsonInstance AuthVector Lp.
From S2P Require Import Server GiftSpec GiftProps.

Inductive phase : Type :=
| Idle
| Accepted (cfg : ServerCfg) (req : RlnGifterRequest.t)
| Judged (cfg : ServerCfg) (req : RlnGifterRequest.t) (verdict : option (string * string))
| Reserved (cfg : ServerCfg) (req : RlnGifterRequest.t) (key : option string)
| Registered (cfg : ServerCfg) (req : RlnGifterRequest.t) (key : option string)
    (r : result MembershipAllocationSuccess.t RegisterError).

Section Phases.
Context {E : Type} {H : LpHost E} {J : SerdeJson} {X : HexCrate} {U : UnicodeTables}.
Context (cur : ThreadId).

(** Lines 199 to 210: decoding, the length check, the clone of the
    configuration. *)
Definition intake (buf : list byte) (w : World E) : result (ServerCfg * RlnGifterRequest.t) RlnGifterResponse.t :=
  match RlnGifterRequest.decode buf with
  | Err e => Err (failure_response "N/A" false ("decode error: " +:+ e))
  | Ok req =>
      let id := RlnGifterRequest.request_id req in
      if negb (length (RlnGifterRequest.identity_commitment req) =? 32)%nat then
        Err (failure_response id true "identity_commitment must be 32 bytes")
      else ok_or ((fun cfg => (cfg, req)) <$> SERVER w) (failure_response id true "gifter not configured")
  end.

(** Lines 223 to 275: the verifier's decision, and the nullifier it gave with
    the module that gave it. *)
Definition judge (cfg : ServerCfg) (req : RlnGifterRequest.t)
    : M (Lp E) (result (option (string * string)) RlnGifterResponse.t) :=
  let id := RlnGifterRequest.request_id req in
  if bool_decide (auth_verifiers cfg = ∅) then ret (Ok None)
  else
    match auth_verifiers cfg !! request_type req with
    | None =>
        ret (Err (failure_response id false
                    ("unsupported authentication_type: '" +:+ request_type req +:+ "'")))
    | Some (module, verifier_config) =>
        match to_string_fields (VerifyRequest.to_fields
                (verify_request verifier_config req (request_type req) (effective_rate cfg req))) with
        | Err e => ret (Err (failure_response id false ("verify request: " +:+ e)))
        | Ok verify_json =>
            let! r := call_module_json cur module VERIFY_METHOD
                        (VArray [VString verify_json]) AUTH_VERIFY_TIMEOUT_MS in
            ret match r with
                | Err e => Err (failure_response id false ("auth verifier " +:+ module +:+ ": " +:+ e))
                | Ok reply =>
                    match parse_verdict reply with
                    | Err e => Err (failure_response id false ("auth verifier " +:+ module +:+ ": " +:+ e))
                    | Ok verdict =>
                        if negb (Verdict.ok verdict) then
                          Err (failure_response id false
                            (default "verifier rejected the request" (Verdict.reason verdict)))
                        else Ok ((fun nul => (module, nul)) <$> Verdict.nullifier verdict)
                    end
                end
        end
    end.

(** Lines 283 to 304: the reservation. *)
Definition claim (req : RlnGifterRequest.t) (verdict : option (string * string))
    : M (World E) (result (option string) RlnGifterResponse.t) :=
  match verdict with
  | None => ret (Ok None)
  | Some (module, nul) =>
      claim_nullifier (RlnGifterRequest.request_id req) (request_type req) module nul
  end.

Lemma authorize_phases cfg req (w : World E) :
  authorize cur cfg req (request_type req) (effective_rate cfg req) w
  = match judge cfg req (lp w) with
    | (Err resp, l) => (Err resp, set_lp l w)
    | (Ok verdict, l) => claim req verdict (set_lp l w)
    end.
Proof.
  unfold authorize, judge. case_bool_decide; [by destruct w|].
  destruct (auth_verifiers cfg !! request_type req) as [[module conf]|]; [|by destruct w].
  destruct (to_string_fields _) as [vj|e]; [|by destruct w].
  unfold bind at 1 2. rewrite on_lp_eq. destruct (call_module_json _ _ _ _ _ (lp w)) as [[reply|e] l]; [|done].
  cbn [fst snd ret]. destruct (parse_verdict reply) as [v|e]; [|done].
  destruct (negb _); [done|]. by destruct (Verdict.nullifier v).
Qed.

(** A request is its phases in a row. *)
Lemma handle_request_phases fuel buf (w : World E) :
  handle_request cur fuel buf w
  = match intake buf w with
    | Err resp => (Some resp, w)
    | Ok (cfg, req) =>
        match judge cfg req (lp w) with
        | (Err resp, l) => (Some resp, set_lp l w)
        | (Ok verdict, l) =>
            match claim req verdict (set_lp l w) with
            | (Err resp, w1) => (Some resp, w1)
            | (Ok key, w1) =>
                match register cur fuel cfg (RlnGifterRequest.identity_commitment req)
                        (effective_rate cfg req) (lp w1) with
                | (None, l) => (None, set_lp l w1)
                | (Some r, l) =>
                    let '(resp, w2) := settle cfg req key r (set_lp l w1) in (Some resp, w2)
                end
            end
        end
    end.
Proof.
  unfold handle_request, intake. destruct (RlnGifterRequest.decode buf) as [req|e]; [|done].
  destruct (negb _); [done|]. unfold bind at 1, get. destruct (SERVER w) as [cfg|]; [|done].
  cbn [fmap option_fmap option_map ok_or]. fold (request_type req). unfold bind at 1.
  rewrite authorize_phases. destruct (judge cfg req (lp w)) as [[verdict|resp] l]; [|done].
  destruct (claim req verdict (set_lp l w)) as [[key|resp] w1]; [|done].
  unfold bind at 1. rewrite on_lp_eq.
  destruct (register _ _ _ _ _ (lp w1)) as [[r|] l2]; [|done]. cbn [fst snd]. unfold bind.
  by destruct (settle _ _ _ _ _).
Qed.

(** The credential a settlement leaves spent. *)
Definition settled_key (key : option string)
    (r : result MembershipAllocationSuccess.t RegisterError) : option string :=
  match r with Err (NotSubmitted _) => None | _ => key end.

(** The worker's next step, with the credential it leaves spent. *)
Inductive worker_step : World E * phase -> option string -> World E * phase -> Prop :=
| step_refuse_intake buf w resp : intake buf w = Err resp -> worker_step (w, Idle) None (w, Idle)
| step_intake buf w cfg req :
    intake buf w = Ok (cfg, req) -> worker_step (w, Idle) None (w, Accepted cfg req)
| step_refuse_judge w cfg req resp l :
    judge cfg req (lp w) = (Err resp, l) ->
    worker_step (w, Accepted cfg req) None (set_lp l w, Idle)
| step_judge w cfg req verdict l :
    judge cfg req (lp w) = (Ok verdict, l) ->
    worker_step (w, Accepted cfg req) None (set_lp l w, Judged cfg req verdict)
| step_refuse_claim w cfg req verdict resp w' :
    claim req verdict w = (Err resp, w') ->
    worker_step (w, Judged cfg req verdict) None (w', Idle)
| step_claim w cfg req verdict key w' :
    claim req verdict w = (Ok key, w') ->
    worker_step (w, Judged cfg req verdict) None (w', Reserved cfg req key)
| step_register fuel w cfg req key r l :
    register cur fuel cfg (RlnGifterRequest.identity_commitment req) (effective_rate cfg req) (lp w)
      = (Some r, l) ->
    worker_step (w, Reserved cfg req key) None (set_lp l w, Registered cfg req key r)
| step_settle w cfg req key r resp w' :
    settle cfg req key r w = (resp, w') ->
    worker_step (w, Registered cfg req key r) (settled_key key r) (w', Idle).

(** One step of the node: the worker's, or one of its surroundings. *)
Inductive step (p : string) : World E * phase -> option string -> World E * phase -> Prop :=
| step_of_worker s k s' : worker_step s k s' -> step p s k s'
| step_serve w ph owner args r w' :
    serve owner args w = (r, w') -> (forall cfg, SERVER w' = Some cfg -> cfg_ok p cfg) ->
    step p (w, ph) None (w', ph)
| step_host w ph l : step p (w, ph) None (set_lp l w, ph)
| step_restart w ph l : step p (w, ph) None (restarted l w, Idle).

Inductive steps (p : string) : World E * phase -> list string -> World E * phase -> Prop :=
| steps_nil s : steps p s [] s
| steps_cons s ks s1 k s2 :
    steps p s ks s1 -> step p s1 k s2 -> steps p s (ks ++ option_list k) s2.
End Phases.

Section Interleaved.
Context {E : Type} {H : LpHost E} {J : SerdeJson} {X : HexCrate} {U : UnicodeTables}
  {UL : UnicodeLaws U}.
Context (cur : ThreadId).

(** What the worker knows at each step, whatever has come in between. *)
Definition phase_ok (p : string) (w : World E) (ph : phase) : Prop :=
  match ph with
  | Idle => True
  | Accepted cfg req => cfg_ok p cfg /\ is_Some (SERVER w)
  | Judged cfg req verdict =>
      cfg_ok p cfg /\ is_Some (SERVER w)
      /\ (is_Some verdict -> is_Some (auth_verifiers cfg !! request_type req))
  | Reserved cfg req key | Registered cfg req key _ =>
      cfg_ok p cfg /\ is_Some (SERVER w)
      /\ forall k, key = Some k ->
           canonical_key k /\ k ∈ consumed w /\ (k ∉ load_nullifiers (fs w) p)
  end.

Lemma life_ext p ks w0 (w w' : World E) :
  fs w' = fs w -> SERVER w' = SERVER w -> consumed w' = consumed w ->
  life p ks w0 w -> life p ks w0 w'.
Proof. intros Hf Hs Hc [L1 L2 L3 L4 L5]. constructor; rewrite ?Hf, ?Hs, ?Hc; done. Qed.

Lemma phase_ext p (w w' : World E) ph :
  fs w' = fs w -> (is_Some (SERVER w) -> is_Some (SERVER w')) -> consumed w ⊆ consumed w' ->
  phase_ok p w ph -> phase_ok p w' ph.
Proof.
  intros Hf Hs Hc. destruct ph as [|cfg req|cfg req v|cfg req key|cfg req key r]; cbn; [done|naive_solver..| |].
  1,2: intros (H1 & H2 & H3); split; [done|]; split; [auto|]; intros k Hk;
    destruct (H3 k Hk) as (? & ? & ?); rewrite Hf; auto.
Qed.

Lemma judge_verdict cfg req l verdict l' :
  judge cur cfg req l = (Ok verdict, l') ->
  is_Some verdict -> is_Some (auth_verifiers cfg !! request_type req).
Proof.
  unfold judge. case_bool_decide; [intros [= <- _] [? ?]; done|].
  destruct (auth_verifiers cfg !! request_type req) as [mc|]; [by eauto|done].
Qed.

Lemma claim_life p ks w0 (w w' : World E) cfg req verdict r :
  life p ks w0 w -> phase_ok p w (Judged cfg req verdict) -> claim req verdict w = (r, w') ->
  life p ks w0 w' /\ match r with Ok key => phase_ok p w' (Reserved cfg req key) | Err _ => True end.
Proof.
  intros Hl (Hok & [cfg' Hs] & Hv) Hc. destruct verdict as [[module nul]|]; cbn in Hc.
  2:{ injection Hc as <- <-. split; [done|]. split; [done|]. split; [by eexists|done]. }
  pose proof (claim_nullifier_spec (RlnGifterRequest.request_id req) (request_type req) module nul w) as Hsp.
  rewrite Hc in Hsp. destruct Hsp as (_ & Hf & Hfr & Hr). destruct Hfr as [Hsrv _ _].
  destruct r as [key|resp]; [|destruct Hr as [_ Hcons]; split; [by eapply life_ext|done]].
  destruct Hr as (Hnorm & -> & Hnew & Hcons). destruct Hl as [L1 L2 L3 L4 L5].
  destruct (L2 _ Hs) as [Hok' Hsub]. split.
  - constructor; rewrite ?Hf, ?Hsrv, ?Hcons; try done. intros c Hc'.
    destruct (L2 _ Hc') as [? _]. split; [done|]. clear -Hsub. set_solver.
  - split; [done|]. split; [rewrite Hsrv; eauto|]. intros k [= <-]. rewrite Hcons, Hf.
    split; [|split; [clear; set_solver|clear -Hsub Hnew; set_solver]].
    destruct (Hv ltac:(eauto)) as [mc Hmc]. apply key_canonical; [by eapply (proj2 Hok)|done].
Qed.

Lemma settle_life p ks w0 (w w' : World E) cfg req key r resp :
  life p ks w0 w -> phase_ok p w (Registered cfg req key r) -> settle cfg req key r w = (resp, w') ->
  life p (ks ++ option_list (settled_key key r)) w0 w'.
Proof.
  intros [L1 L2 L3 L4 L5] (Hok & [cfg' Hs] & Hk) Hset. pose proof (settle_spec cfg req key r w) as Hsp.
  rewrite Hset in Hsp. destruct Hsp as (_ & _ & [Hsrv _ _] & Hf & Hc).
  destruct (L2 _ Hs) as [_ Hsub]. destruct key as [k|].
  2:{ assert (settled_key None r = None) as -> by by destruct r as [|[]].
      cbn [option_list]. rewrite app_nil_r. apply (life_ext p ks w0 w); try done; by constructor. }
  destruct (Hk k eq_refl) as (Hcan & Hin & Hnew). rewrite (proj1 Hok) in Hf.
  destruct (append_usable p (fs w) k L1 Hcan) as [Hst Hload].
  assert (Hspent : fs w' = append_nullifier (fs w) p k -> consumed w' = consumed w ->
    life p (ks ++ [k]) w0 w').
  { intros Hf' Hc'. constructor; rewrite ?Hf', ?Hc', ?Hload; try done.
    - intros c. rewrite Hsrv. intros [? _]%L2. split; [done|]. clear -Hsub Hin. set_solver.
    - rewrite L3, list_to_set_app_L. cbn. clear. set_solver.
    - apply NoDup_app. split; [done|]. split; [|apply NoDup_singleton].
      intros k' Hk' ->%list_elem_of_singleton. clear -Hk' L3 Hnew. set_solver.
    - intros k' [Hk'|Hk'%list_elem_of_singleton]%elem_of_app; [auto|subst k'].
      clear -L3 Hnew. set_solver. }
  destruct r as [s|[m|m]]; cbn [settled_key option_list]; [by apply Hspent| |by apply Hspent].
  rewrite app_nil_r. constructor; rewrite ?Hf, ?Hc, ?Hsrv; try done.
  intros c [? _]%L2. split; [done|]. clear -Hsub Hnew. set_solver.
Qed.

Lemma serve_keeps (w w' : World E) owner args r :
  serve owner args w = (r, w') ->
  fs w' = fs w /\ (is_Some (SERVER w) -> is_Some (SERVER w')) /\ consumed w ⊆ consumed w'.
Proof.
  intros Hs. pose proof (serve_served owner args w) as Hsv. rewrite Hs in Hsv.
  destruct Hsv as [e w' _ Hf Hfr Hc|a vs cfg l1 r w' _ _ _ _ Hf Hsrv Hc _].
  - rewrite (frame_server _ _ Hfr). split; [done|]. split; [done|]. unfold consumed. by rewrite Hc.
  - split; [done|]. split; [rewrite Hsrv; eauto|]. unfold consumed at 2. rewrite Hc. cbn. clear. set_solver.
Qed.

Lemma worker_life p ks w0 (w : World E) ph k w' ph' :
  life p ks w0 w -> phase_ok p w ph -> worker_step cur (w, ph) k (w', ph') ->
  life p (ks ++ option_list k) w0 w' /\ phase_ok p w' ph'.
Proof.
  intros Hl Hp Hstep.
  inversion Hstep as [buf w1 resp Ha|buf w1 cfg req Ha|w1 cfg req resp l Hj|w1 cfg req v l Hj
    |w1 cfg req v resp w2 Hc|w1 cfg req v key w2 Hc|fuel w1 cfg req key r l Hr|w1 cfg req key r resp w2 Hset];
    subst; cbn [option_list]; rewrite ?app_nil_r.
  - done.
  - split; [done|]. unfold intake in Ha. destruct (RlnGifterRequest.decode buf); [|done].
    destruct (negb _); [done|]. destruct (SERVER w') as [c|] eqn:Hs; [|done].
    cbn in Ha. injection Ha as <- <-. split; [|by rewrite Hs]. by apply (life_cfg _ _ _ _ Hl).
  - split; [by apply (life_ext p ks w0 w)|done].
  - split; [by apply (life_ext p ks w0 w)|]. destruct Hp as [Hok Hs]. split; [done|]. split; [done|].
    by eapply judge_verdict.
  - destruct (claim_life p ks w0 w w' cfg req v _ Hl Hp Hc). done.
  - by destruct (claim_life p ks w0 w w' cfg req v _ Hl Hp Hc).
  - split; [by apply (life_ext p ks w0 w)|]. exact Hp.
  - split; [by eapply settle_life|done].
Qed.

Lemma step_life p ks w0 (w : World E) ph k w' ph' :
  life p ks w0 w -> phase_ok p w ph -> step cur p (w, ph) k (w', ph') ->
  life p (ks ++ option_list k) w0 w' /\ phase_ok p w' ph'.
Proof.
  intros Hl Hp Hstep.
  inversion Hstep as [s k' s' Hw|w1 ph1 owner args r w2 Hsv Hcfg|w1 ph1 l|w1 ph1 l]; subst;
    cbn [option_list]; rewrite ?app_nil_r.
  - by eapply worker_life.
  - split; [by eapply life_serve|]. destruct (serve_keeps _ _ _ _ _ Hsv) as (Hf & Hs & Hc).
    by apply (phase_ext p w).
  - split; [by apply (life_ext p ks w0 w)|]. by apply (phase_ext p w).
  - split; [|done]. destruct Hl as [L1 L2 L3 L4 L5]. by constructor.
Qed.

Lemma steps_life p (w0 : World E) ks w ph :
  SERVER w0 = None -> store_usable p (fs w0) -> steps cur p (w0, Idle) ks (w, ph) ->
  life p ks w0 w /\ phase_ok p w ph.
Proof.
  intros H0 Hst. remember (w0, Idle) as s0. remember (w, ph) as s. intros Hs. revert w ph Heqs.
  induction Hs as [s|s ks [w1 ph1] k s2 _ IH Hstep]; intros w ph ->.
  - injection Heqs0 as -> ->. split; [|done].
    constructor; [done|congruence| |constructor|by intros ? ?%not_elem_of_nil]. cbn. clear. set_solver.
  - destruct (IH Heqs0 w1 ph1 eq_refl). by eapply step_life.
Qed.

(** No credential is spent twice, even when [serve] runs in the middle of a
    request.  Over any interleaving of the worker's steps with re-serves on the
    same store, host activity and restarts, the credentials left spent are
    distinct, none was in the store before, and the store holds them all. *)
Theorem interleaved_no_double_spend p (w0 : World E) ks w ph :
  SERVER w0 = None -> store_usable p (fs w0) -> steps cur p (w0, Idle) ks (w, ph) ->
  NoDup ks
  /\ (forall k, k ∈ ks -> k ∉ load_nullifiers (fs w0) p)
  /\ load_nullifiers (fs w) p = list_to_set ks ∪ load_nullifiers (fs w0) p.
Proof. intros H0 Hst Hs. by destruct (steps_life p w0 ks w ph H0 Hst Hs) as [[] _]. Qed.

Lemma host_step p s ks (w : World E) ph l :
  steps cur p s ks (w, ph) -> steps cur p s ks (set_lp l w, ph).
Proof.
  intros Hs. rewrite <-(app_nil_r ks). apply (steps_cons cur p s ks _ None _ Hs), step_host.
Qed.

(** A sequential request is one of those interleavings. *)
Lemma request_steps p s ks fuel buf (w : World E) resp w' :
  steps cur p s ks (w, Idle) -> handle_request cur fuel buf w = (Some resp, w') ->
  steps cur p s (ks ++ option_list (spent_key cur fuel buf w)) (w', Idle).
Proof.
  intros Hs Hr. rewrite handle_request_phases in Hr.
  assert (Hnext : forall ks' s1 s2, steps cur p s ks' s1 -> worker_step cur s1 None s2 -> steps cur p s ks' s2).
  { intros ks' s1 s2 H1 H2. rewrite <-(app_nil_r ks'). apply (steps_cons cur p s ks' s1 None s2 H1). by constructor. }
  unfold spent_key. destruct (intake buf w) as [[cfg req]|resp'] eqn:Ha.
  2:{ injection Hr as <- <-. revert Ha. unfold intake. destruct (RlnGifterRequest.decode buf) as [req|e] eqn:Hd.
      - destruct (SERVER w) as [cfg|] eqn:Hsv; destruct (negb _) eqn:Hn; intros Ha; cbn in Ha; try done;
          cbn [option_list]; rewrite app_nil_r; done.
      - intros _. cbn. by rewrite app_nil_r. }
  pose proof Ha as Hadm. revert Ha. unfold intake.
  destruct (RlnGifterRequest.decode buf) as [req'|]; [|done].
  destruct (negb _); [done|]. destruct (SERVER w) as [cfg'|]; [|done]. cbn. intros [= -> ->].
  rewrite authorize_phases. pose proof (Hnext _ _ _ Hs (step_intake cur buf w cfg req Hadm)) as H1.
  destruct (judge cur cfg req (lp w)) as [[verdict|resp'] l] eqn:Hj.
  2:{ injection Hr as <- <-. cbn. rewrite app_nil_r. eapply Hnext; [exact H1|by eapply step_refuse_judge]. }
  pose proof (Hnext _ _ _ H1 (step_judge cur w cfg req verdict l Hj)) as H2.
  destruct (claim req verdict (set_lp l w)) as [[key|resp'] w1] eqn:Hc.
  2:{ injection Hr as <- <-. cbn. rewrite app_nil_r. eapply Hnext; [exact H2|by eapply step_refuse_claim]. }
  pose proof (Hnext _ _ _ H2 (step_claim cur _ cfg req verdict key w1 Hc)) as H3.
  destruct (register cur fuel cfg _ _ (lp w1)) as [[r|] l1] eqn:Hreg; [|done].
  pose proof (Hnext _ _ _ H3 (step_register cur fuel w1 cfg req key r l1 Hreg)) as H4.
  destruct (settle cfg req key r (set_lp l1 w1)) as [resp1 w2] eqn:Hset. injection Hr as <- <-.
  pose proof (steps_cons cur p s ks _ _ _ H4 (step_of_worker cur p _ _ _ (step_settle cur _ cfg req key r resp1 w2 Hset))) as H5.
  by destruct key, r as [|[]].
Qed.
End Interleaved.
