(* ===== verification/Overlap.v ===== *)
(** * Overlapping [serve] calls

    [serve] cut at its locks: reading the arguments and opening the clients,
    merging the stored credentials, installing the configuration, the swap of
    [SERVING] and the mount.  A synchronous call pumps the host's event loop, so
    another [serve] may begin while one waits: any number of them are in
    progress here, between any two steps of the worker.  A restart ends them
    all. *)
From S2P Require Import Prelude RustStd Wire Nullifiers Json Crates JsonInstance AuthVector Lp.
From S2P Require Import Server GiftSpec GiftProps Interleave.

(** Where a [serve] stands. *)
Inductive serving : Type :=
| Configured (cfg : ServerCfg)
| Merged (cfg : ServerCfg)
| Installed
| Mounting.

Section Serve.
Context {E : Type} {H : LpHost E} {J : SerdeJson} {X : HexCrate} {B : Base64Crate} {U : UnicodeTables}.
Context (cur : ThreadId).

(** Lines 75 to 107: the arguments, and a client for every verifier. *)
Definition read_args (args_json : string) : M (Lp E) (result ServerCfg string) :=
  let!? a := ret (map_err (fun e => "serve args: " +:+ e) (from_str args_json)) in
  let!? config := ret (ok_or (get_str a "config") "missing config") in
  let!? wallet := ret (ok_or (get_str a "wallet") "missing wallet") in
  let!? verifiers := parse_verifiers cur a in
  ret (Ok {| config := config; wallet := wallet; auth_verifiers := verifiers;
             nullifiers_path := default "" (get_str a "consumedNullifiersPath");
             max_rate_limit := default DEFAULT_MAX_RATE (get_u64 a "maxRateLimit") |}).

(** [SERVING.swap(true)] *)
Definition swap_serving : M (World E) bool :=
  let! w := get in
  let! _ := modify (set_serving true) in
  ret (SERVING w).

Definition mount : M (Lp E) (result Value string) :=
  call_libp2p cur "mountProtocol" (VArray [VString RLN_GIFTER_CODEC]) MOUNT_TIMEOUT_MS.

(** After the mount: the worker is spawned, or [SERVING] stored back. *)
Definition mounted (r : result Value string) : M (World E) (result Value string) :=
  match r with
  | Err e => let! _ := modify (set_serving false) in ret (Err ("mountProtocol: " +:+ e))
  | Ok _ => let! _ := modify spawn_worker in ret (Ok (json_obj [("mounted", VBool true)]))
  end.

(** [serve] is its steps in a row. *)
Lemma serve_steps args_json w :
  serve cur args_json w
  = match read_args args_json (lp w) with
    | (Err e, l) => (Err e, set_lp l w)
    | (Ok cfg, l) =>
        let w := merge_consumed (nullifiers_path cfg) (set_lp l w) in
        let w := set_server (Some cfg) w in
        match swap_serving w with
        | (true, w) => (Ok (json_obj [("mounted", VBool true)]), w)
        | (false, w) => let '(r, l) := mount (lp w) in mounted r (set_lp l w)
        end
    end.
Proof.
  assert (Hw : set_lp (lp w) w = w) by (by destruct w).
  unfold serve, read_args, swap_serving, mount, bind, ret, modify, get, on_lp, zoom. cbn beta.
  destruct (from_str args_json) as [a|e]; cbn [map_err]; [|by rewrite Hw].
  destruct (get_str a "config") as [c|]; cbn [ok_or]; [|by rewrite Hw].
  destruct (get_str a "wallet") as [wl|]; cbn [ok_or]; [|by rewrite Hw].
  destruct (parse_verifiers cur a (lp w)) as [[vs|e] l]; [|done].
  cbn -[call_libp2p load_nullifiers parse_verifiers]. destruct (SERVING w); cbn -[call_libp2p]; [done|].
  by destruct (call_libp2p _ _ _ _ _) as [[v|e] l2].
Qed.
End Serve.

Section Steps.
Context {E : Type} {H : LpHost E} {J : SerdeJson} {X : HexCrate} {B : Base64Crate} {U : UnicodeTables}.
Context (cur : ThreadId).

(** The node: its world, the worker and the [serve] calls in progress. *)
Definition node : Type := World E * phase * list serving.

(** One step of the node.  The calls in progress are found anywhere in the list;
    [owner] is the thread of a call. *)
Inductive node_step (p : string) : node -> option string -> node -> Prop :=
| node_worker w ph k w' ph' ss :
    worker_step cur (w, ph) k (w', ph') -> node_step p (w, ph, ss) k (w', ph', ss)
| node_rejected w ph ss owner args e l :
    read_args owner args (lp w) = (Err e, l) -> node_step p (w, ph, ss) None (set_lp l w, ph, ss)
| node_configured w ph ss owner args cfg l :
    read_args owner args (lp w) = (Ok cfg, l) -> cfg_ok p cfg ->
    node_step p (w, ph, ss) None (set_lp l w, ph, Configured cfg :: ss)
| node_merged w ph cfg s1 s2 :
    node_step p (w, ph, s1 ++ Configured cfg :: s2) None
      (merge_consumed (nullifiers_path cfg) w, ph, s1 ++ Merged cfg :: s2)
| node_installed w ph cfg s1 s2 :
    node_step p (w, ph, s1 ++ Merged cfg :: s2) None (set_server (Some cfg) w, ph, s1 ++ Installed :: s2)
| node_refreshed w ph s1 s2 w' :
    swap_serving w = (true, w') ->
    node_step p (w, ph, s1 ++ Installed :: s2) None (w', ph, s1 ++ s2)
| node_mounting w ph s1 s2 w' :
    swap_serving w = (false, w') ->
    node_step p (w, ph, s1 ++ Installed :: s2) None (w', ph, s1 ++ Mounting :: s2)
| node_mounted w ph s1 s2 owner r l r' w' :
    mount owner (lp w) = (r, l) -> mounted r (set_lp l w) = (r', w') ->
    node_step p (w, ph, s1 ++ Mounting :: s2) None (w', ph, s1 ++ s2)
| node_host w ph ss l : node_step p (w, ph, ss) None (set_lp l w, ph, ss)
| node_restart w ph ss l : node_step p (w, ph, ss) None (restarted l w, Idle, []).

Inductive node_steps (p : string) : node -> list string -> node -> Prop :=
| node_none s : node_steps p s [] s
| node_more s ks s1 k s2 :
    node_steps p s ks s1 -> node_step p s1 k s2 -> node_steps p s (ks ++ option_list k) s2.

Lemma node_quiet p s ks s1 s2 :
  node_steps p s ks s1 -> node_step p s1 None s2 -> node_steps p s ks s2.
Proof. intros Hs H1. rewrite <-(app_nil_r ks). by apply (node_more p s ks s1 None s2). Qed.

(** A whole call is a sequence of these steps. *)
Lemma serve_node_steps p s ks owner args w ph ss r w' :
  node_steps p s ks (w, ph, ss) -> serve owner args w = (r, w') ->
  (forall cfg l, read_args owner args (lp w) = (Ok cfg, l) -> cfg_ok p cfg) ->
  node_steps p s ks (w', ph, ss).
Proof.
  intros Hs. rewrite serve_steps. destruct (read_args owner args (lp w)) as [[cfg|e] l] eqn:Hr; intros Hsv Hok.
  2:{ injection Hsv as <- <-. eapply node_quiet; [exact Hs|by eapply node_rejected]. }
  pose proof (node_quiet _ _ _ _ _ Hs (node_configured p w ph ss owner args cfg l Hr (Hok _ _ eq_refl))) as H1.
  pose proof (node_quiet _ _ _ _ _ H1 (node_merged p _ ph cfg [] ss)) as H2.
  pose proof (node_quiet _ _ _ _ _ H2 (node_installed p _ ph cfg [] ss)) as H3. cbn [app] in H3. cbv zeta in Hsv.
  destruct (swap_serving _) as [[] w1] eqn:Hsw.
  - injection Hsv as _ <-. eapply node_quiet; [exact H3|by apply (node_refreshed p _ ph [] ss)].
  - pose proof (node_quiet _ _ _ _ _ H3 (node_mounting p _ ph [] ss _ Hsw)) as H4.
    destruct (mount owner (lp w1)) as [r1 l1] eqn:Hm. eapply node_quiet; [exact H4|by eapply (node_mounted p _ ph [] ss owner)].
Qed.

(** [Interleave]'s histories, where a [serve] runs alone, are among these. *)
Lemma interleaved_node_steps p s ks s' :
  steps cur p s ks s' -> node_steps p (s, []) ks (s', []).
Proof.
  induction 1 as [s|s ks s1 k s2 _ IH Hstep]; [constructor|].
  destruct Hstep as [[w ph] k [w' ph'] Hw|w ph owner args r w' Hsv Hok|w ph l|w ph l]; cbn [option_list] in *;
    rewrite ?app_nil_r.
  - eapply node_more; [exact IH|by constructor].
  - eapply serve_node_steps; [exact IH|exact Hsv|]. intros cfg l Hr. apply Hok.
    rewrite serve_steps, Hr in Hsv. cbv zeta in Hsv. unfold swap_serving, bind, get, modify, ret in Hsv. cbn in Hsv.
    destruct (SERVING w); [by injection Hsv as _ <-|].
    destruct (mount owner _) as [[v|e] l'];
      unfold mounted, bind, modify, ret in Hsv; cbn in Hsv; injection Hsv as _ <-; done.
  - eapply node_quiet; [exact IH|apply node_host].
  - eapply node_quiet; [exact IH|apply node_restart].
Qed.
End Steps.

Section Overlapping.
Context {E : Type} {H : LpHost E} {J : SerdeJson} {X : HexCrate} {B : Base64Crate} {U : UnicodeTables}
  {UL : UnicodeLaws U}.
Context (cur : ThreadId).

(** What a call in progress knows. *)
Definition serving_ok (p : string) (w : World E) (s : serving) : Prop :=
  match s with
  | Configured cfg => cfg_ok p cfg
  | Merged cfg => cfg_ok p cfg /\ load_nullifiers (fs w) p ⊆ consumed w
  | Installed | Mounting => True
  end.

Record node_life (p : string) (ks : list string) (w0 : World E) (s : node) : Prop := {
  nl_life : life p ks w0 s.1.1;
  nl_phase : phase_ok p s.1.1 s.1.2;
  nl_serving : Forall (serving_ok p s.1.1) s.2
}.

Lemma serving_ext p (w w' : World E) ss :
  (load_nullifiers (fs w) p ⊆ consumed w -> load_nullifiers (fs w') p ⊆ consumed w') ->
  Forall (serving_ok p w) ss -> Forall (serving_ok p w') ss.
Proof. intros Hf Hss. eapply Forall_impl; [exact Hss|]. intros [cfg|cfg| |]; cbn; naive_solver. Qed.

Lemma claim_frame req v (w : World E) r w' : claim req v w = (r, w') -> frame w w'.
Proof.
  destruct v as [[m n]|]; cbn; intros Hc; [|injection Hc as _ <-; apply frame_refl].
  pose proof (claim_nullifier_spec (RlnGifterRequest.request_id req) (request_type req) m n w) as Hsp.
  rewrite Hc in Hsp. apply Hsp.
Qed.

(** The worker touches neither the configuration nor the serving flag. *)
Lemma worker_frame (w : World E) ph k w' ph' : worker_step cur (w, ph) k (w', ph') -> frame w w'.
Proof.
  inversion 1 as [| | | | | | |w1 cfg req key r resp w2 Hset]; subst;
    eauto using claim_frame, frame_lp, frame_refl.
  pose proof (settle_spec cfg req key r w) as Hsp. rewrite Hset in Hsp. apply Hsp.
Qed.

(** A worker step keeps the stored credentials consumed: it has a configuration,
    or changes nothing but the lp client. *)
Lemma worker_serving p ks w0 (w : World E) ph k w' ph' :
  life p ks w0 w -> phase_ok p w ph -> worker_step cur (w, ph) k (w', ph') ->
  load_nullifiers (fs w) p ⊆ consumed w -> load_nullifiers (fs w') p ⊆ consumed w'.
Proof.
  intros Hl Hp Hstep Hsub. destruct (worker_life cur p ks w0 w ph k w' ph' Hl Hp Hstep) as [Hl' Hp'].
  destruct (SERVER w') as [cfg|] eqn:Hs; [by apply (life_cfg _ _ _ _ Hl' cfg)|].
  assert (Hn : SERVER w = None) by (by rewrite <-(frame_server _ _ (worker_frame _ _ _ _ _ Hstep))).
  inversion Hstep; subst; cbn in Hp; rewrite ?Hn in Hp; try done;
    destruct Hp as (_ & [? ?] & _) || destruct Hp as (_ & [? ?]); done.
Qed.

Lemma Forall_middle_replace {A} (P : A -> Prop) l1 x y l2 :
  Forall P (l1 ++ x :: l2) -> (P x -> P y) -> Forall P (l1 ++ y :: l2).
Proof. intros [H1 [Hx H2]%Forall_cons]%Forall_app Hy. apply Forall_app; split; [done|]. constructor; auto. Qed.

Lemma Forall_middle {A} (P : A -> Prop) l1 x l2 : Forall P (l1 ++ x :: l2) -> P x /\ Forall P (l1 ++ l2).
Proof. intros [H1 [Hx H2]%Forall_cons]%Forall_app. split; [done|]. by apply Forall_app. Qed.

(** A step that leaves the files and adds at most credentials. *)
Lemma quiet_life p ks w0 (w w' : World E) ph :
  life p ks w0 w -> phase_ok p w ph ->
  fs w' = fs w -> consumed w ⊆ consumed w' -> (is_Some (SERVER w) -> is_Some (SERVER w')) ->
  (forall cfg, SERVER w' = Some cfg -> cfg_ok p cfg /\ load_nullifiers (fs w) p ⊆ consumed w') ->
  life p ks w0 w' /\ phase_ok p w' ph.
Proof.
  intros [L1 L2 L3 L4 L5] Hp Hf Hc Hs Hcfg. split; [|by apply (phase_ext p w)].
  constructor; rewrite ?Hf; done.
Qed.

Lemma mounted_spec r (w : World E) :
  let '(r', w') := mounted r w in
  fs w' = fs w /\ consumed w' = consumed w /\ SERVER w' = SERVER w
  /\ SERVING w' = (if is_ok r then SERVING w else false)
  /\ workers w' = (if is_ok r then S (workers w) else workers w).
Proof. by destruct r. Qed.

Lemma node_step_life p ks w0 s k s' :
  node_life p ks w0 s -> node_step cur p s k s' -> node_life p (ks ++ option_list k) w0 s'.
Proof.
  intros [Hl Hp Hss] Hstep.
  assert (Hkeep : forall w w' ph, life p ks w0 w -> phase_ok p w ph -> fs w' = fs w -> consumed w' = consumed w ->
    SERVER w' = SERVER w -> life p ks w0 w' /\ phase_ok p w' ph).
  { intros w w' ph Hl1 Hp1 Hf Hc Hs. split; [by apply (life_ext p ks w0 w)|].
    apply (phase_ext p w); [done|by rewrite Hs|by rewrite Hc|done]. }
  destruct Hstep as [w ph k w' ph' ss Hw|w ph ss owner args e l Hr|w ph ss owner args cfg l Hr Hok|w ph cfg s1 s2
    |w ph cfg s1 s2|w ph s1 s2 w' Hsw|w ph s1 s2 w' Hsw|w ph s1 s2 owner r l r' w' Hm Hmd|w ph ss l|w ph ss l];
    cbn [fst snd option_list] in *; rewrite ?app_nil_r.
  - destruct (worker_life cur p ks w0 w ph k w' ph' Hl Hp Hw) as [Hl' Hp']. constructor; [done..|]. cbn.
    eapply serving_ext; [|exact Hss]. by eapply worker_serving.
  - destruct (Hkeep w (set_lp l w) ph Hl Hp) as [Hl' Hp']; [done..|]. by constructor.
  - destruct (Hkeep w (set_lp l w) ph Hl Hp) as [Hl' Hp']; [done..|]. constructor; [done..|].
    cbn. by constructor.
  - destruct (Forall_middle _ _ _ _ Hss) as [Hok _]. cbn in Hok.
    assert (Hsub : consumed w ∪ load_nullifiers (fs w) p = consumed (merge_consumed (nullifiers_path cfg) w))
      by (by rewrite (proj1 Hok)).
    destruct (quiet_life p ks w0 w (merge_consumed (nullifiers_path cfg) w) ph Hl Hp) as [Hl' Hp'];
      [done|rewrite <-Hsub; clear; set_solver|done| |].
    { intros c [Hc' _]%(life_cfg _ _ _ _ Hl). split; [done|]. rewrite <-Hsub. clear. set_solver. }
    constructor; [done..|]. cbn [fst snd]. apply (Forall_middle_replace _ _ (Configured cfg)).
    + eapply serving_ext; [|exact Hss]. intros _. rewrite <-Hsub. clear. set_solver.
    + intros _. cbn [serving_ok]. split; [done|]. rewrite <-Hsub. clear. set_solver.
  - destruct (Forall_middle _ _ _ _ Hss) as [[Hok Hsub] _].
    destruct (quiet_life p ks w0 w (set_server (Some cfg) w) ph Hl Hp) as [Hl' Hp']; [done..|by eexists| |].
    { intros c [= <-]. done. }
    constructor; [done..|]. by apply (Forall_middle_replace _ _ (Merged cfg)).
  - injection Hsw as _ <-. destruct (Hkeep w (set_serving true w) ph Hl Hp) as [Hl' Hp']; [done..|].
    constructor; [done..|]. by apply (Forall_middle _ _ Installed).
  - injection Hsw as _ <-. destruct (Hkeep w (set_serving true w) ph Hl Hp) as [Hl' Hp']; [done..|].
    constructor; [done..|]. by apply (Forall_middle_replace _ _ Installed).
  - pose proof (mounted_spec r (set_lp l w)) as Hsp. rewrite Hmd in Hsp. destruct Hsp as (Hf & Hc & Hs & _ & _).
    destruct (Hkeep w w' ph Hl Hp Hf Hc Hs) as [Hl' Hp']. constructor; [done..|]. cbn [fst snd].
    apply (serving_ext p w); [|by apply (Forall_middle _ _ Mounting)]. by rewrite Hf, Hc.
  - destruct (Hkeep w (set_lp l w) ph Hl Hp) as [Hl' Hp']; [done..|]. by constructor.
  - constructor; [|done|by constructor]. cbn [fst snd]. destruct Hl as [L1 L2 L3 L4 L5]. by constructor.
Qed.

Lemma node_steps_life p (w0 : World E) ks s :
  SERVER w0 = None -> store_usable p (fs w0) -> node_steps cur p (w0, Idle, []) ks s -> node_life p ks w0 s.
Proof.
  intros H0 Hst. remember (w0, Idle, []) as s0 eqn:E0. intros Hs.
  induction Hs as [s|s ks s1 k s2 _ IH Hstep].
  - subst. constructor; [|done|by constructor].
    constructor; [done|cbn; congruence| |constructor|by intros ? ?%not_elem_of_nil]. cbn. clear. set_solver.
  - eapply node_step_life; [by apply IH|done].
Qed.

(** C1: no credential is spent twice, however the calls overlap.  Over any
    interleaving of the worker's steps with the steps of any number of [serve]
    calls in progress on the same store, host activity and restarts, the
    credentials left spent are distinct, none was in the store before, and the
    store holds them all. *)
Theorem overlapping_no_double_spend p (w0 : World E) ks w ph ss :
  SERVER w0 = None -> store_usable p (fs w0) -> node_steps cur p (w0, Idle, []) ks (w, ph, ss) ->
  NoDup ks
  /\ (forall k, k ∈ ks -> k ∉ load_nullifiers (fs w0) p)
  /\ load_nullifiers (fs w) p = list_to_set ks ∪ load_nullifiers (fs w0) p.
Proof. intros H0 Hst Hs. by destruct (node_steps_life p w0 ks _ H0 Hst Hs) as [[] _ _]. Qed.

(** ** One worker *)

Definition is_mounting (s : serving) : bool := match s with Mounting => true | _ => false end.
Definition mounts (ss : list serving) : nat := length (List.filter is_mounting ss).

Lemma mounts_middle s1 s s2 :
  mounts (s1 ++ s :: s2) = ((if is_mounting s then 1 else 0) + mounts (s1 ++ s2))%nat.
Proof. unfold mounts. rewrite !List.filter_app, !length_app. destruct s; cbn; lia. Qed.

(** The flag is up exactly while a worker runs or one mount is under way. *)
Definition one_worker (s : node (E := E)) : Prop :=
  (workers s.1.1 + mounts s.2 = if SERVING s.1.1 then 1 else 0)%nat.

Lemma node_step_worker p (s : node (E := E)) k s' : one_worker s -> node_step cur p s k s' -> one_worker s'.
Proof.
  unfold one_worker. intros Hone Hstep.
  destruct Hstep as [w ph k w' ph' ss Hw|w ph ss owner args e l Hr|w ph ss owner args cfg l Hr Hok|w ph cfg s1 s2
    |w ph cfg s1 s2|w ph s1 s2 w' Hsw|w ph s1 s2 w' Hsw|w ph s1 s2 owner r l r' w' Hm Hmd|w ph ss l|w ph ss l];
    cbn [fst snd] in *; rewrite ?mounts_middle in *; cbn [is_mounting] in *; try exact Hone.
  - destruct (worker_frame _ _ _ _ _ Hw) as [_ -> ->]. done.
  - injection Hsw as Hsv <-. rewrite Hsv in Hone. cbn. lia.
  - injection Hsw as Hsv <-. rewrite Hsv in Hone. cbn. lia.
  - pose proof (mounted_spec r (set_lp l w)) as Hsp. rewrite Hmd in Hsp.
    destruct Hsp as (_ & _ & _ & -> & ->). cbn [SERVING workers set_lp].
    destruct (SERVING w); [|lia]. destruct (is_ok r); lia.
  - done.
Qed.

(** C18: there is never a second worker.  However [serve] calls overlap, their
    mounts fail, or the process restarts, at most one worker runs or is about to
    be spawned, and none of either when the node does not count as serving. *)
Theorem never_two_workers p (w0 : World E) ks w ph ss :
  SERVING w0 = false -> workers w0 = 0%nat -> node_steps cur p (w0, Idle, []) ks (w, ph, ss) ->
  (workers w + mounts ss = if SERVING w then 1 else 0)%nat.
Proof.
  intros Hs Hw Hsteps. change (one_worker (w, ph, ss)). remember (w0, Idle, []) as s0 eqn:E0.
  induction Hsteps as [s|s ks s1 k s2 _ IH Hstep].
  - subst. unfold one_worker. cbn. by rewrite Hs, Hw.
  - eapply node_step_worker; [by apply IH|done].
Qed.
End Overlapping.
