(* ===== verification/Durable.v ===== *)
(** * Crashes among the steps of the node

    The appends of the store may stop in the middle of a line, by a crash of the
    process or with the process going on behind a full disk.  [fail_step] adds
    both to the steps of [Overlap]; a history says of every spent credential
    whether its line was written whole on a line of its own ([Kept]), was torn
    ([Torn]) or was written behind a torn one ([Swallowed]).  A cut inside a
    character is left out: it makes the file unreadable
    ([Crash.torn_append_loads]). *)
From S2P Require Import Prelude RustStd Wire Nullifiers Crash Json Crates JsonInstance AuthVector Lp.
From S2P Require Import Server GiftSpec GiftProps Interleave Overlap.

(** ** Store files with an open line *)

Section OpenLine.
Context {U : UnicodeTables} {UL : UnicodeLaws U}.

Definition contents (f : Fs) (p : string) : list byte := default [] (fs_files f !! p).

(** Nothing is written behind the last newline. *)
Definition whole_lines (f : Fs) (p : string) : bool :=
  match last (contents f p) with Some b => u8 b =? 10 | None => true end.

(** A usable file whose whole lines hold the keys [S], behind them the text [t]. *)
Record open_store (p : string) (S : gset string) (t : string) (f : Fs) : Prop := {
  os_path : p <> "" /\ fs_readable f p = true /\ fs_appendable f p = true;
  os_tail : str_valid t /\ x0a ∉ str_bytes t;
  os_body : exists c, contents f p = str_bytes (c +:+ t) /\ str_valid c /\ ends_line c
    /\ fold_left load_line (lines c) ∅ = S
}.

Lemma usable_open p f : store_usable p f -> open_store p (load_nullifiers f p) "" f.
Proof.
  intros (Hp & Hr & Ha & Hok). constructor; [done| |].
  - split; [done|]. by intros ?%not_elem_of_nil.
  - unfold contents, load_nullifiers, read_to_string. rewrite is_empty_false, Hr by done.
    destruct (fs_files f !! p) as [bs|] eqn:Hf; cbn [default andb].
    + destruct (Hok bs Hf) as [Hv He]. exists (bytes_str bs).
      rewrite str_app_nil_r, str_bytes_str. unfold str_valid in Hv. rewrite str_bytes_str in Hv. rewrite Hv.
      split; [done|]. split; [|done]. unfold str_valid. by rewrite str_bytes_str.
    + exists "". split; [done|]. split; [done|]. split; [by left|done].
Qed.

Lemma open_whole p S t f : open_store p S t f -> whole_lines f p = bool_decide (t = "").
Proof.
  intros [_ [_ Ht] (c & Hc & _ & He & _)]. unfold whole_lines. rewrite Hc, str_bytes_app. case_bool_decide as Hn.
  - rewrite Hn. change (str_bytes "") with (@nil byte). rewrite app_nil_r. destruct He as [->|[s ->]]; [done|].
    rewrite str_bytes_app. unfold newline. by rewrite str_bytes_str, last_snoc.
  - rewrite last_app. destruct (last (str_bytes t)) as [b|] eqn:Hl.
    + apply Z.eqb_neq. intros Hb. apply Ht. rewrite <-(u8_inj b x0a Hb). by apply last_Some_elem_of.
    + apply last_None in Hl. by rewrite <-(bytes_str_bytes t), Hl in Hn.
Qed.

(** What the lines hold is loaded, whatever stands behind them. *)
Lemma open_load p S t f : open_store p S t f -> S ⊆ load_nullifiers f p.
Proof.
  intros [(Hp & Hr & _) [Hv Ht] (c & Hc & Hcv & He & <-)].
  assert (Hload : load_nullifiers f p = fold_left load_line (lines (c +:+ t)) ∅).
  { unfold load_nullifiers, read_to_string. rewrite is_empty_false by done. unfold contents in Hc.
    pose proof (str_valid_app c t Hcv Hv) as Hct.
    destruct (fs_files f !! p) as [bs|]; cbn in Hc.
    - rewrite Hr, Hc. unfold str_valid in Hct. by rewrite Hct, bytes_str_bytes.
    - apply (f_equal bytes_str) in Hc. rewrite bytes_str_bytes in Hc. by rewrite <-Hc. }
  rewrite Hload, lines_tail, fold_left_app by done. case_decide; [done|]. cbn. unfold load_line.
  destruct (negb _); set_solver.
Qed.

Lemma append_open p S t f x :
  open_store p S t f ->
  contents (append_file f p x) p = contents f p ++ str_bytes x
  /\ (p <> "" /\ fs_readable (append_file f p x) p = true /\ fs_appendable (append_file f p x) p = true).
Proof.
  intros [(Hp & Hr & Ha) _ _]. unfold append_file, contents. rewrite Ha. cbn. by rewrite lookup_insert_eq.
Qed.

(** A line is closed: its text is one more key, read as the load reads it. *)
Lemma open_append p S t f k :
  open_store p S t f -> canonical_key k ->
  open_store p (load_line S (t +:+ k)) "" (append_nullifier f p k).
Proof.
  intros Ho Hk. pose proof (append_open p S t f (k +:+ newline) Ho) as [Hc Hu].
  destruct Ho as [(Hp & _) [Hv Ht] (c & Hb & Hcv & He & HS)].
  unfold append_nullifier. rewrite is_empty_false by done. constructor; [done| |].
  { split; [done|]. by intros ?%not_elem_of_nil. }
  assert (Hne : str_bytes k <> []).
  { intros E. apply (ck_nonempty k Hk). by rewrite <-(bytes_str_bytes k), E. }
  exists (c +:+ (t +:+ k) +:+ newline). rewrite str_app_nil_r. split; [|split; [|split]].
  - rewrite Hc, Hb, !str_bytes_app. by rewrite <-!app_assoc.
  - by repeat apply str_valid_app; try apply Hk; try apply newline_valid.
  - right. exists (c +:+ t +:+ k). by rewrite !str_app_assoc.
  - rewrite lines_snoc, fold_left_app, HS; [done|done| |].
    + rewrite str_bytes_app, elem_of_app. intros [?|?%canonical_no_newline]; done.
    + rewrite str_bytes_app, last_app. destruct (last (str_bytes k)) as [b|] eqn:Hl.
      * rewrite <-Hl. by apply canonical_no_cr.
      * by apply last_None in Hl.
Qed.

(** A line is torn: its beginning stands behind what was there. *)
Lemma open_torn p S t f k n :
  open_store p S t f -> canonical_key k -> (n <= length (str_bytes k))%nat ->
  utf8_valid (str_bytes (torn_key k n)) = true ->
  open_store p S (t +:+ torn_key k n) (torn_append f p k n).
Proof.
  intros Ho Hk Hn Hkv. pose proof (append_open p S t f (torn_key k n) Ho) as [Hc Hu].
  destruct Ho as [(Hp & _) [Hv Ht] (c & Hb & Hcv & He & HS)]. rewrite torn_append_part by done.
  constructor; [done| |].
  - split; [by apply str_valid_app|]. rewrite str_bytes_app, elem_of_app.
    intros [?|Hx]; [done|]. by apply (torn_key_line k n Hk).
  - exists c. split; [|done]. rewrite Hc, Hb, !str_bytes_app. by rewrite app_assoc.
Qed.
End OpenLine.

(** ** The node *)

Inductive fate : Type := Kept | Torn | Swallowed.

#[export] Instance fate_eq_dec : EqDecision fate.
Proof. solve_decision. Defined.

Section Failures.
Context {E : Type} {H : LpHost E} {J : SerdeJson} {X : HexCrate} {B : Base64Crate} {U : UnicodeTables}
  {UL : UnicodeLaws U}.
Context (cur : ThreadId).

(** The fate of a credential whose append succeeds. *)
Definition fate_at (p : string) (w : World E) : fate := if whole_lines (fs w) p then Kept else Swallowed.

(** The cuts of a key's line between two characters. *)
Definition cut (k : string) (n : nat) : Prop :=
  (n <= length (str_bytes k))%nat /\ utf8_valid (str_bytes (torn_key k n)) = true.

(** A step of the node, or one that stops in the middle of an append: the
    process dies there, or goes on without noticing. *)
Inductive fail_step (p : string) : node (E := E) -> option (fate * string) -> node (E := E) -> Prop :=
| fail_not s k s' :
    node_step cur p s k s' -> fail_step p s ((fun k => (fate_at p s.1.1, k)) <$> k) s'
| fail_crash w cfg req key r ss k n l :
    settled_key key r = Some k -> cut k n ->
    fail_step p (w, Registered cfg req key r, ss) (Some (Torn, k))
      (restarted l (set_fs (torn_append (fs w) (nullifiers_path cfg) k n) w), Idle, [])
| fail_short w cfg req key r ss k n resp w' :
    settled_key key r = Some k -> cut k n -> settle cfg req key r w = (resp, w') ->
    fail_step p (w, Registered cfg req key r, ss) (Some (Torn, k))
      (set_fs (torn_append (fs w) (nullifiers_path cfg) k n) w', Idle, ss).

Inductive fail_steps (p : string) : node (E := E) -> list (fate * string) -> node (E := E) -> Prop :=
| fail_none s : fail_steps p s [] s
| fail_more s ks s1 k s2 :
    fail_steps p s ks s1 -> fail_step p s1 k s2 -> fail_steps p s (ks ++ option_list k) s2.

(** A history without failures, as far as nothing is spent. *)
Lemma fail_quiet p s0 hs s1 ks s2 :
  fail_steps p s0 hs s1 -> node_steps cur p s1 ks s2 -> ks = [] -> fail_steps p s0 hs s2.
Proof.
  intros Hs Hn. induction Hn as [s|s ks s1 k s2 _ IH Hstep]; [done|]. intros [Hks Hk]%app_nil.
  destruct k as [k|]; [done|]. rewrite <-(app_nil_r hs). apply (fail_more p s0 hs s1 None s2 (IH Hs Hks)).
  exact (fail_not p s1 None s2 Hstep).
Qed.

(** ** What is kept *)

Implicit Types (D : gset string) (w : World E).

Definition guard p D w : Prop := forall cfg, SERVER w = Some cfg -> cfg_ok p cfg /\ D ⊆ consumed w.

Definition phase_safe p D w (ph : phase) : Prop :=
  match ph with
  | Idle => True
  | Accepted cfg req => cfg_ok p cfg /\ D ⊆ consumed w
  | Judged cfg req verdict =>
      cfg_ok p cfg /\ D ⊆ consumed w
      /\ (is_Some verdict -> is_Some (auth_verifiers cfg !! request_type req))
  | Reserved cfg req key | Registered cfg req key _ =>
      cfg_ok p cfg /\ D ⊆ consumed w
      /\ forall k, key = Some k -> canonical_key k /\ k ∈ consumed w /\ (k ∉ D)
  end.

Definition serving_safe p D w (s : serving) : Prop :=
  match s with
  | Configured cfg => cfg_ok p cfg
  | Merged cfg => cfg_ok p cfg /\ D ⊆ consumed w
  | Installed | Mounting => True
  end.

(** The whole lines of the store hold at least [D]. *)
Definition store_holds p D (f : Fs) : Prop := exists S t, D ⊆ S /\ open_store p S t f.

Record node_safe p D (s : node (E := E)) : Prop := {
  ns_store : store_holds p D (fs s.1.1);
  ns_guard : guard p D s.1.1;
  ns_phase : phase_safe p D s.1.1 s.1.2;
  ns_serving : Forall (serving_safe p D s.1.1) s.2
}.

Lemma store_holds_load p D f : store_holds p D f -> D ⊆ load_nullifiers f p.
Proof. intros (S & t & HS & Ho). etrans; [exact HS|by eapply open_load]. Qed.

Lemma phase_safe_more p D w w' ph :
  (D ⊆ consumed w -> consumed w ⊆ consumed w') -> phase_safe p D w ph -> phase_safe p D w' ph.
Proof. intros Hc. destruct ph; cbn; [done|set_solver..]. Qed.

Lemma serving_safe_more p D w w' ss :
  (D ⊆ consumed w -> D ⊆ consumed w') -> Forall (serving_safe p D w) ss -> Forall (serving_safe p D w') ss.
Proof. intros Hc Hss. eapply Forall_impl; [exact Hss|]. intros [cfg|cfg| |]; cbn; naive_solver. Qed.

Lemma guard_more p D w w' :
  SERVER w' = SERVER w -> (D ⊆ consumed w -> D ⊆ consumed w') -> guard p D w -> guard p D w'.
Proof. intros Hs Hc Hg cfg. rewrite Hs. intros Hcfg. destruct (Hg cfg Hcfg). auto. Qed.

(** A step that leaves the files and the configuration and forgets nothing. *)
Lemma quiet_safe p D w w' ph ss :
  fs w' = fs w -> SERVER w' = SERVER w -> consumed w ⊆ consumed w' ->
  node_safe p D (w, ph, ss) -> node_safe p D (w', ph, ss).
Proof.
  intros Hf Hs Hc [H1 H2 H3 H4]. cbn [fst snd] in *. constructor; cbn [fst snd].
  - by rewrite Hf.
  - apply (guard_more p D w); [done|set_solver|done].
  - by apply (phase_safe_more p D w).
  - eapply serving_safe_more; [|done]. set_solver.
Qed.
(** With the credential [k] spent at the store [f]. *)
Definition with_spent p (f : Fs) D (k : option string) : gset string :=
  match k with Some k => if whole_lines f p then {[k]} ∪ D else D | None => D end.

Definition spends p D w (k : option string) w' : Prop :=
  match k with Some k => (k ∉ D) /\ whole_lines (fs w') p = true | None => fs w' = fs w end.

Lemma holds_append p D f k :
  store_holds p D f -> canonical_key k ->
  store_holds p (with_spent p f D (Some k)) (append_nullifier f p k)
  /\ whole_lines (append_nullifier f p k) p = true.
Proof.
  intros (S & t & HS & Ho) Hk. pose proof (open_append p S t f k Ho Hk) as Ha.
  split; [|by rewrite (open_whole _ _ _ _ Ha)]. eexists _, _. split; [|exact Ha].
  cbn [with_spent]. rewrite (open_whole _ _ _ _ Ho). case_bool_decide as Ht.
  - subst t. change ("" +:+ k) with k. rewrite load_canonical by done. set_solver.
  - unfold load_line. destruct (negb _); set_solver.
Qed.

Lemma holds_torn p D f k n :
  store_holds p D f -> canonical_key k -> cut k n -> store_holds p D (torn_append f p k n).
Proof. intros (S & t & HS & Ho) Hk [Hn Hv]. eexists _, _. split; [exact HS|by apply open_torn]. Qed.

Lemma claim_safe p D w cfg req verdict r w' ss :
  node_safe p D (w, Judged cfg req verdict, ss) -> claim req verdict w = (r, w') ->
  node_safe p D (w', match r with Ok key => Reserved cfg req key | Err _ => Idle end, ss) /\ fs w' = fs w.
Proof.
  intros Hsafe Hc. destruct Hsafe as [H1 H2 (Hok & Hsub & Hv) H4]. cbn [fst snd] in *.
  assert (Hw : node_safe p D (w, Idle, ss)) by by constructor.
  destruct verdict as [[module nul]|]; cbn in Hc.
  2:{ injection Hc as <- <-. split; [|done]. constructor; cbn; done. }
  pose proof (claim_nullifier_spec (RlnGifterRequest.request_id req) (request_type req) module nul w) as Hsp.
  rewrite Hc in Hsp. destruct Hsp as (_ & Hf & [Hs _ _] & Hr). split; [|exact Hf].
  destruct r as [key|resp].
  - destruct Hr as (Hnorm & -> & Hnew & Hcons).
    assert (Hmore : consumed w ⊆ consumed w') by (rewrite Hcons; clear; set_solver).
    destruct (quiet_safe p D w w' Idle ss Hf Hs Hmore Hw) as [K1 K2 _ K4]. constructor; [done..| |done]. cbn.
    split; [done|]. split; [by etrans|]. intros k [= <-].
    split; [|split; [rewrite Hcons; clear; set_solver|clear -Hsub Hnew; set_solver]].
    destruct (Hv ltac:(eauto)) as [mc Hmc]. apply key_canonical; [by eapply (proj2 Hok)|done].
  - destruct Hr as [_ Hcons]. apply (quiet_safe p D w); [done..|by rewrite Hcons|done].
Qed.

Lemma settle_safe p D w cfg req key r resp w' ss :
  node_safe p D (w, Registered cfg req key r, ss) -> settle cfg req key r w = (resp, w') ->
  node_safe p (with_spent p (fs w) D (settled_key key r)) (w', Idle, ss)
  /\ spends p D w (settled_key key r) w'.
Proof.
  intros [H1 H2 (Hok & Hsub & Hk) H4] Hset. cbn [fst snd] in *. pose proof (settle_spec cfg req key r w) as Hsp.
  rewrite Hset in Hsp. destruct Hsp as (_ & _ & [Hsrv _ _] & Hf & Hc). rewrite (proj1 Hok) in Hf.
  assert (Hkeep : fs w' = fs w -> (D ⊆ consumed w -> D ⊆ consumed w') -> node_safe p D (w', Idle, ss)).
  { intros Hf' Hc'. constructor; cbn [fst snd]; [by rewrite Hf'|by apply (guard_more p D w)|done|].
    by eapply serving_safe_more. }
  destruct key as [k|]; [|assert (settled_key None r = None) as -> by (by destruct r as [|[]]);
    split; [apply Hkeep; [done|by rewrite Hc]|done]].
  destruct (Hk k eq_refl) as (Hcan & Hin & Hnew).
  assert (Hspent : fs w' = append_nullifier (fs w) p k -> consumed w' = consumed w ->
    node_safe p (with_spent p (fs w) D (Some k)) (w', Idle, ss) /\ spends p D w (Some k) w').
  { intros Hf' Hc'. destruct (holds_append p D (fs w) k H1 Hcan) as [Hst Hwh].
    assert (Hsub' : with_spent p (fs w) D (Some k) ⊆ consumed w').
    { rewrite Hc'. cbn [with_spent]. destruct (whole_lines (fs w) p); [|done]. clear -Hsub Hin. set_solver. }
    split; [|split; [done|by rewrite Hf']]. constructor; cbn [fst snd]; [by rewrite Hf'| |done|].
    - intros c. rewrite Hsrv. intros [? _]%H2. done.
    - eapply Forall_impl; [exact H4|]. intros [c|c| |]; cbn [serving_safe]; naive_solver. }
  destruct r as [s|[m|m]]; cbn [settled_key]; [by apply Hspent| |by apply Hspent].
  split; [|done]. apply Hkeep; [done|]. rewrite Hc. intros _. clear -Hsub Hnew. set_solver.
Qed.

Lemma worker_safe p D w ph k w' ph' ss :
  node_safe p D (w, ph, ss) -> worker_step cur (w, ph) k (w', ph') ->
  node_safe p (with_spent p (fs w) D k) (w', ph', ss) /\ spends p D w k w'.
Proof.
  intros Hsafe Hstep.
  assert (Hlp : forall l, node_safe p D (set_lp l w, Idle, ss)).
  { intros l. destruct Hsafe as [K1 K2 K3 K4]. by constructor. }
  inversion Hstep as [buf w1 resp Ha|buf w1 cfg req Ha|w1 cfg req resp l Hj|w1 cfg req v l Hj
    |w1 cfg req v resp w2 Hc|w1 cfg req v key w2 Hc|fuel w1 cfg req key r l Hr|w1 cfg req key r resp w2 Hset];
    subst; cbn [with_spent spends].
  - done.
  - split; [|done]. destruct Hsafe as [K1 K2 _ K4]. constructor; [done..| |done]. cbn in *.
    unfold intake in Ha. destruct (RlnGifterRequest.decode buf); [|done].
    destruct (negb _); [done|]. destruct (SERVER w') as [c|] eqn:Hs; [|done].
    cbn in Ha. injection Ha as <- <-. by apply K2.
  - split; [apply Hlp|done].
  - split; [|done]. destruct Hsafe as [K1 K2 [Hok Hsub] K4]. constructor; [done..| |done]. cbn.
    split; [done|]. split; [done|]. by eapply judge_verdict.
  - by apply (claim_safe p D w cfg req v _ w' ss Hsafe Hc).
  - by apply (claim_safe p D w cfg req v _ w' ss Hsafe Hc).
  - split; [|done]. destruct Hsafe as [K1 K2 K3 K4]. by constructor.
  - by eapply settle_safe.
Qed.

(** A step of a [serve], the host or a restart. *)
Lemma node_step_safe p D s k s' :
  node_safe p D s -> node_step cur p s k s' ->
  node_safe p (with_spent p (fs s.1.1) D k) s' /\ spends p D s.1.1 k s'.1.1.
Proof.
  intros Hsafe Hstep.
  destruct Hstep as [w ph k w' ph' ss Hw|w ph ss owner args e l Hr|w ph ss owner args cfg l Hr Hok|w ph cfg s1 s2
    |w ph cfg s1 s2|w ph s1 s2 w' Hsw|w ph s1 s2 w' Hsw|w ph s1 s2 owner r l r' w' Hm Hmd|w ph ss l|w ph ss l];
    [by eapply worker_safe|..]; cbn [with_spent spends fst snd].
  - split; [|done]. by apply (quiet_safe p D w).
  - split; [|done]. destruct (quiet_safe p D w (set_lp l w) ph ss) as [K1 K2 K3 K4]; [done..|].
    constructor; [done..|]. by constructor.
  - split; [|done]. destruct Hsafe as [K1 K2 K3 K4]. cbn [fst snd] in *.
    destruct (Forall_middle _ _ _ _ K4) as [Hok _]. cbn in Hok.
    assert (Hc : consumed (merge_consumed (nullifiers_path cfg) w) = consumed w ∪ load_nullifiers (fs w) p)
      by (by rewrite <-(proj1 Hok)).
    assert (Hmore : consumed w ⊆ consumed (merge_consumed (nullifiers_path cfg) w))
      by (rewrite Hc; clear; set_solver).
    destruct (quiet_safe p D w (merge_consumed (nullifiers_path cfg) w) ph (s1 ++ Configured cfg :: s2))
      as [Q1 Q2 Q3 Q4]; [done..|]. constructor; [done..|]. cbn [fst snd] in *.
    apply (Forall_middle_replace _ _ (Configured cfg)); [exact Q4|]. intros _. split; [done|]. rewrite Hc.
    pose proof (store_holds_load p D (fs w) K1) as HD. clear -HD. set_solver.
  - split; [|done]. destruct Hsafe as [K1 K2 K3 K4]. cbn [fst snd] in *.
    destruct (Forall_middle _ _ _ _ K4) as [[Hok Hsub] _]. constructor; cbn [fst snd]; [done| | |].
    + by intros c [= <-].
    + by apply (phase_safe_more p D w).
    + by apply (Forall_middle_replace _ _ (Merged cfg)).
  - injection Hsw as _ <-. split; [|done].
    destruct (quiet_safe p D w (set_serving true w) ph (s1 ++ Installed :: s2)) as [K1 K2 K3 K4]; [done..|].
    constructor; [done..|]. by apply (Forall_middle _ _ Installed).
  - injection Hsw as _ <-. split; [|done].
    destruct (quiet_safe p D w (set_serving true w) ph (s1 ++ Installed :: s2)) as [K1 K2 K3 K4]; [done..|].
    constructor; [done..|]. by apply (Forall_middle_replace _ _ Installed).
  - pose proof (mounted_spec r (set_lp l w)) as Hsp. rewrite Hmd in Hsp. destruct Hsp as (Hf & Hc & Hs & _ & _).
    split; [|done]. destruct (quiet_safe p D w w' ph (s1 ++ Mounting :: s2)) as [K1 K2 K3 K4];
      [done..|by rewrite Hc|done|]. constructor; [done..|]. by apply (Forall_middle _ _ Mounting).
  - split; [|done]. by apply (quiet_safe p D w).
  - split; [|done]. destruct Hsafe as [K1 _ _ _]. constructor; [done|by intros c|done|by constructor].
Qed.

(** An append that stops: nothing kept is lost. *)
Lemma torn_safe p D w cfg req key r k n ss :
  node_safe p D (w, Registered cfg req key r, ss) -> settled_key key r = Some k -> cut k n ->
  store_holds p D (torn_append (fs w) (nullifiers_path cfg) k n) /\ (k ∉ D).
Proof.
  intros [H1 _ (Hok & _ & Hk) _] Hs Hcut. cbn [fst snd] in *.
  assert (key = Some k) as -> by (by destruct key, r as [|[]]).
  destruct (Hk k eq_refl) as (Hcan & _ & Hnew). split; [|done]. rewrite (proj1 Hok). by apply holds_torn.
Qed.

(** ** Histories *)

Definition kept (hs : list (fate * string)) : list string := (filter (fun x => x.1 = Kept) hs).*2.
Definition count (f : fate) (hs : list (fate * string)) : nat := length (filter (fun x => x.1 = f) hs).

(** The credentials that were in the store, or kept since. *)
Definition durable p (w0 : World E) hs : gset string := list_to_set (kept hs) ∪ load_nullifiers (fs w0) p.

Record endures p (w0 : World E) (hs : list (fate * string)) (s : node (E := E)) : Prop := {
  en_safe : node_safe p (durable p w0 hs) s;
  en_fresh i f k : hs !! i = Some (f, k) -> k ∉ durable p w0 (take i hs);
  en_count : (count Swallowed hs + (if whole_lines (fs s.1.1) p then 0 else 1) <= count Torn hs)%nat
}.

Lemma kept_snoc hs f k : kept (hs ++ [(f, k)]) = kept hs ++ (if decide (f = Kept) then [k] else []).
Proof. unfold kept. rewrite filter_app, fmap_app. f_equal. by destruct f. Qed.

Lemma count_snoc g hs f k : count g (hs ++ [(f, k)]) = (count g hs + if decide (f = g) then 1 else 0)%nat.
Proof.
  unfold count. rewrite filter_app, length_app. by destruct f, g.
Qed.

Lemma kept_all hs : count Torn hs = 0%nat -> count Swallowed hs = 0%nat -> kept hs = hs.*2.
Proof.
  unfold count, kept. induction hs as [|[f k] hs IH]; [done|]. rewrite !filter_cons, fmap_cons. cbn [fst].
  destruct f; repeat (case_decide; try done); intros Ht Hs; try done.
  rewrite fmap_cons. f_equal. by apply IH.
Qed.

Lemma durable_snoc p w0 hs f k :
  durable p w0 (hs ++ [(f, k)]) = if decide (f = Kept) then {[k]} ∪ durable p w0 hs else durable p w0 hs.
Proof.
  unfold durable. rewrite kept_snoc, list_to_set_app_L. case_decide; cbn; clear; set_solver.
Qed.

Lemma fresh_snoc p w0 hs f k :
  (forall i g k', hs !! i = Some (g, k') -> k' ∉ durable p w0 (take i hs)) -> (k ∉ durable p w0 hs) ->
  forall i g k', (hs ++ [(f, k)]) !! i = Some (g, k') -> k' ∉ durable p w0 (take i (hs ++ [(f, k)])).
Proof.
  intros Hf Hk i g k' Hi. apply lookup_snoc_Some in Hi as [[Hlt Hi]|[-> [= <- <-]]].
  - rewrite take_app_le by lia. by eapply Hf.
  - by rewrite take_app_length.
Qed.

Lemma node_safe_less p D D' s : D ⊆ D' -> node_safe p D' s -> node_safe p D s.
Proof.
  intros HD [(S & t & HS & Ho) K2 K3 K4]. constructor.
  - eexists _, _. split; [|exact Ho]. by etrans.
  - intros cfg Hcfg. destruct (K2 cfg Hcfg). split; [done|]. by etrans.
  - destruct (s.1.2); cbn in *; clear -HD K3; naive_solver (set_solver).
  - eapply Forall_impl; [exact K4|]. intros [cfg|cfg| |]; cbn; clear -HD; set_solver.
Qed.

Lemma torn_count (a b : nat) (x y : bool) :
  (a + (if x then 0 else 1) <= b)%nat -> (a + 0 + (if y then 0 else 1) <= b + 1)%nat.
Proof. destruct x, y; lia. Qed.

Lemma fail_step_endures p w0 hs s k s' :
  endures p w0 hs s -> fail_step p s k s' -> endures p w0 (hs ++ option_list k) s'.
Proof.
  intros [Hs Hf Hc] Hstep. destruct Hstep as [s k s' Hn|w cfg req key r ss k n l Hk Hcut|w cfg req key r ss k n resp w' Hk Hcut Hset].
  - destruct (node_step_safe p _ s k s' Hs Hn) as [Hs' Hsp]. destruct k as [k|]; cbn [fmap option_fmap option_map];
      [change (option_list (Some ?x)) with [x]|cbn [option_list]].
    + destruct Hsp as [Hnew Hwh]. constructor.
      * rewrite durable_snoc. unfold fate_at. cbn [with_spent] in Hs'.
        destruct (whole_lines (fs s.1.1) p); by case_decide.
      * by apply fresh_snoc.
      * rewrite !count_snoc, Hwh. unfold fate_at. destruct (whole_lines (fs s.1.1) p);
          repeat (case_decide; try done); lia.
    + rewrite app_nil_r. cbn in Hsp. constructor; [done..|]. by rewrite Hsp.
  - destruct (torn_safe _ _ _ _ _ _ _ _ _ _ Hs Hk Hcut) as [Hst Hnew].
    change (option_list (Some ?x)) with [x]. constructor.
    + rewrite durable_snoc. case_decide; [done|]. constructor; [done|by intros c|done|by constructor].
    + by apply fresh_snoc.
    + rewrite !count_snoc. repeat (case_decide; try done). by eapply torn_count.
  - destruct (torn_safe _ _ _ _ _ _ _ _ _ _ Hs Hk Hcut) as [Hst Hnew].
    change (option_list (Some ?x)) with [x]. constructor.
    + rewrite durable_snoc. case_decide; [done|].
      destruct (settle_safe p _ w cfg req key r resp w' ss Hs Hset) as [Hs' _].
      apply (node_safe_less _ (durable p w0 hs)) in Hs' as [_ K2 _ K4].
      { by constructor. }
      rewrite Hk. cbn [with_spent]. destruct (whole_lines (fs w) p); clear; set_solver.
    + by apply fresh_snoc.
    + rewrite !count_snoc. repeat (case_decide; try done). by eapply torn_count.
Qed.

Lemma fail_steps_endure p w0 hs s :
  SERVER w0 = None -> store_usable p (fs w0) -> fail_steps p (w0, Idle, []) hs s -> endures p w0 hs s.
Proof.
  intros H0 Hst. remember (w0, Idle, []) as s0 eqn:E0. intros Hs.
  induction Hs as [s|s hs s1 k s2 _ IH Hstep].
  - subst. pose proof (usable_open p (fs w0) Hst) as Ho. constructor; [|done|].
    + constructor; [|intros cfg Hcfg; cbn in Hcfg; congruence|done|by constructor]. eexists _, _. split; [|exact Ho].
      unfold durable. cbn. clear. set_solver.
    + cbn. by rewrite (open_whole _ _ _ _ Ho).
  - eapply fail_step_endures; [by apply IH|done].
Qed.

(** C2: crashes endanger two credentials each, and no other.  Over any
    interleaving of the node's steps in which any appends are cut short, with
    the process dying there or going on, a credential whose line was written
    whole, or that was in the store before, is never spent again and is loaded
    at every later time; and those written behind a torn line, which a restart
    forgets, are no more than the torn ones; where none is torn every credential
    is kept. *)
Theorem kept_credentials_endure p (w0 : World E) hs w ph ss :
  SERVER w0 = None -> store_usable p (fs w0) -> fail_steps p (w0, Idle, []) hs (w, ph, ss) ->
  (forall i f k, hs !! i = Some (f, k) -> (k ∉ kept (take i hs)) /\ (k ∉ load_nullifiers (fs w0) p))
  /\ (forall k, k ∈ kept hs \/ k ∈ load_nullifiers (fs w0) p -> k ∈ load_nullifiers (fs w) p)
  /\ (count Swallowed hs <= count Torn hs)%nat
  /\ (count Torn hs = 0%nat -> kept hs = hs.*2).
Proof.
  intros H0 Hst Hs. destruct (fail_steps_endure p w0 hs _ H0 Hst Hs) as [[K1 _ _ _] Hf Hc]. split; [|split; [|split]].
  - intros i f k Hi. specialize (Hf i f k Hi). unfold durable in Hf. clear -Hf. set_solver.
  - intros k Hk. apply (store_holds_load p _ _ K1). unfold durable. clear -Hk. set_solver.
  - lia.
  - intros Ht. apply kept_all; lia.
Qed.
End Failures.
