(* ===== verification/Worker.v ===== *)
(** * The worker

    One turn of [worker_loop]: a stream is accepted, its request read, handled,
    answered and the stream released.  Over any number of turns the worker is
    one of the interleavings of [Interleave]; [Timing] bounds how long a turn takes. *)
From S2P Require Import Prelude RustStd Wire Json Crates JsonInstance AuthVector Lp.
From S2P Require Import Server GiftSpec GiftProps Interleave.

Section Streams.
Context {E : Type} {H : LpHost E} {J : SerdeJson} {L : SerdeJsonLaws J} {X : HexCrate} {B : Base64Crate} {BL : Base64Laws B}
  {U : UnicodeTables} {UL : UnicodeLaws U}.
Context (cur : ThreadId).

Definition libp2p_call (method : string) (args : Value) (tm : Z) : LpCall := {|
  target := LIBP2P_MODULE; method := method; args_json := to_string args; timeout_ms := tm |}.

Definition read_call (id : Z) : LpCall :=
  libp2p_call "streamReadLpJson"
    (blob (json_obj [("streamId", num id); ("maxSize", num MAX_RPC_SIZE); ("timeoutMs", num READ_TIMEOUT_MS)]))
    (READ_TIMEOUT_MS + 10000).
Definition write_call (id : Z) (resp : RlnGifterResponse.t) : LpCall :=
  libp2p_call "streamWriteLpJson"
    (blob (json_obj [("streamId", num id); ("dataB64", VString (b64 (RlnGifterResponse.encode resp)))]))
    (WRITE_TIMEOUT_MS + 10000).
Definition release_call (id : Z) : LpCall :=
  libp2p_call "streamReleaseJson" (blob (json_obj [("streamId", num id)])) 10000.

(** The bytes a read of the stream brings. *)
Definition stream_bytes (read : result Value string) : result (list byte) string :=
  let? read := read in
  let? data_b64 := ok_or (get_str read "dataB64") "streamReadLpJson: no dataB64" in
  b64_decode data_b64.

(** The blob of a well-formed object is handed to the library whole. *)
Lemma blob_cstring v :
  json_wf max_depth v -> cstring (to_string (blob v)) = Some (to_string (blob v)).
Proof.
  intros Hv. destruct (to_string_text v Hv) as (Ht & _ & _).
  apply json_cstring, (json_wf_array 119), Forall_singleton. by apply (json_wf_string 118).
Qed.

Lemma members_cstring ms :
  Forall (fun p => str_valid p.1 /\ json_wf 119 p.2) ms ->
  cstring (to_string (blob (json_obj ms))) = Some (to_string (blob (json_obj ms))).
Proof. intros Hms. by apply blob_cstring, (json_obj_wf 119). Qed.

(** A request makes calls and keeps the clients. *)
Lemma handle_request_ext fuel buf (w : World E) resp w' :
  handle_request cur fuel buf w = (Some resp, w') -> exists cs, lp_ext cs (lp w) (lp w').
Proof.
  intros Hr. apply handle_request_handled in Hr; [|exact UL].
  destruct Hr as [e resp _ _|req b resp cs w' _ _ He _ _ _ _|req cfg key l1 r cs w' _ _ _ Ha _ _ He _ _].
  - exists []. apply lp_ext_refl.
  - by exists cs.
  - destruct (authorized_ext _ _ _ _ _ _ Ha) as (asked & Hea & _). eexists. by eapply lp_ext_trans.
Qed.

Lemma libp2p_keeps m args tm (l : Lp E) :
  exists cs, lp_ext cs l (call_libp2p cur m args tm l).2.
Proof.
  pose proof (call_libp2p_ext cur m args tm l) as Hc. destruct (call_libp2p _ _ _ _ _) as [r l'].
  destruct Hc as (cs & He & _). by exists cs.
Qed.

(** The answer and the release. *)
Lemma answer_stream id resp p (w : World E) :
  lookup_client LIBP2P_MODULE (lp w) = Some p -> is_u64 id ->
  let l1 := (call_libp2p cur "streamWriteLpJson"
      (blob (json_obj [("streamId", num id); ("dataB64", VString (b64 (RlnGifterResponse.encode resp)))]))
      (WRITE_TIMEOUT_MS + 10000) (lp w)).2 in
  lp_ext [write_call id resp; release_call id] (lp w)
    (call_libp2p cur "streamReleaseJson" (blob (json_obj [("streamId", num id)])) 10000 l1).2.
Proof.
  intros Hp Hid l1.
  assert (Hw : lp_ext [write_call id resp] (lp w) l1).
  { eapply call_libp2p_made; [done|done|]. apply members_cstring. solve_members; [done|].
    apply is_ascii_chars, base64_encode_ascii. }
  eapply (lp_ext_trans [_] [_]); [exact Hw|].
  eapply call_libp2p_made; [by apply (ext_clients _ _ _ Hw)|done|]. apply members_cstring. by solve_members.
Qed.

(** C20: a request that was read is answered with what [handle_request] returns for
    its bytes, and the stream is released after the answer; a stream whose
    request could not be read is left as it is, neither answered nor released,
    and the node does not change. *)
Theorem stream_served fuel id p (w : World E) r w' :
  lookup_client LIBP2P_MODULE (lp w) = Some p -> is_u64 id ->
  handle_stream cur fuel id w = (Some r, w') ->
  exists read l,
    call_libp2p cur "streamReadLpJson" (blob (json_obj [("streamId", num id);
      ("maxSize", num MAX_RPC_SIZE); ("timeoutMs", num READ_TIMEOUT_MS)]))
      (READ_TIMEOUT_MS + 10000) (lp w) = (read, l)
    /\ lp_ext [read_call id] (lp w) l
    /\ match stream_bytes read with
       | Err e => r = Err e /\ w' = set_lp l w
       | Ok bytes =>
           exists resp w1, handle_request cur fuel bytes (set_lp l w) = (Some resp, w1)
             /\ r = Ok tt /\ w' = set_lp (lp w') w1
             /\ lp_ext [write_call id resp; release_call id] (lp w1) (lp w')
       end.
Proof.
  intros Hp Hid. unfold handle_stream. unfold bind at 1. rewrite on_lp_eq.
  set (args := blob _).
  assert (Hel : lp_ext [read_call id] (lp w) (call_libp2p cur "streamReadLpJson" args (READ_TIMEOUT_MS + 10000) (lp w)).2).
  { eapply call_libp2p_made; [done|done|]. apply members_cstring. by solve_members. }
  destruct (call_libp2p cur "streamReadLpJson" args _ (lp w)) as [read l]. cbn [fst snd] in *.
  intros Hr. exists read, l. split; [done|]. split; [done|].
  change (let? read := read in _) with (stream_bytes read) in Hr.
  destruct (stream_bytes read) as [bytes|e]; [|by injection Hr as <- <-].
  unfold bind at 1 in Hr. destruct (handle_request cur fuel bytes (set_lp l w)) as [[resp|] w1] eqn:Hq; [|done].
  exists resp, w1. split; [done|]. destruct (handle_request_ext _ _ _ _ _ Hq) as (cs & He).
  pose proof (ext_clients _ _ _ He _ _ (ext_clients _ _ _ Hel _ _ Hp)) as Hp1.
  pose proof (answer_stream id resp p w1 Hp1 Hid) as Ha. cbv zeta in Ha.
  unfold bind at 1 in Hr. rewrite on_lp_eq in Hr. unfold bind in Hr. rewrite on_lp_eq in Hr.
  injection Hr as <- <-. split; [done|]. split; [by destruct w1|exact Ha].
Qed.

(** ** The worker as an interleaving *)

Lemma stream_steps p s ks fuel id (w : World E) r w' :
  steps cur p s ks (w, Idle) -> handle_stream cur fuel id w = (Some r, w') ->
  exists ks', steps cur p s (ks ++ ks') (w', Idle).
Proof.
  intros Hs. unfold handle_stream. unfold bind at 1. rewrite on_lp_eq.
  set (l := (call_libp2p _ _ _ _ _).2). pose proof (host_step cur p s ks w Idle l Hs) as H1.
  destruct (let? read := _ in _) as [bytes|e]; [|intros [= <- <-]; exists []; by rewrite app_nil_r].
  unfold bind at 1. destruct (handle_request cur fuel bytes _) as [[resp|] w1] eqn:Hq; [|done].
  pose proof (request_steps cur p s ks fuel bytes _ resp w1 H1 Hq) as H2.
  unfold bind. rewrite !on_lp_eq. intros [= <- <-]. eexists. apply host_step.
  eapply (host_step cur p) in H2. exact H2.
Qed.

(** C21: the worker loop is one of the interleavings of [Interleave]: what it does
    to the statics and the store over any number of turns is a sequence of the
    steps of requests, so that what holds of every interleaving holds of it. *)
Theorem worker_loop_steps p s ks fuel n (w : World E) w' :
  steps cur p s ks (w, Idle) -> worker_loop cur fuel n w = (Some tt, w') ->
  exists ks', steps cur p s (ks ++ ks') (w', Idle).
Proof.
  revert ks w. induction n as [|n IH]; intros ks w Hs; cbn [worker_loop].
  { intros [= <-]. exists []. by rewrite app_nil_r. }
  unfold bind at 1, worker_iteration at 1. unfold bind at 1. rewrite on_lp_eq.
  set (l := (call_libp2p _ _ _ _ _).2). pose proof (host_step cur p s ks w Idle l Hs) as H1.
  destruct (result_ok _ ≫= _) as [id|]; [|by apply IH].
  unfold bind at 1. destruct (handle_stream cur fuel id _) as [[r|] w1] eqn:Hh; [|done].
  destruct (stream_steps _ _ _ _ _ _ _ _ H1 Hh) as [ks1 H2]. intros Hw.
  destruct (IH _ _ H2 Hw) as [ks2 H3]. exists (ks1 ++ ks2)%list. by rewrite app_assoc.
Qed.
End Streams.
