(* ===== verification/Timing.v ===== *)
(** * How long the worker works

    Upper bounds, on a worker thread: there a call waits for its reply at most
    its timeout and ten seconds ([Lp.reply_wait]), so that the whole handler is
    bounded by the timeouts of server.rs.  What the handler cannot bound is
    the host's own part: [slack] bounds the time a dispatch takes and by how
    much a wait may be too long. *)
From S2P Require Import Prelude RustStd Wire Json Crates JsonInstance AuthVector Lp Server GiftSpec Worker.

(** Dispatching does not block, and waits end in time, up to [slack]. *)
Class PromptHost E (H : LpHost E) (slack : Z) : Prop := {
  slack_nonneg : 0 <= slack;
  dispatch_time c m a t e : instant_now (lp_invoke_async c m a t e).2 <= instant_now e + slack;
  pass_time d e : 0 <= d -> instant_now (pass d e) <= instant_now e + d + slack;
  (** a callback is not scheduled before its call *)
  delay_time c m a t e rc cb e' :
    lp_invoke_async c m a t e = ((rc, Some cb), e') -> 0 <= cb_delay cb
}.

Section Timing.
Context {E : Type} {H : LpHost E} {slack : Z} {PH : PromptHost E H slack} {J : SerdeJson}.
Context (cur : ThreadId).

(** What an operation of a worker thread took. *)
Record took (d : Z) (l l' : Lp E) : Prop := {
  took_worker : on_owner_thread cur l' = false;
  took_time : clock_of l' <= clock_of l + d
}.

Lemma took_trans d1 d2 l1 l2 l3 : took d1 l1 l2 -> took d2 l2 l3 -> took (d1 + d2) l1 l3.
Proof. intros [_ H1] [Ho H2]. split; [done|lia]. Qed.

Lemma took_le d d' l l' : took d l l' -> d <= d' -> took d' l l'.
Proof. intros [Ho Ht] Hd. split; [done|lia]. Qed.

Lemma took_none l : on_owner_thread cur l = false -> took 0 l l.
Proof. intros Ho. split; [done|lia]. Qed.

(** One dispatch and one wait. *)
Definition call_time (timeout_ms : Z) : Z := (timeout_ms + 10000) * 1000000 + 2 * slack.

Lemma call_async_took c m a tm (l : Lp E) :
  on_owner_thread cur l = false -> 0 <= tm < 2 ^ 31 -> took (call_time tm) l (call_async c m a tm l).2.
Proof.
  intros Ho Ht. split; [by rewrite <-Ho; apply (on_owner_ext cur []), call_async_ext|].
  assert (Hw : reply_wait tm = (tm + 10000) * 1000000).
  { unfold reply_wait. by rewrite (wrap64_small tm), wrap64_small by (unfold is_u64; lia). }
  unfold call_async, bind, host, zoom, clock_of, call_time. rewrite Hw.
  pose proof slack_nonneg. pose proof (dispatch_time c m a tm (env l)) as Hd.
  destruct (lp_invoke_async c m a tm (env l)) as [[rc cb] e] eqn:Hi. cbn [fst snd] in *.
  destruct (negb _); [cbn; lia|].
  pose proof (pass_time ((tm + 10000) * 1000000) e ltac:(lia)) as Hp.
  destruct cb as [cb|]; cbn; [|lia]. pose proof (delay_time c m a tm (env l) rc cb e Hi) as Hn.
  pose proof (pass_time (cb_delay cb) e Hn).
  destruct (cb_delay cb <=? _) eqn:Hle; bool_to_prop; cbn; lia.
Qed.

Lemma call_json_took t m args tm (l : Lp E) :
  on_owner_thread cur l = false -> 0 <= tm < 2 ^ 31 ->
  took (call_time tm) l (call_json cur t m args tm l).2.
Proof.
  intros Ho Ht. pose proof slack_nonneg.
  assert (Hz : took (call_time tm) l l) by (apply (took_le 0); [by apply took_none|unfold call_time; lia]).
  unfold call_json. unfold bind at 1. pose proof (client_ptr_spec cur t l) as Hp.
  destruct (client_ptr cur t l) as [p l1]. destruct Hp as (_ & _ & Hs & _). rewrite (Hs Ho).
  destruct p as [p|]; [|done]. destruct (cstring m) as [mc|]; [|done].
  destruct (cstring (to_string args)) as [ac|]; [|done].
  unfold bind, modify, get. set (l2 := record_call _ l).
  change (on_owner_thread cur l2) with (on_owner_thread cur l). rewrite Ho.
  destruct (call_async_took p mc ac tm l2 Ho Ht) as [Ho2 Ht2]. by split.
Qed.

Lemma call_module_json_took t m args tm (l : Lp E) :
  on_owner_thread cur l = false -> 0 <= tm < 2 ^ 31 ->
  took (call_time tm) l (call_module_json cur t m args tm l).2.
Proof.
  intros Ho Ht. pose proof (call_json_took t m args tm l Ho Ht) as Hc.
  unfold call_module_json, bind. by destruct (call_json _ _ _ _ _ _) as [[v|e] s'].
Qed.

Section Server.
Context {X : HexCrate} {U : UnicodeTables} {UL : UnicodeLaws U}.

(** The polls stop at the deadline; the last one may begin just before it,
    sleep and ask once more. *)
Lemma confirm_loop_took fuel cfg idc_hex tx deadline (l : Lp E) r l' :
  on_owner_thread cur l = false -> clock_of l <= deadline + CONFIRM_POLL + slack ->
  confirm_loop cur fuel cfg idc_hex tx deadline l = (Some r, l') ->
  on_owner_thread cur l' = false
  /\ clock_of l' <= deadline + CONFIRM_POLL + slack + call_time GET_MEMBERSHIP_TIMEOUT_MS.
Proof.
  revert l. induction fuel as [|fuel IH]; intros l Ho Hl; [done|]. cbn [confirm_loop]. unfold bind at 1.
  pose proof (call_module_json_took RLN_MODULE "get_membership"
    (VArray [VString (config cfg); VString idc_hex]) GET_MEMBERSHIP_TIMEOUT_MS l Ho ltac:(done)) as [Ho1 Hc].
  destruct (call_module_json _ _ _ _ _ _) as [m l1]. cbn [snd] in *.
  destruct (result_ok m ≫= confirmed_leaf); [intros [= <- <-]; split; [done|lia]|].
  unfold bind at 1, get. destruct (_ <=? _) eqn:Hn; [intros [= <- <-]; split; [done|lia]|]. bool_to_prop.
  unfold bind, host, zoom, modify. cbn [fst snd].
  pose proof (pass_time CONFIRM_POLL (env l1) ltac:(done)) as Hp.
  apply IH; [done|]. unfold clock_of in *. cbn. lia.
Qed.

Definition register_time : Z :=
  call_time REGISTER_TIMEOUT_MS + CONFIRM_BUDGET + CONFIRM_POLL + slack + call_time GET_MEMBERSHIP_TIMEOUT_MS.

Lemma register_took fuel cfg idc rate (l : Lp E) r l' :
  on_owner_thread cur l = false -> register cur fuel cfg idc rate l = (Some r, l') -> took register_time l l'.
Proof.
  intros Ho. unfold register. unfold bind at 1. pose proof slack_nonneg as Hs.
  pose proof (call_module_json_took RLN_MODULE "register_member"
    (VArray [VString (config cfg); VString (wallet cfg); VString (hex_encode idc); num rate])
    REGISTER_TIMEOUT_MS l Ho ltac:(done)) as Ht.
  destruct (call_module_json _ _ _ _ _ _) as [[reply|e] l1]; cbn [snd] in Ht.
  - unfold bind, get. fold (clock_of l1). intros Hr. destruct Ht as [Ho1 Ht].
    apply confirm_loop_took in Hr as [Ho2 Hr]; [|done|].
    + split; [done|]. unfold register_time. lia.
    + unfold CONFIRM_BUDGET, CONFIRM_POLL, SECOND. lia.
  - intros [= _ <-]. apply (took_le _ _ _ _ Ht). unfold register_time, CONFIRM_BUDGET, CONFIRM_POLL, SECOND, call_time.
    change GET_MEMBERSHIP_TIMEOUT_MS with 30000. lia.
Qed.

Lemma authorize_took cfg req (w : World E) :
  on_owner_thread cur (lp w) = false ->
  took (call_time AUTH_VERIFY_TIMEOUT_MS) (lp w)
    (lp (authorize cur cfg req (request_type req) (effective_rate cfg req) w).2).
Proof.
  intros Ho. pose proof slack_nonneg.
  assert (Hz : took (call_time AUTH_VERIFY_TIMEOUT_MS) (lp w) (lp w)).
  { apply (took_le 0); [by apply took_none|]. unfold call_time. change AUTH_VERIFY_TIMEOUT_MS with 30000. lia. }
  unfold authorize. case_bool_decide; [done|].
  destruct (auth_verifiers cfg !! request_type req) as [[module conf]|]; [|done].
  destruct (to_string_fields _) as [verify_json|e]; [|done]. unfold bind at 1. rewrite on_lp_eq.
  pose proof (call_module_json_took module VERIFY_METHOD (VArray [VString verify_json])
    AUTH_VERIFY_TIMEOUT_MS (lp w) Ho ltac:(done)) as Ht.
  destruct (call_module_json _ _ _ _ _ _) as [[reply|e] l']; cbn [fst snd] in *; [|done].
  destruct (parse_verdict reply) as [v|e]; [|done]. destruct (negb _); [done|].
  destruct (Verdict.nullifier v) as [n|]; [|done].
  pose proof (claim_nullifier_spec (RlnGifterRequest.request_id req) (request_type req) module n
    (set_lp l' w)) as Hclaim.
  destruct (claim_nullifier _ _ _ _ _) as [r w']. destruct Hclaim as (Hl & _). cbn [snd]. by rewrite Hl.
Qed.

(** 40 s for the verifier, 200 s for the submission, 150 s of polls, a last
    sleep of 2 s and a last poll of 40 s; seven times the slack. *)
Definition request_time : Z := 432 * SECOND + 7 * slack.

Lemma request_time_sum : request_time = call_time AUTH_VERIFY_TIMEOUT_MS + register_time.
Proof.
  unfold request_time, register_time, call_time, CONFIRM_BUDGET, CONFIRM_POLL, SECOND.
  change AUTH_VERIFY_TIMEOUT_MS with 30000. change REGISTER_TIMEOUT_MS with 190000.
  change GET_MEMBERSHIP_TIMEOUT_MS with 30000. lia.
Qed.

Lemma request_took {HL : LpHostLaws E H} fuel buf (w : World E) :
  on_owner_thread cur (lp w) = false -> (CONFIRM_POLLS <= fuel)%nat ->
  exists resp w', handle_request cur fuel buf w = (Some resp, w') /\ took request_time (lp w) (lp w').
Proof.
  intros Ho Hf. destruct (handle_request_total cur fuel buf w Hf) as (resp & w' & Hr).
  exists resp, w'. split; [done|].
  destruct (handle_request_ext cur fuel buf w resp w' Hr) as [cs He].
  split; [by rewrite (on_owner_ext cur _ _ _ He)|]. rewrite request_time_sum.
  assert (Hsl := slack_nonneg).
  assert (H0 : 0 <= call_time AUTH_VERIFY_TIMEOUT_MS /\ 0 <= register_time).
  { unfold register_time, call_time, CONFIRM_BUDGET, CONFIRM_POLL, SECOND.
    change AUTH_VERIFY_TIMEOUT_MS with 30000. change REGISTER_TIMEOUT_MS with 190000.
    change GET_MEMBERSHIP_TIMEOUT_MS with 30000. lia. }
  revert Hr. unfold handle_request. destruct (RlnGifterRequest.decode buf) as [req|e]; [|intros [= _ <-]; lia].
  destruct (negb _); [intros [= _ <-]; lia|]. unfold bind at 1, get.
  destruct (SERVER w) as [cfg|]; [|intros [= _ <-]; lia]. fold (request_type req).
  pose proof (authorize_took cfg req w Ho) as Ha. unfold bind at 1.
  destruct (authorize _ _ _ _ _ _) as [[key|resp0] w1]; cbn [snd] in Ha; [|intros [= _ <-]; destruct Ha; lia].
  unfold bind at 1. rewrite on_lp_eq.
  destruct (register _ _ _ _ _ (lp w1)) as [[r|] l2] eqn:Hreg; cbn [fst snd]; [|done].
  pose proof (took_worker _ _ _ Ha) as Ho1.
  apply register_took in Hreg; [|done]. unfold bind.
  pose proof (settle_spec cfg req key r (set_lp l2 w1)) as Hset.
  destruct (settle _ _ _ _ _) as [resp' w2]. destruct Hset as (_ & Hset & _). intros [= _ <-]. rewrite Hset. cbn [lp set_lp].
  destruct (took_trans _ _ _ _ _ Ha Hreg) as [_ Ht]. exact Ht.
Qed.

(** A worker answers every request in bounded time.  Whatever the bytes and
    the modules, with the fuel of the polls the handler returns a response, at
    most 432 seconds (and what the host adds to seven dispatches and waits)
    after it was given the request. *)
Theorem request_time_bounded {HL : LpHostLaws E H} fuel buf (w : World E) :
  on_owner_thread cur (lp w) = false -> (CONFIRM_POLLS <= fuel)%nat ->
  exists resp w', handle_request cur fuel buf w = (Some resp, w')
    /\ clock_of (lp w') <= clock_of (lp w) + (432 * SECOND + 7 * slack).
Proof.
  intros Ho Hf. destruct (request_took fuel buf w Ho Hf) as (resp & w' & Hr & _ & Ht). by exists resp, w'.
Qed.

(** ** Streams and turns *)

Context {B : Base64Crate}.

Lemma call_libp2p_took m args tm (w : World E) :
  on_owner_thread cur (lp w) = false -> 0 <= tm < 2 ^ 31 ->
  took (call_time tm) (lp w) (lp (on_lp (call_libp2p cur m args tm) w).2).
Proof.
  intros Ho Ht. rewrite on_lp_eq. cbn [snd lp set_lp]. unfold call_libp2p, bind.
  pose proof (call_json_took LIBP2P_MODULE m args tm (lp w) Ho Ht) as Hc.
  by destruct (call_json _ _ _ _ _ _) as [[v|e] l].
Qed.

(** Reading 80 s, the request, writing 50 s, releasing 20 s. *)
Definition stream_time : Z := 582 * SECOND + 13 * slack.
Definition turn_time : Z := 4192 * SECOND + 15 * slack.

Ltac next_took H0 :=
  match goal with |- context [on_lp (call_libp2p cur ?m ?a ?t) ?w] =>
    let Ht := fresh "Ht" in
    pose proof (call_libp2p_took m a t w (took_worker _ _ _ H0) ltac:(done)) as Ht;
    apply (took_trans _ _ _ _ _ H0) in Ht;
    destruct (on_lp (call_libp2p cur m a t) w) as [? ?w]; cbn [snd] in Ht
  end.

Lemma stream_took {HL : LpHostLaws E H} fuel id (w : World E) :
  on_owner_thread cur (lp w) = false -> (CONFIRM_POLLS <= fuel)%nat ->
  exists r w', handle_stream cur fuel id w = (Some r, w') /\ took stream_time (lp w) (lp w').
Proof.
  intros Ho Hf. pose proof slack_nonneg as Hs.
  assert (Hle : forall d l, took d (lp w) l -> d <= stream_time -> took stream_time (lp w) l) by (eauto using took_le).
  assert (Hsum : call_time (READ_TIMEOUT_MS + 10000) + request_time + call_time (WRITE_TIMEOUT_MS + 10000) + call_time 10000
    = stream_time).
  { unfold stream_time, request_time, call_time, SECOND. change READ_TIMEOUT_MS with 60000.
    change WRITE_TIMEOUT_MS with 30000. lia. }
  assert (Hpos : 0 <= call_time (WRITE_TIMEOUT_MS + 10000) /\ 0 <= call_time 10000 /\ 0 <= request_time).
  { unfold request_time, call_time, SECOND. change WRITE_TIMEOUT_MS with 30000. lia. }
  unfold handle_stream, bind. pose proof (took_none _ Ho) as H0. next_took H0.
  destruct (let? read := _ in _) as [bytes|e].
  2:{ eexists _, _. split; [done|]. eapply Hle; [exact Ht|]. lia. }
  destruct (request_took fuel bytes w0 (took_worker _ _ _ Ht) Hf) as (resp & w2 & Hr & Hq). rewrite Hr.
  pose proof (took_trans _ _ _ _ _ Ht Hq) as H1. next_took H1. next_took Ht0.
  eexists _, _. split; [done|]. eapply Hle; [exact Ht1|]. lia.
Qed.

(** C15: how long the worker works.  Whatever the bytes and the modules, with the
    fuel of the polls a worker thread answers a request within 432 seconds, is
    done with an accepted stream within 582 and with a turn within 4192, its
    wait for a stream included, besides what the host adds to its dispatches
    and waits. *)
Theorem worker_time_bounded {HL : LpHostLaws E H} fuel buf id (w : World E) :
  on_owner_thread cur (lp w) = false -> (CONFIRM_POLLS <= fuel)%nat ->
  (exists resp w', handle_request cur fuel buf w = (Some resp, w')
     /\ clock_of (lp w') <= clock_of (lp w) + (432 * SECOND + 7 * slack))
  /\ (exists r w', handle_stream cur fuel id w = (Some r, w')
     /\ clock_of (lp w') <= clock_of (lp w) + (582 * SECOND + 13 * slack))
  /\ (exists w', worker_iteration cur fuel w = (Some tt, w')
     /\ clock_of (lp w') <= clock_of (lp w) + (4192 * SECOND + 15 * slack)).
Proof.
  intros Ho Hf. pose proof slack_nonneg as Hs. split; [|split].
  - destruct (request_took fuel buf w Ho Hf) as (resp & w' & Hr & _ & Ht). by exists resp, w'.
  - destruct (stream_took fuel id w Ho Hf) as (r & w' & Hr & _ & Ht). by exists r, w'.
  - unfold worker_iteration, bind. pose proof (took_none _ Ho) as H0. next_took H0.
    assert (Hsum : 0 + call_time ACCEPT_TIMEOUT_MS + stream_time = turn_time).
    { unfold turn_time, stream_time, call_time, SECOND. change ACCEPT_TIMEOUT_MS with 3600000. lia. }
    fold turn_time. destruct (result_ok _ ≫= _) as [i|].
    + destruct (stream_took fuel i w0 (took_worker _ _ _ Ht) Hf) as (res & w2 & Hr & Hq). rewrite Hr.
      exists w2. split; [done|]. rewrite <-Hsum. apply (took_trans _ _ _ _ _ Ht Hq).
    + exists w0. split; [done|]. apply (took_le _ turn_time) in Ht; [apply Ht|].
      unfold turn_time, call_time, SECOND. change ACCEPT_TIMEOUT_MS with 3600000. lia.
Qed.
End Server.
End Timing.
