(* ===== verification/NodeState.v ===== *)
(** * The state of the node

    What holds of the statics at every time: one worker exactly when the node
    serves, a configuration when it serves, and an open client for every
    verifier module the configuration names, which the worker could not open
    itself. *)
From S2P Require Import Prelude RustStd Wire Nullifiers Json Crates JsonInstance AuthVector Lp.
From S2P Require Import Server GiftSpec GiftProps Interleave Worker.

Section NodeState.
Context {E : Type} {H : LpHost E} {J : SerdeJson} {X : HexCrate} {B : Base64Crate}
  {U : UnicodeTables} {UL : UnicodeLaws U}.

Record node_ok (w : World E) : Prop := {
  one_worker : workers w = if SERVING w then 1%nat else 0%nat;
  serves_config : SERVING w = true -> is_Some (SERVER w);
  verifier_clients cfg ty m conf :
    SERVER w = Some cfg -> auth_verifiers cfg !! ty = Some (m, conf) ->
    m <> "" /\ is_Some (lookup_client m (lp w))
}.

(** Operations that leave the statics and only add clients. *)
Lemma node_ok_frame cs w w' :
  node_ok w -> frame w w' -> lp_ext cs (lp w) (lp w') -> node_ok w'.
Proof.
  intros [Hw Hs Hc] [Fs Fv Fw] He. constructor; rewrite ?Fs, ?Fv, ?Fw; [done..|].
  intros cfg ty m conf Hcfg Hv. destruct (Hc _ _ _ _ Hcfg Hv) as [Hm [p Hp]]. split; [done|].
  exists p. by apply (ext_clients _ _ _ He).
Qed.

Lemma node_ok_lp cs l (w : World E) : node_ok w -> lp_ext cs (lp w) l -> node_ok (set_lp l w).
Proof. intros Hw He. eapply node_ok_frame; [done|apply frame_lp|exact He]. Qed.

Lemma node_ok_libp2p cur m args tm w : node_ok w -> node_ok (on_lp (call_libp2p cur m args tm) w).2.
Proof.
  intros Hw. rewrite on_lp_eq. destruct (libp2p_keeps cur m args tm (lp w)) as [cs He].
  by eapply node_ok_lp.
Qed.

(** Every entry of the table comes from a member. *)
Lemma verifiers_of_lookup map acc ty m conf :
  verifiers_of map acc !! ty = Some (m, conf) ->
  (exists p, p ∈ map /\ m = member_module p.2) \/ acc !! ty = Some (m, conf).
Proof.
  revert acc. unfold verifiers_of. induction map as [|[ty' v] map IH]; intros acc; cbn; [by right|].
  intros [(p & Hp & ->)|Hacc]%IH; [left; exists p; split; [by right|done]|].
  rewrite lookup_insert_Some in Hacc. destruct Hacc as [[-> [= <- _]]|[_ Hacc]]; [|by right].
  left. exists (ty, v). split; [by left|done].
Qed.

Lemma node_ok_serve cur args w : node_ok w -> node_ok (serve cur args w).2.
Proof.
  intros Hw. pose proof (serve_served cur args w) as Hs. destruct (serve cur args w) as [r w']. cbn [snd].
  destruct Hs as [e w' He _ Hf _|a vs cfg l1 r w' _ Hp Hcfg (cs & He) _ Hsrv _ (Hsv & Hok & Hwk)].
  - by eapply node_ok_frame.
  - pose proof (parse_verifiers_spec cur a (lp w)) as Hspec. rewrite Hp in Hspec.
    destruct Hspec as (_ & map & _ & -> & Hall). constructor.
    + rewrite Hwk, Hsv, (one_worker w Hw). destruct (SERVING w).
      * by destruct Hok as [-> |[? _]].
      * by destruct (is_ok r).
    + by rewrite Hsrv.
    + intros cfg' ty m conf. rewrite Hsrv. intros [= <-] Hv.
      assert (Hvs : auth_verifiers cfg = verifiers_of map ∅).
      { unfold serve_config in Hcfg. destruct (get_str a "config"), (get_str a "wallet"); by simplify_eq/=. }
      rewrite Hvs in Hv. apply verifiers_of_lookup in Hv as [(p & Hin & ->)|Hv];
        [|by rewrite lookup_empty in Hv].
      rewrite Forall_forall in Hall. destruct (Hall p Hin) as [Hne [h Hh]].
      split; [done|]. exists h. by apply (ext_clients _ _ _ He).
Qed.

Lemma node_ok_request cur fuel buf w resp w' :
  node_ok w -> handle_request cur fuel buf w = (Some resp, w') -> node_ok w'.
Proof.
  intros Hw Hr. destruct (handle_request_ext cur fuel buf w resp w' Hr) as [cs He].
  eapply node_ok_frame; [done| |exact He]. apply handle_request_handled in Hr; [|exact UL].
  by destruct Hr; [apply frame_refl|..].
Qed.

Lemma node_ok_stream cur fuel id w r w' :
  node_ok w -> handle_stream cur fuel id w = (Some r, w') -> node_ok w'.
Proof.
  intros Hw. unfold handle_stream. unfold bind at 1.
  pose proof (node_ok_libp2p cur "streamReadLpJson"
    (blob (json_obj [("streamId", num id); ("maxSize", num MAX_RPC_SIZE); ("timeoutMs", num READ_TIMEOUT_MS)]))
    (READ_TIMEOUT_MS + 10000) w Hw) as H1.
  destruct (on_lp _ w) as [read w1]. cbn [snd] in H1.
  destruct (let? read := _ in _) as [bytes|e]; [|by intros [= _ <-]]. unfold bind at 1.
  destruct (handle_request cur fuel bytes w1) as [[resp|] w2] eqn:Hq; [|done].
  pose proof (node_ok_request _ _ _ _ _ _ H1 Hq) as H2. unfold bind.
  match goal with |- context [on_lp (call_libp2p cur ?m ?a ?t) w2] =>
    pose proof (node_ok_libp2p cur m a t w2 H2) as H3; destruct (on_lp (call_libp2p cur m a t) w2) as [? w3] end.
  cbn [snd] in H3.
  match goal with |- context [on_lp (call_libp2p cur ?m ?a ?t) w3] =>
    pose proof (node_ok_libp2p cur m a t w3 H3) as H4; destruct (on_lp (call_libp2p cur m a t) w3) as [? w4] end.
  by intros [= _ <-].
Qed.

Lemma node_ok_worker cur fuel n w w' :
  node_ok w -> worker_loop cur fuel n w = (Some tt, w') -> node_ok w'.
Proof.
  revert w. induction n as [|n IH]; intros w Hw; cbn [worker_loop]; [by intros [= <-]|].
  unfold bind at 1, worker_iteration at 1, bind at 1.
  pose proof (node_ok_libp2p cur "protocolAcceptStream"
    (blob (json_obj [("proto", VString RLN_GIFTER_CODEC); ("timeoutMs", num ACCEPT_TIMEOUT_MS)]))
    ACCEPT_TIMEOUT_MS w Hw) as H1.
  destruct (on_lp _ w) as [accept w1]. cbn [snd] in H1.
  destruct (result_ok _ ≫= _) as [id|]; [|by apply IH]. unfold bind at 1.
  destruct (handle_stream cur fuel id w1) as [[r|] w2] eqn:Hs; [|done].
  apply IH. by eapply node_ok_stream.
Qed.

(** The node's state stays well formed.  A node that has not served is well
    formed; [serve] with any arguments, a request with any bytes and any number
    of turns of the worker keep it so: there is one worker exactly when the node
    serves, it then has a configuration, and each verifier module named there
    has a name and an open client, so that a worker, which may not open
    clients, never fails for want of one. *)
Theorem node_state_kept owner worker fuel args buf n resp (w : World E) :
  node_ok w ->
  node_ok (serve owner args w).2
  /\ (forall w', handle_request worker fuel buf w = (Some resp, w') -> node_ok w')
  /\ (forall w', worker_loop worker fuel n w = (Some tt, w') -> node_ok w')
  /\ (forall cfg ty m conf, SERVER w = Some cfg -> auth_verifiers cfg !! ty = Some (m, conf) ->
      exists h, client_ptr worker m (lp w) = (Some h, lp w)).
Proof.
  intros Hw. split; [by apply node_ok_serve|]. split; [intros w'; by apply node_ok_request|].
  split; [intros w'; by apply node_ok_worker|]. intros cfg ty m conf Hcfg Hv.
  destruct (verifier_clients w Hw _ _ _ _ Hcfg Hv) as [_ [h Hh]]. exists h. by apply client_ptr_found.
Qed.

Lemma node_ok_start (w : World E) :
  SERVING w = false -> workers w = 0%nat -> SERVER w = None -> node_ok w.
Proof. intros Hs Hk Hn. constructor; [by rewrite Hs|by rewrite Hs|by rewrite Hn]. Qed.
End NodeState.
