(* ===== verification/Texts.v ===== *)
(** * What a node says is UTF-8

    The types of the code promise it: a Rust [String] is UTF-8, whatever bytes
    come from the wire, from a module or from the configuration.  The model's
    strings are bytes, so here the promise is proved: every response a node
    makes is one a message can hold, which is what the codec's round trip
    asks of it, and [serve] keeps the configuration that way. *)
From S2P Require Import Prelude RustStd Wire Nullifiers Json Crates JsonInstance AuthVector Lp.
From S2P Require Import Server GiftSpec GiftProps Interleave NodeState.

(** A fallible step whose value satisfies [P] and whose error is a text. *)
Definition yields {A} (P : A -> Prop) (r : result A string) : Prop :=
  match r with Ok a => P a | Err e => str_valid e end.

Abbreviation text_value_of := (yields (fun v => texts v = true)).

Lemma yields_bind {A B} (P : A -> Prop) (Q : B -> Prop) r (k : A -> result B string) :
  yields P r -> (forall a, P a -> yields Q (k a)) -> yields Q (let? a := r in k a).
Proof. destruct r; cbn; auto. Qed.

Lemma yields_map {A} (P : A -> Prop) pre (r : result A string) :
  str_valid pre -> yields P r -> yields P (map_err (fun e => pre +:+ e) r).
Proof. destruct r; cbn; auto using str_valid_app. Qed.

Lemma yields_ok_or {A} (P : A -> Prop) o e :
  str_valid e -> (forall a, o = Some a -> P a) -> yields P (ok_or o e).
Proof. destruct o; cbn; auto. Qed.

Create HintDb texts.
#[local] Hint Resolve str_valid_app pretty_valid from_utf8_lossy_valid : texts.
#[local] Hint Extern 1 (str_valid (String _ _)) => vm_compute; reflexivity : texts.
#[local] Hint Extern 1 (str_valid EmptyString) => reflexivity : texts.

(** ** The wire codec *)

Lemma read_field_text buf i : yields (fun _ => True) (read_field buf i).
Proof.
  unfold read_field. eapply (yields_bind (fun _ => True)); [by apply yields_ok_or|]. intros [key j] _.
  case_match.
  { eapply (yields_bind (fun _ => True)); [by apply yields_ok_or|]. by intros [v k] _. }
  case_match; [|cbn; auto with texts].
  eapply (yields_bind (fun _ => True)); [by apply yields_ok_or|]. intros [len k] _.
  eapply (yields_bind (fun _ => True)); [by apply yields_ok_or|]. intros end_ _.
  by case_match.
Qed.

Lemma walk_loop_text {St} (f : Z -> FieldVal -> St -> St) (P : St -> Prop) fuel buf i s :
  P s -> (forall k v s, P s -> P (f k v s)) -> yields P (walk_loop f fuel buf i s).
Proof.
  intros Hs Hf. revert i s Hs. induction fuel as [|fuel IH]; intros i s Hs; cbn [walk_loop];
    (destruct (i <? length buf)%nat; [|done]); [done|].
  eapply yields_bind; [apply read_field_text|]. intros [[k v] j] _. auto.
Qed.

(** Whatever the bytes, a request has a UTF-8 id or the error is a text. *)
Lemma request_decode_text buf :
  yields (fun req => str_valid (RlnGifterRequest.request_id req)) (RlnGifterRequest.decode buf).
Proof.
  unfold RlnGifterRequest.decode.
  eapply (yields_bind (fun a => str_valid (RlnGifterRequest.request_id (RlnGifterRequest.m a)))).
  - apply walk_loop_text; [done|]. intros k v a Ha. unfold RlnGifterRequest.on_field.
    repeat case_match; cbn; try done. destruct v; cbn; auto with texts.
  - intros a Ha. by repeat case_match.
Qed.

(** ** The lp client *)

Section Texts.
Context {E : Type} {H : LpHost E} {J : SerdeJson} {X : HexCrate} {B : Base64Crate}
  {U : UnicodeTables}.
Context {JT : SerdeTexts J} {XL : HexLaws X} {UL : UnicodeLaws U}.
Context (cur : ThreadId).

Lemma c_text_valid p s : c_text p = Some s -> str_valid s.
Proof. destruct p; cbn; [intros [= <-]; auto with texts|done]. Qed.

Lemma c_text_default p : str_valid (default "" (c_text p)).
Proof. destruct (c_text p) as [s|] eqn:Hs; [by eapply c_text_valid|done]. Qed.

Lemma from_str_text s : str_valid s -> text_value_of (from_str s).
Proof. intros Hs. pose proof (from_str_texts s Hs) as Ht. by destruct (from_str s). Qed.

Lemma parse_ok_text raw : str_valid raw -> texts (parse_ok raw) = true.
Proof.
  intros Hr. unfold parse_ok. destruct (is_empty raw); [done|].
  pose proof (from_str_text raw Hr) as Ht. by destruct (from_str raw).
Qed.

Lemma err_message_text raw : str_valid raw -> str_valid (err_message raw).
Proof.
  intros Hr. unfold err_message. pose proof (from_str_text raw Hr) as Ht.
  destruct (from_str raw) as [v|e]; cbn; [|done].
  change (vget v "message" ≫= as_str) with (get_str v "message").
  destruct (get_str v "message") as [m|] eqn:Hm; [by eapply texts_get_str|done].
Qed.

Lemma call_sync_text c m a tm (s : Lp E) :
  str_valid m -> text_value_of (call_sync c m a tm s).1.
Proof.
  intros Hm. unfold call_sync, bind. destruct (host _ s) as [[[rc r] er] s'].
  destruct (negb _); cbn; [|apply parse_ok_text, c_text_default].
  destruct (c_text er) as [t|] eqn:Ht; [by eapply c_text_valid|auto 10 with texts].
Qed.

Lemma call_async_text c m a tm (s : Lp E) :
  str_valid m -> text_value_of (call_async c m a tm s).1.
Proof.
  intros Hm. unfold call_async, bind. destruct (host _ s) as [[rc cb] s'].
  destruct (negb _); cbn; [auto 10 with texts|].
  assert (Hr : forall p s2, host (recv_timeout (E := E) (reply_wait tm) cb) s' = (Some p, s2) -> str_valid p.2).
  { intros p s2. unfold host, zoom, recv_timeout. destruct cb as [cb|]; [|done].
    destruct (_ <=? _); [|done]. intros [= <- _]. apply c_text_default. }
  destruct (host (recv_timeout _ _) s') as [[[ok raw]|] s2]; cbn; [|auto with texts].
  specialize (Hr _ _ eq_refl). cbn in Hr.
  destruct ok; cbn; [by apply parse_ok_text|auto using err_message_text with texts].
Qed.

Lemma call_json_text t m args tm (s : Lp E) :
  str_valid t -> str_valid m -> text_value_of (call_json cur t m args tm s).1.
Proof.
  intros Ht Hm. unfold call_json, bind at 1. destruct (client_ptr cur t s) as [[c|] s1]; [|cbn; auto with texts].
  unfold cstring. repeat (destruct (existsb _ _); [cbn; auto with texts|]).
  unfold bind, modify, get. destruct (on_owner_thread _ _); [by apply call_sync_text|by apply call_async_text].
Qed.

Lemma unwrap_module_text m v : str_valid m -> texts v = true -> text_value_of (unwrap_module m v).
Proof.
  intros Hm Hv. destruct v as [| | |s| |]; cbn; try done. destruct (is_empty s); cbn; [auto with texts|].
  pose proof (from_str_text s Hv) as Ht. destruct (from_str s); cbn; auto with texts.
Qed.

Lemma call_module_json_text t m args tm (s : Lp E) :
  str_valid t -> str_valid m -> text_value_of (call_module_json cur t m args tm s).1.
Proof.
  intros Ht Hm. unfold call_module_json, bind. pose proof (call_json_text t m args tm s Ht Hm) as Hc.
  destruct (call_json _ _ _ _ _ _) as [[v|e] s']; [by apply unwrap_module_text|done].
Qed.

(** ** Verdicts *)

Definition verdict_texts (v : Verdict.t) : Prop :=
  (forall r, Verdict.reason v = Some r -> str_valid r)
  /\ (forall n, Verdict.nullifier v = Some n -> str_valid n).

Lemma field_text names v src k :
  texts v = true -> struct_fields names v = Ok src ->
  forall x, src k = Some x -> texts x = true.
Proof.
  intros Hv Hs x Hx. destruct v as [| | | |l|m]; unfold struct_fields in Hs; try done.
  - destruct (_ <? _)%nat; [done|]. injection Hs as <-. cbn in Hv. rewrite forallb_forall in Hv.
    destruct (list_find _ names) as [p|]; [|done]. apply Hv, list_elem_of_In. by eapply list_elem_of_lookup_2.
  - injection Hs as <-. by apply (texts_vget (VObject m) k x).
Qed.

Lemma de_string_text v : texts v = true -> yields str_valid (de_string v).
Proof. intros Hv. destruct v; cbn; try by apply invalid_type_text. exact Hv. Qed.

Lemma optional_text src k :
  (forall x, src k = Some x -> texts x = true) ->
  yields (fun o => forall s, o = Some s -> str_valid s) (field_default src k None (de_option de_string)).
Proof.
  intros Hs. unfold field_default. destruct (src k) as [v|]; [|done]. specialize (Hs v eq_refl).
  pose proof (de_string_text v Hs) as Ht. destruct v; cbn in *; try done. by intros s' [= <-].
Qed.

Lemma verdict_text v : texts v = true -> yields verdict_texts (Verdict.from_value v).
Proof.
  intros Hv. unfold Verdict.from_value. destruct (struct_fields _ v) as [src|e] eqn:Hs.
  2:{ cbn. destruct v; unfold struct_fields in Hs; try (injection Hs as <-; by apply invalid_type_text); [|done].
      destruct (_ <? _)%nat; [|done]. injection Hs as <-. apply invalid_length_text. }
  pose proof (fun k => field_text _ v src k Hv Hs) as Hf.
  lazy beta iota. eapply (yields_bind (fun _ => True)).
  { unfold field_required. destruct (src "ok") as [x|] eqn:Hx; [|by apply missing_field_text].
    apply Hf in Hx. destruct x; cbn; auto using invalid_type_text. }
  intros o _. eapply yields_bind; [apply optional_text, Hf|]. intros r Hr.
  eapply yields_bind; [apply optional_text, Hf|]. intros n Hn. by split.
Qed.

Lemma parse_verdict_text v : texts v = true -> yields verdict_texts (parse_verdict v).
Proof.
  intros Hv. unfold parse_verdict. destruct (get_str v "error") as [e|] eqn:He.
  - by eapply texts_get_str.
  - apply yields_map; [done|]. by apply verdict_text.
Qed.
(** ** Responses *)

(** What a message can hold, whatever its length. *)
Definition response_texts (m : RlnGifterResponse.t) : Prop :=
  str_valid (RlnGifterResponse.request_id m)
  /\ (forall e, RlnGifterResponse.error m = Some e -> str_valid e)
  /\ (forall s, RlnGifterResponse.success m = Some s -> success_wf s)
  /\ (forall f, RlnGifterResponse.failure m = Some f ->
        str_valid (MembershipAllocationFailure.error_message f)).

Definition refusal_texts {A} (r : result A RlnGifterResponse.t) : Prop :=
  match r with Ok _ => True | Err resp => response_texts resp end.

(** The texts the node holds on to: the registry's config account and the
    names of the verifier modules. *)
Definition node_texts (w : World E) : Prop :=
  forall cfg, SERVER w = Some cfg ->
    str_valid (config cfg)
    /\ forall ty m conf, auth_verifiers cfg !! ty = Some (m, conf) -> str_valid m.

Lemma failure_texts id b msg : str_valid id -> str_valid msg -> response_texts (failure_response id b msg).
Proof.
  intros Hi Hm. split; [done|]. split; [by intros e [= <-]|]. split; [done|]. by intros f [= <-].
Qed.

Lemma intake_text buf (w : World E) : refusal_texts (intake buf w).
Proof.
  unfold intake. pose proof (request_decode_text buf) as Hd.
  destruct (RlnGifterRequest.decode buf) as [req|e]; cbn in *; [|apply failure_texts; auto with texts].
  destruct (negb _); [apply failure_texts; auto with texts|].
  destruct (SERVER w); [done|]. apply failure_texts; auto with texts.
Qed.

Lemma intake_reads buf (w : World E) cfg req :
  intake buf w = Ok (cfg, req) -> SERVER w = Some cfg /\ str_valid (RlnGifterRequest.request_id req).
Proof.
  unfold intake. pose proof (request_decode_text buf) as Hd.
  destruct (RlnGifterRequest.decode buf) as [req'|e]; [|done]. destruct (negb _); [done|].
  destruct (SERVER w); [|done]. by intros [= <- <-].
Qed.

Lemma judge_text cfg req l :
  str_valid (RlnGifterRequest.request_id req) ->
  (forall ty m conf, auth_verifiers cfg !! ty = Some (m, conf) -> str_valid m) ->
  match (judge cur cfg req l).1 with
  | Ok verdict => forall m nul, verdict = Some (m, nul) -> str_valid m
  | Err resp => response_texts resp
  end.
Proof.
  intros Hid Hm. unfold judge. case_bool_decide; [done|]. unfold request_type.
  destruct (auth_verifiers cfg !! _) as [[module conf]|] eqn:Hv; [|apply failure_texts; auto 10 with texts].
  apply Hm in Hv. destruct (to_string_fields _) as [vj|e] eqn:Hj;
    [|apply failure_texts; eauto 10 using to_string_fields_text with texts].
  unfold bind, ret. pose proof (call_module_json_text module VERIFY_METHOD (VArray [VString vj])
    AUTH_VERIFY_TIMEOUT_MS l Hv eq_refl) as Hc.
  destruct (call_module_json _ _ _ _ _ l) as [[reply|e] l']; cbn [fst] in *;
    [|apply failure_texts; auto 10 with texts].
  apply parse_verdict_text in Hc. destruct (parse_verdict reply) as [v|e];
    [|apply failure_texts; auto 10 with texts].
  destruct (negb _).
  - apply failure_texts; [done|]. destruct Hc as [Hr _]. destruct (Verdict.reason v) as [r|]; [by apply Hr|done].
  - intros m nul. destruct (Verdict.nullifier v); [|done]. by intros [= <- _].
Qed.

Lemma claim_text req verdict (w : World E) :
  str_valid (RlnGifterRequest.request_id req) ->
  (forall m nul, verdict = Some (m, nul) -> str_valid m) ->
  refusal_texts (claim req verdict w).1.
Proof.
  intros Hid Hm. unfold claim. destruct verdict as [[m nul]|]; [|done]. specialize (Hm m nul eq_refl).
  unfold claim_nullifier. destruct (_ || _); [apply failure_texts; auto 10 with texts|].
  unfold bind. destruct (reserve _ w) as [[] w']; [done|]. apply failure_texts; [done|].
  pose proof (to_lowercase_chars (trim nul)) as [Hn _]. unfold request_type. auto 10 with texts.
Qed.

(** ** Registrations *)

Definition registration_texts (r : result MembershipAllocationSuccess.t RegisterError) : Prop :=
  match r with Ok s => success_wf s | Err e => str_valid (message e) end.

Lemma confirm_loop_text fuel cfg idc tx deadline (l : Lp E) r l' :
  str_valid (config cfg) ->
  confirm_loop cur fuel cfg idc tx deadline l = (Some r, l') -> registration_texts r.
Proof.
  intros Hc. revert l. induction fuel as [|fuel IH]; intros l; [done|]. cbn [confirm_loop].
  unfold bind at 1.
  pose proof (call_module_json_text RLN_MODULE "get_membership" (VArray [VString (config cfg); VString idc])
    GET_MEMBERSHIP_TIMEOUT_MS l eq_refl eq_refl) as Hm.
  destruct (call_module_json _ _ _ _ _ l) as [m l1]. cbn [fst] in Hm.
  destruct (result_ok m ≫= confirmed_leaf) as [leaf|] eqn:Hl.
  - intros [= <- _]. destruct m as [v|]; [|done]. cbn in Hl. unfold confirmed_leaf in Hl.
    case_bool_decide; [done|]. split; [by eapply texts_get_u64|]. split; [done|]. by intros c [= <-].
  - unfold bind at 1, get. destruct (deadline <=? _).
    + intros [= <- _]. cbn. valid_text.
    + unfold bind, host, zoom. apply IH.
Qed.

Lemma register_text fuel cfg idc rate (l : Lp E) r l' :
  str_valid (config cfg) ->
  register cur fuel cfg idc rate l = (Some r, l') -> registration_texts r.
Proof.
  intros Hc. unfold register, bind.
  match goal with |- context [call_module_json cur RLN_MODULE ?m ?a ?t l] =>
    pose proof (call_module_json_text RLN_MODULE m a t l eq_refl eq_refl) as Hm;
    destruct (call_module_json cur RLN_MODULE m a t l) as [[reply|e] l1] end; cbn [fst] in Hm.
  - by apply confirm_loop_text.
  - by intros [= <- _].
Qed.

Lemma settle_text cfg req key r (w : World E) :
  str_valid (RlnGifterRequest.request_id req) -> registration_texts r ->
  response_texts (settle cfg req key r w).1.
Proof.
  intros Hid Hr. pose proof (settle_spec cfg req key r w) as Hs.
  destruct (settle cfg req key r w) as [resp w']. destruct Hs as (-> & _). cbn [fst].
  destruct r as [s|e]; (split; [done|]; split; [done|]; split).
  - by intros s' [= <-].
  - done.
  - done.
  - by intros f [= <-].
Qed.

Lemma handle_request_texts fuel buf (w : World E) resp w' :
  node_texts w -> handle_request cur fuel buf w = (Some resp, w') -> response_texts resp.
Proof.
  intros Hw. rewrite handle_request_phases. pose proof (intake_text buf w) as Hi.
  destruct (intake buf w) as [[cfg req]|r0] eqn:Hin; [|by intros [= <- _]].
  destruct (intake_reads buf w cfg req Hin) as [Hsrv Hid]. destruct (Hw cfg Hsrv) as [Hcfg Hmod].
  pose proof (judge_text cfg req (lp w) Hid Hmod) as Hj.
  destruct (judge cur cfg req (lp w)) as [[verdict|r0] l]; cbn [fst] in Hj; [|by intros [= <- _]].
  pose proof (claim_text req verdict (set_lp l w) Hid Hj) as Hc.
  destruct (claim req verdict _) as [[key|r0] w1]; cbn [fst] in Hc; [|by intros [= <- _]].
  destruct (register _ _ _ _ _ (lp w1)) as [[r|] l2] eqn:Hr; [|done]. apply register_text in Hr; [|done].
  pose proof (settle_text cfg req key r (set_lp l2 w1) Hid Hr) as Hs.
  destruct (settle cfg req key r _) as [resp' w2]. by intros [= <- _].
Qed.

Lemma node_texts_frame w w' : node_texts w -> frame w w' -> node_texts w'.
Proof. intros Hw [Hs _ _]. unfold node_texts. by rewrite Hs. Qed.

Lemma node_texts_serve args w : str_valid args -> node_texts w -> node_texts (serve cur args w).2.
Proof.
  intros Ha Hw. pose proof (serve_served cur args w) as Hs. destruct (serve cur args w) as [r w']. cbn [snd].
  destruct Hs as [e w' _ _ Hf _|a vs cfg l1 r w' Hfr Hp Hcfg _ _ Hsrv _ _]; [by eapply node_texts_frame|].
  pose proof (from_str_text args Ha) as Ht. rewrite Hfr in Ht. cbn in Ht.
  pose proof (parse_verifiers_spec cur a (lp w)) as Hspec. rewrite Hp in Hspec.
  destruct Hspec as (_ & map & Hmem & -> & _). intros cfg' Hc. rewrite Hsrv in Hc. injection Hc as <-.
  unfold serve_config in Hcfg. destruct (get_str a "config") as [c|] eqn:Hgc; [|done].
  destruct (get_str a "wallet"); [|done]. injection Hcfg as <-. cbn. split; [by eapply texts_get_str|].
  intros ty m conf Hv. apply verifiers_of_lookup in Hv as [([k v] & Hin & ->)|Hv];
    [|by rewrite lookup_empty in Hv].
  unfold member_module. cbn [snd]. destruct (get_str v "module") as [m|] eqn:Hgm; [|done].
  apply (texts_get_str v "module"); [|done]. unfold verifier_members in Hmem.
  destruct (vget a "authVerifiers") as [x|] eqn:Hx; [|injection Hmem as <-; by apply not_elem_of_nil in Hin].
  pose proof (texts_vget a _ x Ht Hx) as Hxt.
  destruct x as [| | | | |map']; try done; injection Hmem as <-; [by apply not_elem_of_nil in Hin|].
  cbn in Hxt. rewrite forallb_forall in Hxt. apply list_elem_of_In, Hxt in Hin. by apply andb_true_iff in Hin as [_ ?].
Qed.

Lemma response_texts_wf resp :
  response_texts resp -> fits (RlnGifterResponse.encode resp) -> response_wf resp.
Proof. by intros (Hi & He & Hs & Hf) Hfit. Qed.
End Texts.

(** ** The node *)

Section Readable.
Context {E : Type} {H : LpHost E} {J : SerdeJson} {X : HexCrate} {B : Base64Crate}
  {U : UnicodeTables}.
Context {JT : SerdeTexts J} {XL : HexLaws X} {UL : UnicodeLaws U}.

(** C28: what the node says can be read.  Whatever bytes a request has and
    whatever bytes the modules answer with, every text of the response is UTF-8
    and every number 64 bits, so that the client's decoder reads its encoding
    back as that very response.  A node that has not served is one of which
    this holds, and [serve] with any text and any request keep it one. *)
Theorem responses_are_readable owner worker fuel args buf (w : World E) :
  node_texts w ->
  (str_valid args -> node_texts (serve owner args w).2)
  /\ forall resp w', handle_request worker fuel buf w = (Some resp, w') ->
       node_texts w' /\ response_texts resp
       /\ (fits (RlnGifterResponse.encode resp) ->
           RlnGifterResponse.decode (RlnGifterResponse.encode resp) = Ok resp).
Proof.
  intros Hw. split; [intros Ha; by apply node_texts_serve|]. intros resp w' Hr.
  pose proof (handle_request_texts worker fuel buf w resp w' Hw Hr) as Ht.
  split; [|split; [exact Ht|intros Hf; by apply response_decode_encode, response_texts_wf]].
  apply handle_request_handled in Hr; [|exact UL]. eapply node_texts_frame; [done|].
  by destruct Hr; [apply frame_refl|..].
Qed.

Lemma node_texts_start (w : World E) : SERVER w = None -> node_texts w.
Proof. intros Hn cfg. by rewrite Hn. Qed.
End Readable.
