(* ===== verification/Client.v ===== *)
(** * The gifter client (rust/rln-gifter-module/rust-lib/src/client.rs)

    [request]: the arguments are checked, the payload is taken as given or
    asked of a producer module, one exchange runs over libp2p_module, and the
    answer is checked and reported.  [None] is a panic: the only slice of the
    code is the request id. *)
From S2P Require Import Prelude RustStd Wire Nullifiers Json Crates JsonInstance AuthVector Lp.

Definition REQUEST_TIMEOUT_MS : Z := 190000.
Definition REQUEST_CALL_TIMEOUT_MS : Z := 205000.
Definition PRODUCE_TIMEOUT_MS : Z := 120000.

(** [&s[..n]]: panics off the end and inside a character. *)
Definition str_prefix (n : nat) (s : string) : option string :=
  let bs := str_bytes s in
  if (n <=? length bs)%nat && negb (match bs !! n with Some b => is_cont (u8 b) | None => false end)
  then Some (bytes_str (take n bs)) else None.

(** [out[k] = v] on an object. *)
Definition json_set (out : Value) (k : string) (v : Value) : Value :=
  match out with VObject m => VObject (obj_insert k v m) | _ => out end.

Section Client.
Context {E : Type} {H : LpHost E} {J : SerdeJson} {X : HexCrate} {B : Base64Crate}
  {U : UnicodeTables}.
Context (cur : ThreadId).

Definition trim_0x (s : string) : string := trim_start_matches "0x" s.

(** The payload of the request, lines 58 to 92. *)
Definition auth_payload (a : Value) (id_commitment_hex : string)
    : M (Lp E) (result (list byte) string) :=
  let auth_type_req := default "" (get_str a "authType") in
  let auth_payload_hex := default "" (get_str a "authPayload") in
  let auth_provider := default "" (get_str a "authProvider") in
  if negb (is_empty auth_payload_hex) && negb (is_empty auth_provider) then
    ret (Err "authPayload and authProvider are mutually exclusive")
  else if is_empty auth_type_req then
    if negb (is_empty auth_payload_hex) || negb (is_empty auth_provider) then
      ret (Err "authPayload/authProvider need an explicit authType")
    else ret (Ok [])
  else if negb (is_empty auth_payload_hex) then
    ret (map_err (fun e => "authPayload hex: " +:+ e) (hex_decode (trim_0x auth_payload_hex)))
  else if negb (is_empty auth_provider) then
    let prod_req := {| ProduceRequest.auth_type := auth_type_req;
                       ProduceRequest.id_commitment_hex := id_commitment_hex;
                       ProduceRequest.args := vget a "authArgs" |} in
    let!? prod_json := ret (map_err (fun e => "produce request: " +:+ e)
                              (to_string_fields (ProduceRequest.to_fields prod_req))) in
    let!? reply := call_module_json cur auth_provider PRODUCE_METHOD
                     (VArray [VString prod_json]) PRODUCE_TIMEOUT_MS in
    ret (let? reply := map_err (fun e => "auth provider " +:+ auth_provider +:+ ": " +:+ e)
                         (parse_produce_reply reply) in
         map_err (fun e => "auth provider payload hex: " +:+ e)
           (hex_decode (trim_0x (ProduceReply.payload_hex reply))))
  else ret (Err ("authType '" +:+ auth_type_req +:+ "' needs authPayload or authProvider")).

(** The report of a membership, lines 134 to 155. *)
Definition report (id_commitment_hex : string) (success : MembershipAllocationSuccess.t) : Value :=
  let tx_hash := hex_encode (MembershipAllocationSuccess.transaction_hash success) in
  let out := json_obj [
    ("leaf_index", VNumber (PosInt (MembershipAllocationSuccess.leaf_index success)));
    ("id_commitment", VString id_commitment_hex);
    ("auth_success", VBool true);
    ("identity_adopted", VBool false)] in
  let out := if negb (is_empty tx_hash) then json_set out "tx_hash" (VString tx_hash) else out in
  match MembershipAllocationSuccess.config_account_id success with
  | Some cfg => json_set out "config_account" (VString cfg)
  | None => out
  end.

(** The checks of a decoded response, lines 117 to 132. *)
Definition check_response (request_id id_commitment_hex : string) (resp : RlnGifterResponse.t)
    : result Value string :=
  let failure := MembershipAllocationFailure.error_message <$> RlnGifterResponse.failure resp in
  let error := RlnGifterResponse.error resp in
  if bool_decide (RlnGifterResponse.request_id resp <> request_id) then
    Err "gifter response requestId mismatch"
  else if negb (RlnGifterResponse.auth_success resp) then
    Err (default "gifter authentication failed"
           match error with Some e => Some e | None => failure end)
  else
    let? success := ok_or (RlnGifterResponse.success resp)
      (default "gifter returned no membership"
         match failure with Some m => Some m | None => error end) in
    Ok (report id_commitment_hex success).

(** The reading of a [protocolRequest] reply, lines 111 to 155. *)
Definition read_reply (request_id id_commitment_hex : string) (pr : Value) : result Value string :=
  let? resp_b64 := ok_or (get_str pr "responseB64")
                     ("protocolRequest: no responseB64 in " +:+ to_string pr) in
  let? bytes := b64_decode resp_b64 in
  let? resp := RlnGifterResponse.decode bytes in
  check_response request_id id_commitment_hex resp.

Definition protocol_args (peer multiaddr : string) (req : RlnGifterRequest.t) : Value :=
  json_obj [
    ("peerId", VString peer);
    ("multiaddrs", VArray [VString multiaddr]);
    ("proto", VString RLN_GIFTER_CODEC);
    ("requestB64", VString (b64 (RlnGifterRequest.encode req)));
    ("timeoutMs", VNumber (PosInt REQUEST_TIMEOUT_MS))].

Definition request (args_json : string) : M (Lp E) (option (result Value string)) :=
  let fail e := ret (Some (Err e)) in
  match (let? a := map_err (fun e => "request args: " +:+ e) (from_str args_json) in
         let? gifter_peer_id := ok_or (get_str a "gifterPeerId") "missing gifterPeerId" in
         let? gifter_multiaddr := ok_or (get_str a "gifterMultiaddr") "missing gifterMultiaddr" in
         let provided_commitment := default "" (get_str a "identityCommitment") in
         if is_empty provided_commitment then Err "request needs identityCommitment"
         else
           let id_commitment_hex := to_lowercase (trim_0x provided_commitment) in
           let? id_commitment := map_err (fun e => "id_commitment hex: " +:+ e)
                                   (hex_decode id_commitment_hex) in
           Ok (a, gifter_peer_id, gifter_multiaddr, id_commitment_hex, id_commitment)) with
  | Err e => fail e
  | Ok (a, gifter_peer_id, gifter_multiaddr, id_commitment_hex, id_commitment) =>
      let rate := default 0 (get_u64 a "rate") in
      let! payload := auth_payload a id_commitment_hex in
      match payload with
      | Err e => fail e
      | Ok auth_payload =>
          match str_prefix (length (str_bytes id_commitment_hex) `min` 16) id_commitment_hex with
          | None => ret None
          | Some prefix =>
              let request_id := "gift-" +:+ prefix in
              let req := {|
                RlnGifterRequest.request_id := request_id;
                RlnGifterRequest.authentication_type :=
                  str_bytes (default "" (get_str a "authType"));
                RlnGifterRequest.authentication_payload := auth_payload;
                RlnGifterRequest.identity_commitment := id_commitment;
                RlnGifterRequest.rate_limit := if 0 <? rate then Some rate else None |} in
              let! pr := call_libp2p cur "protocolRequest"
                (VArray [VString (to_string (protocol_args gifter_peer_id gifter_multiaddr req))])
                REQUEST_CALL_TIMEOUT_MS in
              ret (Some (let? pr := pr in read_reply request_id id_commitment_hex pr))
          end
      end
  end.
End Client.

(** ** Lemmas *)

Lemma str_prefix_ascii n s :
  is_ascii s -> (n <= length (str_bytes s))%nat ->
  str_prefix n s = Some (bytes_str (take n (str_bytes s))).
Proof.
  intros Ha Hn. unfold str_prefix. rewrite (proj2 (Nat.leb_le _ _) Hn).
  destruct (str_bytes s !! n) as [b|] eqn:Hb; [|done].
  assert (u8 b < 128) as Hlt by (eapply (Forall_lookup_1 _ _ _ _ Ha Hb)).
  unfold is_cont. rewrite (proj2 (Z.leb_gt 0x80 _)) by lia. done.
Qed.

Section ClientLemmas.
Context {E : Type} {H : LpHost E} {J : SerdeJson} {X : HexCrate} {B : Base64Crate}
  {U : UnicodeTables}.
Context (cur : ThreadId).

(** A reply that is accepted carries the response to this very request, with a
    membership; anything else is an error. *)
Lemma read_reply_ok id hex pr out :
  read_reply id hex pr = Ok out <->
  exists text bytes resp s,
    get_str pr "responseB64" = Some text /\ b64_decode text = Ok bytes
    /\ RlnGifterResponse.decode bytes = Ok resp
    /\ RlnGifterResponse.request_id resp = id /\ RlnGifterResponse.auth_success resp = true
    /\ RlnGifterResponse.success resp = Some s /\ out = report hex s.
Proof.
  unfold read_reply. split.
  - destruct (get_str pr "responseB64") as [text|] eqn:Ht; [|done]. cbn [ok_or].
    destruct (b64_decode text) as [bytes|] eqn:Hb; [|done].
    destruct (RlnGifterResponse.decode bytes) as [resp|] eqn:Hd; [|done].
    unfold check_response. case_bool_decide as Hid; [done|].
    destruct (RlnGifterResponse.auth_success resp) eqn:Ha; [|done]. cbn [negb].
    destruct (RlnGifterResponse.success resp) as [s|] eqn:Hs; [|done]. cbn [ok_or]. intros [= <-].
    exists text, bytes, resp, s. by repeat (split; [done|]).
  - intros (text & bytes & resp & s & -> & Hb & Hd & Hid & Ha & Hs & ->). cbn [ok_or].
    rewrite Hb, Hd. unfold check_response. rewrite bool_decide_false by (by intros ?).
    by rewrite Ha, Hs.
Qed.

Lemma hex_slice (XL : HexLaws X) hex bs :
  hex_decode hex = Ok bs ->
  str_prefix (length (str_bytes hex) `min` 16) hex = Some (bytes_str (take 16 (str_bytes hex))).
Proof.
  intros Hd. rewrite str_prefix_ascii; [|by eapply hex_decode_ascii|lia]. do 2 f_equal.
  destruct (Nat.min_dec (length (str_bytes hex)) 16) as [Em|Em]; rewrite Em; [|done].
  rewrite !take_ge; [done|lia|lia].
Qed.
End ClientLemmas.

(** ** Properties *)

Section ClientProperties.
Context {E : Type} {H : LpHost E} {J : SerdeJson} {X : HexCrate} {B : Base64Crate}
  {U : UnicodeTables}.
Context (cur : ThreadId).

Lemma request_total {XL : HexLaws X} args (s : Lp E) :
  exists r s', request cur args s = (Some r, s').
Proof.
  unfold request. destruct (match map_err _ _ with Ok _ => _ | Err _ => _ end)
    as [[[[[a peer] addr] hex] idc]|e] eqn:Hargs; [|by eexists _, _].
  assert (Hhex : exists bs, hex_decode hex = Ok bs).
  { revert Hargs. destruct (from_str args) as [a'|e]; [|done]. cbn [map_err].
    destruct (get_str a' "gifterPeerId"); [|done]. destruct (get_str a' "gifterMultiaddr"); [|done].
    cbn [ok_or]. destruct (is_empty _); [done|].
    destruct (hex_decode (to_lowercase _)) as [bs|e] eqn:Hd; [|done]. cbn [map_err].
    intros [= <- <- <- <- <-]. by exists bs. }
  destruct Hhex as [bs Hbs]. unfold bind at 1. destruct (auth_payload cur a hex s) as [[p|e] s1];
    [|by eexists _, _].
  rewrite (hex_slice XL hex bs Hbs). unfold bind. destruct (call_libp2p _ _ _ _ s1). by eexists _, _.
Qed.

(** [request] never panics, whatever text it is given: the commitment is
    hexadecimal where it is sliced. *)
Theorem request_never_panics {XL : HexLaws X} args (s : Lp E) :
  exists r s', request cur args s = (Some r, s').
Proof. apply (request_total (XL := XL)). Qed.

(** The argument errors of the payload rules. *)
Definition bad_payload_args (a : Value) : Prop :=
  let ty := default "" (get_str a "authType") in
  let payload := default "" (get_str a "authPayload") in
  let provider := default "" (get_str a "authProvider") in
  (payload <> "" /\ provider <> "")
  \/ (ty = "" /\ (payload <> "" \/ provider <> ""))
  \/ (ty <> "" /\ payload = "" /\ provider = "")
  \/ (payload <> "" /\ is_ok (hex_decode (trim_0x payload)) = false).

(** Every misuse of [authType], [authPayload] and [authProvider] is an
    error before any module is called: two payload sources, a payload without
    a type, a type without a payload, a payload that is not hexadecimal. *)
Theorem bad_payload_makes_no_call args a (s : Lp E) :
  from_str args = Ok a -> bad_payload_args a ->
  exists e, request cur args s = (Some (Err e), s).
Proof.
  intros Ha Hbad. unfold request. rewrite Ha. cbn [map_err].
  destruct (get_str a "gifterPeerId"); [|by eexists]. cbn [ok_or].
  destruct (get_str a "gifterMultiaddr"); [|by eexists]. cbn [ok_or].
  destruct (is_empty (default "" (get_str a "identityCommitment"))); [by eexists|].
  destruct (hex_decode (to_lowercase _)) as [bs|e]; [|by eexists]. cbn [map_err].
  set (hex := to_lowercase _).
  enough (exists e, auth_payload cur a hex s = (Err e, s)) as [e He].
  { unfold bind at 1. rewrite He. by eexists. }
  unfold auth_payload, bad_payload_args in *.
  set (ty := default "" (get_str a "authType")) in *.
  set (payload := default "" (get_str a "authPayload")) in *.
  set (provider := default "" (get_str a "authProvider")) in *.
  assert (Hemp : forall t : string, is_empty t = bool_decide (t = "")) by by intros [].
  rewrite !Hemp. clearbody ty payload provider.
  repeat case_bool_decide; cbn [andb orb negb]; try by eexists.
  all: try (exfalso; clear -Hbad; intuition congruence).
  all: try (exfalso; clear H; intuition congruence).
  all: destruct (hex_decode (trim_0x payload)) as [bs'|e]; [cbn [is_ok] in Hbad|by eexists].
  all: exfalso; intuition congruence.
Qed.

(** An accepted reply is a decoded response that answers this request (its
    id), was authenticated and carries a membership; the report is made of that
    membership and of the commitment the caller gave. *)
Theorem reply_accepted_iff id hex pr out :
  read_reply id hex pr = Ok out <->
  exists text bytes resp s,
    get_str pr "responseB64" = Some text /\ b64_decode text = Ok bytes
    /\ RlnGifterResponse.decode bytes = Ok resp
    /\ RlnGifterResponse.request_id resp = id /\ RlnGifterResponse.auth_success resp = true
    /\ RlnGifterResponse.success resp = Some s /\ out = report hex s.
Proof. apply read_reply_ok. Qed.

(** The text field of the report. *)
Definition report_field (hex : string) (s : MembershipAllocationSuccess.t) (k : string) : option Value :=
  vget (report hex s) k.

(** The report names the leaf and the commitment; the transaction hash is
    there exactly when the response had one, the account when it was named. *)
Theorem report_fields {XL : HexLaws X} hex s :
  report_field hex s "leaf_index" = Some (VNumber (PosInt (MembershipAllocationSuccess.leaf_index s)))
  /\ report_field hex s "id_commitment" = Some (VString hex)
  /\ report_field hex s "auth_success" = Some (VBool true)
  /\ report_field hex s "tx_hash"
     = (if decide (MembershipAllocationSuccess.transaction_hash s = []) then None
        else Some (VString (hex_encode (MembershipAllocationSuccess.transaction_hash s))))
  /\ report_field hex s "config_account"
     = VString <$> MembershipAllocationSuccess.config_account_id s.
Proof.
  assert (Hemp : is_empty (hex_encode (MembershipAllocationSuccess.transaction_hash s))
    = bool_decide (MembershipAllocationSuccess.transaction_hash s = [])).
  { pose proof (hex_encode_length (MembershipAllocationSuccess.transaction_hash s)) as Hl.
    destruct (MembershipAllocationSuccess.transaction_hash s) as [|b bs].
    - rewrite bool_decide_true by done. by destruct (hex_encode []).
    - rewrite bool_decide_false by done. by destruct (hex_encode (b :: bs)). }
  unfold report_field, report. rewrite Hemp.
  destruct (MembershipAllocationSuccess.config_account_id s) as [c|];
    case_bool_decide as Hb; cbn [negb];
    by destruct (MembershipAllocationSuccess.transaction_hash s).
Qed.
End ClientProperties.

(** ** Witnesses *)

Import HexInstance.
#[local] Existing Instance caseless_tables.

Definition idle_client : Lp SimHost.t := SimHost.boot (fun _ _ _ => None).

Lemma request_never_panics_witness :
  exists r s', request 0%nat "not json" idle_client = (Some r, s').
Proof. apply (request_never_panics (XL := hex_instance_laws) 0%nat "not json" idle_client). Defined.

Definition two_sources : Value := json_obj
  [("gifterPeerId", VString "p"); ("gifterMultiaddr", VString "/m"); ("identityCommitment", VString "0xABAB");
   ("authType", VString "voucher"); ("authPayload", VString "aa"); ("authProvider", VString "m")].

Lemma bad_payload_makes_no_call_witness :
  exists e, request 0%nat (to_string two_sources) idle_client = (Some (Err e), idle_client).
Proof.
  apply (bad_payload_makes_no_call 0%nat (to_string two_sources) two_sources).
  - vm_compute. reflexivity.
  - left. split; vm_compute; discriminate.
Defined.

Definition sample_success : MembershipAllocationSuccess.t := {|
  MembershipAllocationSuccess.leaf_index := 7; MembershipAllocationSuccess.merkle_root := [];
  MembershipAllocationSuccess.block_number := 0; MembershipAllocationSuccess.transaction_hash := [xab];
  MembershipAllocationSuccess.config_account_id := Some "cfg" |}.

Lemma report_fields_witness : report_field "abab" sample_success "tx_hash" = Some (VString "ab").
Proof.
  exact (proj1 (proj2 (proj2 (proj2 (report_fields (XL := hex_instance_laws) "abab" sample_success))))).
Defined.
