(* ===== verification/EndToEnd.v ===== *)
(** * From the card to the gifter

    The client's [request] with the capture module as its provider: what goes
    out over libp2p is a request that every gifter trusting the production CA
    accepts. *)
From S2P Require Import Prelude RustStd Wire Nullifiers Json Crates JsonInstance Apdu Attest KeycardCrypto.
From S2P Require Import Keycard AuthVector Verifiers KeycardCapture Lp Hosting Server GiftSpec VerifierKeys.
From S2P Require Import Hosted Client.

Section Captured.
Context {E : Type} {H : LpHost E} {J : SerdeJson} {L : SerdeJsonLaws J} {X : HexCrate} {XL : HexLaws X}
  {B : Base64Crate} {U : UnicodeTables} {UL : UnicodeLaws U}.
Context {K : K256} {Hs : Hashes} {A : Aes} {D : Kdf} {Ec : Ecdh} {C : Type} {HC : CardHost C}.
Context (cur : ThreadId).

(** A text the capture module may return: its answer over some card session
    (whose error texts are strings). *)
Definition capture_text (args text : string) : Prop :=
  exists fuel (c c' : C) r,
    run_produce args [KeycardVector fuel] c = (Returned r, c') /\ produced_wf r
    /\ text = produce_reply r.

(** It is what [produce_auth] returns. *)
Lemma capture_text_auth args text :
  capture_text args text -> exists fuel (c c' : C), produce_auth fuel args c = (Returned text, c').
Proof.
  intros (fuel & c & c' & r & Hr & _ & ->). exists fuel, c, c'.
  unfold produce_auth, dispatch_produce, mbind, outcome_bind, bindo. by rewrite Hr.
Qed.

Definition capture_hosted (e : E) (p : Z) : Prop := answers e p PRODUCE_METHOD capture_text.

(** The caller's arguments: this vector, this provider, no raw payload. *)
Record provider_args (a : Value) (module : string) : Prop := {
  pa_type : get_str a "authType" = Some KEYCARD_ATTEST_AUTH_TYPE;
  pa_provider : get_str a "authProvider" = Some module;
  pa_module : module <> "";
  pa_payload : default "" (get_str a "authPayload") = "";
  pa_args : opt_wf (vget a "authArgs")
}.

Lemma captured_payload a module p hex (l : Lp E) payload l' :
  provider_args a module -> lookup_client module l = Some p -> capture_hosted (env l) p ->
  str_valid hex -> auth_payload cur a hex l = (Ok payload, l') ->
  exists idc att n, hex_decode (strip_0x hex) = Ok idc /\ length idc = 32%nat
    /\ parse_attestation payload = Ok att
    /\ verify_attestation att [STATUS_PRODUCTION_CA] (bound_challenge idc) = Ok n.
Proof.
  intros [Hty Hprov Hne Hpay Hargs] Hp Hh Hhex. unfold auth_payload. rewrite Hty, Hprov, Hpay.
  cbn [default]. unfold id. cbn [is_empty negb andb orb]. rewrite is_empty_false by done. cbn [negb].
  rewrite is_empty_false by done. cbn [negb].
  set (preq := {| ProduceRequest.auth_type := _ |}).
  assert (Hwf : produce_request_wf preq) by (split; [by vm_compute|done]).
  destruct (produce_args preq Hwf) as (args & Ha & Hv & Hfs). rewrite Ha. unfold bind at 1, ret. cbn [map_err].
  unfold bind at 1. destruct (call_module_json _ _ _ _ _ _) as [[reply|e] l1] eqn:Hc; [|done].
  destruct (answered cur module p _ _ args _ l reply l1 Hp Hh eq_refl Hv Hc)
    as (raw & text & Hraw & (fuel & c & c' & r & Hrun & Hrwf & ->) & Hval).
  destruct (produce_reply_text r Hrwf) as (Htv & Htne & v & Hf & Hparse).
  rewrite (carried_value _ raw _ v Hraw Htv Htne Hf) in Hval. injection Hval as <-.
  rewrite Hparse. rewrite (run_produce_answer _ _ _ Hfs) in Hrun.
  assert (Hpr : produce fuel (produce_received preq) c = (Returned r, c')) by exact Hrun.
  destruct r as [rep|e]; [|done]. cbn [map_err].
  destruct (produce_ok _ _ _ _ _ Hpr) as (idc & tlv & att & n & Hdec & Hlen & Hph & Hatt & Hver).
  rewrite Hph. change (trim_0x (hex_encode tlv)) with (strip_0x (hex_encode tlv)).
  rewrite strip_0x_hex, hex_decode_encode. intros [= <- _]. by exists idc, att, n.
Qed.

(** The calls of the payload are to the provider. *)
Lemma auth_payload_ext a hex (l : Lp E) :
  exists cs, lp_ext cs l (auth_payload cur a hex l).2 /\ Forall (fun c => method c = PRODUCE_METHOD) cs.
Proof.
  assert (Hnil : forall r : result (list byte) string,
    exists cs, lp_ext cs l (r, l).2 /\ Forall (fun c => method c = PRODUCE_METHOD) cs).
  { intros r. exists []. split; [apply lp_ext_refl|constructor]. }
  unfold auth_payload. destruct (_ && _); [apply Hnil|].
  destruct (is_empty (default "" (get_str a "authType"))); [destruct (_ || _); apply Hnil|].
  destruct (negb _); [apply Hnil|]. destruct (negb _); [|apply Hnil].
  unfold bind at 1, ret. destruct (to_string_fields _) as [args|e]; cbn [map_err]; [|apply Hnil].
  unfold bind at 1.
  pose proof (call_module_json_ext cur (default "" (get_str a "authProvider")) PRODUCE_METHOD
    (VArray [VString args]) PRODUCE_TIMEOUT_MS l) as Hc.
  destruct (call_module_json _ _ _ _ _ _) as [[reply|e] l1]; destruct Hc as (cs & He & Hcs);
    (exists cs; split; [exact He|]); destruct Hcs as [[-> _]| ->]; repeat constructor.
Qed.

Definition exchange_call (peer multiaddr : string) (req : RlnGifterRequest.t) : LpCall := {|
  target := LIBP2P_MODULE; method := "protocolRequest";
  args_json := to_string (VArray [VString (to_string (protocol_args peer multiaddr req))]);
  timeout_ms := REQUEST_CALL_TIMEOUT_MS |}.

(** A request that carries the caller's commitment and an earned credential. *)
Definition earning_call (a : Value) (c : LpCall) : Prop :=
  exists peer multiaddr req n,
    c = exchange_call peer multiaddr req
    /\ length (RlnGifterRequest.identity_commitment req) = 32%nat
    /\ hex_decode (to_lowercase (trim_0x (default "" (get_str a "identityCommitment"))))
       = Ok (RlnGifterRequest.identity_commitment req)
    /\ forall cfg m conf cas,
         auth_verifiers cfg !! KEYCARD_ATTEST_AUTH_TYPE = Some (m, conf) ->
         keycard_cas conf = Ok cas -> STATUS_PRODUCTION_CA ∈ cas ->
         earned cfg req (key_of KEYCARD_ATTEST_AUTH_TYPE (hex_encode n)).

(** C5: a request that goes out with a captured payload earns its membership.
    With the capture module as provider, the one request that [request] hands
    to libp2p_module (it hands one whenever it reports a membership) carries
    the caller's 32-byte commitment and an attestation bound to it: at every
    gifter whose keycard verifier trusts the production CA it is an earned
    credential, of the card's own key. *)
Theorem captured_request_earns args a module p (l : Lp E) r l' :
  from_str args = Ok a -> provider_args a module ->
  lookup_client module l = Some p -> capture_hosted (env l) p ->
  request cur args l = (Some r, l') ->
  exists cs, lp_ext cs l l'
    /\ (is_ok r = true -> exists c, c ∈ cs /\ method c = "protocolRequest")
    /\ forall c, c ∈ cs -> method c = "protocolRequest" -> earning_call a c.
Proof.
  intros Ha Hpa Hp Hh. unfold request. rewrite Ha. cbn [map_err].
  assert (Hnone : forall e, (Some (Err e), l) = (Some r, l') ->
    exists cs, lp_ext cs l l' /\ (is_ok r = true -> exists c, c ∈ cs /\ method c = "protocolRequest")
      /\ forall c, c ∈ cs -> method c = "protocolRequest" -> earning_call a c).
  { intros e [= <- <-]. exists []. split; [apply lp_ext_refl|]. split; [done|]. by intros c ?%not_elem_of_nil. }
  destruct (get_str a "gifterPeerId") as [peer|]; [|apply Hnone]. cbn [ok_or].
  destruct (get_str a "gifterMultiaddr") as [addr|]; [|apply Hnone]. cbn [ok_or].
  destruct (is_empty (default "" (get_str a "identityCommitment"))); [apply Hnone|].
  set (hex := to_lowercase _).
  destruct (hex_decode hex) as [idc|e] eqn:Hidc; cbn [map_err]; [|apply Hnone].
  assert (Hhex : str_valid hex) by (by eapply is_ascii_chars, hex_decode_ascii).
  unfold bind at 1. destruct (auth_payload_ext a hex l) as (cs1 & He1 & Hcs1).
  destruct (auth_payload cur a hex l) as [[payload|e] l1] eqn:Hpay; cbn [snd] in He1.
  2:{ intros [= <- <-]. exists cs1. split; [done|]. split; [done|]. intros c Hc Hm.
      rewrite Forall_forall in Hcs1. apply Hcs1 in Hc. rewrite Hm in Hc. discriminate Hc. }
  rewrite (hex_slice XL hex idc Hidc).
  set (req := {| RlnGifterRequest.request_id := _ |}). unfold bind.
  pose proof (call_libp2p_ext cur "protocolRequest" (VArray [VString (to_string (protocol_args peer addr req))])
    REQUEST_CALL_TIMEOUT_MS l1) as Hc.
  destruct (call_libp2p _ _ _ _ l1) as [pr l2]. destruct Hc as (cs2 & He2 & Hcs2). intros [= <- <-].
  exists (cs1 ++ cs2)%list. split; [by eapply lp_ext_trans|].
  destruct (captured_payload a module p hex l payload l1 Hpa Hp Hh Hhex Hpay)
    as (idc' & att & n & Hdec & Hlen & Hatt & Hver).
  rewrite (strip_0x_decodable hex idc Hidc), Hidc in Hdec. injection Hdec as <-.
  split.
  - destruct pr as [v|e]; [|done]. intros _. destruct Hcs2 as [[_ Hf]| ->]; [done|].
    eexists. split; [apply elem_of_app; right; by apply list_elem_of_here|done].
  - intros c [Hin|Hin]%elem_of_app Hm.
    { rewrite Forall_forall in Hcs1. apply Hcs1 in Hin. rewrite Hm in Hin. discriminate Hin. }
    destruct Hcs2 as [[-> _]| ->]; [by apply not_elem_of_nil in Hin|].
    apply list_elem_of_singleton in Hin as ->. exists peer, addr, req, n.
    split; [done|]. split; [done|]. split; [exact Hidc|]. intros cfg m conf cas Hcfg Hcas Hca.
    eapply earned_keycard; [|exact Hcfg|exact Hcas|exact Hatt|].
    + unfold request_type. cbn [RlnGifterRequest.authentication_type req]. rewrite (pa_type a module Hpa).
      cbn [default]. unfold id. apply from_utf8_lossy_str. by vm_compute.
    + eapply more_cas; [exact Hver|]. by intros c ->%list_elem_of_singleton.
Qed.
End Captured.

(** ** Witness: the capture module on a genuine card *)

Import Toy HexInstance ToyAes Scripted.
#[local] Existing Instance caseless_tables.

Definition client_args : Value := json_obj
  [("gifterPeerId", VString "peer"); ("gifterMultiaddr", VString "/ip4/1");
   ("identityCommitment", VString (hex_encode commitment));
   ("authType", VString KEYCARD_ATTEST_AUTH_TYPE); ("authProvider", VString "capture")].

Definition capture_args : string := value_text (json_obj (ProduceRequest.to_fields capture_request)).

Definition capture_reply : string :=
  produce_reply (Ok {| ProduceReply.payload_hex := hex_encode tlv |}).

(** The module's text for the client's call, with a genuine card in the reader. *)
Definition capture_modules (target method args : string) : option Callback :=
  if bool_decide (method = PRODUCE_METHOD) && bool_decide (args = to_string (one_arg capture_args)) then
    Some (text_callback capture_reply)
  else None.

Definition card_client : Lp SimHost.t :=
  (init 0%nat [LIBP2P_MODULE; "capture"] (SimHost.boot capture_modules)).2.

Lemma capture_args_text : capture_text (A := aes) (HC := host) capture_args capture_reply.
Proof.
  exists 200%nat, genuine_card, [], (Ok {| ProduceReply.payload_hex := hex_encode tlv |}).
  split; [|split; [apply hex_encode_valid|done]]. vm_compute. reflexivity.
Qed.

Lemma card_client_hosted : capture_hosted (A := aes) (HC := host) (env card_client) 2.
Proof.
  apply (sim_answers _ _ "capture" _ _ (fun args => if bool_decide (args = capture_args) then Some capture_reply else None)).
  - vm_compute. reflexivity.
  - intros args _. change (SimHost.answer (env card_client)) with capture_modules.
    unfold capture_modules. rewrite bool_decide_true by done. cbn [andb].
    rewrite (bool_decide_ext _ (args = capture_args)); [by case_bool_decide|].
    split; [|by intros ->]. by intros [= Heq]%value_text_inj.
  - intros args text. case_bool_decide as Hargs; [|done]. rewrite Hargs. intros [= <-]. apply capture_args_text.
Qed.

Lemma client_args_provider : provider_args client_args "capture".
Proof. by constructor. Qed.

Definition card_exchange := request 1%nat (to_string client_args) card_client.

Lemma card_exchange_returns : exists r, card_exchange.1 = Some r.
Proof.
  assert (Hs : match card_exchange.1 with Some _ => true | None => false end = true) by (vm_compute; reflexivity).
  destruct card_exchange.1 as [r|]; [by exists r|done].
Qed.

Lemma captured_request_earns_witness :
  exists cs, lp_ext cs card_client card_exchange.2
    /\ forall c, c ∈ cs -> method c = "protocolRequest" -> earning_call client_args c.
Proof.
  destruct card_exchange_returns as [r Hr].
  destruct (captured_request_earns (L := json_instance_laws) (XL := hex_instance_laws) (A := aes) (HC := host)
    1%nat (to_string client_args) client_args "capture" 2 card_client r card_exchange.2) as (cs & He & _ & Hcs).
  - vm_compute. reflexivity.
  - exact client_args_provider.
  - vm_compute. reflexivity.
  - exact card_client_hosted.
  - rewrite <-Hr. apply surjective_pairing.
  - exact (ex_intro _ cs (conj He Hcs)).
Defined.
