(* ===== verification/Exchange.v ===== *)
(** * The exchange of a gift, from the client to the registry and back

    The client's request and the node's response meet through the wire codec
    and base64: what the client reports is what the registry confirmed. *)
From S2P Require Import Prelude RustStd Wire Nullifiers Json Crates JsonInstance AuthVector Lp.
From S2P Require Import Server GiftSpec GiftProps Texts Client.

Section Exchange.
Context {E : Type} {H : LpHost E} {J : SerdeJson} {X : HexCrate} {B : Base64Crate}
  {U : UnicodeTables}.
Context {BL : Base64Laws B} {UL : UnicodeLaws U} {JT : SerdeTexts J} {XL : HexLaws X}.
Context (cur : ThreadId).

(** The node reads the client's bytes as the client's request. *)
Lemma request_arrives req :
  request_wf req -> RlnGifterRequest.decode (RlnGifterRequest.encode req) = Ok req.
Proof. apply request_decode_encode. Qed.

Lemma response_arrives hex id pr resp :
  get_str pr "responseB64" = Some (b64 (RlnGifterResponse.encode resp)) -> response_wf resp ->
  read_reply id hex pr = check_response id hex resp.
Proof.
  intros Hpr Hwf. unfold read_reply. rewrite Hpr. cbn [ok_or]. unfold b64_decode, b64.
  rewrite base64_decode_encode. cbn [map_err]. by rewrite response_decode_encode.
Qed.

Lemma report_leaf hex s :
  vget (report hex s) "leaf_index" = Some (num (MembershipAllocationSuccess.leaf_index s)).
Proof.
  unfold report. destruct (MembershipAllocationSuccess.config_account_id s); by destruct (negb _).
Qed.

(** C7: the client gets what the node did.  The node answers the bytes of the
    client's request; if the client then reports a membership, its leaf is the
    one the registry gave for the client's own commitment in the node's last
    poll; if it reports an error, no membership was confirmed, and the error is
    the node's own message.  That the response survives the wire is proved, from
    the texts of the node's configuration. *)
Theorem exchange_end_to_end fuel req hex (w : World E) resp w' pr :
  request_wf req ->
  handle_request cur fuel (RlnGifterRequest.encode req) w = (Some resp, w') ->
  node_texts w -> fits (RlnGifterResponse.encode resp) ->
  get_str pr "responseB64" = Some (b64 (RlnGifterResponse.encode resp)) ->
  match read_reply (RlnGifterRequest.request_id req) hex pr with
  | Ok out =>
      exists cfg l m leaf,
        SERVER w = Some cfg
        /\ call_get cur cfg (RlnGifterRequest.identity_commitment req) l = (Ok m, lp w')
        /\ get_bool m "registered" = Some true /\ get_u64 m "leaf_index" = Some leaf
        /\ vget out "leaf_index" = Some (num leaf)
  | Err e =>
      RlnGifterResponse.success resp = None
      /\ MembershipAllocationFailure.error_message <$> RlnGifterResponse.failure resp = Some e
  end.
Proof.
  intros Hreq Hr Hw Hfit Hpr.
  assert (Hwf : response_wf resp).
  { apply response_texts_wf; [|done]. by eapply handle_request_texts. }
  rewrite (response_arrives hex _ _ _ Hpr Hwf).
  destruct (RlnGifterResponse.success resp) as [s|] eqn:Hs.
  - destruct (confirmed_success cur fuel _ w resp w' s Hr Hs)
      as (req' & cfg & l & m & Hd & Hid & Ha & Hsrv & Hg & Hb & Hl & _).
    rewrite request_arrives in Hd by done. injection Hd as <-.
    unfold check_response. rewrite bool_decide_false by (by intros ?). rewrite Ha, Hs. cbn.
    exists cfg, l, m, (MembershipAllocationSuccess.leaf_index s). by rewrite report_leaf.
  - apply handle_request_handled in Hr; [|exact UL].
    destruct Hr as [e resp Hd _|req' b resp cs w' Hd [msg ->] _ _ _ _ _
      |req' cfg key l1 r cs w' Hd _ _ _ _ _ _ _ _].
    + by rewrite request_arrives in Hd.
    + rewrite request_arrives in Hd by done. injection Hd as <-.
      unfold check_response. rewrite bool_decide_false by (by intros ?). by destruct b.
    + rewrite request_arrives in Hd by done. injection Hd as <-.
      unfold check_response. rewrite bool_decide_false by (by intros ?).
      by destruct r as [s|[m|m]].
Qed.
End Exchange.
