(* ===== verification/Gifter.v ===== *)
(** * The module surface of the gifter (rust/rln-gifter-module/rust-lib/src/lib.rs)

    The methods the host calls, each a JSON text in and a JSON text out, with
    errors as [{"error": ...}].  [proxy_call] is the SDK's module call, which
    [libp2p_call] relays. *)
From S2P Require Import Prelude RustStd Wire Nullifiers Json Crates JsonInstance AuthVector Lp.
From S2P Require Import Server GiftSpec GiftProps Client.

Section Surface.
Context {E : Type} {H : LpHost E} {J : SerdeJson} {X : HexCrate} {B : Base64Crate}
  {U : UnicodeTables}.
Context (cur : ThreadId).
Context (proxy_call : string -> Value -> M E (result Value string)).

Definition error_value (e : string) : Value := json_obj [("error", VString e)].

(** [.map(|v| v.to_string()).unwrap_or_else(|e| json!({"error": e}).to_string())] *)
Definition reply_text (r : result Value string) : string :=
  match r with Ok v => to_string v | Err e => to_string (error_value e) end.

Definition module_request (args_json : string) : M (World E) (option string) :=
  let! r := on_lp (request cur args_json) in
  ret (reply_text <$> r).

Definition module_serve (args_json : string) : M (World E) string :=
  let! r := serve cur args_json in
  ret (reply_text r).

Definition libp2p_call (args_json : string) : M (World E) string :=
  match from_str args_json with
  | Err e => ret (to_string (error_value e))
  | Ok a =>
      match get_str a "method" with
      | None => ret (to_string (error_value "missing method"))
      | Some method =>
          let args := default (VArray []) (vget a "args") in
          let! r := on_lp (host (proxy_call method args)) in
          ret (match r with
               | Ok v => to_string v
               | Err e => to_string (error_value e)
               end)
      end
  end.

Definition on_context_ready : M (World E) unit :=
  on_lp (init cur [LIBP2P_MODULE; RLN_MODULE]).

(** The value a reply stands for. *)
Definition reply_value (r : result Value string) : Value :=
  match r with Ok v => v | Err e => error_value e end.

Definition reply_ok_wf (r : result Value string) : Prop :=
  match r with Ok v => json_wf max_depth v | Err e => str_valid e end.

Lemma reply_text_parses {L : SerdeJsonLaws J} r :
  reply_ok_wf r -> from_str (reply_text r) = Ok (reply_value r).
Proof.
  destruct r as [v|e]; cbn; intros Hr; [by apply from_str_to_string|].
  by apply from_str_to_string, error_obj_wf.
Qed.

Lemma mounted_wf : json_wf max_depth (json_obj [("mounted", VBool true)]).
Proof. apply json_obj_wf_max. solve_members. Qed.

(** The [serve] method answers the host with a text that parses to
    [{"mounted":true}] when the node is serving the new configuration, and to
    an [{"error"}] object, never with [mounted], when it is not. *)
Theorem module_serve_answers {L : SerdeJsonLaws J} args (w : World E) :
  (forall e, (serve cur args w).1 = Err e -> str_valid e) ->
  exists v, from_str (module_serve args w).1 = Ok v
    /\ ((vget v "mounted" = Some (VBool true) /\ vget v "error" = None
         /\ SERVING (module_serve args w).2 = true)
        \/ (exists e, vget v "error" = Some (VString e) /\ vget v "mounted" = None
            /\ (serve cur args w).1 = Err e)).
Proof.
  intros Hv. unfold module_serve, bind. pose proof (serve_served cur args w) as Hs.
  destruct (serve cur args w) as [r w']. cbn [fst snd] in *.
  assert (Hr : r = Ok (json_obj [("mounted", VBool true)]) /\ SERVING w' = true
               \/ exists e, r = Err e).
  { destruct Hs as [e w' _ _ _ _|a vs cfg l1 r w' _ _ _ _ _ _ _ (Hsv & Hok & _)]; [eauto|].
    destruct Hok as [-> |[_ Hok]]; [left; by rewrite Hsv|right]. destruct r; [done|eauto]. }
  exists (reply_value r). destruct Hr as [[-> Hsv]|[e ->]]; cbn [fst snd].
  - split; [apply reply_text_parses, mounted_wf|by left].
  - split; [apply reply_text_parses; by apply Hv|]. right. by exists e.
Qed.

(** After [on_context_ready] the calling thread is the owner, and every
    client the host could open for the two fixed modules is in the table; both
    background workers and the owner then use those handles. *)
Theorem context_ready_clients (w : World E) :
  OWNER (lp (on_context_ready w).2) = Some cur
  /\ (forall t p, lookup_client t (lp (on_context_ready w).2) = Some p ->
      forall worker, client_ptr worker t (lp (on_context_ready w).2)
        = (Some p, lp (on_context_ready w).2))
  /\ (forall t, t = LIBP2P_MODULE \/ t = RLN_MODULE ->
      (forall o e, (lp_client_create t o e).1 <> 0) ->
      is_Some (lookup_client t (lp (on_context_ready w).2))).
Proof.
  unfold on_context_ready. rewrite on_lp_eq. cbn [snd lp set_lp].
  unfold init, bind at 1, modify. cbn [create_all]. unfold bind, create_client.
  change (cstring "core") with (Some "core").
  change (cstring LIBP2P_MODULE) with (Some LIBP2P_MODULE).
  change (cstring RLN_MODULE) with (Some RLN_MODULE). cbn match.
  unfold bind, host, zoom, modify, ret.
  destruct (lp_client_create LIBP2P_MODULE "core" _) as [p1 e1] eqn:E1.
  destruct (p1 =? 0) eqn:Z1; cbn [env set_env insert_client];
    destruct (lp_client_create RLN_MODULE "core" _) as [p2 e2] eqn:E2;
    destruct (p2 =? 0) eqn:Z2; cbn [snd]; (split; [done|]); (split; [by intros; apply client_ptr_found|]);
    intros t [-> | ->] Hc; rewrite ?lookup_insert_client; try (repeat case_decide; first [done|by eexists]);
    try (unfold lookup_client; cbn; rewrite lookup_insert_eq; by eexists);
    exfalso; try apply Z.eqb_eq in Z1; try apply Z.eqb_eq in Z2; subst;
    eapply Hc; first [by rewrite E1|by rewrite E2].
Qed.
End Surface.
