(* ===== verification/Modules.v ===== *)
(** * The module traits

    The four modules as the hosts see them: a trait is a record of methods over
    the state its implementation runs on, its provided method a default, and an
    [impl] a value of the record.  [module_run] is a gifter module under its
    host: the trait's methods in any order and with any texts, the worker's turns
    and whatever else the process does between them.  [logos_module_install]
    hands the implementation to the generated glue, which is not modelled. *)
From S2P Require Import Prelude RustStd Wire Nullifiers Json Crates JsonInstance Attest AuthVector Verifiers.
From S2P Require Import KeycardCrypto Keycard KeycardCapture Lp Server GiftSpec GiftProps.
From S2P Require Import Interleave Worker NodeState Client Gifter.

(** The body of [on_context_ready] in the traits. *)
Definition default_on_context_ready {S} : M S unit := ret tt.

(** A method that may panic has an [option] for its text. *)
Record RlnGifterModule (S : Type) := {
  gm_request : string -> M S (option string);
  gm_serve : string -> M S string;
  gm_libp2p_call : string -> M S string;
  gm_on_context_ready : M S unit
}.
Arguments gm_request {_}. Arguments gm_serve {_}. Arguments gm_libp2p_call {_}. Arguments gm_on_context_ready {_}.

Record EthAuthModule (S : Type) := {
  em_verify_auth : string -> M S string;
  em_on_context_ready : M S unit
}.

Record KeycardAuthModule (S : Type) := {
  km_verify_auth : string -> M S string;
  km_on_context_ready : M S unit
}.

Record KeycardCaptureModule (S : Type) := {
  cm_produce_auth : string -> M S (outcome string);
  cm_card_status : M S string;
  cm_on_context_ready : M S unit
}.

Section Impls.
Context {E : Type} {H : LpHost E} {J : SerdeJson} {X : HexCrate} {B : Base64Crate} {U : UnicodeTables}.

Definition RlnGifter (cur : ThreadId) (proxy_call : string -> Value -> M E (result Value string))
    : RlnGifterModule (World E) := {|
  gm_request := module_request cur;
  gm_serve := module_serve cur;
  gm_libp2p_call := libp2p_call proxy_call;
  gm_on_context_ready := on_context_ready cur |}.

Context {K : K256} {Hs : Hashes}.

(** The verifiers' methods do not read their state. *)
#[local] Instance ret_m S : MRet (M S) := fun A a => ret a.
#[local] Instance bind_m S : MBind (M S) := fun A B k m => bind m k.

Definition EthAuth_module (S : Type) : EthAuthModule S := {|
  em_verify_auth := EthAuth.verify_auth (F := M S);
  em_on_context_ready := default_on_context_ready |}.

Definition KeycardAuth_module (S : Type) : KeycardAuthModule S := {|
  km_verify_auth := KeycardAuth.verify_auth (F := M S);
  km_on_context_ready := default_on_context_ready |}.
End Impls.

Section Capture.
Context {J : SerdeJson} {X : HexCrate} {K : K256} {Hs : Hashes} {A : Aes} {D : Kdf} {Ec : Ecdh}
  {E : Type} {CH : CardHost E}.

Definition KeycardCapture (fuel : nat) : KeycardCaptureModule E := {|
  cm_produce_auth := KeycardCapture.produce_auth fuel;
  cm_card_status := KeycardCapture.card_status;
  cm_on_context_ready := default_on_context_ready |}.
End Capture.

(** ** The gifter module under its host *)

Section Life.
Context {E : Type} {H : LpHost E} {J : SerdeJson} {X : HexCrate} {B : Base64Crate}
  {U : UnicodeTables} {UL : UnicodeLaws U}.

Inductive module_run (m : RlnGifterModule (World E)) (worker : ThreadId) (fuel : nat) : World E -> World E -> Prop :=
| mr_start w : module_run m worker fuel w w
| mr_ready w w1 : module_run m worker fuel w w1 -> module_run m worker fuel w (gm_on_context_ready m w1).2
| mr_request w w1 args : module_run m worker fuel w w1 -> module_run m worker fuel w (gm_request m args w1).2
| mr_serve w w1 args : module_run m worker fuel w w1 -> module_run m worker fuel w (gm_serve m args w1).2
| mr_libp2p w w1 args : module_run m worker fuel w w1 -> module_run m worker fuel w (gm_libp2p_call m args w1).2
| mr_worker w w1 n w2 :
    module_run m worker fuel w w1 -> worker_loop worker fuel n w1 = (Some tt, w2) -> module_run m worker fuel w w2
| mr_env w w1 e : module_run m worker fuel w w1 -> module_run m worker fuel w (set_lp (set_env e (lp w1)) w1).

Context (cur : ThreadId) (proxy_call : string -> Value -> M E (result Value string)).

Lemma auth_payload_keeps a hex (l : Lp E) : exists cs, lp_ext cs l (auth_payload cur a hex l).2.
Proof.
  assert (Hrefl : exists cs, lp_ext cs l l) by (eexists; apply lp_ext_refl).
  unfold auth_payload. destruct (negb _ && negb _); [done|]. destruct (is_empty (default "" _)) eqn:Ha.
  { by destruct (negb _ || negb _). }
  destruct (negb (is_empty _)); [done|]. destruct (negb (is_empty (default "" (get_str a "authProvider")))); [|done].
  unfold bind at 1, ret. destruct (map_err _ _) as [pj|e]; [|done]. unfold bind.
  match goal with |- context [call_module_json cur ?t ?m ?b ?tm l] =>
    pose proof (call_module_json_ext cur t m b tm l) as Hc; destruct (call_module_json cur t m b tm l) as [[r|e] l'] end;
    destruct Hc as (cs & He & _); by exists cs.
Qed.

(** The client's exchange only adds clients and calls. *)
Lemma request_keeps args (l : Lp E) : exists cs, lp_ext cs l (request cur args l).2.
Proof.
  assert (Hrefl : exists cs, lp_ext cs l l) by (eexists; apply lp_ext_refl).
  unfold request. destruct (match map_err _ _ with Ok _ => _ | Err _ => _ end) as [[[[[a peer] addr] hex] idc]|e]; [|done].
  unfold bind at 1. destruct (auth_payload_keeps a hex l) as [cs He].
  destruct (auth_payload cur a hex l) as [[p|e] l1]; [|by exists cs].
  destruct (str_prefix _ hex); [|by exists cs]. unfold bind.
  match goal with |- context [call_libp2p cur ?m ?b ?tm l1] =>
    destruct (libp2p_keeps cur m b tm l1) as [cs' He']; destruct (call_libp2p cur m b tm l1) as [r l2] end.
  exists (cs ++ cs')%list. by eapply lp_ext_trans.
Qed.

(** [init] may replace handles, but a target with a client keeps having one. *)
Lemma create_client_some t t' (l : Lp E) :
  is_Some (lookup_client t l) -> is_Some (lookup_client t (create_client t' l).2).
Proof.
  intros Ht. unfold create_client. destruct (cstring t') as [c|]; [|done].
  destruct (cstring "core") as [o|]; [|done]. unfold bind, host, zoom, modify, ret.
  destruct (lp_client_create c o (env l)) as [raw e]. destruct (raw =? 0); [done|].
  cbn [snd]. rewrite lookup_insert_client. case_decide; [by eexists|done].
Qed.

Lemma create_all_some t ts (l : Lp E) :
  is_Some (lookup_client t l) -> is_Some (lookup_client t (create_all ts l).2).
Proof.
  revert l. induction ts as [|t' ts IH]; intros l Ht; [done|]. cbn [create_all]. unfold bind.
  pose proof (create_client_some t t' l Ht) as Hc. destruct (create_client t' l) as [b l']. by apply IH.
Qed.

Lemma node_ok_ready (w : World E) : node_ok w -> node_ok (on_context_ready cur w).2.
Proof.
  intros [Hw Hs Hc]. unfold on_context_ready. rewrite on_lp_eq. constructor; [done..|].
  intros cfg ty m conf Hcfg Hv. destruct (Hc _ _ _ _ Hcfg Hv) as [Hm Hl]. split; [done|].
  unfold init, bind at 1, modify. by apply create_all_some.
Qed.

Lemma node_ok_libp2p_call args (w : World E) : node_ok w -> node_ok (libp2p_call proxy_call args w).2.
Proof.
  intros Hw. unfold libp2p_call. destruct (from_str args) as [a|e]; [|done].
  destruct (get_str a "method") as [m|]; [|done]. unfold bind. rewrite on_lp_eq. cbn [snd].
  eapply node_ok_lp; [done|]. apply host_ext.
Qed.

Lemma module_run_ok worker fuel (w0 w : World E) :
  node_ok w0 -> module_run (RlnGifter cur proxy_call) worker fuel w0 w -> node_ok w.
Proof.
  intros H0. induction 1 as [|w w1 _ IH|w w1 args _ IH|w w1 args _ IH|w w1 args _ IH|w w1 n w2 _ IH Hw|w w1 e _ IH];
    [done|..].
  - by apply node_ok_ready, IH.
  - cbn [RlnGifter gm_request]. unfold module_request, bind. rewrite on_lp_eq. cbn [snd].
    destruct (request_keeps args (lp w1)) as [cs He]. eapply node_ok_lp; [by apply IH|exact He].
  - cbn [RlnGifter gm_serve]. unfold module_serve, bind. pose proof (node_ok_serve cur args w1 (IH H0)) as Hs.
    by destruct (serve cur args w1).
  - by apply node_ok_libp2p_call, IH.
  - eapply node_ok_worker; [by apply IH|exact Hw].
  - eapply node_ok_lp; [by apply IH|apply lp_ext_env].
Qed.

(** C17: the gifter module under any host.  From a process that has not served, after
    any calls of the trait's methods with any texts, turns of the worker and other
    activity of the process, the statics are well formed: one worker exactly when
    the node serves, a configuration then, and an open client for every verifier
    module it names; and [request] answers with a text, never with a panic. *)
Theorem module_state_kept {XL : HexLaws X} worker fuel (w0 w : World E) :
  SERVING w0 = false -> workers w0 = 0%nat -> SERVER w0 = None ->
  module_run (RlnGifter cur proxy_call) worker fuel w0 w ->
  node_ok w /\ forall args, exists text, (gm_request (RlnGifter cur proxy_call) args w).1 = Some text.
Proof.
  intros H1 H2 H3 Hr. split; [by eapply module_run_ok, Hr; apply node_ok_start|].
  intros args. cbn [RlnGifter gm_request]. unfold module_request, bind. rewrite on_lp_eq.
  destruct (request_total cur args (lp w)) as (r & s' & Hq). rewrite Hq. by exists (reply_text r).
Qed.
End Life.
