(* ===== verification/UnitTests.v ===== *)
(** * The unit tests of the sources, run on the model

    The [#[cfg(test)]] modules that need no signature by a real curve: each
    test function is a boolean of the same name, the conjunction of its
    assertions, and each is computed to [true].  A JSON text of a test is the
    printed value it denotes; the stubbed protocol library of lp.rs is the
    instance [stub_ffi].  The tests of eth-auth that sign are in [SignedTests],
    those of attest.rs that verify the golden signature in [GoldenTests]. *)
From S2P Require Import Prelude RustStd Wire Nullifiers Json Crates JsonInstance Attest AuthVector Verifiers.
From S2P Require Import Lp Server Client.
Import HexInstance.
#[local] Existing Instance caseless_tables.

(** [s.contains(sub)] *)
Definition contains (s sub : string) : bool := bool_decide (is_Some (String.index 0 sub s)).
Definition err_contains {A} (r : result A string) (sub : string) : bool :=
  match r with Err e => contains e sub | Ok _ => false end.
(** [s.repeat(n)] *)
Fixpoint repeat_str (n : nat) (s : string) : string :=
  match n with O => "" | S n => s +:+ repeat_str n s end.

(** ** wire.rs *)

Module WireTests.
Definition test_request_roundtrip : bool :=
  let req := {|
    RlnGifterRequest.request_id := "abc123";
    RlnGifterRequest.authentication_type := str_bytes "any-vector-string";
    RlnGifterRequest.authentication_payload := [x01; x02; x03; x04];
    RlnGifterRequest.identity_commitment := replicate 32 x09;
    RlnGifterRequest.rate_limit := Some 100 |} in
  match RlnGifterRequest.decode (RlnGifterRequest.encode req) with
  | Ok dec =>
      bool_decide (RlnGifterRequest.request_id dec = "abc123")
      && bool_decide (RlnGifterRequest.authentication_type dec = str_bytes "any-vector-string")
      && bool_decide (RlnGifterRequest.authentication_payload dec = [x01; x02; x03; x04])
      && bool_decide (RlnGifterRequest.identity_commitment dec = replicate 32 x09)
      && bool_decide (RlnGifterRequest.rate_limit dec = Some 100)
  | Err _ => false
  end.

Definition test_response_success_roundtrip : bool :=
  let resp := {|
    RlnGifterResponse.request_id := "r1";
    RlnGifterResponse.auth_success := true;
    RlnGifterResponse.error := None;
    RlnGifterResponse.success := Some {|
      MembershipAllocationSuccess.leaf_index := 56;
      MembershipAllocationSuccess.merkle_root := replicate 32 x07;
      MembershipAllocationSuccess.block_number := 1234;
      MembershipAllocationSuccess.transaction_hash := [xab; xcd];
      MembershipAllocationSuccess.config_account_id := Some "cfgAccount" |};
    RlnGifterResponse.failure := None |} in
  match RlnGifterResponse.decode (RlnGifterResponse.encode resp) with
  | Ok dec =>
      RlnGifterResponse.auth_success dec
      && match RlnGifterResponse.success dec with
         | Some s =>
             bool_decide (MembershipAllocationSuccess.leaf_index s = 56)
             && bool_decide (MembershipAllocationSuccess.block_number s = 1234)
             && bool_decide (MembershipAllocationSuccess.transaction_hash s = [xab; xcd])
             && bool_decide (MembershipAllocationSuccess.config_account_id s = Some "cfgAccount")
         | None => false
         end
  | Err _ => false
  end.

Definition test_known_request_wire_bytes : bool :=
  let req := {|
    RlnGifterRequest.request_id := "x";
    RlnGifterRequest.authentication_type := [];
    RlnGifterRequest.authentication_payload := [];
    RlnGifterRequest.identity_commitment := [xff];
    RlnGifterRequest.rate_limit := Some 1 |} in
  bool_decide (RlnGifterRequest.encode req
               = [x0a; x01; x78; x12; x00; x1a; x00; x22; x01; xff; x28; x01]).
End WireTests.

Example wire_tests_pass :
  WireTests.test_request_roundtrip && WireTests.test_response_success_roundtrip
  && WireTests.test_known_request_wire_bytes = true.
Proof. vm_compute. reflexivity. Qed.

(** ** auth.rs *)

Module StoreTests.
Definition empty_fs : Fs := {| fs_files := ∅; fs_readable _ := true; fs_appendable _ := true |}.
(** [std::fs::write(path, text)] *)
Definition write_file (fs : Fs) (path text : string) : Fs := {|
  fs_files := <[path := str_bytes text]> (fs_files fs);
  fs_readable := fs_readable fs; fs_appendable := fs_appendable fs |}.

Definition test_append_then_load_round_trips : bool :=
  let path := "roundtrip" in
  let fs := append_nullifier empty_fs path "keycard-attestation:aa11" in
  let fs := append_nullifier fs path "eth-allowlist:0xdead" in
  let set := load_nullifiers fs path in
  bool_decide ("keycard-attestation:aa11" ∈ set) && bool_decide ("eth-allowlist:0xdead" ∈ set)
  && bool_decide (size set = 2%nat).

Definition test_load_normalizes_case_and_whitespace : bool :=
  let path := "normalize" in
  let fs := write_file empty_fs path ("  KEYCARD-ATTESTATION:AA11 " +:+ newline +:+ newline) in
  let set := load_nullifiers fs path in
  bool_decide ("keycard-attestation:aa11" ∈ set) && bool_decide (size set = 1%nat).

Definition test_empty_path_is_a_no_op_store : bool :=
  let fs := append_nullifier empty_fs "" "x" in
  bool_decide (load_nullifiers fs "" = ∅).
End StoreTests.

Example store_tests_pass :
  StoreTests.test_append_then_load_round_trips && StoreTests.test_load_normalizes_case_and_whitespace
  && StoreTests.test_empty_path_is_a_no_op_store = true.
Proof. vm_compute. reflexivity. Qed.

(** ** rln-auth-vector *)

Module VectorTests.
Section Vectors.
Definition Pure (A : Type) : Type := M unit A.
#[local] Instance pure_ret : MRet Pure := state_ret unit.
#[local] Instance pure_bind : MBind Pure := state_bind unit.

Definition VerifyOnly : AuthVector Pure := {|
  auth_type := "verify-only";
  produce := default_produce "verify-only";
  verify req :=
    if bool_decide (VerifyRequest.payload_hex req = "00") then mret (Ok (Verdict.reject "zero payload"))
    else mret (Ok (Verdict.accept (Some ("nul-" +:+ VerifyRequest.id_commitment_hex req)))) |}.

Definition ProduceOnly : AuthVector Pure := {|
  auth_type := "produce-only";
  produce req := mret (Ok {| ProduceReply.payload_hex := "aa" +:+ ProduceRequest.id_commitment_hex req |});
  verify := default_verify "produce-only" |}.

Definition vectors : list (AuthVector Pure) := [VerifyOnly; ProduceOnly].

(** A dispatch and the parsing of its answer. *)
Definition dispatched (run : string -> list (AuthVector Pure) -> Pure string) (req : Value) : Value :=
  match from_str (run (to_string req) vectors tt).1 with Ok v => v | Err _ => VNull end.
Definition verified : Value -> Value := dispatched dispatch_verify.
Definition produced : Value -> Value := dispatched dispatch_produce.

Definition verify_args (ty payload : string) : Value :=
  json_obj [("auth_type", VString ty); ("payload_hex", VString payload); ("id_commitment_hex", VString "beef")].
Definition produce_args (ty : string) : Value :=
  json_obj [("auth_type", VString ty); ("id_commitment_hex", VString "beef")].

Definition test_dispatch_routes_by_auth_type_across_a_multi_vector_module : bool :=
  bool_decide (get_str (produced (produce_args "produce-only")) "payload_hex" = Some "aabeef")
  && (let out := verified (verify_args "verify-only" "01") in
      bool_decide (get_bool out "ok" = Some true) && bool_decide (get_str out "nullifier" = Some "nul-beef")).

Definition test_refusal_is_a_verdict_not_an_error : bool :=
  let out := verified (verify_args "verify-only" "00") in
  bool_decide (get_bool out "ok" = Some false) && bool_decide (get_str out "reason" = Some "zero payload")
  && match vget out "error" with None => true | Some _ => false end.

Definition test_unsupported_side_and_unknown_type_use_the_error_envelope : bool :=
  match get_str (produced (produce_args "verify-only")) "error" with
  | Some e => contains e "no producer" | None => false end
  && match get_str (verified (verify_args "nope" "01")) "error" with
     | Some e => contains e "unknown auth_type" | None => false end.

Definition test_reply_parsers_surface_the_error_envelope : bool :=
  let err := json_obj [("error", VString "boom")] in
  match parse_produce_reply (json_obj [("payload_hex", VString "aa")]) with
  | Ok r => bool_decide (ProduceReply.payload_hex r = "aa") | Err _ => false end
  && match parse_produce_reply err with Err e => bool_decide (e = "boom") | Ok _ => false end
  && match parse_verdict (json_obj [("ok", VBool true); ("nullifier", VString "n")]) with
     | Ok v => bool_decide (Verdict.nullifier v = Some "n") | Err _ => false end
  && match parse_verdict err with Err e => bool_decide (e = "boom") | Ok _ => false end.

Definition test_request_shapes_round_trip_with_optional_fields_omitted : bool :=
  let req := {| VerifyRequest.auth_type := "t"; VerifyRequest.payload_hex := "aa";
                VerifyRequest.id_commitment_hex := "bb"; VerifyRequest.rate := 0;
                VerifyRequest.config := None |} in
  let v := json_obj (VerifyRequest.to_fields req) in
  match vget v "config" with None => true | Some _ => false end
  && match VerifyRequest.from_value v with
     | Ok back => bool_decide (VerifyRequest.auth_type back = "t") | Err _ => false end
  && match VerifyRequest.from_value (json_obj [("auth_type", VString "t"); ("payload_hex", VString "aa");
                                               ("id_commitment_hex", VString "bb")]) with
     | Ok back => bool_decide (VerifyRequest.rate back = 0) | Err _ => false end.
End Vectors.
End VectorTests.

Example vector_tests_pass :
  VectorTests.test_dispatch_routes_by_auth_type_across_a_multi_vector_module
  && VectorTests.test_refusal_is_a_verdict_not_an_error
  && VectorTests.test_unsupported_side_and_unknown_type_use_the_error_envelope
  && VectorTests.test_reply_parsers_surface_the_error_envelope
  && VectorTests.test_request_shapes_round_trip_with_optional_fields_omitted = true.
Proof. vm_compute. reflexivity. Qed.

(** ** keycard-attest/attest.rs: parsing the golden vector *)

Module AttestTests.
Definition GOLDEN_TLV : string :=
  "a081ab8a620365c18485fe7018e11cb992011426803aa8e843c63aab9657aed7d3ee4b85a62a11188ada267db3312a84e1be27c01c736a89da7a1fe4f7e90ce297e74f00008e2bfdb06058374abfc1c026386d16ead7bbc19bc0645d2e7acf7b953169bbc1ac0130450220364c5ca937b7ca42861978f086d206cc569ef0bb2ea4c7de08929c2fcca7434d022100c87699ce4f977e6a7a4800343db9b6842b91ca873e56dfe3327d19a2d01af14e".
Definition IDENT_PUB : string := "0365c18485fe7018e11cb992011426803aa8e843c63aab9657aed7d3ee4b85a62a".

Definition test_parses_ident_pub `{K256} : bool :=
  match hex_decode GOLDEN_TLV with
  | Ok tlv =>
      match parse_attestation tlv with
      | Ok att => bool_decide (hex_encode (ident_pub att) = IDENT_PUB)
      | Err _ => false
      end
  | Err _ => false
  end.

(** The part of the vector after the certificate. *)
Definition golden_der : list byte :=
  match hex_decode GOLDEN_TLV with Ok tlv => drop 103 tlv | Err _ => [] end.
End AttestTests.

(** The vector parses with any curve library that reads its DER signature. *)
Lemma attest_tests_pass `{K256} s :
  signature_from_der AttestTests.golden_der = Ok s -> AttestTests.test_parses_ident_pub = true.
Proof.
  intros Hs. unfold AttestTests.test_parses_ident_pub.
  destruct (hex_decode AttestTests.GOLDEN_TLV) as [tlv|e] eqn:Ht; [|by vm_compute in Ht].
  assert (Htpl : exists tpl, Attest.find_tag tlv TAG_SIGNATURE_TEMPLATE = Ok tpl
    /\ exists cert, Attest.find_tag tpl.1 TAG_CERTIFICATE = Ok cert
    /\ (length cert.1 =? CERTIFICATE_LEN)%nat = true
    /\ bool_decide (hex_encode (slice 0 33 cert.1) = AttestTests.IDENT_PUB) = true
    /\ exists der, Attest.find_tag tpl.1 TAG_DER_SEQUENCE = Ok der /\ der.2 = AttestTests.golden_der).
  { vm_compute in Ht. injection Ht as <-. eexists. split; [vm_compute; reflexivity|].
    eexists. split; [vm_compute; reflexivity|]. split; [vm_compute; reflexivity|].
    split; [vm_compute; reflexivity|]. eexists. split; vm_compute; reflexivity. }
  destruct Htpl as ([tpl ?] & Ht1 & [cert ?] & Hc & Hl & Hid & [? der] & Hd & Hder).
  cbn [fst snd] in *. unfold parse_attestation. rewrite Ht1, Hc, Hl. cbn [negb].
  by rewrite Hd, Hder, Hs.
Qed.

(** ** eth-auth and keycard-auth: what is decided before any signature *)

Module VerifierTests.
Section Verifiers.
Context {K : K256} {Hs : Hashes}.

Definition rejects (r : result Verdict.t string) : bool :=
  match r with Ok v => negb (Verdict.ok v) | Err _ => false end.
Definition rejects_for (r : result Verdict.t string) (sub : string) : bool :=
  match r with
  | Ok v => negb (Verdict.ok v)
            && match Verdict.reason v with Some m => contains m sub | None => false end
  | Err _ => false
  end.

(** The request of [signed_request], for any payload and allowlist. *)
Definition eth_req (payload_hex : string) (config : option Value) : VerifyRequest.t := {|
  VerifyRequest.auth_type := ETH_ALLOWLIST_AUTH_TYPE; VerifyRequest.payload_hex := payload_hex;
  VerifyRequest.id_commitment_hex := repeat_str 32 "11"; VerifyRequest.rate := 100;
  VerifyRequest.config := config |}.
Definition allow (l : list Value) : option Value := Some (json_obj [("allowlist", VArray l)]).

Definition test_garbage_payload_is_rejected_not_errored (address : string) : bool :=
  rejects (EthAuth.verify (eth_req "zz" (allow [VString address])))
  && rejects_for (EthAuth.verify (eth_req (repeat_str 10 "aa") (allow [VString address]))) "65 bytes".

Definition test_missing_or_empty_allowlist_is_an_operator_error (payload : string) : bool :=
  err_contains (EthAuth.verify (eth_req payload None)) "required"
  && err_contains (EthAuth.verify (eth_req payload (allow []))) "empty".

Definition card_req (config : option Value) (payload_hex : string) : VerifyRequest.t := {|
  VerifyRequest.auth_type := KEYCARD_ATTEST_AUTH_TYPE; VerifyRequest.payload_hex := payload_hex;
  VerifyRequest.id_commitment_hex := repeat_str 32 "11"; VerifyRequest.rate := 100;
  VerifyRequest.config := config |}.
Definition cas (l : list string) : option Value :=
  Some (json_obj [("trusted_cas", VArray (VString <$> l))]).

Definition test_missing_bad_or_empty_trusted_cas_is_an_operator_error : bool :=
  err_contains (KeycardAuth.verify (card_req None "aa")) "required"
  && err_contains (KeycardAuth.verify (card_req (cas ["zz"]) "aa")) "hex"
  && err_contains (KeycardAuth.verify (card_req (cas ["aa"]) "aa")) "33 bytes"
  && err_contains (KeycardAuth.verify (card_req (cas []) "aa")) "empty".

Definition test_undecodable_or_unparseable_payload_is_rejected_not_errored : bool :=
  let cfg := cas ["02" +:+ repeat_str 32 "ab"] in
  rejects_for (KeycardAuth.verify (card_req cfg "zz")) "payload hex"
  && rejects_for (KeycardAuth.verify (card_req cfg (repeat_str 8 "00"))) "parse failed".
End Verifiers.
End VerifierTests.

Lemma verifier_tests_pass `{K256, Hashes} address payload :
  VerifierTests.test_garbage_payload_is_rejected_not_errored address
  && VerifierTests.test_missing_or_empty_allowlist_is_an_operator_error payload
  && VerifierTests.test_missing_bad_or_empty_trusted_cas_is_an_operator_error
  && VerifierTests.test_undecodable_or_unparseable_payload_is_rejected_not_errored = true.
Proof. vm_compute. reflexivity. Qed.

(** ** lp.rs: the protocol library of the test build *)

(** No client can be made, and every call fails; time is the machine's. *)
#[export] Instance stub_ffi : LpHost Z := {|
  lp_client_create _ _ e := (0, e);
  lp_invoke _ _ _ _ e := ((-3, None, None), e);
  lp_invoke_async _ _ _ _ e := ((-3, None), e);
  instant_now e := e;
  pass d e := e + d |}.

(** The statics of the test binary at its start. *)
Definition test_lp : Lp Z := {| env := 0; CLIENTS := None; OWNER := None; calls := [] |}.
Definition test_world : World Z := {|
  lp := test_lp; fs := StoreTests.empty_fs; SERVER := None; CONSUMED_NULLIFIERS := None;
  SERVING := false; workers := 0 |}.

(** ** server.rs *)

Module ServerTests.
Definition test_only_a_registered_membership_has_a_confirmed_leaf : bool :=
  bool_decide (confirmed_leaf (json_obj [("registered", VBool true); ("leaf_index", num 7);
                                         ("state", VString "active")]) = Some 7)
  && bool_decide (confirmed_leaf (json_obj [("registered", VBool false)]) = None)
  && bool_decide (confirmed_leaf (json_obj [("registered", VBool true)]) = None)
  && bool_decide (confirmed_leaf (VString "") = None).

Definition serve_args (auth_verifiers : Value) : string :=
  to_string (json_obj [("config", VString "c"); ("wallet", VString "w"); ("authVerifiers", auth_verifiers)]).

Definition test_serve_fails_loudly_when_a_verifier_client_cannot_open : bool :=
  err_contains (serve 0%nat (serve_args (json_obj [("t", json_obj [("module", VString "nope_module")])]))
                  test_world).1 "authVerifiers['t']".

Definition test_serve_rejects_malformed_auth_verifiers_instead_of_degrading_open : bool :=
  err_contains (serve 0%nat (serve_args (VString "oops")) test_world).1 "must be an object"
  && err_contains (serve 0%nat (serve_args (json_obj [("t", json_obj [])])) test_world).1 "needs a module".
End ServerTests.

Example server_tests_pass :
  ServerTests.test_only_a_registered_membership_has_a_confirmed_leaf
  && ServerTests.test_serve_fails_loudly_when_a_verifier_client_cannot_open
  && ServerTests.test_serve_rejects_malformed_auth_verifiers_instead_of_degrading_open = true.
Proof. vm_compute. reflexivity. Qed.

(** ** client.rs *)

Module ClientTests.
Definition request_error (args : list (string * Value)) : result unit string :=
  match (Client.request 0%nat (to_string (json_obj args)) test_lp).1 with
  | Some (Err e) => Err e
  | _ => Ok tt
  end.

Definition req (extra : list (string * Value)) : result unit string :=
  request_error ([("gifterPeerId", VString "12D3KooWTest"); ("gifterMultiaddr", VString "/ip4/127.0.0.1/tcp/1");
                  ("identityCommitment", VString (repeat_str 32 "ab"))] ++ extra ++ [("rate", num 100)]).

Definition test_payload_and_provider_are_mutually_exclusive : bool :=
  err_contains (req [("authType", VString "voucher-v1"); ("authPayload", VString "aa");
                     ("authProvider", VString "m")]) "mutually exclusive".

Definition test_payload_material_needs_an_explicit_auth_type : bool :=
  forallb (fun extra => err_contains (req [extra]) "need an explicit authType")
    [("authPayload", VString "aa"); ("authProvider", VString "m")].

Definition test_named_vector_needs_a_payload_source : bool :=
  err_contains (req [("authType", VString "voucher-v1")]) "needs authPayload or authProvider".

Definition test_bad_payload_hex_is_rejected_before_any_io : bool :=
  err_contains (req [("authType", VString "voucher-v1"); ("authPayload", VString "zz")]) "authPayload hex".

Definition test_commitment_is_lowercased_for_the_producer_contract : bool :=
  match request_error [("gifterPeerId", VString "p"); ("gifterMultiaddr", VString "/m");
                       ("identityCommitment", VString (repeat_str 32 "AB"));
                       ("authType", VString "t"); ("authProvider", VString "m")] with
  | Err e => negb (contains e "id_commitment hex")
  | Ok _ => false
  end.
End ClientTests.

Example client_tests_pass :
  ClientTests.test_payload_and_provider_are_mutually_exclusive
  && ClientTests.test_payload_material_needs_an_explicit_auth_type
  && ClientTests.test_named_vector_needs_a_payload_source
  && ClientTests.test_bad_payload_hex_is_rejected_before_any_io
  && ClientTests.test_commitment_is_lowercased_for_the_producer_contract = true.
Proof. vm_compute. reflexivity. Qed.
