(* ===== verification/SignedTests.v ===== *)
(** * The unit tests of eth-auth that sign (rust/eth-auth-module/rust-lib/src/lib.rs)

    The tests make their requests with a signing key of the k256 crate.  They are
    booleans over any such crate, and each is proved to be [true] from what the
    crate documents of signing and recovering ([SigningLaws]), for any hash. *)
From S2P Require Import Prelude RustStd Nullifiers Json Crates JsonInstance Attest AuthVector Verifiers MintCurve.
From S2P Require Import Lp Server GiftSpec VerifierKeys UnitTests.

(** [k256::ecdsa::SigningKey], and the bytes of a signature. *)
Class SigningCrate (K : K256) := {
  SigningKey : Type;
  sk_from_slice : list byte -> option SigningKey;
  sign_prehash_recoverable : SigningKey -> list byte -> option (Signature * RecoveryId);
  verifying_key : SigningKey -> VerifyingKey;
  sig_to_bytes : Signature -> list byte;
  recid_to_byte : RecoveryId -> byte
}.

Class SigningLaws {K : K256} (C : SigningCrate K) : Prop := {
  (** a scalar below the order, not zero, is a key *)
  sk_in_range b : length b = 32%nat -> 0 < from_bytes_big b < _N -> is_Some (sk_from_slice b);
  (** a digest can be signed, and the key recovered from the signature *)
  sign_recovers sk d : length d = 32%nat -> exists sg id,
    sign_prehash_recoverable sk d = Some (sg, id)
    /\ recover_from_prehash d sg id = Ok (verifying_key sk);
  sig_bytes_length sg : length (sig_to_bytes sg) = 64%nat;
  sig_bytes_read sg : signature_from_slice (sig_to_bytes sg) = Ok sg;
  recid_range id : u8 (recid_to_byte id) < 4;
  recid_read id : recovery_id (recid_to_byte id) = Some id
}.

(** [s.to_uppercase()] of ASCII text, and [s.replace(pat, rep)] for a pattern that
    is not empty. *)
Definition ascii_upper (b : byte) : byte := if (97 <=? u8 b) && (u8 b <=? 122) then to_u8 (u8 b - 32) else b.
Definition to_uppercase (s : string) : string := bytes_str (ascii_upper <$> str_bytes s).

Fixpoint replace_go (fuel : nat) (pat rep s : list byte) : list byte :=
  match fuel, s with
  | S fuel, b :: r =>
      if decide (take (length pat) s = pat) then rep ++ replace_go fuel pat rep (drop (length pat) s)
      else b :: replace_go fuel pat rep r
  | _, _ => s
  end.
Definition replace (s pat rep : string) : string :=
  bytes_str (replace_go (length (str_bytes s)) (str_bytes pat) (str_bytes rep) (str_bytes s)).

Module SignedTests.
Section Signed.
Context {K : K256} {C : SigningCrate K} {Hs : Hashes} {X : HexCrate} {U : UnicodeTables}.

(** [None] is a failed [unwrap]. *)
Definition signed_request (recid_offset : Z) : option (VerifyRequest.t * string) :=
  sk ← sk_from_slice (replicate 32 x42);
  let commitment := replicate 32 x11 in
  let digest := EthAuth.eip191_digest commitment in
  '(sig, recid) ← sign_prehash_recoverable sk digest;
  let payload := sig_to_bytes sig ++ [to_u8 (u8 (recid_to_byte recid) + recid_offset)] in
  let vk := verifying_key sk in
  let enc := to_encoded_point vk false in
  let h := keccak256 (drop 1 enc) in
  let address := "0x" +:+ hex_encode (drop 12 h) in
  Some ({|
    VerifyRequest.auth_type := ETH_ALLOWLIST_AUTH_TYPE;
    VerifyRequest.payload_hex := hex_encode payload;
    VerifyRequest.id_commitment_hex := hex_encode commitment;
    VerifyRequest.rate := 100;
    VerifyRequest.config := Some (json_obj [("allowlist", VArray [VString address])]) |}, address).

(** [req.config = Some(json!({"allowlist": [entry]}))] *)
Definition with_allowlist (entry : string) (req : VerifyRequest.t) : VerifyRequest.t := {|
  VerifyRequest.auth_type := VerifyRequest.auth_type req;
  VerifyRequest.payload_hex := VerifyRequest.payload_hex req;
  VerifyRequest.id_commitment_hex := VerifyRequest.id_commitment_hex req;
  VerifyRequest.rate := VerifyRequest.rate req;
  VerifyRequest.config := Some (json_obj [("allowlist", VArray [VString entry])]) |}.

Definition test_allowlisted_signature_accepts_with_address_nullifier : bool :=
  forallb (fun offset =>
    match signed_request offset with
    | Some (req, address) =>
        match EthAuth.verify req with
        | Ok v => Verdict.ok v && bool_decide (Verdict.nullifier v = Some address)
        | Err _ => false
        end
    | None => false
    end) [0; 27].

Definition test_unlisted_signer_is_rejected_not_errored : bool :=
  match signed_request 0 with
  | Some (req, _) =>
      VerifierTests.rejects_for
        (EthAuth.verify (with_allowlist "0x0000000000000000000000000000000000000001" req)) "not allowlisted"
  | None => false
  end.

Definition test_checksummed_allowlist_entries_still_match : bool :=
  match signed_request 0 with
  | Some (req, address) =>
      match EthAuth.verify (with_allowlist (replace (to_uppercase address) "0X" "0x") req) with
      | Ok v => Verdict.ok v
      | Err _ => false
      end
  | None => false
  end.
End Signed.
End SignedTests.

(** ** The tests pass *)

Lemma str_app_cons c (s t : string) : String c s +:+ t = String c (s +:+ t).
Proof. done. Qed.

Lemma contains_middle a sub b : contains (a +:+ sub +:+ b) sub = true.
Proof.
  apply bool_decide_eq_true. induction a as [|c a IH].
  - change ("" +:+ sub +:+ b) with (sub +:+ b). destruct (sub +:+ b) eqn:E.
    + destruct sub as [|c s]; [by eexists|]. by rewrite str_app_cons in E.
    + unfold String.index. fold String.index. rewrite <-E.
      assert (Hp : String.prefix sub (sub +:+ b) = true).
      { clear. induction sub as [|c sub IH]; [by destruct b|]. rewrite str_app_cons. cbn [String.prefix].
        by destruct (Ascii.ascii_dec c c). }
      rewrite Hp. by eexists.
  - rewrite str_app_cons. cbn [String.index].
    destruct (String.prefix _ _); [destruct sub; by eexists|]. destruct IH as [n ->]. by eexists.
Qed.

Section AsciiCase.
Context {U : UnicodeTables}.

Lemma to_lower_byte b : u8 b < 128 -> u8 b <> 0x3A3 /\ to_lower (u8 b) = [u8 (ascii_lower b)].
Proof. intros Hb. split; [lia|]. revert Hb. by destruct b; vm_compute. Qed.

Lemma ascii_lower_ascii b : u8 b < 128 -> u8 (ascii_lower b) < 128.
Proof. by destruct b; vm_compute. Qed.

Lemma lower_go_ascii before l :
  Forall (fun b => u8 b < 128) l -> lower_go before (u8 <$> l) = u8 <$> (ascii_lower <$> l).
Proof.
  revert before. induction l as [|b l IH]; intros before Hl; [done|].
  apply Forall_cons in Hl as [Hb Hl]. rewrite !fmap_cons. cbn [lower_go].
  destruct (to_lower_byte b Hb) as [H3 Hlow]. rewrite (proj2 (Z.eqb_neq _ _) H3), Hlow, IH by done. done.
Qed.

Lemma of_chars_ascii l : Forall (fun b => u8 b < 128) l -> of_chars (u8 <$> l) = bytes_str l.
Proof.
  intros Hl. unfold of_chars. f_equal. induction Hl as [|b l Hb _ IH]; [done|].
  rewrite fmap_cons, encode_str_cons, IH. unfold encode_utf8. rewrite (proj2 (Z.ltb_lt _ _)) by lia.
  by rewrite to_u8_u8.
Qed.

(** Lowercasing ASCII text goes byte by byte. *)
Lemma to_lowercase_ascii s : is_ascii s -> to_lowercase s = bytes_str (ascii_lower <$> str_bytes s).
Proof.
  intros Ha. destruct (is_ascii_chars s Ha) as [_ Hc]. unfold to_lowercase. rewrite Hc, lower_go_ascii by done.
  apply of_chars_ascii, Forall_fmap. eapply Forall_impl; [exact Ha|]. intros b. apply ascii_lower_ascii.
Qed.

Lemma upper_plain b :
  plain_byte b = true -> u8 b < 128 /\ u8 (ascii_upper b) < 128 /\ ascii_lower b = b /\ ascii_lower (ascii_upper b) = b.
Proof. by destruct b; vm_compute. Qed.

Lemma upper_hex b : is_hex_lower b = true -> ascii_upper b <> x58.
Proof. by destruct b; vm_compute. Qed.

Lemma plain_lower s : forallb plain_byte (str_bytes s) = true -> to_lowercase s = s.
Proof.
  intros Hp%forallb_is_true. rewrite to_lowercase_ascii.
  - rewrite <-(bytes_str_bytes s) at 2. f_equal. apply list_eq_same_length with (length (str_bytes s)); [|by rewrite length_fmap|].
    + done.
    + intros i x y _ Hx Hy. rewrite list_lookup_fmap, Hy in Hx. injection Hx as <-.
      rewrite Forall_lookup in Hp. by apply upper_plain, (Hp i).
  - eapply Forall_impl; [exact Hp|]. intros b Hb. by apply upper_plain.
Qed.

Lemma replace_go_id fuel rep l : x58 ∉ l -> replace_go fuel [x30; x58] rep l = l.
Proof.
  revert l. induction fuel as [|fuel IH]; intros l Hl; [by destruct l|]. destruct l as [|b l]; [done|].
  cbn [replace_go]. apply not_elem_of_cons in Hl as [_ Hl]. rewrite decide_False; [by rewrite IH|].
  destruct l as [|c l]; [done|]. cbn. rewrite take_0. intros [= -> ->]. by apply not_elem_of_cons in Hl as [? _].
Qed.

Lemma replace_go_hit fuel b pat rep l :
  replace_go (S fuel) (b :: pat) rep ((b :: pat) ++ l) = rep ++ replace_go fuel (b :: pat) rep l.
Proof.
  cbn [app replace_go]. change (b :: pat ++ l) with ((b :: pat) ++ l).
  by rewrite decide_True, drop_app_length by (by rewrite take_app_length).
Qed.

(** A checksummed address matches its lowercase form. *)
Lemma checksummed_lower {X : HexCrate} {XL : HexLaws X} bs :
  to_lowercase (replace (to_uppercase ("0x" +:+ hex_encode bs)) "0X" "0x") = "0x" +:+ hex_encode bs.
Proof.
  pose proof (hex_encode_digits bs) as Hd%forallb_is_true. set (h := str_bytes (hex_encode bs)) in *.
  assert (Hr : replace (to_uppercase ("0x" +:+ hex_encode bs)) "0X" "0x" = bytes_str (x30 :: x78 :: (ascii_upper <$> h))).
  { unfold replace, to_uppercase. rewrite str_bytes_str, str_bytes_app. fold h.
    change (str_bytes "0x") with [x30; x78]. change (str_bytes "0X") with [x30; x58].
    rewrite fmap_app. change (ascii_upper <$> [x30; x78]) with [x30; x58].
    change (length ([x30; x58] ++ (ascii_upper <$> h))) with (S (S (length (ascii_upper <$> h)))).
    rewrite replace_go_hit, replace_go_id; [done|].
    intros (b & Hb & Hin)%list_elem_of_fmap. rewrite Forall_forall in Hd. exact (upper_hex b (Hd b Hin) (eq_sym Hb)). }
  assert (Hplain : Forall (fun b => plain_byte b = true) h).
  { eapply Forall_impl; [exact Hd|]. intros b Hb. unfold plain_byte. by rewrite Hb. }
  rewrite Hr, to_lowercase_ascii; unfold is_ascii; rewrite str_bytes_str.
  - cbn [fmap list_fmap]. change (ascii_lower x30) with x30. change (ascii_lower x78) with x78.
    apply str_bytes_inj. rewrite str_bytes_str, str_bytes_app. fold h. change (str_bytes "0x") with [x30; x78].
    cbn [app]. do 2 f_equal. change (list_fmap byte byte ascii_lower) with (fmap (M := list) ascii_lower).
    change (list_fmap byte byte ascii_upper h) with (ascii_upper <$> h).
    clear -Hplain. induction Hplain as [|b l Hb _ IH]; [done|]. rewrite !fmap_cons, IH. f_equal. by apply upper_plain.
  - constructor; [done|]. constructor; [done|]. apply Forall_fmap. eapply Forall_impl; [exact Hplain|].
    intros b Hb. by apply upper_plain.
Qed.
End AsciiCase.

Section TestsPass.
Context {K : K256} {C : SigningCrate K} {CL : SigningLaws C} {Hs : Hashes} {HL : HashLaws Hs}
  {X : HexCrate} {XL : HexLaws X} {U : UnicodeTables}.

Lemma one_entry entry :
  eth_allowlist (Some (json_obj [("allowlist", VArray [VString entry])])) = Ok [to_lowercase entry].
Proof. reflexivity. Qed.

(** The request of the tests: signed by the address it names. *)
Lemma signed_request_made off :
  off = 0 \/ off = 27 ->
  exists req h, SignedTests.signed_request off = Some (req, "0x" +:+ hex_encode h)
    /\ VerifyRequest.config req = Some (json_obj [("allowlist", VArray [VString ("0x" +:+ hex_encode h)])])
    /\ forall req', VerifyRequest.payload_hex req' = VerifyRequest.payload_hex req ->
         VerifyRequest.id_commitment_hex req' = VerifyRequest.id_commitment_hex req ->
         EthAuth.verify req'
         = match eth_allowlist (VerifyRequest.config req') with
           | Err e => Err e
           | Ok al => if bool_decide ("0x" +:+ hex_encode h ∈ al) then Ok (Verdict.accept (Some ("0x" +:+ hex_encode h)))
                      else Ok (Verdict.reject ("address not allowlisted: " +:+ "0x" +:+ hex_encode h))
           end.
Proof.
  intros Hoff. unfold SignedTests.signed_request.
  destruct (sk_in_range (replicate 32 x42) eq_refl) as [sk Hsk]; [by vm_compute|]. rewrite Hsk. cbn [mbind option_bind].
  set (d := EthAuth.eip191_digest (replicate 32 x11)).
  destruct (sign_recovers sk d) as (sg & ri & Hsig & Hrec); [apply keccak256_length|]. rewrite Hsig.
  eexists _, _. split; [reflexivity|]. split; [reflexivity|]. intros req' Hp Hi. rewrite eth_verify_unfold.
  destruct (eth_allowlist _) as [al|e]; [|done]. rewrite Hp, Hi. cbn [VerifyRequest.payload_hex VerifyRequest.id_commitment_hex].
  rewrite !strip_0x_hex, !hex_decode_encode. unfold EthAuth.recover_signer.
  pose proof (sig_bytes_length sg) as Hl. rewrite length_app, Hl. cbn [length Nat.add Nat.eqb negb].
  rewrite lookup_app_r, Hl, Nat.sub_diag by lia. cbn [lookup list_lookup default].
  pose proof (recid_range ri) as Hr. pose proof (u8_range (recid_to_byte ri)) as H0.
  assert (Hv : (if 27 <=? u8 (to_u8 (u8 (recid_to_byte ri) + off)) then to_u8 (u8 (to_u8 (u8 (recid_to_byte ri) + off)) - 27)
    else to_u8 (u8 (recid_to_byte ri) + off)) = recid_to_byte ri).
  { destruct Hoff as [-> | ->]; rewrite u8_to_u8_small by lia.
    - rewrite (proj2 (Z.leb_gt 27 _)) by lia. by rewrite Z.add_0_r, to_u8_u8.
    - rewrite (proj2 (Z.leb_le 27 _)) by lia. replace (u8 (recid_to_byte ri) + 27 - 27) with (u8 (recid_to_byte ri)) by lia.
      apply to_u8_u8. }
  cbv zeta. unfold id. rewrite Hv, recid_read. cbn [ok_or].
  rewrite take_app_le, take_ge, sig_bytes_read by lia. cbn [map_err]. fold d. by rewrite Hrec.
Qed.

Lemma address_lower bs : to_lowercase ("0x" +:+ hex_encode bs) = "0x" +:+ hex_encode bs.
Proof.
  apply plain_lower. rewrite str_bytes_app, forallb_app, hex_plain. done.
Qed.

(** The signer is not the address of the second test's list. *)
Lemma signed_tests_pass :
  (forall req address, SignedTests.signed_request 0 = Some (req, address) ->
     address <> "0x0000000000000000000000000000000000000001") ->
  SignedTests.test_allowlisted_signature_accepts_with_address_nullifier
  && SignedTests.test_unlisted_signer_is_rejected_not_errored
  && SignedTests.test_checksummed_allowlist_entries_still_match = true.
Proof.
  intros Hother. rewrite !andb_true_iff. split; [split|].
  - unfold SignedTests.test_allowlisted_signature_accepts_with_address_nullifier. apply forallb_forall. intros off Hoff.
    destruct (signed_request_made off) as (req & h & -> & Hc & Hv).
    { destruct Hoff as [<-|[<-|[]]]; auto. }
    rewrite (Hv req) by done. rewrite Hc, one_entry, address_lower, bool_decide_true by by apply list_elem_of_singleton.
    cbn [Verdict.accept Verdict.ok Verdict.nullifier andb]. by apply bool_decide_eq_true.
  - unfold SignedTests.test_unlisted_signer_is_rejected_not_errored.
    destruct (signed_request_made 0) as (req & h & Hreq & Hc & Hv); [by left|]. rewrite Hreq.
    rewrite (Hv (SignedTests.with_allowlist _ req)) by done. cbn [SignedTests.with_allowlist VerifyRequest.config].
    rewrite one_entry. change (to_lowercase "0x0000000000000000000000000000000000000001") with
      "0x0000000000000000000000000000000000000001".
    rewrite bool_decide_false by (intros Hin%list_elem_of_singleton; by apply (Hother _ _ Hreq)).
    unfold VerifierTests.rejects_for. cbn [Verdict.reject Verdict.ok Verdict.reason negb andb].
    apply (contains_middle "address " "not allowlisted" (": 0x" +:+ hex_encode h)).
  - unfold SignedTests.test_checksummed_allowlist_entries_still_match.
    destruct (signed_request_made 0) as (req & h & -> & _ & Hv); [by left|].
    rewrite (Hv (SignedTests.with_allowlist _ req)) by done. cbn [SignedTests.with_allowlist VerifyRequest.config].
    by rewrite one_entry, checksummed_lower, bool_decide_true by by apply list_elem_of_singleton.
Qed.
End TestsPass.
