(* ===== verification/Sha256.v ===== *)
(** * SHA-256

    FIPS 180-4 as an executable function, for the golden vectors of
    keycard-attest: what the class [Hashes] leaves open there is this function
    of the crate sha2.  A word is a [Z] below [2 ^ 32]. *)
From S2P Require Import Prelude.

Definition M32 : Z := 0xffffffff.
Definition rotr (x n : Z) : Z := Z.lor (Z.shiftr x n) (Z.land (Z.shiftl x (32 - n)) M32).
Definition add32 (x y : Z) : Z := Z.land (x + y) M32.

(** The constants are the first 32 bits of the fractional parts of the cube and
    square roots of the first primes. *)
Definition primes : list Z :=
  filter (fun n => forallb (fun d => negb (n mod Z.of_nat d =? 0)) (seq 2 (Z.to_nat n - 2)))
    (Z.of_nat <$> seq 2 310).

(** The greatest [x] below [acc + 2 ^ bits] with [x ^ k <= n]. *)
Fixpoint root_of (bits : nat) (k n acc : Z) : Z :=
  match bits with
  | O => acc
  | S bits =>
      let x := acc + 2 ^ Z.of_nat bits in
      root_of bits k n (if x ^ k <=? n then x else acc)
  end.

Definition root_bits (k p : Z) : Z := Z.land (root_of 40 k (p * 2 ^ (32 * k)) 0) M32.

Definition sha_k : list Z := Eval vm_compute in root_bits 3 <$> take 64 primes.
Definition sha_h : list Z := Eval vm_compute in root_bits 2 <$> take 8 primes.

(** The message schedule, the newest word first. *)
Definition next_word (w : list Z) : Z :=
  let at_ i := default 0 (w !! i) in
  let s0 x := Z.lxor (Z.lxor (rotr x 7) (rotr x 18)) (Z.shiftr x 3) in
  let s1 x := Z.lxor (Z.lxor (rotr x 17) (rotr x 19)) (Z.shiftr x 10) in
  add32 (add32 (s1 (at_ 1%nat)) (at_ 6%nat)) (add32 (s0 (at_ 14%nat)) (at_ 15%nat)).

Fixpoint schedule (n : nat) (w : list Z) : list Z :=
  match n with O => reverse w | S n => schedule n (next_word w :: w) end.

Definition sha_round (st : list Z) (kw : Z * Z) : list Z :=
  match st with
  | [a; b; c; d; e; f; g; h] =>
      let S1 := Z.lxor (Z.lxor (rotr e 6) (rotr e 11)) (rotr e 25) in
      let ch := Z.lxor (Z.land e f) (Z.land (Z.lxor e M32) g) in
      let t1 := add32 (add32 h S1) (add32 ch (add32 kw.1 kw.2)) in
      let S0 := Z.lxor (Z.lxor (rotr a 2) (rotr a 13)) (rotr a 22) in
      let maj := Z.lxor (Z.lxor (Z.land a b) (Z.land a c)) (Z.land b c) in
      [add32 t1 (add32 S0 maj); a; b; c; add32 d t1; e; f; g]
  | _ => st
  end.

(** The bytes of a word, and back, the highest first. *)
Definition word_of (l : list byte) : Z := fold_left (fun a b => 256 * a + u8 b) l 0.
Definition bytes_of (w : Z) : list byte := to_u8 <$> [Z.shiftr w 24; Z.shiftr w 16; Z.shiftr w 8; w].

Fixpoint words (n : nat) (l : list byte) : list Z :=
  match n with O => [] | S n => word_of (take 4 l) :: words n (drop 4 l) end.

Definition compress (st : list Z) (block : list byte) : list Z :=
  zip_with add32 st (fold_left sha_round (zip sha_k (schedule 48 (reverse (words 16 block)))) st).

Fixpoint blocks (n : nat) (l : list byte) (st : list Z) : list Z :=
  match n with O => st | S n => blocks n (drop 64 l) (compress st (take 64 l)) end.

(** The message with a one bit, zeros and its length in bits. *)
Definition sha_pad (m : list byte) : list byte :=
  let bits := 8 * Z.of_nat (length m) in
  m ++ [x80] ++ replicate (Z.to_nat ((55 - Z.of_nat (length m)) mod 64)) x00
    ++ bytes_of (Z.shiftr bits 32) ++ bytes_of (Z.land bits M32).

Definition sha256 (m : list byte) : list byte :=
  let p := sha_pad m in
  concat (bytes_of <$> blocks (length p / 64) p sha_h).

(** ** Lemmas *)

Lemma sha_round_length st kw : length (sha_round st kw) = length st.
Proof. by do 9 (destruct st as [|? st]; [done|]). Qed.

Lemma compress_length st block : length st = 8%nat -> length (compress st block) = 8%nat.
Proof.
  intros Hst. unfold compress. rewrite length_zip_with.
  assert (forall l st, length (fold_left sha_round l st) = length st) as ->; [|lia].
  intros l. induction l as [|kw l IH]; intros st'; [done|]. cbn. by rewrite IH, sha_round_length.
Qed.

Lemma sha256_length_lemma m : length (sha256 m) = 32%nat.
Proof.
  assert (Hb : forall n l st, length st = 8%nat -> length (blocks n l st) = 8%nat).
  { induction n as [|n IH]; intros l st Hst; [done|]. cbn. by apply IH, compress_length. }
  unfold sha256. specialize (Hb (length (sha_pad m) / 64)%nat (sha_pad m) sha_h eq_refl).
  revert Hb. generalize (blocks (length (sha_pad m) / 64) (sha_pad m) sha_h). intros l Hl.
  do 8 (destruct l as [|? l]; [done|]). by destruct l.
Qed.

(** The vectors of the standard: one block and two. *)
Example sha256_abc :
  sha256 [x61; x62; x63] = [xba; x78; x16; xbf; x8f; x01; xcf; xea; x41; x41; x40; xde; x5d; xae; x22; x23;
    xb0; x03; x61; xa3; x96; x17; x7a; x9c; xb4; x10; xff; x61; xf2; x00; x15; xad].
Proof. vm_compute. reflexivity. Qed.
