(* ===== verification/Secp256k1.v ===== *)
(** * secp256k1

    An executable curve for the golden vectors of keycard-attest: what the
    class [K256] leaves open is here SEC 1's recovery and verification over
    Jacobian coordinates, with the rules of the crate k256 that the code names:
    a signature is a pair of nonzero scalars, verification refuses a high [s].
    Field elements are machine-word trees of [BigZ], which compute fast. *)
From S2P Require Import Prelude RustStd Attest MintCurve.
From Bignums Require Import BigZ.

Definition Fp : bigZ := Eval vm_compute in BigZ.of_Z _P.
Definition Fn : bigZ := Eval vm_compute in BigZ.of_Z _N.

Definition fmul (x y : bigZ) : bigZ := BigZ.modulo (BigZ.mul x y) Fp.
Definition fadd (x y : bigZ) : bigZ := BigZ.modulo (BigZ.add x y) Fp.
Definition fsub (x y : bigZ) : bigZ := BigZ.modulo (BigZ.sub x y) Fp.

Fixpoint power (m b : bigZ) (e : positive) : bigZ :=
  match e with
  | xH => b
  | xO e => let h := power m b e in BigZ.modulo (BigZ.mul h h) m
  | xI e => let h := power m b e in BigZ.modulo (BigZ.mul (BigZ.modulo (BigZ.mul h h) m) b) m
  end.

(** Inverses by Fermat, and the square root for a prime that is 3 modulo 4. *)
Definition inverse (m : bigZ) (p : Z) (x : bigZ) : bigZ := power m x (Z.to_pos (p - 2)).
Definition root (x : bigZ) : bigZ := power Fp x (Z.to_pos ((_P + 1) / 4)).

(** ** Points, at infinity when the third coordinate is zero *)

Definition jacobian : Type := bigZ * bigZ * bigZ.
Definition infinity : jacobian := (BigZ.one, BigZ.one, BigZ.zero).
Definition is_zero (x : bigZ) : bool := BigZ.eqb x BigZ.zero.

Definition twice (p : jacobian) : jacobian :=
  let '(x, y, z) := p in
  let b := fmul y y in
  let s := fmul x b in
  let s := fadd s s in let s := fadd s s in
  let m := fmul x x in
  let m := fadd m (fadd m m) in
  let x' := fsub (fmul m m) (fadd s s) in
  let b2 := fmul b b in
  let b2 := fadd b2 b2 in let b2 := fadd b2 b2 in let b2 := fadd b2 b2 in
  let yz := fmul y z in
  (x', fsub (fmul m (fsub s x')) b2, fadd yz yz).

Definition plus (p q : jacobian) : jacobian :=
  let '(x1, y1, z1) := p in
  let '(x2, y2, z2) := q in
  if is_zero z1 then q
  else if is_zero z2 then p
  else
    let zz1 := fmul z1 z1 in let zz2 := fmul z2 z2 in
    let u1 := fmul x1 zz2 in let u2 := fmul x2 zz1 in
    let s1 := fmul y1 (fmul z2 zz2) in let s2 := fmul y2 (fmul z1 zz1) in
    let h := fsub u2 u1 in
    let r := fsub s2 s1 in
    if is_zero h then (if is_zero r then twice p else infinity)
    else
      let h2 := fmul h h in let h3 := fmul h h2 in let v := fmul u1 h2 in
      let x' := fsub (fsub (fmul r r) h3) (fadd v v) in
      (x', fsub (fmul r (fsub v x')) (fmul s1 h3), fmul h (fmul z1 z2)).

Definition jacobian_of (x y : Z) : jacobian := (BigZ.of_Z x, BigZ.of_Z y, BigZ.one).

Definition affine (p : jacobian) : option (Z * Z) :=
  let '(x, y, z) := p in
  if is_zero z then None
  else
    let i := inverse Fp _P z in
    let i2 := fmul i i in
    Some (BigZ.to_Z (fmul x i2), BigZ.to_Z (fmul y (fmul i2 i))).

(** [a G + b q], from the highest bit down. *)
Fixpoint combine (n : nat) (a b : Z) (g q gq : jacobian) (acc : jacobian) : jacobian :=
  match n with
  | O => acc
  | S n =>
      let acc := twice acc in
      let acc := match Z.testbit a (Z.of_nat n), Z.testbit b (Z.of_nat n) with
                 | true, true => plus acc gq
                 | true, false => plus acc g
                 | false, true => plus acc q
                 | false, false => acc
                 end in
      combine n a b g q gq acc
  end.

Definition combination (a b : Z) (q : Z * Z) : option (Z * Z) :=
  let g := jacobian_of _GX _GY in
  let q := jacobian_of q.1 q.2 in
  affine (combine 256 a b g q (plus g q) infinity).

(** The point with that abscissa and the parity of its ordinate. *)
Definition lift_x (x : Z) (odd : bool) : option (Z * Z) :=
  if _P <=? x then None
  else
    let c := fadd (fmul (BigZ.of_Z x) (fmul (BigZ.of_Z x) (BigZ.of_Z x))) (BigZ.of_Z 7) in
    let y := root c in
    if BigZ.eqb (fmul y y) c then
      let y := BigZ.to_Z y in
      Some (x, if Bool.eqb (Z.odd y) odd then y else _P - y)
    else None.

(** ** ECDSA *)

Definition scalar_div (a b : Z) : Z :=
  BigZ.to_Z (BigZ.modulo (BigZ.mul (BigZ.of_Z a) (inverse Fn _N (BigZ.of_Z b))) Fn).

Definition high (s : Z) : bool := _N / 2 <? s.

Definition verifies (key : Z * Z) (prehash : list byte) (sig : Z * Z) : bool :=
  let '(r, s) := sig in
  let z := from_bytes_big prehash in
  negb (high s) && match combination (scalar_div z s) (scalar_div r s) key with
                   | Some (x, _) => x mod _N =? r
                   | None => false
                   end.

Definition signature (r s : Z) : result (Z * Z) string :=
  if (0 <? r) && (r <? _N) && (0 <? s) && (s <? _N) then Ok (r, s) else Err "signature error".

(** A positive DER integer without needless zeros, and what follows it. *)
Definition der_integer (l : list byte) : option (Z * list byte) :=
  match l with
  | x02 :: n :: l =>
      let v := take (Z.to_nat (u8 n)) l in
      match v with
      | b :: v' =>
          if (u8 n <? 128) && (length v =? Z.to_nat (u8 n))%nat && (u8 b <? 128)
             && negb ((u8 b =? 0) && match v' with c :: _ => u8 c <? 128 | [] => false end)
          then Some (from_bytes_big v, drop (Z.to_nat (u8 n)) l) else None
      | [] => None
      end
  | _ => None
  end.

Definition der_signature (l : list byte) : option (Z * Z) :=
  match l with
  | x30 :: n :: l =>
      if negb ((u8 n <? 128) && (length l =? Z.to_nat (u8 n))%nat) then None
      else match der_integer l with
           | Some (r, l) => match der_integer l with Some (s, []) => Some (r, s) | _ => None end
           | None => None
           end
  | _ => None
  end.

(** The key whose signature this is: [r] is the abscissa of the nonce's point
    modulo the order, the identifier says its parity and whether it was reduced. *)
Definition recover (prehash : list byte) (sig : Z * Z) (id : Z) : option (Z * Z) :=
  let '(r, s) := sig in
  let z := from_bytes_big prehash in
  let x := if Z.testbit id 1 then r + _N else r in
  match lift_x x (Z.odd id) with
  | Some point =>
      match combination (scalar_div (- z mod _N) r) (scalar_div s r) point with
      | Some key => if verifies key prehash sig then Some key else None
      | None => None
      end
  | None => None
  end.

#[export] Instance secp256k1 : K256 := {|
  Signature := Z * Z;
  VerifyingKey := Z * Z;
  RecoveryId := Z;
  recovery_id b := if u8 b <? 4 then Some (u8 b) else None;
  signature_from_slice l :=
    if (length l =? 64)%nat then signature (from_bytes_big (take 32 l)) (from_bytes_big (drop 32 l))
    else Err "signature error";
  signature_from_der l :=
    match der_signature l with Some (r, s) => signature r s | None => Err "signature error" end;
  normalize_s sig := if high sig.2 then Some (sig.1, _N - sig.2) else None;
  recover_from_prehash m sig id := ok_or (recover m sig id) "signature error";
  to_encoded_point key compress :=
    if compress then to_u8 (2 + Z.b2z (Z.odd key.2)) :: digits_big 32 key.1
    else x04 :: digits_big 32 key.1 ++ digits_big 32 key.2;
  from_sec1_bytes l :=
    match l with
    | x02 :: l => if (length l =? 32)%nat then ok_or (lift_x (from_bytes_big l) false) "signature error" else Err "signature error"
    | x03 :: l => if (length l =? 32)%nat then ok_or (lift_x (from_bytes_big l) true) "signature error" else Err "signature error"
    | x04 :: l =>
        let x := from_bytes_big (take 32 l) in
        let y := from_bytes_big (drop 32 l) in
        if (length l =? 64)%nat && (x <? _P) && (y <? _P) && (y * y mod _P =? (x * x * x + 7) mod _P)
        then Ok (x, y) else Err "signature error"
    | _ => Err "signature error"
    end;
  verify_prehash key m sig := verifies key m sig
|}.
