(* ===== verification/MintLibrary.v ===== *)
(** * A curve library for the minted attestations

    What [Mint] takes of k256, shown of concrete functions: the formats are those
    of the executable curve of [Secp256k1], and ECDSA is correct for the key 1 of
    a library that knows it, because it can compute the nonce of its signatures. *)
From S2P Require Import Prelude RustStd Crates JsonInstance AuthVector Attest Verifiers MintCurve Keccak Mint Secp256k1.
From Stdlib Require Import Zdiv.
Import OneKey HexInstance.

(** ** The formats of secp256k1 *)

Lemma scalar_bytes r s :
  0 < r < _N -> 0 < s < _N ->
  from_bytes_big (take 32 (digits_big 32 r ++ digits_big 32 s)) = r
  /\ from_bytes_big (drop 32 (digits_big 32 r ++ digits_big 32 s)) = s.
Proof.
  intros Hr Hs. assert (_N < 256 ^ Z.of_nat 32) by (vm_compute; reflexivity).
  rewrite take_app_length', drop_app_length' by (by rewrite digits_big_length).
  by rewrite !from_digits_big by lia.
Qed.

Lemma signature_ok r s : 0 < r < _N -> 0 < s < _N -> signature r s = Ok (r, s).
Proof.
  intros Hr Hs. unfold signature. by rewrite !(proj2 (Z.ltb_lt _ _)) by lia.
Qed.

Lemma der_integer_reads v b rest :
  der_int v b -> der_integer (x02 :: to_u8 (Z.of_nat (length b)) :: b ++ rest) = Some (v, rest).
Proof.
  intros (Hv & Hl & b0 & r0 & -> & Hb0 & Hmin). unfold der_integer.
  set (l := b0 :: r0) in *. rewrite u8_to_u8_small, Nat2Z.id by lia.
  rewrite take_app_length, drop_app_length, Nat.eqb_refl. unfold l at 1.
  rewrite (proj2 (Z.ltb_lt _ 128)), (proj2 (Z.ltb_lt (u8 b0) 128)) by (unfold l in *; lia). cbn [andb].
  assert (Hn : (u8 b0 =? 0) && match r0 with c :: _ => u8 c <? 128 | [] => false end = false).
  { destruct (Z.eqb_spec (u8 b0) 0) as [H0|]; [|done]. destruct r0 as [|c r1]; [done|].
    apply Z.ltb_ge, (Hmin (u8_inj b0 x00 H0) c r1 eq_refl). }
  rewrite Hn. cbn [negb]. by rewrite Hv.
Qed.

Lemma der_signature_reads r s br bs :
  der_int r br -> der_int s bs ->
  let body := x02 :: to_u8 (Z.of_nat (length br)) :: br ++ x02 :: to_u8 (Z.of_nat (length bs)) :: bs in
  der_signature (x30 :: to_u8 (Z.of_nat (length body)) :: body) = Some (r, s).
Proof.
  intros Dr Ds. cbv zeta. pose proof Dr as (_ & Hlr & _). pose proof Ds as (_ & Hls & _).
  set (body := x02 :: _). assert (Hl : (length body <= 70)%nat).
  { unfold body. cbn [length]. rewrite length_app. cbn [length]. lia. }
  unfold der_signature. rewrite u8_to_u8_small, Nat2Z.id, Nat.eqb_refl, (proj2 (Z.ltb_lt _ 128)) by lia.
  cbn [andb negb]. unfold body. rewrite (der_integer_reads r br _ Dr).
  pose proof (der_integer_reads s bs [] Ds) as Hs. rewrite app_nil_r in Hs. by rewrite Hs.
Qed.

(** ** A library that knows the key 1 *)

(** Whether [k] is the nonce of the abscissa [r], with an ordinate of that
    parity when one is asked for. *)
Definition nonce_is (k r : Z) (parity : option Z) : bool :=
  match _mul k (Some (_GX, _GY)) with
  | Returned (Some (x, y)) => (x =? r) && match parity with Some b => b =? y mod 2 | None => true end
  | _ => false
  end.

(** The signing equation, solved for the nonce; where [s] has no inverse there
    is nothing to solve, and no number is refused. *)
Definition signed_by_one (h : list byte) (sig : Z * Z) (parity : option Z) : bool :=
  let '(r, s) := sig in
  match pow_inv s _N with
  | Some w =>
      let k := w * (from_bytes_big h + r) mod _N in
      nonce_is k r parity || nonce_is (_N - k) r ((fun b => 1 - b) <$> parity)
  | None => true
  end.

Definition one_key : K256 := {|
  Signature := Z * Z; VerifyingKey := Z * Z; RecoveryId := Z;
  recovery_id := @recovery_id secp256k1;
  signature_from_slice := @signature_from_slice secp256k1;
  signature_from_der := @signature_from_der secp256k1;
  normalize_s := @normalize_s secp256k1;
  recover_from_prehash m sig id :=
    if signed_by_one m sig (Some id) then Ok (_GX, _GY) else Err "signature error";
  to_encoded_point := @to_encoded_point secp256k1;
  from_sec1_bytes := @from_sec1_bytes secp256k1;
  verify_prehash key m sig := bool_decide (key = (_GX, _GY)) && signed_by_one m sig None |}.

#[export] Instance one_key_formats : SignatureFormats one_key.
Proof.
  refine {| sig_of r s := ((r, s) : @Signature one_key); rid_of b := (b : @RecoveryId one_key) |}.
  - by intros b [->| ->].
  - intros r s Hr Hs. destruct (scalar_bytes r s Hr Hs) as [Hsr Hss].
    cbn [signature_from_slice one_key secp256k1]. rewrite length_app, !digits_big_length, Hsr, Hss.
    by apply signature_ok.
  - intros r s br bs Hr Hs Dr Ds. cbv zeta.
    pose proof (der_signature_reads r s br bs Dr Ds) as Hd. cbv zeta in Hd.
    cbn [signature_from_der one_key secp256k1]. rewrite Hd. by apply signature_ok.
  - intros r s Hr Hs. cbn [normalize_s one_key secp256k1]. unfold high. cbn [fst snd].
    by rewrite (proj2 (Z.ltb_ge _ _)) by lia.
Defined.

Section SignedByOne.
#[local] Existing Instances eqm_setoid Zplus_eqm Zminus_eqm Zmult_eqm Zopp_eqm.

(** The nonce is what the equation gives, or its negation. *)
Lemma nonce_solved s w k t :
  eqm _N (w * s) 1 -> 0 < k < _N ->
  (eqm _N (s * k) t -> w * t mod _N = k) /\ (eqm _N (s * k) (- t) -> _N - w * t mod _N = k).
Proof.
  intros Hw Hk. assert (Hwk : eqm _N (w * (s * k)) k).
  { replace (w * (s * k)) with (w * s * k) by ring. rewrite Hw. by rewrite Z.mul_1_l. }
  split; intros He.
  - rewrite He in Hwk. unfold eqm in Hwk. rewrite Hwk. apply Z.mod_small. lia.
  - assert (Hn : eqm _N (w * t) (_N - k)).
    { transitivity (- (w * - t)); [by replace (- (w * - t)) with (w * t) by ring|]. rewrite <-He, Hwk.
      unfold eqm. rewrite <-(Z_mod_plus_full (- k) 1 _N). f_equal. ring. }
    unfold eqm in Hn. rewrite Hn, (Z.mod_small (_N - k)) by lia. ring.
Qed.

Lemma signed_by_one_holds h r s recid parity :
  signs 1 (from_bytes_big h) r s recid -> parity = Some recid \/ parity = None ->
  signed_by_one h (r, s) parity = true.
Proof.
  intros (_ & _ & k & x & y & Hk & Hm & _ & _ & -> & Hor) Hp. unfold signed_by_one.
  destruct (pow_inv s _N) as [w|] eqn:Ew; [|done]. apply pow_inv_spec in Ew as [_ Ew]; [|done].
  destruct (nonce_solved s w k (from_bytes_big h + x) Ew Hk) as [H1 H2].
  replace (from_bytes_big h + x * 1) with (from_bytes_big h + x) in Hor by ring.
  apply orb_true_iff. destruct Hor as [[-> He]|[-> He]]; [left; rewrite (H1 He)|right; rewrite (H2 He)];
    unfold nonce_is; rewrite Hm, Z.eqb_refl; cbn [andb];
    destruct Hp as [->| ->]; cbn [fmap option_fmap option_map]; [|done| |done]; apply Z.eqb_eq; ring.
Qed.
End SignedByOne.

Lemma key_pair_one pub : key_pair 1 pub -> pub = pub_G.
Proof.
  intros (x & y & Hm & _ & _ & ->). change (Some (_GX, _GY)) with _G in Hm. rewrite mul_1_G in Hm.
  injection Hm as <- <-. vm_compute. reflexivity.
Qed.

#[export] Instance one_key_ecdsa : Ecdsa (K := one_key) 1.
Proof.
  split; intros pub h r s recid ->%key_pair_one _ Hsg; exists (_GX, _GY).
  - cbn [recover_from_prehash one_key sig_of rid_of one_key_formats].
    rewrite (signed_by_one_holds h r s recid) by (done || by left). split; [done|]. vm_compute. reflexivity.
  - split; [vm_compute; reflexivity|]. cbn [verify_prehash one_key sig_of one_key_formats].
    rewrite (signed_by_one_holds h r s recid) by (done || by right). by rewrite bool_decide_true by done.
Qed.

(** ** Witness: both keys are 1 *)

Lemma minted_attestation_accepted_witness :
  let m := one_minted (Attest.keccak256 pub_G) in
  KeycardAuth.verify (K := one_key) (minted_request m (replicate 32 x11) 100)
  = Ok (Verdict.accept (Some (hex_encode (m_nullifier m)))).
Proof.
  intros m. apply (minted_attestation_accepted (K := one_key) 1 1 1 (replicate 32 x11) m 100).
  - exact (minted_one _).
  - exact one_key_ecdsa.
  - exact one_key_ecdsa.
  - exact (keccak_agrees pub_G).
Defined.
