(* ===== verification/GoldenTests.v ===== *)
(** * The golden vectors of keycard-attest, run on the model

    The tests of attest.rs that verify a signature of a real card: here with
    secp256k1, SHA-256 and Keccak-256 as the crates implement them.  Each test
    function is a boolean of the same name, the conjunction of its assertions,
    and is shown to be [true]; an [unwrap] that panics makes it [false]. *)
From S2P Require Import Prelude RustStd Crates Attest MintCurve Keccak Sha256 Secp256k1 Json JsonInstance AuthVector Verifiers UnitTests.
Import HexInstance AttestTests.

#[export] Instance hashes : Hashes := {|
  Attest.sha256 := Sha256.sha256;
  Attest.keccak256 m := match Keccak.keccak256 m with Returned h => h | _ => [] end |}.

#[export] Instance hash_laws : HashLaws hashes.
Proof.
  constructor; intros m.
  - apply sha256_length_lemma.
  - destruct (keccak256_total m) as (h & Hh & Hl). unfold Attest.keccak256, hashes. by rewrite Hh.
Qed.

Definition GOLDEN_CHALLENGE : string := "63acd6e02a8b5783551ff2836a9cbdf237c115c3ff018b943f044e6a69b19fe7".
Definition TEST_CA : string := "02fc929321aa94fea085b166994aa66590116252cf0235a03accaa2c8ab4595de5".

(** [hex::decode(s).unwrap().try_into().unwrap()] of [arr32] and [arr33] *)
Definition arr (n : nat) (s : string) : option (list byte) :=
  result_ok (hex_decode s) ≫= fun l => if (length l =? n)%nat then Some l else None.

(** [parse_attestation(&hex::decode(GOLDEN_TLV).unwrap()).unwrap()] *)
Definition golden_attestation : option Attestation :=
  result_ok (hex_decode GOLDEN_TLV) ≫= fun tlv => result_ok (parse_attestation tlv).


(** What a test makes of the vector: its attestation, the test CA and the
    challenge; nothing without them. *)
Definition on_golden (test : Attestation -> list byte -> list byte -> bool) : bool :=
  match golden_attestation, arr 33 TEST_CA, arr 32 GOLDEN_CHALLENGE with
  | Some att, Some ca, Some challenge => test att ca challenge
  | _, _, _ => false
  end.

Definition test_golden_vector_verifies_raw_challenge : bool :=
  on_golden (fun att ca challenge =>
    match verify_attestation att [ca] challenge with
    | Ok null => bool_decide (null = nullifier (ident_pub att))
    | Err _ => false
    end).

Definition test_untrusted_ca_rejected : bool :=
  on_golden (fun att ca challenge =>
    match verify_attestation att [replicate 33 x02] challenge with
    | Err (Backend _) => true
    | _ => false
    end).

(** [bad[0] ^= 0x01] *)
Definition flip_first (l : list byte) : list byte :=
  match l with b :: l => to_u8 (Z.lxor (u8 b) 1) :: l | [] => [] end.

Definition test_tampered_challenge_rejected : bool :=
  on_golden (fun att ca challenge =>
    match verify_attestation att [ca] (flip_first challenge) with
    | Err InvalidSignature => true
    | _ => false
    end
    && negb (is_ok (verify_attestation att [ca] (bound_challenge (replicate 32 x11))))).

Definition test_bound_challenge_is_deterministic_and_commitment_specific : bool :=
  let idc := replicate 32 xab in
  bool_decide (bound_challenge idc = bound_challenge idc)
  && negb (bool_decide (bound_challenge idc = bound_challenge (replicate 32 xac))).

(** ** The tests pass *)

(** The vector, the key that signed its certificate and the card's. *)
Definition golden_parts : option (list byte * list byte * (Z * Z)) :=
  (fun att => (ident_pub att, ca_sig att, challenge_sig att)) <$> golden_attestation.
Definition golden_values : list byte * list byte * (Z * Z) := Eval vm_compute in
  default ([], [], (0, 0)) golden_parts.
Definition golden_att : Attestation := {|
  ident_pub := golden_values.1.1; ca_sig := golden_values.1.2; challenge_sig := golden_values.2 |}.
Definition golden_ca : list byte := Eval vm_compute in default [] (arr 33 TEST_CA).
Definition golden_challenge : list byte := Eval vm_compute in default [] (arr 32 GOLDEN_CHALLENGE).
Definition ca_key : Z * Z := Eval vm_compute in
  default (0, 0) (recover (Sha256.sha256 (ident_pub golden_att))
    (from_bytes_big (slice 0 32 (ca_sig golden_att)), from_bytes_big (slice 32 64 (ca_sig golden_att))) 1).
Definition card_key : Z * Z := Eval vm_compute in
  default (0, 0) (result_ok (from_sec1_bytes (ident_pub golden_att))).
Definition card_sig : Z * Z := Eval vm_compute in
  default (challenge_sig golden_att) (normalize_s (challenge_sig golden_att)).

Lemma on_golden_eq test : on_golden test = test golden_att golden_ca golden_challenge.
Proof.
  assert (H1 : golden_attestation = Some golden_att).
  { assert (Hp : golden_parts = Some golden_values) by (vm_compute; reflexivity).
    unfold golden_parts in Hp. destruct golden_attestation as [[i c s]|]; [|done].
    cbn in Hp. injection Hp as -> -> ->. reflexivity. }
  assert (H2 : arr 33 TEST_CA = Some golden_ca) by (vm_compute; reflexivity).
  assert (H3 : arr 32 GOLDEN_CHALLENGE = Some golden_challenge) by (vm_compute; reflexivity).
  unfold on_golden. by rewrite H1, H2, H3.
Qed.

(** The certificate was signed by the test CA. *)
Lemma golden_recovers :
  recover (Sha256.sha256 (ident_pub golden_att))
    (from_bytes_big (slice 0 32 (ca_sig golden_att)), from_bytes_big (slice 32 64 (ca_sig golden_att))) 1
  = Some ca_key.
Proof. vm_compute. reflexivity. Qed.

(** The vector is accepted by its CA for the challenges its card signed. *)
Lemma golden_verdict ca challenge :
  verify_attestation golden_att [ca] challenge
  = if negb (bool_decide (ca = golden_ca)) then Err (Backend "attestation CA is not trusted")
    else if verifies card_key challenge card_sig then Ok (nullifier (ident_pub golden_att))
    else Err InvalidSignature.
Proof.
  assert (Hid : ca_sig golden_att !! 64%nat = Some x01) by (vm_compute; reflexivity).
  assert (Hsig : signature_from_slice (slice 0 64 (ca_sig golden_att))
    = Ok (from_bytes_big (slice 0 32 (ca_sig golden_att)), from_bytes_big (slice 32 64 (ca_sig golden_att))))
    by (vm_compute; reflexivity).
  assert (Hpt : to_encoded_point ca_key true = golden_ca) by (vm_compute; reflexivity).
  assert (Hkey : from_sec1_bytes (ident_pub golden_att) = Ok card_key) by (vm_compute; reflexivity).
  assert (Hlow : default (challenge_sig golden_att) (normalize_s (challenge_sig golden_att)) = card_sig)
    by (vm_compute; reflexivity).
  pose proof (f_equal (fun o => ok_or o "signature error") golden_recovers
    : recover_from_prehash (Attest.sha256 (ident_pub golden_att)) (from_bytes_big (slice 0 32 (ca_sig golden_att)),
        from_bytes_big (slice 32 64 (ca_sig golden_att))) 1 = Ok ca_key) as Hrec.
  unfold verify_attestation. rewrite Hid.
  change (ok_or (Some x01 ≫= recovery_id) _) with (@Ok RecoveryId Error 1). rewrite Hsig. cbn [map_err].
  rewrite Hrec. cbn [map_err existsb]. rewrite Hpt, orb_false_r.
  destruct (negb _); [done|]. rewrite Hkey. cbn [map_err]. rewrite Hlow. done.
Qed.

Lemma card_verdict challenge :
  verify_attestation golden_att [golden_ca] challenge
  = if verifies card_key challenge card_sig then Ok (nullifier (ident_pub golden_att))
    else Err InvalidSignature.
Proof. rewrite golden_verdict. by rewrite bool_decide_true by done. Qed.

Lemma golden_verifies : verifies card_key golden_challenge card_sig = true.
Proof. vm_compute. reflexivity. Qed.

Lemma tampered_fails : verifies card_key (flip_first golden_challenge) card_sig = false.
Proof. vm_compute. reflexivity. Qed.

Lemma other_fails : verifies card_key (bound_challenge (replicate 32 x11)) card_sig = false.
Proof. vm_compute. reflexivity. Qed.

Lemma golden_passes : test_golden_vector_verifies_raw_challenge = true.
Proof.
  unfold test_golden_vector_verifies_raw_challenge. rewrite on_golden_eq, card_verdict, golden_verifies. by apply bool_decide_true.
Qed.

Lemma untrusted_passes : test_untrusted_ca_rejected = true.
Proof.
  unfold test_untrusted_ca_rejected. rewrite on_golden_eq, golden_verdict.
  by rewrite bool_decide_false by (by vm_compute).
Qed.

Lemma tampered_passes : test_tampered_challenge_rejected = true.
Proof.
  unfold test_tampered_challenge_rejected. rewrite on_golden_eq.
  pose proof (card_verdict (flip_first golden_challenge)) as E1. rewrite tampered_fails in E1.
  pose proof (card_verdict (bound_challenge (replicate 32 x11))) as E2. rewrite other_fails in E2.
  revert E1 E2. generalize (verify_attestation golden_att [golden_ca] (flip_first golden_challenge)).
  intros r ->. by intros ->.
Qed.

Lemma commitment_passes : test_bound_challenge_is_deterministic_and_commitment_specific = true.
Proof. vm_compute. reflexivity. Qed.
