(* ===== verification/Scenario.v ===== *)
(** * A concrete deployment

    A gifter with one verifier on simulated modules, on which the witnesses of
    the node's properties run. *)
From S2P Require Import Prelude RustStd Wire Nullifiers Crash Json Crates JsonInstance AuthVector Lp.
From S2P Require Import Server GiftSpec GiftProps Timing Interleave Overlap Durable Worker NodeState Texts Client Exchange Gifter Modules.
Import HexInstance.
#[local] Existing Instance caseless_tables.

Definition text_reply (v : Value) : Callback := SimHost.at_once (to_string (VString (to_string v))).

(** The verifier module accepts with nullifier [AA11]; the registry accepts and
    confirms leaf 7 at once. *)
Definition modules (target method args : string) : option Callback :=
  if bool_decide (method = VERIFY_METHOD) then
    Some (text_reply (json_obj [("ok", VBool true); ("nullifier", VString "AA11")]))
  else if bool_decide (method = "register_member") then Some (text_reply (json_obj []))
  else if bool_decide (method = "get_membership") then
    Some (text_reply (json_obj [("registered", VBool true); ("leaf_index", num 7)]))
  else if bool_decide (method = "mountProtocol") then Some (SimHost.at_once "")
  else None.

Definition node_fs : Fs := {|
  fs_files := ∅; fs_readable _ := true; fs_appendable _ := true |}.

(** The node after [on_context_ready] on thread 0. *)
Definition node : World SimHost.t := {|
  lp := (init 0%nat [LIBP2P_MODULE; RLN_MODULE] (SimHost.boot modules)).2;
  fs := node_fs; SERVER := None; CONSUMED_NULLIFIERS := None; SERVING := false; workers := 0 |}.

Definition serve_args : string := to_string (json_obj
  [("config", VString "cfg"); ("wallet", VString "wal");
   ("authVerifiers", json_obj [("t", json_obj [("module", VString "verifier")])]);
   ("consumedNullifiersPath", VString "nul"); ("maxRateLimit", num 20)]).

Definition gift_request : RlnGifterRequest.t := {|
  RlnGifterRequest.request_id := "r1";
  RlnGifterRequest.authentication_type := str_bytes "t";
  RlnGifterRequest.authentication_payload := [x01];
  RlnGifterRequest.identity_commitment := replicate 32 x07;
  RlnGifterRequest.rate_limit := Some 50 |}.

Definition request_bytes : list byte := RlnGifterRequest.encode gift_request.

Definition serving : World SimHost.t := (serve 0%nat serve_args node).2.
Definition gift_answer : RlnGifterResponse.t := gift_response "r1" (Ok (gift
  {| config := "cfg"; wallet := "wal"; auth_verifiers := ∅; nullifiers_path := ""; max_rate_limit := 0 |}
  [] 7)).
Definition gifted_node : World SimHost.t :=
  (handle_request 1%nat CONFIRM_POLLS request_bytes serving).2.

(** The configuration [serve] installed. *)
Definition node_cfg : ServerCfg := {|
  config := "cfg"; wallet := "wal"; auth_verifiers := {["t" := ("verifier", None)]};
  nullifiers_path := "nul"; max_rate_limit := 20 |}.

Lemma pair_fst {A B} (p : A * B) a : p.1 = a -> p = (a, p.2).
Proof. destruct p. cbn. by intros ->. Qed.

(** The same with the second component named by a constant. *)
Lemma pair_eq {A B} (p : A * B) a b : p.2 = b -> p.1 = a -> p = (a, b).
Proof. destruct p. cbn. by intros -> ->. Qed.

Lemma gifted_eq :
  handle_request 1%nat CONFIRM_POLLS request_bytes serving = (Some gift_answer, gifted_node).
Proof.
  apply pair_eq; [unfold gifted_node; reflexivity|vm_compute; reflexivity].
Qed.

Lemma serving_eq : serve 0%nat serve_args node = (Ok (json_obj [("mounted", VBool true)]), serving).
Proof. apply pair_eq; [unfold serving; reflexivity|vm_compute; reflexivity]. Qed.

Lemma serving_cfg : SERVER serving = Some node_cfg.
Proof. vm_compute. reflexivity. Qed.

Lemma request_decodes : RlnGifterRequest.decode request_bytes = Ok gift_request.
Proof. vm_compute. reflexivity. Qed.

Lemma node_verifiers : auth_verifiers node_cfg <> ∅.
Proof. by vm_compute. Qed.

Lemma request_refines_spec_witness :
  exists resp w', handle_request 1%nat CONFIRM_POLLS request_bytes serving = (Some resp, w')
    /\ handled 1%nat request_bytes serving resp w'.
Proof. apply (request_refines_spec 1%nat CONFIRM_POLLS request_bytes serving). reflexivity. Defined.

Lemma registration_authorised_witness :
  exists asked bought polls,
    calls (lp gifted_node) = calls (lp serving) ++ asked ++ bought ++ polls /\ verify_calls asked.
Proof.
  destruct (registration_authorised 1%nat CONFIRM_POLLS request_bytes serving gift_answer gifted_node
    gifted_eq) as (asked & bought & polls & Hc & Hv & _).
  exact (ex_intro _ asked (ex_intro _ bought (ex_intro _ polls (conj Hc Hv)))).
Defined.

Lemma success_is_confirmed_witness :
  exists cfg l m, SERVER serving = Some cfg
    /\ call_get 1%nat cfg (replicate 32 x07) l = (Ok m, lp gifted_node)
    /\ get_u64 m "leaf_index" = Some 7.
Proof.
  destruct (success_is_confirmed 1%nat CONFIRM_POLLS request_bytes serving gift_answer gifted_node
    _ gifted_eq eq_refl) as (req & cfg & l & m & Hd & _ & _ & Hs & Hc & _ & Hl & _).
  rewrite request_decodes in Hd. injection Hd as <-.
  exact (ex_intro _ cfg (ex_intro _ l (ex_intro _ m (conj Hs (conj Hc Hl))))).
Defined.

Lemma response_shape_witness :
  RlnGifterResponse.request_id gift_answer
  = match RlnGifterRequest.decode request_bytes with
    | Ok req => RlnGifterRequest.request_id req | Err _ => "N/A" end.
Proof.
  exact (proj1 (response_shape 1%nat CONFIRM_POLLS request_bytes serving gift_answer gifted_node gifted_eq)).
Defined.

Lemma confirmation_terminates_witness :
  exists r l', register 1%nat 100 node_cfg (replicate 32 x07) 20 (lp serving) = (Some r, l').
Proof.
  destruct (confirmation_terminates 1%nat 100 node_cfg (replicate 32 x07) 20 (lp serving))
    as (r & l' & Hr & _); [by apply Nat.leb_le|].
  exact (ex_intro _ r (ex_intro _ l' Hr)).
Defined.

Lemma serve_rejects_malformed_witness :
  let a := json_obj [("config", VString "c"); ("wallet", VString "w"); ("authVerifiers", VString "oops")] in
  exists e l, serve 0%nat (to_string a) node = (Err e, set_lp l node) /\ lp_ext [] (lp node) l
    /\ match get_str a "config", get_str a "wallet", verifier_members a with
       | None, _, _ => l = lp node /\ e = "missing config"
       | Some _, None, _ => l = lp node /\ e = "missing wallet"
       | Some _, Some _, None => l = lp node /\ e = "authVerifiers must be an object of {type: {module, config?}}"
       | Some _, Some _, Some map => verifiers_rejected map (lp node) e l
       end.
Proof.
  intros a. apply (serve_rejects_malformed 0%nat (to_string a) a node).
  - vm_compute. reflexivity.
  - left. vm_compute. reflexivity.
Defined.

Lemma serve_installs_witness :
  exists cfg, SERVER serving = Some cfg /\ SERVING serving = true.
Proof.
  destruct (serve_installs 0%nat serve_args _ node serving serving_eq)
    as (a & map & cfg & _ & _ & _ & Hs & _ & _ & _ & Hv & _).
  exact (ex_intro _ cfg (conj Hs Hv)).
Defined.

Lemma worker_spawned_once_witness :
  workers (serves [(0%nat, serve_args); (0%nat, serve_args)] node)
  = (if SERVING (serves [(0%nat, serve_args); (0%nat, serve_args)] node) then 1 else 0)%nat.
Proof. apply (worker_spawned_once _ node); reflexivity. Defined.

(** The verdict of the verifier, as [judged] states it. *)
Definition node_verdict : Verdict.t := Verdict.accept (Some "AA11").

Definition node_verify_json : string :=
  value_text (json_obj (VerifyRequest.to_fields
    (verify_request None gift_request "t" (effective_rate node_cfg gift_request)))).

Definition node_asked := call_module_json 1%nat "verifier" VERIFY_METHOD
  (VArray [VString node_verify_json]) AUTH_VERIFY_TIMEOUT_MS.

Lemma node_judged (l : Lp SimHost.t) :
  (node_asked l).1 = Ok (json_obj [("ok", VBool true); ("nullifier", VString "AA11")]) ->
  judged 1%nat node_cfg gift_request l node_verdict (node_asked l).2.
Proof.
  intros Hr. apply pair_fst in Hr. exists "verifier", None, node_verify_json. eexists.
  split; [by vm_compute|]. split; [by vm_compute|]. split; [exact Hr|]. split; [by vm_compute|].
  pose proof (call_module_json_ext 1%nat "verifier" VERIFY_METHOD
    (VArray [VString node_verify_json]) AUTH_VERIFY_TIMEOUT_MS l) as He.
  fold (node_asked l) in He. rewrite Hr in He. destruct He as (cs & He & [[_ ?]| ->]); [done|exact He].
Qed.

Lemma aa11_normal : normal_nullifier (to_lowercase (trim "AA11")).
Proof. apply normalised. by vm_compute. Qed.

Lemma used_credential_refused_witness :
  exists w', handle_request 1%nat CONFIRM_POLLS request_bytes gifted_node
    = (Some (failure_response "r1" false ("credential already used: " +:+ "t:aa11")), w')
  /\ consumed w' = consumed gifted_node.
Proof.
  destruct (used_credential_refused 1%nat CONFIRM_POLLS request_bytes gifted_node gift_request node_cfg
    node_verdict "AA11" (node_asked (lp gifted_node)).2) as (w' & Hr & Hc & _).
  - exact request_decodes.
  - reflexivity.
  - vm_compute. reflexivity.
  - exact node_verifiers.
  - apply node_judged. vm_compute. reflexivity.
  - reflexivity.
  - reflexivity.
  - exact aa11_normal.
  - apply (bool_decide_unpack _). vm_compute. exact I.
  - exact (ex_intro _ w' (conj Hr Hc)).
Defined.

Definition node_authorized := authorize 1%nat node_cfg gift_request "t" 20 serving.
Definition node_registered :=
  register 1%nat CONFIRM_POLLS node_cfg (replicate 32 x07) 20 (lp node_authorized.2).

Lemma reservation_settled_witness :
  exists w', handle_request 1%nat CONFIRM_POLLS request_bytes serving
      = (Some (gift_response "r1" (Ok (gift node_cfg [] 7))), w')
    /\ consumed w' = {["t:aa11"]} ∪ consumed serving
    /\ fs w' = append_nullifier (fs serving) "nul" "t:aa11".
Proof.
  destruct (reservation_settled 1%nat CONFIRM_POLLS request_bytes serving gift_request node_cfg "t:aa11"
    node_authorized.2 (Ok (gift node_cfg [] 7)) node_registered.2) as (w' & Hr & _ & Hc & Hf).
  - exact request_decodes.
  - reflexivity.
  - exact serving_cfg.
  - apply pair_fst. vm_compute. reflexivity.
  - apply pair_fst. vm_compute. reflexivity.
  - exact (ex_intro _ w' (conj Hr (conj Hc Hf))).
Defined.

(** A whole life: serve, give a membership, restart, serve again, refuse the
    credential. *)
Definition node2 : World SimHost.t := restarted (lp node) gifted_node.
Definition serving2 : World SimHost.t := (serve 0%nat serve_args node2).2.
Definition gifted2 := handle_request 1%nat CONFIRM_POLLS request_bytes serving2.

Lemma storable_t : storable_type "t".
Proof.
  constructor; [by vm_compute|by repeat constructor| |].
  - vm_compute. intros H. apply elem_of_cons in H as [H|H]; [done|by apply not_elem_of_nil in H].
  - by intros c [= <-].
Qed.

Lemma node_cfg_ok : cfg_ok "nul" node_cfg.
Proof.
  split; [done|]. intros ty mc. cbn. destruct (decide (ty = "t")) as [->|Hne].
  - intros _. apply storable_t.
  - by rewrite lookup_singleton_ne by congruence.
Qed.

Lemma node_store : store_usable "nul" node_fs.
Proof. split; [done|]. split; [done|]. split; [done|]. by intros bs Hbs. Qed.

Lemma node_life : run 1%nat "nul" node ["t:aa11"] gifted2.2.
Proof.
  assert (H1 : run 1%nat "nul" node [] serving).
  { eapply run_serve; [apply run_nil|exact serving_eq|]. intros cfg. rewrite serving_cfg.
    intros [= <-]. apply node_cfg_ok. }
  assert (H2 : run 1%nat "nul" node ["t:aa11"] gifted_node).
  { replace ["t:aa11"] with ([] ++ option_list (spent_key 1%nat CONFIRM_POLLS request_bytes serving))
      by (vm_compute; reflexivity).
    eapply run_request; [exact H1|exact gifted_eq]. }
  assert (H3 : run 1%nat "nul" node ["t:aa11"] serving2).
  { eapply (run_serve _ _ _ _ node2 0%nat serve_args); [by apply run_restart|apply surjective_pairing|].
    intros cfg Hs. assert (Hc : SERVER serving2 = Some node_cfg) by (vm_compute; reflexivity).
    rewrite Hc in Hs. injection Hs as <-. apply node_cfg_ok. }
  replace ["t:aa11"] with
    (["t:aa11"] ++ option_list (spent_key 1%nat CONFIRM_POLLS request_bytes serving2))
    by (vm_compute; reflexivity).
  eapply run_request; [exact H3|]. apply (pair_fst gifted2 (Some _)). vm_compute. reflexivity.
Qed.

Lemma no_credential_spent_twice_witness :
  NoDup ["t:aa11"]
  /\ (forall k, k ∈ ["t:aa11"] -> k ∉ load_nullifiers node_fs "nul")
  /\ load_nullifiers (fs gifted2.2) "nul" = list_to_set ["t:aa11"] ∪ load_nullifiers node_fs "nul".
Proof.
  apply (no_credential_spent_twice 1%nat "nul" node ["t:aa11"] gifted2.2).
  - reflexivity.
  - exact node_store.
  - exact node_life.
Defined.

(** A request with a re-serve between its reservation and its registration. *)
Definition mid_judged := judge 1%nat node_cfg gift_request (lp serving).
Definition mid_claimed := claim gift_request (Some ("verifier", "AA11")) (set_lp mid_judged.2 serving).
Definition mid_served := serve 0%nat serve_args mid_claimed.2.
Definition mid_registered :=
  register 1%nat CONFIRM_POLLS node_cfg (replicate 32 x07) (effective_rate node_cfg gift_request)
    (lp mid_served.2).
Definition mid_settled :=
  settle node_cfg gift_request (Some "t:aa11") (Ok (gift node_cfg [] 7))
    (set_lp mid_registered.2 mid_served.2).

Lemma mid_served_ok cfg : SERVER mid_served.2 = Some cfg -> cfg_ok "nul" cfg.
Proof.
  assert (Hs : SERVER mid_served.2 = Some node_cfg) by (vm_compute; reflexivity).
  rewrite Hs. intros [= <-]. apply node_cfg_ok.
Qed.

Lemma mid_steps :
  steps 1%nat "nul" (node, Idle) ["t:aa11"] (mid_settled.2, Idle).
Proof.
  change ["t:aa11"] with
    ((((((([] ++ option_list None) ++ option_list None) ++ option_list None) ++ option_list None)
      ++ option_list None) ++ option_list None)
     ++ option_list (settled_key (Some "t:aa11") (Ok (gift node_cfg [] 7))))%list.
  eapply steps_cons; [|apply step_of_worker, (step_settle 1%nat (set_lp mid_registered.2 mid_served.2)
    node_cfg gift_request _ _ mid_settled.1 mid_settled.2), surjective_pairing].
  eapply steps_cons; [|apply step_of_worker, (step_register 1%nat CONFIRM_POLLS mid_served.2), pair_fst;
    vm_compute; reflexivity].
  eapply steps_cons; [|apply (step_serve 1%nat "nul" mid_claimed.2 _ 0%nat serve_args mid_served.1);
    [apply surjective_pairing|exact mid_served_ok]].
  eapply steps_cons; [|apply step_of_worker, (step_claim 1%nat (set_lp mid_judged.2 serving) node_cfg gift_request
    (Some ("verifier", "AA11")) (Some "t:aa11")), pair_fst; vm_compute; reflexivity].
  eapply steps_cons; [|apply step_of_worker, (step_judge 1%nat serving), pair_fst; vm_compute; reflexivity].
  eapply steps_cons; [|apply step_of_worker, (step_intake 1%nat request_bytes serving); vm_compute; reflexivity].
  eapply steps_cons; [apply steps_nil|]. eapply (step_serve _ _ _ _ 0%nat serve_args _ _ serving_eq).
  intros cfg. rewrite serving_cfg. intros [= <-]. apply node_cfg_ok.
Qed.

Lemma interleaved_no_double_spend_witness :
  NoDup ["t:aa11"]
  /\ (forall k, k ∈ ["t:aa11"] -> k ∉ load_nullifiers node_fs "nul")
  /\ load_nullifiers (fs mid_settled.2) "nul" = list_to_set ["t:aa11"] ∪ load_nullifiers node_fs "nul".
Proof.
  apply (interleaved_no_double_spend 1%nat "nul" node ["t:aa11"] mid_settled.2 Idle).
  - reflexivity.
  - exact node_store.
  - exact mid_steps.
Defined.

(** A request overlapped by two [serve] calls: one has merged the store when the
    worker reserves the credential, the other begins before the first ends. *)
Definition twice_read := set_lp (read_args 0%nat serve_args mid_judged.2).2 serving.
Definition twice_merged := merge_consumed "nul" twice_read.
Definition twice_claimed := (claim gift_request (Some ("verifier", "AA11")) twice_merged).2.
Definition twice_installed := set_server (Some node_cfg) twice_claimed.
Definition twice_again := set_lp (read_args 0%nat serve_args (lp twice_installed)).2 twice_installed.
Definition twice_registered :=
  register 1%nat CONFIRM_POLLS node_cfg (replicate 32 x07) (effective_rate node_cfg gift_request) (lp twice_again).
Definition twice_swapped := set_serving true (set_lp twice_registered.2 twice_again).
Definition twice_settled :=
  settle node_cfg gift_request (Some "t:aa11") (Ok (gift node_cfg [] 7)) twice_swapped.

Lemma twice_first_read :
  read_args 0%nat serve_args (lp (set_lp mid_judged.2 serving))
  = (Ok node_cfg, (read_args 0%nat serve_args mid_judged.2).2).
Proof. apply pair_fst. vm_compute. reflexivity. Qed.

Lemma twice_second_read :
  read_args 0%nat serve_args (lp twice_installed)
  = (Ok node_cfg, (read_args 0%nat serve_args (lp twice_installed)).2).
Proof. apply pair_fst. vm_compute. reflexivity. Qed.

Lemma twice_claim :
  claim gift_request (Some ("verifier", "AA11")) twice_merged = (Ok (Some "t:aa11"), twice_claimed).
Proof. apply pair_eq; [reflexivity|vm_compute; reflexivity]. Qed.

Lemma twice_register :
  register 1%nat CONFIRM_POLLS node_cfg (RlnGifterRequest.identity_commitment gift_request)
    (effective_rate node_cfg gift_request) (lp twice_again)
  = (Some (Ok (gift node_cfg [] 7)), twice_registered.2).
Proof. apply pair_fst. vm_compute. reflexivity. Qed.

Lemma twice_swap : swap_serving (set_lp twice_registered.2 twice_again) = (true, twice_swapped).
Proof. apply pair_eq; [reflexivity|vm_compute; reflexivity]. Qed.

Lemma twice_intake : intake request_bytes serving = Ok (node_cfg, gift_request).
Proof. vm_compute. reflexivity. Qed.

Lemma twice_judge :
  judge 1%nat node_cfg gift_request (lp serving) = (Ok (Some ("verifier", "AA11")), mid_judged.2).
Proof. apply pair_fst. vm_compute. reflexivity. Qed.

(** Up to the reservation: the first call has merged. *)
Lemma twice_reserved :
  node_steps 1%nat "nul" (node, Idle, []) []
    (twice_claimed, Reserved node_cfg gift_request (Some "t:aa11"), [Merged node_cfg]).
Proof.
  assert (H0 : node_steps 1%nat "nul" (node, Idle, []) [] (serving, Idle, [])).
  { apply interleaved_node_steps. change [] with (([] : list string) ++ option_list None)%list.
    eapply steps_cons; [apply steps_nil|]. eapply (step_serve _ _ _ _ 0%nat serve_args _ _ serving_eq).
    intros cfg. rewrite serving_cfg. intros [= <-]. apply node_cfg_ok. }
  pose proof (node_quiet _ _ _ _ _ _ H0 (node_worker _ _ _ _ _ _ _ _ (step_intake _ _ _ _ _ twice_intake))) as H1.
  pose proof (node_quiet _ _ _ _ _ _ H1 (node_worker _ _ _ _ _ _ _ _ (step_judge _ _ _ _ _ _ twice_judge))) as H2.
  pose proof (node_quiet _ _ _ _ _ _ H2
    (node_configured _ _ _ _ _ 0%nat serve_args _ _ twice_first_read node_cfg_ok)) as H3.
  pose proof (node_quiet _ _ _ _ _ _ H3 (node_merged _ _ _ _ node_cfg [] [])) as H4.
  exact (node_quiet _ _ _ _ _ _ H4 (node_worker _ _ _ _ _ _ _ _ (step_claim _ _ _ _ _ _ _ twice_claim))).
Qed.

Lemma twice_registering :
  node_steps 1%nat "nul" (node, Idle, []) []
    (twice_swapped, Registered node_cfg gift_request (Some "t:aa11") (Ok (gift node_cfg [] 7)), [Configured node_cfg]).
Proof.
  pose proof (node_quiet _ _ _ _ _ _ twice_reserved (node_installed _ _ _ _ node_cfg [] [])) as H1.
  pose proof (node_quiet _ _ _ _ _ _ H1
    (node_configured _ _ _ _ _ 0%nat serve_args _ _ twice_second_read node_cfg_ok)) as H2.
  pose proof (node_quiet _ _ _ _ _ _ H2
    (node_worker _ _ _ _ _ _ _ _ (step_register _ _ _ _ _ _ _ _ twice_register))) as H3.
  exact (node_quiet _ _ _ _ _ _ H3 (node_refreshed _ _ _ _ [Configured node_cfg] [] _ twice_swap)).
Qed.

Lemma twice_steps :
  node_steps 1%nat "nul" (node, Idle, []) ["t:aa11"] (twice_settled.2, Idle, [Configured node_cfg]).
Proof.
  exact (node_more _ _ _ _ _ _ _ twice_registering
    (node_worker _ _ _ _ _ _ _ _ (step_settle _ _ _ _ _ _ _ _ (surjective_pairing twice_settled)))).
Qed.

Lemma overlapping_no_double_spend_witness :
  NoDup ["t:aa11"]
  /\ (forall k, k ∈ ["t:aa11"] -> k ∉ load_nullifiers node_fs "nul")
  /\ load_nullifiers (fs twice_settled.2) "nul" = list_to_set ["t:aa11"] ∪ load_nullifiers node_fs "nul".
Proof.
  apply (overlapping_no_double_spend 1%nat "nul" node ["t:aa11"] twice_settled.2 Idle [Configured node_cfg]).
  - reflexivity.
  - exact node_store.
  - exact twice_steps.
Defined.

Lemma never_two_workers_witness :
  (workers twice_settled.2 + 0)%nat = (if SERVING twice_settled.2 then 1 else 0)%nat.
Proof.
  apply (never_two_workers 1%nat "nul" node ["t:aa11"] twice_settled.2 Idle [Configured node_cfg]).
  - reflexivity.
  - reflexivity.
  - exact twice_steps.
Defined.

(** The same request, when the process dies after three bytes of the line. *)
Definition dead_node : World SimHost.t :=
  restarted (lp node) (set_fs (torn_append (fs twice_swapped) "nul" "t:aa11" 3) twice_swapped).

Lemma dead_steps :
  fail_steps 1%nat "nul" (node, Idle, []) [(Torn, "t:aa11")] (dead_node, Idle, []).
Proof.
  pose proof (fail_quiet _ _ _ _ _ _ _ (fail_none _ _ _) twice_registering eq_refl) as H1.
  apply (fail_more _ _ _ [] _ (Some (Torn, "t:aa11")) _ H1).
  apply (fail_crash 1%nat "nul" twice_swapped node_cfg gift_request (Some "t:aa11") (Ok (gift node_cfg [] 7))
    [Configured node_cfg] "t:aa11" 3 (lp node)); [reflexivity|].
  split; [vm_compute; lia|reflexivity].
Qed.

Lemma kept_credentials_endure_witness :
  (forall k, k ∈ kept [(Torn, "t:aa11")] \/ k ∈ load_nullifiers node_fs "nul" ->
     k ∈ load_nullifiers (fs dead_node) "nul")
  /\ whole_lines (fs dead_node) "nul" = false.
Proof.
  destruct (kept_credentials_endure 1%nat "nul" node [(Torn, "t:aa11")] dead_node Idle []) as (_ & Hk & _).
  - reflexivity.
  - exact node_store.
  - exact dead_steps.
  - split; [exact Hk|vm_compute; reflexivity].
Defined.

Lemma consumed_only_grows_witness :
  consumed gifted_node ⊆ consumed (handle_request 1%nat CONFIRM_POLLS request_bytes gifted_node).2
  /\ consumed gifted_node ⊆ consumed (serve 0%nat serve_args gifted_node).2.
Proof. apply (consumed_only_grows 1%nat 0%nat CONFIRM_POLLS request_bytes serve_args gifted_node). Defined.

(** The reply of libp2p_module that carries the node's answer. *)
Definition protocol_reply : Value :=
  json_obj [("responseB64", VString (b64 (RlnGifterResponse.encode gift_answer)))].

Lemma gift_request_wf : request_wf gift_request.
Proof. split; [done|]. split; [by intros r [= <-]|]. vm_compute. reflexivity. Qed.

Lemma serving_texts : node_texts serving.
Proof. apply node_texts_serve; [by vm_compute|]. by apply node_texts_start. Qed.

Lemma gift_answer_fits : fits (RlnGifterResponse.encode gift_answer).
Proof. vm_compute. reflexivity. Qed.

Lemma responses_are_readable_witness :
  RlnGifterResponse.decode (RlnGifterResponse.encode gift_answer) = Ok gift_answer.
Proof.
  destruct (responses_are_readable (XL := hex_instance_laws) 0%nat 1%nat CONFIRM_POLLS serve_args request_bytes
    serving serving_texts) as [_ Hr].
  exact (proj2 (proj2 (Hr _ _ gifted_eq)) gift_answer_fits).
Defined.

Lemma exchange_end_to_end_witness :
  exists cfg l m leaf,
    SERVER serving = Some cfg
    /\ call_get 1%nat cfg (replicate 32 x07) l = (Ok m, lp gifted_node)
    /\ get_bool m "registered" = Some true /\ get_u64 m "leaf_index" = Some leaf
    /\ vget (report "0707" (gift node_cfg [] 7)) "leaf_index" = Some (num leaf).
Proof.
  exact (exchange_end_to_end (BL := base64_instance_laws) (XL := hex_instance_laws) 1%nat CONFIRM_POLLS gift_request "0707" serving
    gift_answer gifted_node protocol_reply gift_request_wf gifted_eq serving_texts gift_answer_fits eq_refl).
Defined.

Lemma module_serve_answers_witness :
  exists v, from_str (module_serve 0%nat serve_args node).1 = Ok v
    /\ ((vget v "mounted" = Some (VBool true) /\ vget v "error" = None
         /\ SERVING (module_serve 0%nat serve_args node).2 = true)
        \/ (exists e, vget v "error" = Some (VString e) /\ vget v "mounted" = None
            /\ (serve 0%nat serve_args node).1 = Err e)).
Proof.
  apply (module_serve_answers (L := json_instance_laws) 0%nat serve_args node).
  intros e He. rewrite serving_eq in He. discriminate He.
Defined.

(** ** What the model shows of the code's edges *)

(** Joining with a colon is not injective: two vectors can share a key when a
    vector name contains one. *)
Lemma keys_collide : key_of "a" "b:c" = key_of "a:b" "c".
Proof. reflexivity. Qed.

(** The registry takes the transaction but its answer never comes. *)
Definition silent_modules (target method args : string) : option Callback :=
  if bool_decide (method = "register_member") then None else modules target method args.

Definition silent_node : World SimHost.t := set_lp
  (init 0%nat [LIBP2P_MODULE; RLN_MODULE] (SimHost.boot silent_modules)).2 node.
Definition silent_serving : World SimHost.t := (serve 0%nat serve_args silent_node).2.
Definition silent_result := handle_request 1%nat CONFIRM_POLLS request_bytes silent_serving.

(** The call was handed over, so the transaction may be on its way; the
    credential is given back all the same, and the store does not know it. *)
Lemma timeout_gives_credential_back :
  existsb (fun c => bool_decide (method c = "register_member")) (calls (lp silent_result.2)) = true
  /\ bool_decide (consumed silent_result.2 = ∅) = true
  /\ bool_decide (fs_files (fs silent_result.2) = ∅) = true.
Proof. vm_compute. done. Qed.

(** A node whose store was left with a torn line: the append of ["t:bb22"]
    stopped before its newline. *)
Definition torn_node : World SimHost.t := set_fs (torn_append node_fs "nul" "t:bb22" 6) node.
Definition torn_serving : World SimHost.t := (serve 0%nat serve_args torn_node).2.
Definition torn_gifted := handle_request 1%nat CONFIRM_POLLS request_bytes torn_serving.
Definition torn_serving2 : World SimHost.t :=
  (serve 0%nat serve_args (restarted (lp torn_node) torn_gifted.2)).2.
Definition torn_gifted2 := handle_request 1%nat CONFIRM_POLLS request_bytes torn_serving2.

(** The credential of the request is spent, and after a restart spent again:
    the line that was to remember it was read as ["t:bb22t:aa11"]. *)
Lemma torn_store_regrants :
  spent_key 1%nat CONFIRM_POLLS request_bytes torn_serving = Some "t:aa11"
  /\ torn_gifted.1 = Some (gift_response "r1" (Ok (gift node_cfg [] 7)))
  /\ bool_decide (consumed torn_serving2 = {["t:bb22t:aa11"]}) = true
  /\ spent_key 1%nat CONFIRM_POLLS request_bytes torn_serving2 = Some "t:aa11"
  /\ torn_gifted2.1 = Some (gift_response "r1" (Ok (gift node_cfg [] 7))).
Proof. vm_compute. done. Qed.

(** A host that adds nothing to its waits. *)
#[export] Instance sim_prompt : PromptHost SimHost.t SimHost.sim_host 0.
Proof.
  constructor; cbn; try lia. intros c m a _ e rc cb e' Hi.
  exact (delay_nonneg (H := SimHost.sim_host) c m a 0 e rc cb e' Hi).
Qed.

(** The module under its host: ready, a request, a serve, two turns of the
    worker's environment. *)
Definition no_proxy (method : string) (args : Value) : M SimHost.t (result Value string) := ret (Err "no proxy").
Definition gifter : RlnGifterModule (World SimHost.t) := RlnGifter 0%nat no_proxy.
Definition asked : World SimHost.t := (gm_request gifter "{" (gm_on_context_ready gifter node).2).2.
Definition module_served : World SimHost.t := (gm_serve gifter serve_args asked).2.

Lemma module_state_kept_witness :
  node_ok module_served /\ forall args, exists text, (gm_request gifter args module_served).1 = Some text.
Proof.
  apply (module_state_kept 0%nat no_proxy (XL := hex_instance_laws) 1%nat CONFIRM_POLLS node module_served).
  - reflexivity.
  - reflexivity.
  - reflexivity.
  - exact (mr_serve _ _ _ _ _ serve_args (mr_request _ _ _ _ _ "{" (mr_ready _ _ _ _ _ (mr_start _ _ _ node)))).
Defined.

(** The node before it served is well formed, and so it stays. *)
Lemma node_state_kept_witness : node_ok serving.
Proof.
  exact (proj1 (node_state_kept 0%nat 1%nat CONFIRM_POLLS serve_args request_bytes 3 gift_answer node
    (node_ok_start node eq_refl eq_refl eq_refl))).
Defined.

Lemma worker_off_owner : on_owner_thread 1%nat (lp serving) = false.
Proof. vm_compute. reflexivity. Qed.

Lemma request_time_bounded_witness :
  exists resp w', handle_request 1%nat CONFIRM_POLLS request_bytes serving = (Some resp, w')
    /\ clock_of (lp w') <= clock_of (lp serving) + (432 * SECOND + 7 * 0).
Proof.
  exact (request_time_bounded (PH := sim_prompt) 1%nat CONFIRM_POLLS request_bytes serving worker_off_owner
    (le_n _)).
Defined.

Lemma worker_time_bounded_witness :
  exists w', worker_iteration 1%nat CONFIRM_POLLS serving = (Some tt, w')
    /\ clock_of (lp w') <= clock_of (lp serving) + (4192 * SECOND + 15 * 0).
Proof.
  exact (proj2 (proj2 (worker_time_bounded (PH := sim_prompt) 1%nat CONFIRM_POLLS request_bytes 1 serving
    worker_off_owner (le_n _)))).
Defined.

(** A slow registry: the submission is answered after 185 s, a poll after 10. *)
Definition slow_modules (target method args : string) : option Callback :=
  let delay := if bool_decide (method = "register_member") then 185
               else if bool_decide (method = "get_membership") then 10 else 0 in
  (fun cb => {| cb_delay := delay * SECOND; cb_ok := cb_ok cb; cb_json := cb_json cb |})
    <$> modules target method args.

Definition slow_node : World SimHost.t := set_lp
  (init 0%nat [LIBP2P_MODULE; RLN_MODULE] (SimHost.boot slow_modules)).2 node.
Definition slow_serving : World SimHost.t := (serve 0%nat serve_args slow_node).2.
Definition slow_result := handle_request 1%nat CONFIRM_POLLS request_bytes slow_serving.

(** The gift succeeds and spends the credential when the client's request has
    timed out: the node's own timeouts add up to more than the client's. *)
Lemma answer_after_client_left :
  slow_result.1 = Some gift_answer
  /\ clock_of (lp slow_serving) + REQUEST_TIMEOUT_MS * 1000000 < clock_of (lp slow_result.2)
  /\ bool_decide (consumed slow_result.2 = ∅) = false.
Proof. vm_compute. done. Qed.

(** ** The worker *)

(** libp2p_module accepts stream 3, on which the request waits. *)
Definition stream_modules (target method args : string) : option Callback :=
  if bool_decide (method = "protocolAcceptStream") then
    Some (SimHost.at_once (to_string (json_obj [("streamId", num 3)])))
  else if bool_decide (method = "streamReadLpJson") then
    Some (SimHost.at_once (to_string (json_obj [("dataB64", VString (b64 request_bytes))])))
  else modules target method args.

Definition stream_node : World SimHost.t := set_lp
  (init 0%nat [LIBP2P_MODULE; RLN_MODULE] (SimHost.boot stream_modules)).2 node.
Definition stream_serving : World SimHost.t := (serve 0%nat serve_args stream_node).2.
Definition stream_handled := handle_stream 1%nat CONFIRM_POLLS 3 stream_serving.

Lemma stream_handled_eq : stream_handled = (Some (Ok tt), stream_handled.2).
Proof. apply pair_fst. vm_compute. reflexivity. Qed.

Lemma stream_served_witness :
  exists read l bytes resp w1,
    lp_ext [read_call 3] (lp stream_serving) l /\ stream_bytes read = Ok bytes
    /\ handle_request 1%nat CONFIRM_POLLS bytes (set_lp l stream_serving) = (Some resp, w1)
    /\ lp_ext [write_call 3 resp; release_call 3] (lp w1) (lp stream_handled.2).
Proof.
  destruct (stream_served (BL := base64_instance_laws) (L := json_instance_laws) 1%nat CONFIRM_POLLS 3 1
    stream_serving (Ok tt) stream_handled.2) as (read & l & Hcall & He & Hm).
  - vm_compute. reflexivity.
  - vm_compute. done.
  - exact stream_handled_eq.
  - destruct (stream_bytes read) as [bytes|e] eqn:Hb.
    + destruct Hm as (resp & w1 & Hr & _ & _ & Ha).
      exact (ex_intro _ read (ex_intro _ l (ex_intro _ bytes (ex_intro _ resp (ex_intro _ w1
        (conj He (conj Hb (conj Hr Ha)))))))).
    + destruct Hm as [Hm _]. discriminate Hm.
Defined.

Definition stream_looped := worker_loop 1%nat CONFIRM_POLLS 2 stream_serving.

Lemma stream_serving_ok cfg : SERVER stream_serving = Some cfg -> cfg_ok "nul" cfg.
Proof.
  assert (Hc : SERVER stream_serving = Some node_cfg) by (vm_compute; reflexivity).
  rewrite Hc. intros [= <-]. exact node_cfg_ok.
Qed.

Lemma worker_loop_steps_witness :
  exists ks, steps 1%nat "nul" (stream_node, Idle) ([] ++ ks) (stream_looped.2, Idle).
Proof.
  apply (worker_loop_steps 1%nat "nul" (stream_node, Idle) [] CONFIRM_POLLS 2 stream_serving stream_looped.2).
  - eapply (steps_cons 1%nat "nul" _ [] _ None); [apply steps_nil|].
    apply (step_serve 1%nat "nul" stream_node Idle 0%nat serve_args (serve 0%nat serve_args stream_node).1);
      [apply surjective_pairing|].
    exact stream_serving_ok.
  - apply pair_fst. vm_compute. reflexivity.
Defined.
